(** * resin-js: the reactive engine of [src/resin.ts], embedded in Rocq

    The engine keeps three process-wide variables ([effectStack],
    [batchDepth], [pendingEffects]) and one closure record per signal.
    Here they are the fields of a [world] that every operation threads
    explicitly.  JavaScript functions handed to the engine (effects, event
    handlers, the argument of [batch], of [computed], ...) are programs of
    type [prog]: trees whose nodes are the engine calls such a function can
    make, with Rocq functions as continuations.  An engine call that runs a
    callback can re-enter the engine without bound, so the interpreter takes
    fuel.

    Left out: the [DEBUG] switch and everything written to the console
    (they change no state); the reactive views [rFind], [rFilter], ... and
    the traps of the [Proxy] of [enhanceMap] (each view is [computed] over a
    read of the base instance); the DOM bindings of [bind.ts].  The [validate],
    [transform], [serialize] and [deserialize] hooks are functions that
    return or throw and do not call the engine. *)

From Stdlib Require Import ZArith Lia Ascii String.
From stdpp Require Import base list strings.

Open Scope string_scope.
Open Scope Z_scope.
Open Scope list_scope.

(** ** Values *)

Abbreviation SigId := nat (only parsing).      (* identity of a resin instance *)
Abbreviation EffId := nat (only parsing).      (* identity of an effect function *)
Abbreviation HandlerId := nat (only parsing).  (* identity of an event handler function *)
Abbreviation SetId := nat (only parsing).      (* identity of a [Set] of handlers *)
Abbreviation Loc := nat (only parsing).        (* identity of an array, object or Map *)

(** Numbers are integers here: NaN, infinities and fractions are not
    modelled. *)
Inductive jsval : Type :=
| VUndefined
| VNull
| VBool (b : bool)
| VNum (n : Z)
| VStr (s : string)
| VRef (l : Loc).

Inductive hobj : Type :=
| HArray (elems : list jsval)
| HObject (fields : list (string * jsval))
| HMap (entries : list (jsval * jsval)).

(** [a === b].  On these values it is reflexive: the one JavaScript value
    that is not [===] to itself, NaN, is not among them. *)
Definition strict_eq (a b : jsval) : bool :=
  match a, b with
  | VUndefined, VUndefined => true
  | VNull, VNull => true
  | VBool x, VBool y => Bool.eqb x y
  | VNum x, VNum y => Z.eqb x y
  | VStr x, VStr y => String.eqb x y
  | VRef x, VRef y => Nat.eqb x y
  | _, _ => false
  end.

Definition truthy (a : jsval) : bool :=
  match a with
  | VUndefined | VNull => false
  | VBool b => b
  | VNum n => negb (Z.eqb n 0)
  | VStr s => negb (String.eqb s EmptyString)
  | VRef _ => true
  end.

(** Thrown values.  [ResinError] is what [createResinError] builds. *)
Inductive exn : Type :=
| Error (message : string)
| TypeError (message : string)
| RangeError (message : string)
| ResinError (message : string) (resinName : option string) (value : exn).

(** ** [Set]: insertion order, deletion leaves a hole

    ECMAScript keeps the entries of a [Set] in a list in which [delete] and
    [clear] overwrite entries with an empty marker; [forEach] walks that
    list by index and re-reads its length at every step, so entries added
    during the walk are visited and entries deleted before their turn are
    not. *)
Definition jsset := list (option nat).

Definition jsset_has (x : nat) (s : jsset) : bool :=
  existsb (fun o => match o with Some y => Nat.eqb x y | None => false end) s.

Definition jsset_add (x : nat) (s : jsset) : jsset :=
  if jsset_has x s then s else s ++ [Some x].

Definition jsset_delete (x : nat) (s : jsset) : jsset :=
  map (fun o => match o with
                | Some y => if Nat.eqb x y then None else Some y
                | None => None
                end) s.

Definition jsset_clear (s : jsset) : jsset := map (fun _ => None) s.

Fixpoint jsset_elements (s : jsset) : list nat :=
  match s with
  | [] => []
  | Some x :: s' => x :: jsset_elements s'
  | None :: s' => jsset_elements s'
  end.

(** ** Events and options *)

Inductive EventType : Type := EInit | EChange | EDispose | EError.

Definition EventType_eqb (a b : EventType) : bool :=
  match a, b with
  | EInit, EInit | EChange, EChange | EDispose, EDispose | EError, EError => true
  | _, _ => false
  end.

(** [ResinEvent<T>[E]], the payload together with its kind *)
Inductive event : Type :=
| EvInit (value : jsval)
| EvChange (value oldValue : jsval)
| EvDispose (value : jsval)
| EvError (error : exn).

Definition event_type (ev : event) : EventType :=
  match ev with
  | EvInit _ => EInit
  | EvChange _ _ => EChange
  | EvDispose _ => EDispose
  | EvError _ => EError
  end.

Record validation := { valid : bool; verror : option string }.

Record PersistOptions := {
  key : string;
  serialize : option (jsval -> exn + string);
  deserialize : option (string -> exn + jsval) }.

(** [validate] returns [boolean | {valid, error?}]; the hooks are pure
    functions that may throw. *)
Record ResinOptions := {
  debugName : option string;
  persist : option PersistOptions;
  validate : option (jsval -> exn + (bool + validation));
  transform : option (list (jsval -> exn + jsval)) }.

(** The object [derive] returns: the spread [{...derivedResin, dispose}]
    reads the getters [value], [loading] and [error] once and stores what
    they returned as plain data properties; [on] and [_subscribers] are the
    inner instance's. *)
Record DerivedResin := {
  d_value : jsval;
  d_loading : bool;
  d_error : option exn;
  d_inner : SigId;
  d_from : list SigId;
  d_effect : EffId }.

(** ** Callbacks *)

Inductive prog : Type :=
| Return (v : jsval)
| Throw (x : exn)
| Log (v : jsval) (k : prog)                              (* console.log(v) *)
| GetValue (s : SigId) (k : jsval -> prog)                (* s.value *)
| SetValue (s : SigId) (v : jsval) (k : prog)             (* s.value = v *)
| GetError (s : SigId) (k : option exn -> prog)           (* s.error *)
| On (s : SigId) (ty : EventType) (h : HandlerId) (k : prog)
| Unsubscribe (s : SigId) (ty : EventType) (h : HandlerId) (k : prog)
                                    (* calling the function [on] returned *)
| Dispose (s : SigId) (k : prog)
| Batch (fn : prog) (k : prog)
| WatchEffect (e : EffId) (k : prog)
| TryCatch (body : prog) (handler : exn -> prog) (k : jsval -> prog)
| NewResin (initialValue : jsval) (opts : option ResinOptions) (k : SigId -> prog)
| Computed (fn : prog) (k : SigId -> prog)
| Derive (from : list SigId) (compute : list jsval -> prog) (k : DerivedResin -> prog)
| DisposeDerived (d : DerivedResin) (k : prog)
| Select (state : SigId) (path : string) (k : SigId -> prog)
| ReadHeap (k : list hobj -> prog)
| Alloc (o : hobj) (k : Loc -> prog)
| Store (l : Loc) (o : hobj) (k : prog).

(** [p] then [f] applied to what [p] returns *)
Fixpoint bind_prog (p : prog) (f : jsval -> prog) : prog :=
  match p with
  | Return v => f v
  | Throw x => Throw x
  | Log v k => Log v (bind_prog k f)
  | GetValue s k => GetValue s (fun v => bind_prog (k v) f)
  | SetValue s v k => SetValue s v (bind_prog k f)
  | GetError s k => GetError s (fun e => bind_prog (k e) f)
  | On s ty h k => On s ty h (bind_prog k f)
  | Unsubscribe s ty h k => Unsubscribe s ty h (bind_prog k f)
  | Dispose s k => Dispose s (bind_prog k f)
  | Batch fn k => Batch fn (bind_prog k f)
  | WatchEffect e k => WatchEffect e (bind_prog k f)
  | TryCatch b h k => TryCatch b h (fun v => bind_prog (k v) f)
  | NewResin i o k => NewResin i o (fun s => bind_prog (k s) f)
  | Computed fn k => Computed fn (fun s => bind_prog (k s) f)
  | Derive fr c k => Derive fr c (fun d => bind_prog (k d) f)
  | DisposeDerived d k => DisposeDerived d (bind_prog k f)
  | Select s p k => Select s p (fun c => bind_prog (k c) f)
  | ReadHeap k => ReadHeap (fun h => bind_prog (k h) f)
  | Alloc o k => Alloc o (fun l => bind_prog (k l) f)
  | Store l o k => Store l o (bind_prog k f)
  end.

(** [from.map(dep => dep.value)] followed by [k] *)
Fixpoint read_all (from : list SigId) (k : list jsval -> prog) : prog :=
  match from with
  | [] => k []
  | dep :: rest => GetValue dep (fun v => read_all rest (fun vs => k (v :: vs)))
  end.

(** ** The state *)

Record signal := {
  value : jsval;
  loading : bool;
  error : option exn;
  disposed : bool;
  subscribers : jsset;                          (* Set<() => void> *)
  eventHandlers : list (EventType * SetId);     (* Map<EventType, Set<handler>> *)
  options : option ResinOptions }.

(** What an outside observer can see happen, in order.  No engine decision
    reads this log. *)
Inductive obs : Type :=
| ObsRun (e : EffId)                      (* an effect function is called *)
| ObsEmit (s : SigId) (ev : event)        (* emitEvent is entered *)
| ObsHandle (h : HandlerId) (ev : event)  (* a handler is called *)
| ObsLog (v : jsval).                     (* a callback logs *)

Record world := {
  effectStack : list EffId;
  batchDepth : Z;
  pendingEffects : jsset;
  signals : list signal;
  handlerSets : list jsset;
  effects : list prog;
  handlers : list (event -> prog);
  heap : list hobj;
  localStorage : list (string * string);
  microtasks : list SigId;       (* queued [emitEvent('init', {value})] *)
  trace : list obs }.

Definition with_effectStack (x : list EffId) (w : world) : world :=
  {| effectStack := x; batchDepth := batchDepth w;
     pendingEffects := pendingEffects w; signals := signals w;
     handlerSets := handlerSets w; effects := effects w;
     handlers := handlers w; heap := heap w;
     localStorage := localStorage w; microtasks := microtasks w;
     trace := trace w |}.

Definition with_batchDepth (x : Z) (w : world) : world :=
  {| effectStack := effectStack w; batchDepth := x;
     pendingEffects := pendingEffects w; signals := signals w;
     handlerSets := handlerSets w; effects := effects w;
     handlers := handlers w; heap := heap w;
     localStorage := localStorage w; microtasks := microtasks w;
     trace := trace w |}.

Definition with_pendingEffects (x : jsset) (w : world) : world :=
  {| effectStack := effectStack w; batchDepth := batchDepth w;
     pendingEffects := x; signals := signals w;
     handlerSets := handlerSets w; effects := effects w;
     handlers := handlers w; heap := heap w;
     localStorage := localStorage w; microtasks := microtasks w;
     trace := trace w |}.

Definition with_signals (x : list signal) (w : world) : world :=
  {| effectStack := effectStack w; batchDepth := batchDepth w;
     pendingEffects := pendingEffects w; signals := x;
     handlerSets := handlerSets w; effects := effects w;
     handlers := handlers w; heap := heap w;
     localStorage := localStorage w; microtasks := microtasks w;
     trace := trace w |}.

Definition with_handlerSets (x : list jsset) (w : world) : world :=
  {| effectStack := effectStack w; batchDepth := batchDepth w;
     pendingEffects := pendingEffects w; signals := signals w;
     handlerSets := x; effects := effects w;
     handlers := handlers w; heap := heap w;
     localStorage := localStorage w; microtasks := microtasks w;
     trace := trace w |}.

Definition with_effects (x : list prog) (w : world) : world :=
  {| effectStack := effectStack w; batchDepth := batchDepth w;
     pendingEffects := pendingEffects w; signals := signals w;
     handlerSets := handlerSets w; effects := x;
     handlers := handlers w; heap := heap w;
     localStorage := localStorage w; microtasks := microtasks w;
     trace := trace w |}.

Definition with_heap (x : list hobj) (w : world) : world :=
  {| effectStack := effectStack w; batchDepth := batchDepth w;
     pendingEffects := pendingEffects w; signals := signals w;
     handlerSets := handlerSets w; effects := effects w;
     handlers := handlers w; heap := x;
     localStorage := localStorage w; microtasks := microtasks w;
     trace := trace w |}.

Definition with_localStorage (x : list (string * string)) (w : world) : world :=
  {| effectStack := effectStack w; batchDepth := batchDepth w;
     pendingEffects := pendingEffects w; signals := signals w;
     handlerSets := handlerSets w; effects := effects w;
     handlers := handlers w; heap := heap w;
     localStorage := x; microtasks := microtasks w;
     trace := trace w |}.

Definition with_microtasks (x : list SigId) (w : world) : world :=
  {| effectStack := effectStack w; batchDepth := batchDepth w;
     pendingEffects := pendingEffects w; signals := signals w;
     handlerSets := handlerSets w; effects := effects w;
     handlers := handlers w; heap := heap w;
     localStorage := localStorage w; microtasks := x;
     trace := trace w |}.

Definition with_trace (x : list obs) (w : world) : world :=
  {| effectStack := effectStack w; batchDepth := batchDepth w;
     pendingEffects := pendingEffects w; signals := signals w;
     handlerSets := handlerSets w; effects := effects w;
     handlers := handlers w; heap := heap w;
     localStorage := localStorage w; microtasks := microtasks w;
     trace := x |}.

Definition with_value (x : jsval) (sg : signal) : signal :=
  {| value := x; loading := loading sg; error := error sg;
     disposed := disposed sg; subscribers := subscribers sg;
     eventHandlers := eventHandlers sg; options := options sg |}.

Definition with_error (x : option exn) (sg : signal) : signal :=
  {| value := value sg; loading := loading sg; error := x;
     disposed := disposed sg; subscribers := subscribers sg;
     eventHandlers := eventHandlers sg; options := options sg |}.

Definition with_disposed (x : bool) (sg : signal) : signal :=
  {| value := value sg; loading := loading sg; error := error sg;
     disposed := x; subscribers := subscribers sg;
     eventHandlers := eventHandlers sg; options := options sg |}.

Definition with_subscribers (x : jsset) (sg : signal) : signal :=
  {| value := value sg; loading := loading sg; error := error sg;
     disposed := disposed sg; subscribers := x;
     eventHandlers := eventHandlers sg; options := options sg |}.

Definition with_eventHandlers (x : list (EventType * SetId)) (sg : signal) : signal :=
  {| value := value sg; loading := loading sg; error := error sg;
     disposed := disposed sg; subscribers := subscribers sg;
     eventHandlers := x; options := options sg |}.

(** ** Computations over the state: return, throw, or run out of fuel *)

Inductive result (A : Type) : Type :=
| Ok (a : A) (w : world)
| Thrown (x : exn) (w : world)
| OutOfFuel.
Arguments Ok {A} a w.
Arguments Thrown {A} x w.
Arguments OutOfFuel {A}.

Definition M (A : Type) : Type := world -> result A.

Definition ret {A} (a : A) : M A := fun w => Ok a w.
Definition throw {A} (x : exn) : M A := fun w => Thrown x w.

Definition bindM {A B} (m : M A) (f : A -> M B) : M B :=
  fun w => match m w with
           | Ok a w' => f a w'
           | Thrown x w' => Thrown x w'
           | OutOfFuel => OutOfFuel
           end.

Declare Scope eng_scope.
Delimit Scope eng_scope with eng.
Notation "x <- m ;; k" := (bindM m (fun x => k))
  (at level 100, m at next level, k at level 200, right associativity) : eng_scope.
Notation "m ;; k" := (bindM m (fun _ => k))
  (at level 100, k at level 200, right associativity) : eng_scope.
Open Scope eng_scope.

Definition gets {A} (f : world -> A) : M A := fun w => Ok (f w) w.
Definition modify (f : world -> world) : M unit := fun w => Ok tt (f w).

(** [try { m } catch (err) { h err }] *)
Definition try_catch {A} (m : M A) (h : exn -> M A) : M A :=
  fun w => match m w with
           | Thrown x w' => h x w'
           | r => r
           end.

(** [try { m } finally { f }]: [f] runs either way; what [m] returned or
    threw is kept unless [f] itself throws. *)
Definition try_finally {A} (m : M A) (f : M unit) : M A :=
  fun w => match m w with
           | Ok a w' => (f ;; ret a) w'
           | Thrown x w' => (f ;; throw x) w'
           | OutOfFuel => OutOfFuel
           end.

(** A hook that returns or throws *)
Definition lift {A} (r : exn + A) : M A :=
  match r with
  | inl x => throw x
  | inr a => ret a
  end.

Definition observe (o : obs) : M unit :=
  modify (fun w => with_trace (trace w ++ [o]) w).

(** A reference that names no signal (no function, no set) cannot occur in
    the program; the model makes the access a [TypeError]. *)
Definition get_signal (s : SigId) : M signal :=
  fun w => match signals w !! s with
           | Some sg => Ok sg w
           | None => Thrown (TypeError "not a resin") w
           end.

Definition modify_signal (s : SigId) (f : signal -> signal) : M unit :=
  modify (fun w => with_signals (alter f s (signals w)) w).

Definition modify_handlerSet (id : SetId) (f : jsset -> jsset) : M unit :=
  modify (fun w => with_handlerSets (alter f id (handlerSets w)) w).

Fixpoint assoc {A B} (eqb : A -> A -> bool) (k : A) (l : list (A * B)) : option B :=
  match l with
  | [] => None
  | (k', v) :: l' => if eqb k k' then Some v else assoc eqb k l'
  end.

(** The sets [forEach] walks *)
Inductive setref : Type :=
| PendingEffects
| Subscribers (s : SigId)
| Handlers (id : SetId).

Definition read_set (r : setref) (w : world) : jsset :=
  match r with
  | PendingEffects => pendingEffects w
  | Subscribers s => match signals w !! s with
                     | Some sg => subscribers sg
                     | None => []
                     end
  | Handlers id => match handlerSets w !! id with
                   | Some hs => hs
                   | None => []
                   end
  end.

(** The functions given to [forEach] *)
Inductive callback : Type :=
| RunEffect                               (* effect => effect() *)
| HandleEvent (s : SigId) (ev : event).   (* handler => { try { handler(event) } catch ... } *)

(** Entry points that run with one unit of fuel less *)
Inductive call : Type :=
| Invoke (p : prog)                                 (* the body of a callback *)
| Each (r : setref) (i : nat) (cb : callback)       (* forEach, from index i on *)
| Emit (s : SigId) (ev : event).                    (* emitEvent(type, event) *)

(** ** Strings and property access for [getValueByPath] *)

Definition is_digit (c : ascii) : bool :=
  let n := nat_of_ascii c in (48 <=? n)%nat && (n <=? 57)%nat.

Fixpoint all_digits (s : string) : bool :=
  match s with
  | EmptyString => true
  | String c s' => is_digit c && all_digits s'
  end.

(** [/^\d+$/.test(key)] *)
Definition digits_only (key : string) : bool :=
  negb (String.eqb key EmptyString) && all_digits key.

Fixpoint parse_digits (acc : nat) (s : string) : nat :=
  match s with
  | EmptyString => acc
  | String c s' => parse_digits (10 * acc + (nat_of_ascii c - 48))%nat s'
  end.

(** [parseInt(key, 10)] on a string of digits *)
Definition parseInt (key : string) : nat := parse_digits 0 key.

(** [path.split('.')] *)
Fixpoint split_dots (cur : string) (s : string) : list string :=
  match s with
  | EmptyString => [cur]
  | String c s' =>
      if Ascii.eqb c "."%char then cur :: split_dots EmptyString s'
      else split_dots (cur ++ String c EmptyString)%string s'
  end.

Definition array_index (h : list hobj) (current : jsval) (index : nat) : jsval :=
  match current with
  | VRef l => match h !! l with
              | Some (HArray elems) => default VUndefined (elems !! index)
              | _ => VUndefined
              end
  | _ => VUndefined
  end.

(** [current[key]] for own properties; members inherited from the built-in
    prototypes ([toString], array methods, ...) are not modelled and read as
    [undefined]. *)
Definition member (h : list hobj) (current : jsval) (key : string) : jsval :=
  match current with
  | VRef l =>
      match h !! l with
      | Some (HObject fields) => default VUndefined (assoc String.eqb key fields)
      | Some (HArray elems) =>
          if String.eqb key "length" then VNum (Z.of_nat (length elems))
          else VUndefined
      | Some (HMap entries) =>
          if String.eqb key "size" then VNum (Z.of_nat (length entries))
          else VUndefined
      | None => VUndefined
      end
  | VStr s => if String.eqb key "length" then VNum (Z.of_nat (String.length s))
              else VUndefined
  | _ => VUndefined
  end.

Definition isArray (h : list hobj) (v : jsval) : bool :=
  match v with
  | VRef l => match h !! l with Some (HArray _) => true | _ => false end
  | _ => false
  end.

Definition isMap (h : list hobj) (v : jsval) : bool :=
  match v with
  | VRef l => match h !! l with Some (HMap _) => true | _ => false end
  | _ => false
  end.

Fixpoint walk_path (h : list hobj) (current : jsval) (segments : list string) : jsval :=
  match segments with
  | [] => current
  | key :: rest =>
      let current :=
        if isArray h current && digits_only key
        then array_index h current (parseInt key)
        else member h current key in
      match current with
      | VUndefined | VNull => VUndefined
      | _ => walk_path h current rest
      end
  end.

Definition getValueByPath (h : list hobj) (obj : jsval) (path : string) : jsval :=
  if negb (truthy obj) then VUndefined
  else walk_path h obj (split_dots EmptyString path).

Definition createResinError (message : string) (resinName : option string)
  (value : exn) : exn :=
  ResinError message resinName value.

(** ** The engine *)

Section Builtins.

(** [JSON.stringify] and [JSON.parse] belong to the host. *)
Variable JSON_stringify : list hobj -> jsval -> exn + string.
Variable JSON_parse : string -> list hobj -> exn + (jsval * list hobj).

Section Knot.

(** [rec] runs a call with the fuel that is left. *)
Variable rec : call -> M jsval.

Definition forEach (r : setref) (cb : callback) : M unit :=
  rec (Each r 0%nat cb) ;; ret tt.

Definition validateValue (opts : option ResinOptions) (newValue : jsval)
  : exn + validation :=
  match opts ≫= validate with
  | None => inr {| valid := true; verror := None |}
  | Some f =>
      match f newValue with
      | inl x => inl x
      | inr (inl b) => inr {| valid := b; verror := None |}
      | inr (inr result) => inr result
      end
  end.

Definition reduce (fns : list (jsval -> exn + jsval)) (init : jsval) : exn + jsval :=
  fold_left (fun acc fn => match acc with
                           | inl x => inl x
                           | inr val => fn val
                           end) fns (inr init).

Definition transformValue (opts : option ResinOptions) (newValue : jsval)
  : exn + jsval :=
  match opts ≫= transform with
  | None => inr newValue
  | Some fns => reduce fns newValue
  end.

(** [effect()] *)
Definition callEffect (e : EffId) : M unit :=
  body <- gets (fun w => effects w !! e) ;;
  match body with
  | Some p => observe (ObsRun e) ;; rec (Invoke p) ;; ret tt
  | None => throw (TypeError "effect is not a function")
  end.

(** [handler(event)] *)
Definition callHandler (h : HandlerId) (ev : event) : M unit :=
  body <- gets (fun w => handlers w !! h) ;;
  match body with
  | Some f => observe (ObsHandle h ev) ;; rec (Invoke (f ev)) ;; ret tt
  | None => throw (TypeError "handler is not a function")
  end.

(** The function [emitEvent] gives to [forEach]:
    [try { handler(event) } catch (err) { error = err; emitEvent('error', { error }) }] *)
Definition guarded_handler (s : SigId) (ev : event) (h : HandlerId) : M unit :=
  try_catch (callHandler h ev)
    (fun err =>
       modify_signal s (with_error (Some err)) ;;
       rec (Emit s (EvError err)) ;; ret tt).

Definition apply_callback (cb : callback) (x : nat) : M unit :=
  match cb with
  | RunEffect => callEffect x
  | HandleEvent s ev => guarded_handler s ev x
  end.

(** One step of [Set.prototype.forEach] at index [i] *)
Definition forEach_from (r : setref) (i : nat) (cb : callback) : M unit :=
  entries <- gets (read_set r) ;;
  match entries !! i with
  | None => ret tt
  | Some None => rec (Each r (S i) cb) ;; ret tt
  | Some (Some x) => apply_callback cb x ;; rec (Each r (S i) cb) ;; ret tt
  end.

Definition emitEvent (s : SigId) (ev : event) : M unit :=
  observe (ObsEmit s ev) ;;
  sg <- get_signal s ;;
  match assoc EventType_eqb (event_type ev) (eventHandlers sg) with
  | Some id => forEach (Handlers id) (HandleEvent s ev)
  | None => ret tt
  end.

Fixpoint setItem (k v : string) (l : list (string * string)) : list (string * string) :=
  match l with
  | [] => [(k, v)]
  | (k', v') :: l' => if String.eqb k k' then (k, v) :: l' else (k', v') :: setItem k v l'
  end.

(** The tail of [notify]: write the current value to [localStorage] *)
Definition persistValue (s : SigId) : M unit :=
  sg <- get_signal s ;;
  match options sg ≫= persist with
  | None => ret tt
  | Some p =>
      h <- gets heap ;;
      let serialized := match serialize p with
                        | Some f => f (value sg)
                        | None => JSON_stringify h (value sg)
                        end in
      match serialized with
      | inr str => modify (fun w => with_localStorage (setItem (key p) str (localStorage w)) w)
      | inl _ => ret tt
      end
  end.

(** [subscribers.forEach(effect => pendingEffects.add(effect))]: the function
    does not touch the set that is walked, so the walk visits the entries
    present at its start. *)
Definition queue_subscribers (sg : signal) : M unit :=
  modify (fun w =>
    with_pendingEffects
      (fold_left (fun p e => jsset_add e p) (jsset_elements (subscribers sg))
                 (pendingEffects w)) w).

Definition notify (s : SigId) (oldValue : jsval) : M unit :=
  sg <- get_signal s ;;
  if disposed sg then ret tt
  else
    depth <- gets batchDepth ;;
    (if 0 <? depth then queue_subscribers sg
     else forEach (Subscribers s) RunEffect) ;;
    sg <- get_signal s ;;
    emitEvent s (EvChange (value sg) oldValue) ;;
    persistValue s.

(** [get value()] *)
Definition get_value (s : SigId) : M jsval :=
  sg <- get_signal s ;;
  if disposed sg then throw (Error "Attempted to access disposed resin")
  else
    stack <- gets effectStack ;;
    match last stack with
    | Some currentEffect =>
        modify_signal s (fun sg => with_subscribers (jsset_add currentEffect (subscribers sg)) sg) ;;
        ret (value sg)
    | None => ret (value sg)
    end.

Definition quote : string := String (ascii_of_nat 34) EmptyString.

(** [`Error in Resin${options?.debugName ? ` "${options.debugName}"` : ''}`] *)
Definition error_message (opts : option ResinOptions) : string :=
  match opts ≫= debugName with
  | Some name => if String.eqb name EmptyString then "Error in Resin"
                 else ("Error in Resin " ++ quote ++ name ++ quote)%string
  | None => "Error in Resin"
  end.

Definition validation_message (v : validation) : string :=
  match verror v with
  | Some msg => if String.eqb msg EmptyString then "Validation failed" else msg
  | None => "Validation failed"
  end.

(** The [try] block of the setter *)
Definition set_value_try (s : SigId) (sg : signal) (newValue : jsval) : M unit :=
  if strict_eq (value sg) newValue then ret tt
  else
    transformed <- lift (transformValue (options sg) newValue) ;;
    validation <- lift (validateValue (options sg) newValue) ;;
    if negb (valid validation) then
      emitEvent s (EvError (Error (validation_message validation)))
    else
      modify_signal s (with_value newValue) ;;
      notify s transformed.

(** Its [catch] block *)
Definition set_value_catch (s : SigId) (sg : signal) (err : exn) : M unit :=
  let error := createResinError (error_message (options sg))
                 (options sg ≫= debugName) err in
  modify_signal s (with_error (Some error)) ;;
  emitEvent s (EvError error).

(** [set value(newValue)] *)
Definition set_value (s : SigId) (newValue : jsval) : M unit :=
  sg <- get_signal s ;;
  if disposed sg then throw (Error "Attempted to modify disposed resin")
  else try_catch (set_value_try s sg newValue) (set_value_catch s sg).

(** [on(event, handler)]; the function it returns is [unsubscribe]. *)
Definition on (s : SigId) (ev : EventType) (handler : HandlerId) : M unit :=
  sg <- get_signal s ;;
  id <- match assoc EventType_eqb ev (eventHandlers sg) with
        | Some id => ret id
        | None =>
            id <- gets (fun w => length (handlerSets w)) ;;
            modify (fun w => with_handlerSets (handlerSets w ++ [[]]) w) ;;
            modify_signal s (fun sg => with_eventHandlers (eventHandlers sg ++ [(ev, id)]) sg) ;;
            ret id
        end ;;
  modify_handlerSet id (jsset_add handler).

Definition unsubscribe (s : SigId) (ev : EventType) (handler : HandlerId) : M unit :=
  sg <- get_signal s ;;
  match assoc EventType_eqb ev (eventHandlers sg) with
  | Some id => modify_handlerSet id (jsset_delete handler)
  | None => ret tt
  end.

Definition dispose (s : SigId) : M unit :=
  sg <- get_signal s ;;
  if disposed sg then ret tt
  else
    modify_signal s (with_disposed true) ;;
    emitEvent s (EvDispose (value sg)) ;;
    modify_signal s (fun sg => with_subscribers (jsset_clear (subscribers sg)) sg) ;;
    modify_signal s (with_eventHandlers []).

(** [new Proxy(target, handler)]: a [TypeError] unless the target is an
    object. *)
Definition new_Proxy (target : jsval) : M unit :=
  match target with
  | VRef _ => ret tt
  | _ => throw (TypeError "Cannot create proxy with a non-object as target or handler")
  end.

(** [enhanceArray(baseResin)]: reads [baseResin.value] through the getter
    (it holds what the restore gave, which need not be the array [resin]
    was called with), wraps it in a [Proxy] (its traps are
    [enhanceArray_set] and [enhanceArray_call] below) and returns
    [Object.assign(baseResin, enhanced)], which is [baseResin] itself.
    The assignments [enhanced.rFind = ...] go through the [set] trap, which
    drops them.  [Object.assign] copies the own enumerable properties of
    the target onto the instance: the elements of an array, as properties
    [0], [1], ..., and none for a Map.  Those copies are no part of the
    state here; a plain object restored in place of the array can have
    properties named like the members of the instance, and what assigning
    those does is left out. *)
Definition enhanceArray (baseResin : SigId) : M SigId :=
  array <- get_value baseResin ;;
  new_Proxy array ;;
  ret baseResin.

(** [enhanceMap(baseResin)], likewise; its [Proxy] has no [set] trap, and
    the views [rGet], ... are assigned onto the instance. *)
Definition enhanceMap (baseResin : SigId) : M SigId :=
  map <- get_value baseResin ;;
  new_Proxy map ;;
  ret baseResin.

(** [localStorage.getItem(key)] followed by the restore of [resin] *)
Definition restore (initialValue : jsval) (opts : option ResinOptions) : M jsval :=
  match opts ≫= persist with
  | None => ret initialValue
  | Some p =>
      ls <- gets localStorage ;;
      match assoc String.eqb (key p) ls with
      | None => ret initialValue
      | Some stored =>
          if String.eqb stored EmptyString then ret initialValue
          else
            match deserialize p with
            | Some f => match f stored with
                        | inr v => ret v
                        | inl _ => ret initialValue
                        end
            | None =>
                h <- gets heap ;;
                match JSON_parse stored h with
                | inr (v, h') => modify (with_heap h') ;; ret v
                | inl _ => ret initialValue
                end
            end
      end
  end.

Definition resin (initialValue : jsval) (opts : option ResinOptions) : M SigId :=
  value <- restore initialValue opts ;;
  s <- gets (fun w => length (signals w)) ;;
  modify (fun w => with_signals
    (signals w ++ [{| value := value; loading := false; error := None;
                      disposed := false; subscribers := [];
                      eventHandlers := []; options := opts |}]) w) ;;
  modify (fun w => with_microtasks (microtasks w ++ [s]) w) ;;
  h <- gets heap ;;
  if isArray h initialValue then enhanceArray s
  else if isMap h initialValue then enhanceMap s
  else ret s.

Definition batch (fn : prog) : M unit :=
  modify (fun w => with_batchDepth (batchDepth w + 1) w) ;;
  try_finally
    (rec (Invoke fn) ;; ret tt)
    (modify (fun w => with_batchDepth (batchDepth w - 1) w) ;;
     depth <- gets batchDepth ;;
     if depth =? 0 then
       forEach PendingEffects RunEffect ;;
       modify (fun w => with_pendingEffects (jsset_clear (pendingEffects w)) w)
     else ret tt).

Definition watchEffect (effect : EffId) : M unit :=
  modify (fun w => with_effectStack (effectStack w ++ [effect]) w) ;;
  callEffect effect ;;
  modify (fun w => with_effectStack (removelast (effectStack w)) w).

Definition subscribe (effect : EffId) : M unit := watchEffect effect.

(** A new function object *)
Definition new_effect (body : prog) : M EffId :=
  e <- gets (fun w => length (effects w)) ;;
  modify (fun w => with_effects (effects w ++ [body]) w) ;;
  ret e.

(** [() => { computedResin.value = fn(); }] *)
Definition computed_effect (computedResin : SigId) (fn : prog) : prog :=
  bind_prog fn (fun v => SetValue computedResin v (Return VUndefined)).

Definition computed (fn : prog) : M SigId :=
  v <- rec (Invoke fn) ;;
  computedResin <- resin v None ;;
  effect <- new_effect (computed_effect computedResin fn) ;;
  watchEffect effect ;;
  ret computedResin.

Fixpoint read_sources (from : list SigId) : M (list jsval) :=
  match from with
  | [] => ret []
  | dep :: rest => v <- get_value dep ;; vs <- read_sources rest ;; ret (v :: vs)
  end.

(** [() => { try { derivedResin.value = compute(...from.map(dep => dep.value)) }
            catch (error) { console.error(...) } }] *)
Definition derive_effect (derivedResin : SigId) (from : list SigId)
  (compute : list jsval -> prog) : prog :=
  TryCatch
    (read_all from (fun vs =>
       bind_prog (compute vs) (fun v => SetValue derivedResin v (Return VUndefined))))
    (fun _ => Return VUndefined)
    (fun _ => Return VUndefined).

Definition derive (from : list SigId) (compute : list jsval -> prog) : M DerivedResin :=
  vs <- read_sources from ;;
  v <- rec (Invoke (compute vs)) ;;
  derivedResin <- resin v None ;;
  effect <- new_effect (derive_effect derivedResin from compute) ;;
  watchEffect effect ;;
  (* { ...derivedResin, dispose() {...} } *)
  value <- get_value derivedResin ;;
  sg <- get_signal derivedResin ;;
  ret {| d_value := value; d_loading := loading sg; d_error := error sg;
         d_inner := derivedResin; d_from := from; d_effect := effect |}.

(** The [dispose] of the object [derive] returns *)
Definition dispose_derived (d : DerivedResin) : M unit :=
  dispose (d_inner d) ;;
  modify (fun w => with_signals
    (fold_left (fun sigs dep =>
                  alter (fun sg => with_subscribers
                                     (jsset_delete (d_effect d) (subscribers sg)) sg)
                        dep sigs)
               (d_from d) (signals w)) w).

Definition select (state : SigId) (path : string) : M SigId :=
  (* const cache = new WeakMap() *)
  let cache : list (SigId * list (string * SigId)) := [] in
  let cache := match assoc Nat.eqb state cache with
               | Some _ => cache
               | None => (state, []) :: cache
               end in
  let pathCache := default [] (assoc Nat.eqb state cache) in
  match assoc String.eqb path pathCache with
  | Some selected => ret selected
  | None =>
      selected <- computed (GetValue state (fun v =>
                    ReadHeap (fun h => Return (getValueByPath h v path)))) ;;
      (* pathCache.set(path, selected): the map is dropped with the call *)
      ret selected
  end.

(** The body of a callback *)
Fixpoint run (p : prog) : M jsval :=
  match p with
  | Return v => ret v
  | Throw x => throw x
  | Log v k => observe (ObsLog v) ;; run k
  | GetValue s k => v <- get_value s ;; run (k v)
  | SetValue s v k => set_value s v ;; run k
  | GetError s k => sg <- get_signal s ;; run (k (error sg))
  | On s ty h k => on s ty h ;; run k
  | Unsubscribe s ty h k => unsubscribe s ty h ;; run k
  | Dispose s k => dispose s ;; run k
  | Batch fn k => batch fn ;; run k
  | WatchEffect e k => watchEffect e ;; run k
  | TryCatch body handler k =>
      v <- try_catch (run body) (fun x => run (handler x)) ;; run (k v)
  | NewResin initialValue opts k => s <- resin initialValue opts ;; run (k s)
  | Computed fn k => s <- computed fn ;; run (k s)
  | Derive from compute k => d <- derive from compute ;; run (k d)
  | DisposeDerived d k => dispose_derived d ;; run k
  | Select state path k => s <- select state path ;; run (k s)
  | ReadHeap k => h <- gets heap ;; run (k h)
  | Alloc o k =>
      l <- gets (fun w => length (heap w)) ;;
      modify (fun w => with_heap (heap w ++ [o]) w) ;;
      run (k l)
  | Store l o k => modify (fun w => with_heap (<[l := o]> (heap w)) w) ;; run k
  end.

(** The queued [() => { emitEvent('init', { value }) }] of the oldest
    instance that still waits *)
Definition runMicrotask : M unit :=
  queue <- gets microtasks ;;
  match queue with
  | [] => ret tt
  | s :: rest =>
      modify (with_microtasks rest) ;;
      sg <- get_signal s ;;
      emitEvent s (EvInit (value sg))
  end.

(** *** The [Proxy] traps of [enhanceArray] *)

(** A trap receives its property key as [string | symbol]. *)
Inductive propkey : Type :=
| PString (s : string)
| PSymbol (n : nat).

(** [typeof prop] *)
Definition typeof_key (prop : propkey) : string :=
  match prop with
  | PString _ => "string"
  | PSymbol _ => "symbol"
  end.

Definition propkey_eqb (a b : propkey) : bool :=
  match a, b with
  | PString x, PString y => String.eqb x y
  | PSymbol x, PSymbol y => Nat.eqb x y
  | _, _ => false
  end.

(** The length a value denotes when assigned to [length]; strings other
    than plain digit strings and objects are left out (they denote none
    here). *)
Definition to_length (v : jsval) : option nat :=
  match v with
  | VNum n => if (0 <=? n) && (n <? 4294967296) then Some (Z.to_nat n) else None
  | VBool b => Some (if b then 1 else 0)%nat
  | VNull => Some 0%nat
  | VStr s => if digits_only s && (Z.of_nat (parseInt s) <? 4294967296)
              then Some (parseInt s) else None
  | _ => None
  end.

Definition resize (n : nat) (elems : list jsval) : list jsval :=
  take n elems ++ replicate (n - length elems) VUndefined.

(** [target[prop] = value] on an array; only elements and [length] are
    stored. *)
Definition assign_property (target : Loc) (prop : propkey) (v : jsval) : M unit :=
  h <- gets heap ;;
  match h !! target, prop with
  | Some (HArray elems), PString name =>
      if String.eqb name "length" then
        match to_length v with
        | Some n => modify (with_heap (<[target := HArray (resize n elems)]> h))
        | None => throw (RangeError "Invalid array length")
        end
      else if digits_only name then
        let i := parseInt name in
        modify (with_heap (<[target := HArray (<[i := v]> (resize (Nat.max (S i) (length elems)) elems))]> h))
      else ret tt
  | _, _ => ret tt
  end.

(** [[...target]] *)
Definition spread (target : Loc) : M Loc :=
  h <- gets heap ;;
  match h !! target with
  | Some (HArray elems) =>
      modify (with_heap (h ++ [HArray elems])) ;; ret (length h)
  | _ => throw (TypeError "target is not iterable")
  end.

(** [handler.set(target, prop, value)] *)
Definition enhanceArray_set (baseResin : SigId) (target : Loc) (prop : propkey)
  (v : jsval) : M bool :=
  if String.eqb (typeof_key prop) "number" || propkey_eqb prop (PString "length")
  then
    assign_property target prop v ;;
    copy <- spread target ;;
    set_value baseResin (VRef copy) ;;
    ret true
  else ret true.

Definition mutatingMethods : list string :=
  ["push"; "pop"; "shift"; "unshift"; "splice"; "sort"; "reverse"].

(** The function [handler.get] returns for a method: [native] is what
    [Array.prototype[prop]] does to the elements with the given arguments. *)
Definition enhanceArray_call (baseResin : SigId) (target : Loc) (prop : string)
  (native : list jsval -> list jsval * jsval) : M jsval :=
  h <- gets heap ;;
  match h !! target with
  | Some (HArray elems) =>
      let (elems', result) := native elems in
      modify (with_heap (<[target := HArray elems']> h)) ;;
      (if existsb (String.eqb prop) mutatingMethods then
         copy <- spread target ;;
         set_value baseResin (VRef copy)
       else ret tt) ;;
      ret result
  | _ => throw (TypeError "not an array")
  end.

End Knot.

Fixpoint exec (fuel : nat) (c : call) : M jsval :=
  match fuel with
  | O => fun _ => OutOfFuel
  | S n =>
      match c with
      | Invoke p => run (exec n) p
      | Each r i cb => forEach_from (exec n) r i cb ;; ret VUndefined
      | Emit s ev => emitEvent (exec n) s ev ;; ret VUndefined
      end
  end.

End Builtins.

(** * Vocabulary of the statements *)

(** ** What no call undoes

    [extends w w'] collects what holds between the state before and after
    any engine call that comes back: instances stay, a disposed instance
    stays disposed and keeps its value and gains no subscriber, the batch
    depth is restored, frames are only ever left on top of the effect stack,
    and the log only grows. *)

(** A disposed instance afterwards: still disposed, same value, no new
    subscriber *)
Definition frozen (sg sg' : signal) : Prop :=
  disposed sg' = true /\
  value sg' = value sg /\
  forall e, In e (jsset_elements (subscribers sg')) ->
            In e (jsset_elements (subscribers sg)).

Definition sigs_extend (sigs sigs' : list signal) : Prop :=
  forall s sg, sigs !! s = Some sg ->
    exists sg', sigs' !! s = Some sg' /\ (disposed sg = true -> frozen sg sg').

Record extends (w w' : world) : Prop := {
  ext_signals : sigs_extend (signals w) (signals w');
  ext_depth : batchDepth w' = batchDepth w;
  ext_stack : effectStack w `prefix_of` effectStack w';
  ext_trace : trace w `prefix_of` trace w' }.

Definition pres {A} (m : M A) : Prop :=
  forall w, match m w with
            | Ok _ w' | Thrown _ w' => extends w w'
            | OutOfFuel => True
            end.

(** ** Signals and callbacks the statements speak about *)

Definition alive (w : world) (s : SigId) : bool :=
  match signals w !! s with
  | Some sg => negb (disposed sg)
  | None => false
  end.

(** A callback that only reads live signals and logs *)
Inductive tame (w : world) : prog -> Prop :=
| tame_Return v : tame w (Return v)
| tame_Log v k : tame w k -> tame w (Log v k)
| tame_GetValue s k :
    alive w s = true -> (forall v, tame w (k v)) -> tame w (GetValue s k).

(** The handlers registered on [s] for the kind of [ev] are functions that
    are tame on [ev]. *)
Definition handlers_tame (w : world) (s : SigId) (ev : event) : Prop :=
  forall sg id h,
    signals w !! s = Some sg ->
    assoc EventType_eqb (event_type ev) (eventHandlers sg) = Some id ->
    In h (jsset_elements (read_set (Handlers id) w)) ->
    exists f, handlers w !! h = Some f /\ tame w (f ev).

(** The effects in the set [r] are tame functions. *)
Definition effects_tame (w : world) (entries : jsset) : Prop :=
  forall e, In e (jsset_elements entries) ->
    exists body, effects w !! e = Some body /\ tame w body.

Definition is_log (o : obs) : bool :=
  match o with ObsLog _ => true | _ => false end.

Definition is_run (e : EffId) (o : obs) : bool :=
  match o with ObsRun e' => Nat.eqb e e' | _ => false end.

Definition is_emit (s : SigId) (ty : EventType) (o : obs) : bool :=
  match o with
  | ObsEmit s' ev => Nat.eqb s s' && EventType_eqb ty (event_type ev)
  | _ => false
  end.

(** What a tame handler leaves in the log: its call and its own output *)
Definition handler_obs (o : obs) : bool :=
  match o with ObsHandle _ _ | ObsLog _ => true | _ => false end.

(** How often [e] was called, and how often a [ty] event of [s] was emitted *)
Fixpoint count (f : obs -> bool) (l : list obs) : nat :=
  match l with
  | [] => 0
  | o :: l' => if f o then S (count f l') else count f l'
  end.

Definition runs_of (e : EffId) (l : list obs) : nat := count (is_run e) l.
Definition emits_of (s : SigId) (ty : EventType) (l : list obs) : nat :=
  count (is_emit s ty) l.

(** [m], started from [w] with any log, comes back normally, changes nothing
    but the log, and appends to it some [out] with [Q out]. *)
Definition quiet (m : M unit) (w : world) (Q : list obs -> Prop) : Prop :=
  forall t, exists out,
    m (with_trace t w) = Ok tt (with_trace (t ++ out) w) /\ Q out.

(** The state after [value = newValue] in the closure of [s] *)
Definition assign (s : SigId) (newValue : jsval) (w : world) : world :=
  with_signals (alter (with_value newValue) s (signals w)) w.

(** Same instances, functions and sets; only values, the pending set, the
    store and the log may differ. *)
Definition same_frame (w w' : world) : Prop :=
  effects w' = effects w /\
  handlers w' = handlers w /\
  handlerSets w' = handlerSets w /\
  length (signals w') = length (signals w) /\
  forall s sg, signals w !! s = Some sg ->
    exists sg', signals w' !! s = Some sg' /\
      disposed sg' = disposed sg /\ subscribers sg' = subscribers sg /\
      eventHandlers sg' = eventHandlers sg /\ options sg' = options sg.

(** What a tame effect, and a tame handler of [ev], append to the log *)
Definition effect_out (e : EffId) (out : list obs) : Prop :=
  exists logs, out = ObsRun e :: logs /\ Forall (fun o => is_log o = true) logs.

Definition handler_out (ev : event) (h : HandlerId) (out : list obs) : Prop :=
  exists logs, out = ObsHandle h ev :: logs /\ Forall (fun o => is_log o = true) logs.

(** ** Example states *)

Definition no_stringify : list hobj -> jsval -> exn + string :=
  fun _ _ => inl (TypeError "JSON.stringify").

Definition no_parse : string -> list hobj -> exn + (jsval * list hobj) :=
  fun _ _ => inl (TypeError "JSON.parse").

Definition empty_world : world :=
  {| effectStack := []; batchDepth := 0; pendingEffects := []; signals := [];
     handlerSets := []; effects := []; handlers := []; heap := [];
     localStorage := []; microtasks := []; trace := [] |}.

Definition plain (v : jsval) (subs : jsset) (hs : list (EventType * SetId))
  (opts : option ResinOptions) : signal :=
  {| value := v; loading := false; error := None; disposed := false;
     subscribers := subs; eventHandlers := hs; options := opts |}.

(** [{ validate: v => ({valid: false, error: "bad"}), transform: [v => v + 1] }] *)
Definition rejecting : ResinOptions :=
  {| debugName := None; persist := None;
     validate := Some (fun _ => inr (inr {| valid := false; verror := Some "bad" |}));
     transform := Some [fun v => match v with
                                 | VNum n => inr (VNum (n + 1))
                                 | _ => inr v
                                 end] |}.

(** One instance with a rejecting validator, one effect subscribed to it,
    one [error] handler and one [change] handler, both logging. *)
Definition world_rejecting : world :=
  {| effectStack := []; batchDepth := 0; pendingEffects := [];
     signals := [plain (VNum 0) [Some 0%nat] [(EError, 0%nat); (EChange, 1%nat)]
                   (Some rejecting)];
     handlerSets := [[Some 0%nat]; [Some 1%nat]];
     effects := [GetValue 0%nat (fun v => Log v (Return VUndefined))];
     handlers := [fun _ => Log (VStr "error seen") (Return VUndefined);
                  fun _ => Log (VStr "change seen") (Return VUndefined)];
     heap := []; localStorage := []; microtasks := []; trace := [] |}.

(** The pending set after [subscribers.forEach(effect => pendingEffects.add(effect))] *)
Definition queued (sg : signal) (pending : jsset) : jsset :=
  fold_left (fun p e => jsset_add e p) (jsset_elements (subscribers sg)) pending.

(** What tame effects, called one after the other, append to the log *)
Definition effects_out (es : list EffId) (out : list obs) : Prop :=
  exists outs, out = concat outs /\ Forall2 effect_out es outs.

(** [a = resin(false); b = resin(1)] *)
Definition world_ab : world :=
  {| effectStack := []; batchDepth := 0; pendingEffects := [];
     signals := [plain (VBool false) [] [] None; plain (VNum 1) [] [] None];
     handlerSets := []; effects := []; handlers := []; heap := [];
     localStorage := []; microtasks := []; trace := [] |}.

(** [() => a.value ? b.value : 0], logging what it reads from [b] *)
Definition a_then_b : prog :=
  GetValue 0%nat (fun va =>
    if truthy va then GetValue 1%nat (fun vb => Log vb (Return vb))
    else Return (VNum 0)).

(** [c = computed(a_then_b); a.value = true; b.value = 2] *)
Definition conditional_dependency : prog :=
  Computed a_then_b (fun c =>
    SetValue 0%nat (VBool true) (SetValue 1%nat (VNum 2) (Return VUndefined))).

(** [a = resin(1); b = resin(10)] *)
Definition world_sources : world :=
  {| effectStack := []; batchDepth := 0; pendingEffects := [];
     signals := [plain (VNum 1) [] [] None; plain (VNum 10) [] [] None];
     handlerSets := []; effects := []; handlers := []; heap := [];
     localStorage := []; microtasks := []; trace := [] |}.

(** [(x, y) => x + y] *)
Definition add_sources (vs : list jsval) : prog :=
  match vs with
  | [VNum x; VNum y] => Return (VNum (x + y))
  | _ => Return VUndefined
  end.

(** [d = derive({from: [a, b], compute}); a.value = 2], then the value of
    [d] and of the instance inside it *)
Definition derive_then_write : prog :=
  Derive [0%nat; 1%nat] add_sources (fun d =>
    SetValue 0%nat (VNum 2)
      (GetValue (d_inner d) (fun inner =>
         Log (d_value d) (Log inner (Return VUndefined))))).

(** [state = resin({a: {b: 5}})] *)
Definition world_nested : world :=
  {| effectStack := []; batchDepth := 0; pendingEffects := [];
     signals := [plain (VRef 1%nat) [] [] None];
     handlerSets := []; effects := []; handlers := [];
     heap := [HObject [("b", VNum 5)]; HObject [("a", VRef 0%nat)]];
     localStorage := []; microtasks := []; trace := [] |}.

(** [list = resin([1, 2, 3])]: the array at location 0 is the [Proxy]
    target, the instance 0 holds it. *)
Definition world_array : world :=
  {| effectStack := []; batchDepth := 0; pendingEffects := [];
     signals := [plain (VRef 0%nat) [] [] None];
     handlerSets := []; effects := []; handlers := [];
     heap := [HArray [VNum 1; VNum 2; VNum 3]];
     localStorage := []; microtasks := []; trace := [] |}.

(** The state a call leaves, when it comes back *)
Definition final {A} (r : result A) : option world :=
  match r with
  | Ok _ w | Thrown _ w => Some w
  | OutOfFuel => None
  end.

Definition returned {A} (r : result A) : option A :=
  match r with
  | Ok a _ => Some a
  | _ => None
  end.

(** [{ validate: v => true, transform: [v => v + 1, v => v * 2] }] *)
Definition accepting : ResinOptions :=
  {| debugName := None; persist := None;
     validate := Some (fun _ => inr (inl true));
     transform := Some [fun v => match v with
                                 | VNum n => inr (VNum (n + 1))
                                 | _ => inr v
                                 end;
                        fun v => match v with
                                 | VNum n => inr (VNum (n * 2))
                                 | _ => inr v
                                 end] |}.

(** One instance with that pipeline, holding 0, with one subscribed effect
    that logs what it reads and one logging [change] handler *)
Definition world_pipeline : world :=
  {| effectStack := []; batchDepth := 0; pendingEffects := [];
     signals := [plain (VNum 0) [Some 0%nat] [(EChange, 0%nat)] (Some accepting)];
     handlerSets := [[Some 0%nat]];
     effects := [GetValue 0%nat (fun v => Log v (Return VUndefined))];
     handlers := [fun _ => Log (VStr "change seen") (Return VUndefined)];
     heap := []; localStorage := []; microtasks := []; trace := [] |}.

(** Two instances [X] and [Y] and one effect that reads both and is
    subscribed to both *)
Definition world_xy : world :=
  {| effectStack := []; batchDepth := 0; pendingEffects := [];
     signals := [plain (VNum 0) [Some 0%nat] [] None;
                 plain (VNum 0) [Some 0%nat] [] None];
     handlerSets := [];
     effects := [GetValue 0%nat (fun x => GetValue 1%nat (fun y =>
                   Log x (Log y (Return VUndefined))))];
     handlers := []; heap := []; localStorage := []; microtasks := [];
     trace := [] |}.

(** [world_ab] after [c = computed(a_then_b)] and [a.value = true] *)
Definition world_abc : world :=
  {| effectStack := []; batchDepth := 0; pendingEffects := [];
     signals := [plain (VBool true) [Some 0%nat] [] None;
                 plain (VNum 1) [] [] None;
                 plain (VNum 0) [] [] None];
     handlerSets := [];
     effects := [computed_effect 2%nat a_then_b];
     handlers := []; heap := []; localStorage := []; microtasks := [];
     trace := [] |}.

(** [world_nested] after a first [select(state, "a.b")] *)
Definition world_selected : world :=
  match final (select no_parse (exec no_stringify no_parse 10) 0%nat "a.b" world_nested) with
  | Some w => w
  | None => world_nested
  end.

(** ** Handlers, storage and paths *)

(** The handlers registered on [s] for [ty], in registration order *)
Definition registered (w : world) (s : SigId) (ty : EventType) : list HandlerId :=
  match signals w !! s with
  | Some sg => match assoc EventType_eqb ty (eventHandlers sg) with
               | Some id => jsset_elements (read_set (Handlers id) w)
               | None => []
               end
  | None => []
  end.

(** Every [Set] of handlers that [s] names for [ty] exists. *)
Definition handler_set_exists (w : world) (s : SigId) (ty : EventType) : Prop :=
  forall sg id,
    signals w !! s = Some sg ->
    assoc EventType_eqb ty (eventHandlers sg) = Some id ->
    (id < length (handlerSets w))%nat.

(** The state in which a passing write of [v] to [s] reaches [emitEvent]:
    the value stored and, with a batch open, the subscribers queued *)
Definition written (s : SigId) (sg : signal) (v : jsval) (w : world) : world :=
  if 0 <? batchDepth w
  then with_pendingEffects (queued sg (pendingEffects w)) (assign s v w)
  else assign s v w.

(** A callback that, run in [w], reads live signals and logs until it throws
    [x]: by a [throw] of its own, or by touching a disposed instance *)
Inductive raising (w : world) (x : exn) : prog -> Prop :=
| raising_Throw : raising w x (Throw x)
| raising_Log v k : raising w x k -> raising w x (Log v k)
| raising_GetValue s sg k :
    signals w !! s = Some sg -> disposed sg = false ->
    raising w x (k (value sg)) -> raising w x (GetValue s k)
| raising_read_disposed s sg k :
    signals w !! s = Some sg -> disposed sg = true ->
    x = Error "Attempted to access disposed resin" ->
    raising w x (GetValue s k)
| raising_write_disposed s sg v k :
    signals w !! s = Some sg -> disposed sg = true ->
    x = Error "Attempted to modify disposed resin" ->
    raising w x (SetValue s v k).

(** ** Callbacks that only read *)

(** A callback that only reads live signals, looks into the heap and logs *)
Inductive reader (w : world) : prog -> Prop :=
| reader_Return v : reader w (Return v)
| reader_Log v k : reader w k -> reader w (Log v k)
| reader_GetValue s k :
    alive w s = true -> (forall v, reader w (k v)) -> reader w (GetValue s k)
| reader_ReadHeap k : (forall h, reader w (k h)) -> reader w (ReadHeap k).

(** The instances such a callback reads, in order, and the value it
    returns: both are determined by the heap and by the values the
    instances hold. *)
Fixpoint reads (h : list hobj) (sigs : list signal) (p : prog) : list SigId :=
  match p with
  | Log _ k => reads h sigs k
  | GetValue s k =>
      s :: match sigs !! s with
           | Some sg => reads h sigs (k (value sg))
           | None => []
           end
  | ReadHeap k => reads h sigs (k h)
  | _ => []
  end.

Fixpoint returns (h : list hobj) (sigs : list signal) (p : prog) : jsval :=
  match p with
  | Return v => v
  | Log _ k => returns h sigs k
  | GetValue s k =>
      match sigs !! s with
      | Some sg => returns h sigs (k (value sg))
      | None => VUndefined
      end
  | ReadHeap k => returns h sigs (k h)
  | _ => VUndefined
  end.

(** [subscribers.add(effect)] in the closure of [s] *)
Definition add_subscriber (effect : EffId) (sg : signal) : signal :=
  with_subscribers (jsset_add effect (subscribers sg)) sg.

(** The instances after the getter of each of [rs] has run with [stack] as
    the effect stack *)
Definition tracked (stack : list EffId) (rs : list SigId) (sigs : list signal)
  : list signal :=
  match last stack with
  | Some effect => fold_left (fun sigs s => alter (add_subscriber effect) s sigs) rs sigs
  | None => sigs
  end.

(** Same values and disposal flags, instance by instance *)
Definition same_values (sigs sigs' : list signal) : Prop :=
  forall s sg, sigs !! s = Some sg ->
    exists sg', sigs' !! s = Some sg' /\
      value sg' = value sg /\ disposed sg' = disposed sg.

(** [from.map(dep => dep.value)], read off the instances *)
Definition values_of (sigs : list signal) (from : list SigId) : list jsval :=
  map (fun dep => match sigs !! dep with
                  | Some sg => value sg
                  | None => VUndefined
                  end) from.

(** ** More example states *)

(** [{ serialize: b => String(b), deserialize: s => s === "true" }] for
    booleans; both throw on anything else. *)
Definition boolean_storage : PersistOptions :=
  {| key := "flag";
     serialize := Some (fun v => match v with
                                 | VBool true => inr "true"
                                 | VBool false => inr "false"
                                 | _ => inl (TypeError "not a boolean")
                                 end);
     deserialize := Some (fun s => if String.eqb s "true" then inr (VBool true)
                                   else if String.eqb s "false" then inr (VBool false)
                                   else inl (TypeError "not a boolean")) |}.

Definition persisting : ResinOptions :=
  {| debugName := None; persist := Some boolean_storage;
     validate := None; transform := None |}.

(** One persisted instance holding [false], with a subscribed effect and a
    [change] handler that log *)
Definition world_persist : world :=
  {| effectStack := []; batchDepth := 0; pendingEffects := [];
     signals := [plain (VBool false) [Some 0%nat] [(EChange, 0%nat)] (Some persisting)];
     handlerSets := [[Some 0%nat]];
     effects := [GetValue 0%nat (fun v => Log v (Return VUndefined))];
     handlers := [fun _ => Log (VStr "change seen") (Return VUndefined)];
     heap := []; localStorage := []; microtasks := []; trace := [] |}.

(** [{ validate: v => false }] *)
Definition refusing : ResinOptions :=
  {| debugName := None; persist := None;
     validate := Some (fun _ => inr (inl false)); transform := None |}.

(** [{ debugName: "count", transform: [v => { throw new Error("boom") }] }] *)
Definition failing : ResinOptions :=
  {| debugName := Some "count"; persist := None; validate := None;
     transform := Some [fun _ => inl (Error "boom")] |}.

(** One instance with the given options, holding 0, with one subscribed
    effect and one [error] handler, both logging *)
Definition world_with (opts : ResinOptions) : world :=
  {| effectStack := []; batchDepth := 0; pendingEffects := [];
     signals := [plain (VNum 0) [Some 0%nat] [(EError, 0%nat)] (Some opts)];
     handlerSets := [[Some 0%nat]];
     effects := [GetValue 0%nat (fun v => Log v (Return VUndefined))];
     handlers := [fun _ => Log (VStr "error seen") (Return VUndefined)];
     heap := []; localStorage := []; microtasks := []; trace := [] |}.

(** One instance with three subscribers, of which the second throws when
    the instance holds a negative number, and a logging [error] handler *)
Definition world_throwing : world :=
  {| effectStack := []; batchDepth := 0; pendingEffects := [];
     signals := [plain (VNum 0) [Some 0%nat; Some 1%nat; Some 2%nat]
                   [(EError, 0%nat)] None];
     handlerSets := [[Some 0%nat]];
     effects := [GetValue 0%nat (fun v => Log v (Return VUndefined));
                 GetValue 0%nat (fun v => match v with
                                          | VNum (Zneg _) => Throw (Error "negative")
                                          | _ => Return VUndefined
                                          end);
                 Log (VStr "third") (Return VUndefined)];
     handlers := [fun _ => Log (VStr "error seen") (Return VUndefined)];
     heap := []; localStorage := []; microtasks := []; trace := [] |}.

(** [() => { x.value = 1; throw new Error("boom") }] *)
Definition write_then_throw : prog :=
  SetValue 0%nat (VNum 1) (Throw (Error "boom")).

(** [world_xy] when [write_then_throw] has thrown inside a batch *)
Definition world_xy_thrown : world :=
  match final (exec no_stringify no_parse 10 (Invoke write_then_throw)
                 (with_batchDepth 1 world_xy)) with
  | Some w => w
  | None => world_xy
  end.

(** [world_throwing] when [() => { s.value = -1 }] has returned inside a
    batch *)
Definition world_throwing_queued : world :=
  match final (exec no_stringify no_parse 10
                 (Invoke (SetValue 0%nat (VNum (-1)) (Return VUndefined)))
                 (with_batchDepth 1 world_throwing)) with
  | Some w => w
  | None => world_throwing
  end.

(** No instance yet, one handler that logs what it is given *)
Definition world_handler : world :=
  {| effectStack := []; batchDepth := 0; pendingEffects := []; signals := [];
     handlerSets := [];
     effects := [];
     handlers := [fun ev => match ev with
                            | EvInit v => Log v (Return VUndefined)
                            | _ => Return VUndefined
                            end];
     heap := []; localStorage := []; microtasks := []; trace := [] |}.

(** [a = resin(1); b = resin(2)] and the function [() => console.log(a.value)],
    not yet watched *)
Definition world_watch : world :=
  {| effectStack := []; batchDepth := 0; pendingEffects := [];
     signals := [plain (VNum 1) [] [] None; plain (VNum 2) [] [] None];
     handlerSets := [];
     effects := [GetValue 0%nat (fun v => Log v (Return VUndefined))];
     handlers := []; heap := []; localStorage := []; microtasks := [];
     trace := [] |}.

(** [n => { if (n === 0) throw new Error("division by zero"); return 100 / n }] *)
Definition quotient (vs : list jsval) : prog :=
  match vs with
  | [VNum 0] => Throw (Error "division by zero")
  | [VNum n] => Return (VNum (100 / n))
  | _ => Return VUndefined
  end.

(** [a = resin(5); d = derive({from: [a], compute: quotient})] *)
Definition world_quotient : world :=
  {| effectStack := []; batchDepth := 0; pendingEffects := [];
     signals := [plain (VNum 5) [Some 0%nat] [] None; plain (VNum 20) [] [] None];
     handlerSets := [];
     effects := [derive_effect 1%nat [0%nat] quotient];
     handlers := []; heap := []; localStorage := []; microtasks := [];
     trace := [] |}.

(** The object [derive({from: [a, b], compute: add_sources})] returns in
    [world_sources], and the state it leaves *)
Definition derived_sum : DerivedResin :=
  {| d_value := VNum 11; d_loading := false; d_error := None;
     d_inner := 2%nat; d_from := [0%nat; 1%nat]; d_effect := 0%nat |}.

Definition world_derived : world :=
  match final (derive no_parse (exec no_stringify no_parse 10)
                 [0%nat; 1%nat] add_sources world_sources) with
  | Some w => w
  | None => world_sources
  end.

(** [world_array] with an effect running *)
Definition world_array_running : world := with_effectStack [7%nat] world_array.

(** One instance with a subscriber, three [change] handlers of which the
    second throws, and a logging [error] handler *)
Definition world_bad_handler : world :=
  {| effectStack := []; batchDepth := 0; pendingEffects := [];
     signals := [plain (VNum 0) [Some 0%nat] [(EChange, 0%nat); (EError, 1%nat)] None];
     handlerSets := [[Some 0%nat; Some 1%nat; Some 2%nat]; [Some 3%nat]];
     effects := [GetValue 0%nat (fun v => Log v (Return VUndefined))];
     handlers := [fun _ => Log (VStr "first") (Return VUndefined);
                  fun _ => Throw (Error "handler failed");
                  fun _ => Log (VStr "third") (Return VUndefined);
                  fun _ => Log (VStr "error seen") (Return VUndefined)];
     heap := []; localStorage := []; microtasks := []; trace := [] |}.

(** [world_persist] with an array in the heap *)
Definition world_persist_list : world :=
  {| effectStack := []; batchDepth := 0; pendingEffects := [];
     signals := [plain (VBool false) [Some 0%nat] [(EChange, 0%nat)] (Some persisting)];
     handlerSets := [[Some 0%nat]];
     effects := [GetValue 0%nat (fun v => Log v (Return VUndefined))];
     handlers := [fun _ => Log (VStr "change seen") (Return VUndefined)];
     heap := [HArray [VNum 1; VNum 2]];
     localStorage := []; microtasks := []; trace := [] |}.

(** ** What callbacks that only read write to the log *)

(** What such a callback logs, in order: determined, like what it returns,
    by the heap and by the values the instances hold. *)
Fixpoint output (h : list hobj) (sigs : list signal) (p : prog) : list obs :=
  match p with
  | Log v k => ObsLog v :: output h sigs k
  | GetValue s k =>
      match sigs !! s with
      | Some sg => output h sigs (k (value sg))
      | None => []
      end
  | ReadHeap k => output h sigs (k h)
  | _ => []
  end.

(** The log of one call of the effect [e] in the state [w]: the call, then
    what its body logs *)
Definition effect_trace (w : world) (e : EffId) : list obs :=
  match effects w !! e with
  | Some body => ObsRun e :: output (heap w) (signals w) body
  | None => []
  end.

(** The log of one call of the handler [h] with [ev] in the state [w] *)
Definition handler_trace (w : world) (ev : event) (h : HandlerId) : list obs :=
  match handlers w !! h with
  | Some f => ObsHandle h ev :: output (heap w) (signals w) (f ev)
  | None => []
  end.

(** The state while [dispose] emits: the flag is set, nothing is cleared
    yet. *)
Definition disposing (s : SigId) (w : world) : world :=
  with_signals (alter (with_disposed true) s (signals w)) w.

(** One instance whose validator rejects every write with ["bad"], with an
    [error] handler that throws when it is told so *)
Definition world_touchy : world :=
  {| effectStack := []; batchDepth := 0; pendingEffects := [];
     signals := [plain (VNum 0) [Some 0%nat] [(EError, 0%nat)] (Some rejecting)];
     handlerSets := [[Some 0%nat]];
     effects := [GetValue 0%nat (fun v => Log v (Return VUndefined))];
     handlers := [fun ev => match ev with
                            | EvError (Error m) =>
                                if String.eqb m "bad" then Throw (Error "handler failed")
                                else Return VUndefined
                            | _ => Return VUndefined
                            end];
     heap := []; localStorage := []; microtasks := []; trace := [] |}.

(** [X] and [Y] with one subscriber, an effect that reads both and then
    writes [X]: [() => { x.value; y.value; x.value = 9 }] *)
Definition world_xy_writer : world :=
  {| effectStack := []; batchDepth := 0; pendingEffects := [];
     signals := [plain (VNum 0) [Some 0%nat] [] None;
                 plain (VNum 0) [Some 0%nat] [] None];
     handlerSets := [];
     effects := [GetValue 0%nat (fun _ => GetValue 1%nat (fun _ =>
                   SetValue 0%nat (VNum 9) (Return VUndefined)))];
     handlers := []; heap := []; localStorage := []; microtasks := [];
     trace := [] |}.

(** One instance, an effect that throws, and an effect that watches it
    inside [try/catch]:
    [() => { try { watchEffect(inner) } catch (e) {} }] *)
Definition world_caught : world :=
  {| effectStack := []; batchDepth := 0; pendingEffects := [];
     signals := [plain (VNum 1) [] [] None];
     handlerSets := [];
     effects := [TryCatch (WatchEffect 1%nat (Return VUndefined))
                   (fun _ => Return VUndefined) (fun _ => Return VUndefined);
                 Throw (Error "boom")];
     handlers := []; heap := []; localStorage := []; microtasks := [];
     trace := [] |}.

(** One instance holding 4, with one subscribed effect and one [dispose]
    handler that logs the value it is given *)
Definition world_leaving : world :=
  {| effectStack := []; batchDepth := 0; pendingEffects := [];
     signals := [plain (VNum 4) [Some 0%nat] [(EDispose, 0%nat)] None];
     handlerSets := [[Some 0%nat]];
     effects := [GetValue 0%nat (fun v => Log v (Return VUndefined))];
     handlers := [fun ev => match ev with
                            | EvDispose v => Log v (Return VUndefined)
                            | _ => Return VUndefined
                            end];
     heap := []; localStorage := []; microtasks := []; trace := [] |}.

(** One instance holding 1, with one subscribed effect that logs what it
    reads and one logging [error] handler *)
Definition world_source : world :=
  {| effectStack := []; batchDepth := 0; pendingEffects := [];
     signals := [plain (VNum 1) [Some 0%nat] [(EError, 0%nat)] None];
     handlerSets := [[Some 0%nat]];
     effects := [GetValue 0%nat (fun v => Log v (Return VUndefined))];
     handlers := [fun _ => Log (VStr "error seen") (Return VUndefined)];
     heap := []; localStorage := []; microtasks := []; trace := [] |}.

(** ** The writes of a batch *)

(** [() => { s1.value = v1; ...; sn.value = vn }] *)
Fixpoint writes (ws : list (SigId * jsval)) : prog :=
  match ws with
  | [] => Return VUndefined
  | (s, v) :: ws' => SetValue s v (writes ws')
  end.

(** [s.value = v] passes in [w]: the instance is live and holds another
    value, the transforms return and the validator accepts [v]. *)
Definition passes (w : world) (s : SigId) (v : jsval) : bool :=
  match signals w !! s with
  | Some sg =>
      negb (disposed sg) && negb (strict_eq (value sg) v) &&
      match transformValue (options sg) v, validateValue (options sg) v with
      | inr _, inr r => valid r
      | _, _ => false
      end
  | None => false
  end.

(** What the [change] event of such a write carries as [oldValue]: the
    result of the transforms *)
Definition reported (w : world) (s : SigId) (v : jsval) : jsval :=
  match signals w !! s with
  | Some sg => match transformValue (options sg) v with
               | inr t => t
               | inl _ => VUndefined
               end
  | None => VUndefined
  end.

(** The state after a passing write made with a batch open, the store
    aside: the value is stored and the subscribers are pending. *)
Definition batched_write (s : SigId) (v : jsval) (w : world) : world :=
  with_pendingEffects
    (match signals w !! s with
     | Some sg => queued sg (pendingEffects w)
     | None => pendingEffects w
     end)
    (assign s v w).

Fixpoint batched_writes (ws : list (SigId * jsval)) (w : world) : world :=
  match ws with
  | [] => w
  | (s, v) :: ws' => batched_writes ws' (batched_write s v w)
  end.

(** Every write of [ws] passes when its turn comes. *)
Fixpoint all_pass (w : world) (ws : list (SigId * jsval)) : bool :=
  match ws with
  | [] => true
  | (s, v) :: ws' => passes w s v && all_pass (batched_write s v w) ws'
  end.

(** What these writes add to the log with tame handlers: for each write, in
    order, the [change] emission and the calls of its handlers *)
Fixpoint writes_trace (w : world) (ws : list (SigId * jsval)) : list obs :=
  match ws with
  | [] => []
  | (s, v) :: ws' =>
      (ObsEmit s (EvChange v (reported w s v)) ::
         flat_map (handler_trace (assign s v w) (EvChange v (reported w s v)))
           (registered w s EChange)) ++
      writes_trace (batched_write s v w) ws'
  end.

(** Two instances and the function
    [() => { console.log(a.value); throw new Error("boom") }], not yet
    watched *)
Definition world_logs_then_throws : world :=
  {| effectStack := []; batchDepth := 0; pendingEffects := [];
     signals := [plain (VNum 3) [] [] None; plain (VNum 4) [] [] None];
     handlerSets := [];
     effects := [GetValue 0%nat (fun v => Log v (Throw (Error "boom")))];
     handlers := []; heap := []; localStorage := []; microtasks := [];
     trace := [] |}.

(** The state after [error = x] in the closure of [s] *)
Definition blamed (s : SigId) (x : exn) (w : world) : world :=
  with_signals (alter (with_error (Some x)) s (signals w)) w.

(** One disposed instance, still holding 7, and a function that reads it *)
Definition world_disposed : world :=
  {| effectStack := []; batchDepth := 0; pendingEffects := [];
     signals := [{| value := VNum 7; loading := false; error := None;
                    disposed := true; subscribers := []; eventHandlers := [];
                    options := None |}];
     handlerSets := [];
     effects := [GetValue 0%nat (fun v => Log v (Return VUndefined))];
     handlers := []; heap := []; localStorage := []; microtasks := [];
     trace := [] |}.

(** * Lemmas and theorems *)

Lemma frozen_refl sg : disposed sg = true -> frozen sg sg.
Proof. intros H. repeat split; auto. Qed.

Lemma frozen_trans a b c : frozen a b -> frozen b c -> frozen a c.
Proof.
  intros (D1 & V1 & S1) (D2 & V2 & S2). repeat split; auto; congruence.
Qed.

Lemma sigs_extend_refl sigs : sigs_extend sigs sigs.
Proof. intros s sg H. eauto using frozen_refl. Qed.

Lemma sigs_extend_trans a b c :
  sigs_extend a b -> sigs_extend b c -> sigs_extend a c.
Proof.
  intros Hab Hbc s sg H.
  destruct (Hab s sg H) as (sg1 & H1 & D1).
  destruct (Hbc s sg1 H1) as (sg2 & H2 & D2).
  exists sg2. split; [exact H2|]. intros Hd.
  specialize (D1 Hd). eapply frozen_trans; [exact D1|].
  apply D2. apply D1.
Qed.

Lemma sigs_extend_alter (f : signal -> signal) s sigs :
  (forall sg, disposed sg = true -> frozen sg (f sg)) ->
  sigs_extend sigs (alter f s sigs).
Proof.
  intros Hf s' sg H.
  destruct (decide (s = s')) as [->|Hne].
  - exists (f sg). split; [|auto].
    rewrite list_lookup_alter_eq, H. reflexivity.
  - exists sg. split; [|apply frozen_refl].
    rewrite list_lookup_alter_ne; auto.
Qed.

(** Any change to an instance that is not disposed *)
Lemma sigs_extend_alter_live (f : signal -> signal) s sg sigs :
  sigs !! s = Some sg -> disposed sg = false ->
  sigs_extend sigs (alter f s sigs).
Proof.
  intros Hs Hd s' sg' H.
  destruct (decide (s = s')) as [->|Hne].
  - exists (f sg'). split; [rewrite list_lookup_alter_eq, H; reflexivity|].
    intros Hd'. congruence.
  - exists sg'. split; [|apply frozen_refl].
    rewrite list_lookup_alter_ne; auto.
Qed.

Lemma sigs_extend_app sigs more : sigs_extend sigs (sigs ++ more).
Proof.
  intros s sg H. exists sg. split; [|apply frozen_refl].
  apply lookup_app_l_Some. exact H.
Qed.

Lemma sigs_extend_lookup a b (i : nat) :
  sigs_extend a b -> is_Some (a !! i) -> is_Some (b !! i).
Proof. intros H [sg Hs]. destruct (H i sg Hs) as (sg' & Hs' & _). eauto. Qed.

Lemma extends_refl w : extends w w.
Proof. split; [apply sigs_extend_refl | reflexivity | reflexivity | reflexivity]. Qed.

Lemma extends_trans a b c : extends a b -> extends b c -> extends a c.
Proof.
  intros [S1 D1 K1 T1] [S2 D2 K2 T2]. split.
  - eapply sigs_extend_trans; eauto.
  - congruence.
  - etransitivity; eauto.
  - etransitivity; eauto.
Qed.

Lemma extends_with_trace w l : extends w (with_trace (trace w ++ l) w).
Proof.
  split; cbn; [apply sigs_extend_refl | reflexivity | reflexivity |].
  now exists l.
Qed.

Lemma extends_with_signals w sigs' :
  sigs_extend (signals w) sigs' -> extends w (with_signals sigs' w).
Proof. intros H. split; cbn; [exact H | reflexivity | reflexivity | reflexivity]. Qed.

Lemma extends_with_pendingEffects w x : extends w (with_pendingEffects x w).
Proof. split; cbn; [apply sigs_extend_refl | reflexivity | reflexivity | reflexivity]. Qed.

Lemma extends_with_handlerSets w x : extends w (with_handlerSets x w).
Proof. split; cbn; [apply sigs_extend_refl | reflexivity | reflexivity | reflexivity]. Qed.

Lemma extends_with_effects w x : extends w (with_effects x w).
Proof. split; cbn; [apply sigs_extend_refl | reflexivity | reflexivity | reflexivity]. Qed.

Lemma extends_with_heap w x : extends w (with_heap x w).
Proof. split; cbn; [apply sigs_extend_refl | reflexivity | reflexivity | reflexivity]. Qed.

Lemma extends_with_localStorage w x : extends w (with_localStorage x w).
Proof. split; cbn; [apply sigs_extend_refl | reflexivity | reflexivity | reflexivity]. Qed.

Lemma extends_with_microtasks w x : extends w (with_microtasks x w).
Proof. split; cbn; [apply sigs_extend_refl | reflexivity | reflexivity | reflexivity]. Qed.

Lemma extends_push w e : extends w (with_effectStack (effectStack w ++ [e]) w).
Proof.
  split; cbn; [apply sigs_extend_refl | reflexivity | | reflexivity].
  now exists [e].
Qed.

Lemma removelast_snoc {A} (l : list A) (x : A) : removelast (l ++ [x]) = l.
Proof. rewrite List.removelast_app by discriminate. cbn. apply app_nil_r. Qed.

Lemma removelast_app_cons {A} (l : list A) (x : A) (k : list A) :
  removelast (l ++ x :: k) = l ++ removelast (x :: k).
Proof. apply List.removelast_app. discriminate. Qed.

(** Popping after a callee that pushed [e] first *)
Lemma extends_pop w e w' :
  extends (with_effectStack (effectStack w ++ [e]) w) w' ->
  extends w (with_effectStack (removelast (effectStack w')) w').
Proof.
  intros [S D K T]. cbn in *. split; cbn; auto.
  destruct K as [k K]. rewrite K.
  destruct k as [|x k].
  - rewrite app_nil_r, removelast_snoc. reflexivity.
  - rewrite <- app_assoc. cbn. exists (e :: removelast (x :: k)).
    rewrite (removelast_app_cons (effectStack w) e (x :: k)).
    cbn [removelast]. reflexivity.
Qed.

(** Leaving a batch that was entered from [w] *)
Lemma extends_leave w w' :
  extends (with_batchDepth (batchDepth w + 1) w) w' ->
  extends w (with_batchDepth (batchDepth w' - 1) w').
Proof.
  intros [S D K T]. cbn in *. split; cbn; auto. lia.
Qed.

Create HintDb ext.
#[local] Hint Resolve extends_refl extends_with_trace extends_with_signals
  extends_with_pendingEffects extends_with_handlerSets extends_with_effects
  extends_with_heap extends_with_localStorage extends_with_microtasks
  sigs_extend_alter sigs_extend_app sigs_extend_refl : ext.

Lemma pres_ret {A} (a : A) : pres (ret a).
Proof. intros w. apply extends_refl. Qed.

Lemma pres_throw {A} (x : exn) : pres (@throw A x).
Proof. intros w. apply extends_refl. Qed.

Lemma pres_gets {A} (f : world -> A) : pres (gets f).
Proof. intros w. apply extends_refl. Qed.

Lemma pres_lift {A} (r : exn + A) : pres (lift r).
Proof. destruct r; [apply pres_throw | apply pres_ret]. Qed.

Lemma pres_modify (f : world -> world) :
  (forall w, extends w (f w)) -> pres (modify f).
Proof. intros H w. apply H. Qed.

Lemma pres_bind {A B} (m : M A) (f : A -> M B) :
  pres m -> (forall a, pres (f a)) -> pres (bindM m f).
Proof.
  intros Hm Hf w. unfold bindM. specialize (Hm w).
  destruct (m w) as [a w1|x w1|]; auto.
  specialize (Hf a w1). destruct (f a w1); auto; eapply extends_trans; eauto.
Qed.

Lemma pres_try_catch {A} (m : M A) (h : exn -> M A) :
  pres m -> (forall x, pres (h x)) -> pres (try_catch m h).
Proof.
  intros Hm Hh w. unfold try_catch. specialize (Hm w).
  destruct (m w) as [a w1|x w1|]; auto.
  specialize (Hh x w1). destruct (h x w1); auto; eapply extends_trans; eauto.
Qed.

Lemma pres_try_finally {A} (m : M A) (f : M unit) :
  pres m -> pres f -> pres (try_finally m f).
Proof.
  intros Hm Hf w. unfold try_finally. specialize (Hm w).
  destruct (m w) as [a w1|x w1|]; auto.
  - assert (H : pres (f ;; ret a)) by (apply pres_bind; [auto | intros; apply pres_ret]).
    specialize (H w1). destruct ((f ;; ret a) w1); auto; eapply extends_trans; eauto.
  - assert (H : pres (f ;; @throw A x)) by (apply pres_bind; [auto | intros; apply pres_throw]).
    specialize (H w1). destruct ((f ;; throw x) w1); auto; eapply extends_trans; eauto.
Qed.

Lemma pres_get_signal s : pres (get_signal s).
Proof. intros w. unfold get_signal. destruct (signals w !! s); apply extends_refl. Qed.

Lemma pres_observe o : pres (observe o).
Proof. apply pres_modify. intros w. apply extends_with_trace. Qed.

Lemma pres_modify_signal s (f : signal -> signal) :
  (forall sg, disposed sg = true -> frozen sg (f sg)) ->
  pres (modify_signal s f).
Proof. intros H. apply pres_modify. intros w. auto with ext. Qed.

Lemma pres_modify_handlerSet id f : pres (modify_handlerSet id f).
Proof. apply pres_modify. intros w. auto with ext. Qed.

Lemma jsset_clear_elements s : jsset_elements (jsset_clear s) = [].
Proof. induction s as [|o s IH]; [reflexivity|]. cbn. exact IH. Qed.

Create HintDb pres.

Ltac solve_frozen :=
  repeat split; cbn; auto;
  try (rewrite jsset_clear_elements; intros ? []).

Ltac pres_step :=
  first
    [ solve [auto with pres nocore]
    | progress cbv zeta
    | apply pres_ret | apply pres_throw | apply pres_gets | apply pres_lift
    | apply pres_get_signal | apply pres_observe | apply pres_modify_handlerSet
    | apply pres_modify_signal; intros ? ?; solve [solve_frozen]
    | apply pres_bind; [|intros]
    | apply pres_try_catch; [|intros]
    | apply pres_modify; intros; solve [auto with ext]
    | match goal with
      | H : forall c, pres (?rec c) |- pres (?rec _) => apply H
      | H : pres ?m |- pres ?m => exact H
      | |- pres (match ?x with _ => _ end) => destruct x
      end ].

Ltac pres_tac := repeat pres_step.

Section PresKnot.

Variable JSON_stringify : list hobj -> jsval -> exn + string.
Variable JSON_parse : string -> list hobj -> exn + (jsval * list hobj).
Variable rec : call -> M jsval.
Hypothesis Hrec : forall c, pres (rec c).

Lemma pres_forEach r cb : pres (forEach rec r cb).
Proof. unfold forEach. pres_tac. Qed.
#[local] Hint Resolve pres_forEach : pres.

Lemma pres_callEffect e : pres (callEffect rec e).
Proof. unfold callEffect. pres_tac. Qed.
#[local] Hint Resolve pres_callEffect : pres.

Lemma pres_callHandler h ev : pres (callHandler rec h ev).
Proof. unfold callHandler. pres_tac. Qed.
#[local] Hint Resolve pres_callHandler : pres.

Lemma pres_forEach_from r i cb : pres (forEach_from rec r i cb).
Proof.
  unfold forEach_from, apply_callback, guarded_handler.
  pres_tac.
Qed.
#[local] Hint Resolve pres_forEach_from : pres.

Lemma pres_emitEvent s ev : pres (emitEvent rec s ev).
Proof. unfold emitEvent. pres_tac. Qed.
#[local] Hint Resolve pres_emitEvent : pres.

Lemma pres_persistValue s : pres (persistValue JSON_stringify s).
Proof. unfold persistValue. pres_tac. Qed.
#[local] Hint Resolve pres_persistValue : pres.

Lemma pres_notify s old : pres (notify JSON_stringify rec s old).
Proof.
  unfold notify, queue_subscribers.
  pres_tac.
Qed.
#[local] Hint Resolve pres_notify : pres.

Lemma pres_get_value s : pres (get_value s).
Proof.
  intros w. unfold get_value, bindM at 1, get_signal.
  destruct (signals w !! s) as [sg|] eqn:Hs; [|apply extends_refl].
  destruct (disposed sg) eqn:Hd; [apply extends_refl|].
  unfold bindM at 1, gets. destruct (last (effectStack w)); [|apply extends_refl].
  cbn. apply extends_with_signals. eapply sigs_extend_alter_live; eauto.
Qed.
#[local] Hint Resolve pres_get_value : pres.

(** The [try] block of the setter, entered on an instance that is not
    disposed *)
Lemma set_value_try_extends s sg v w :
  signals w !! s = Some sg -> disposed sg = false ->
  match set_value_try JSON_stringify rec s sg v w with
  | Ok _ w' | Thrown _ w' => extends w w'
  | OutOfFuel => True
  end.
Proof.
  intros Hs Hd. unfold set_value_try.
  destruct (strict_eq (value sg) v); [apply extends_refl|].
  destruct (transformValue (options sg) v) as [x|t]; [apply extends_refl|].
  unfold bindM at 1. cbn [lift ret].
  destruct (validateValue (options sg) v) as [x|r]; [apply extends_refl|].
  unfold bindM at 1. cbn [lift ret].
  destruct (valid r); cbn [negb].
  - unfold bindM at 1, modify_signal, modify.
    pose proof (pres_notify s t (with_signals (alter (with_value v) s (signals w)) w)) as Hn.
    assert (He : extends w (with_signals (alter (with_value v) s (signals w)) w)).
    { apply extends_with_signals. eapply sigs_extend_alter_live; eauto. }
    destruct (notify _ _ _ _ _); auto; eapply extends_trans; eauto.
  - apply pres_emitEvent.
Qed.

Lemma pres_set_value_catch s sg err : pres (set_value_catch rec s sg err).
Proof. unfold set_value_catch. pres_tac. Qed.

Lemma pres_set_value s v : pres (set_value JSON_stringify rec s v).
Proof.
  intros w. unfold set_value, bindM at 1, get_signal.
  destruct (signals w !! s) as [sg|] eqn:Hs; [|apply extends_refl].
  destruct (disposed sg) eqn:Hd; [apply extends_refl|].
  pose proof (set_value_try_extends s sg v w Hs Hd) as Hbody.
  unfold try_catch. destruct (set_value_try _ _ s sg v w) as [a w1|x w1|]; auto.
  pose proof (pres_set_value_catch s sg x w1) as Hh.
  destruct (set_value_catch rec s sg x w1); auto; eapply extends_trans; eauto.
Qed.
#[local] Hint Resolve pres_set_value : pres.

Lemma pres_on s ty h : pres (on s ty h).
Proof. unfold on. pres_tac. Qed.
#[local] Hint Resolve pres_on : pres.

Lemma pres_unsubscribe s ty h : pres (unsubscribe s ty h).
Proof. unfold unsubscribe. pres_tac. Qed.
#[local] Hint Resolve pres_unsubscribe : pres.

Lemma pres_dispose s : pres (dispose rec s).
Proof. unfold dispose. pres_tac. Qed.
#[local] Hint Resolve pres_dispose : pres.

Lemma pres_resin init opts : pres (resin JSON_parse init opts).
Proof.
  unfold resin, restore, enhanceArray, enhanceMap, new_Proxy.
  pres_tac.
Qed.
#[local] Hint Resolve pres_resin : pres.

Lemma pres_watchEffect e : pres (watchEffect rec e).
Proof.
  intros w. unfold watchEffect, bindM, modify.
  pose proof (pres_callEffect e (with_effectStack (effectStack w ++ [e]) w)) as H.
  destruct (callEffect rec e _) as [[] w1|x w1|]; auto.
  - eapply extends_pop; eauto.
  - eapply extends_trans; [apply extends_push | exact H].
Qed.
#[local] Hint Resolve pres_watchEffect : pres.

Lemma pres_batch fn : pres (batch rec fn).
Proof.
  intros w. unfold batch, bindM at 1, modify at 1.
  set (w0 := with_batchDepth (batchDepth w + 1) w).
  unfold try_finally.
  assert (Hm : pres (rec (Invoke fn) ;; ret tt)) by pres_tac.
  specialize (Hm w0).
  set (fin := (modify _ ;; _)) in *.
  assert (Hfin : forall w1, extends w0 w1 ->
            match fin w1 with
            | Ok _ w' | Thrown _ w' => extends w w'
            | OutOfFuel => True
            end).
  { intros w1 H1. subst fin. unfold bindM at 1, modify at 1.
    unfold bindM at 1, gets at 1. cbn [batchDepth with_batchDepth].
    apply extends_leave in H1.
    set (w2 := with_batchDepth (batchDepth w1 - 1) w1) in *.
    assert (Hrest : pres (if batchDepth w1 - 1 =? 0
                          then forEach rec PendingEffects RunEffect ;;
                               modify (fun w => with_pendingEffects (jsset_clear (pendingEffects w)) w)
                          else ret tt)).
    { pres_tac. }
    specialize (Hrest w2).
    match goal with |- match ?t with _ => _ end => destruct t end; auto;
      eapply extends_trans; eauto. }
  destruct ((rec (Invoke fn) ;; ret tt) w0) as [a w1|x w1|]; auto.
  - unfold bindM at 1. specialize (Hfin w1 Hm). destruct (fin w1); auto.
  - unfold bindM at 1. specialize (Hfin w1 Hm). destruct (fin w1); auto.
Qed.
#[local] Hint Resolve pres_batch : pres.

Lemma pres_new_effect body : pres (new_effect body).
Proof. unfold new_effect. pres_tac. Qed.
#[local] Hint Resolve pres_new_effect : pres.

Lemma pres_computed fn : pres (computed JSON_parse rec fn).
Proof. unfold computed. pres_tac. Qed.
#[local] Hint Resolve pres_computed : pres.

Lemma pres_read_sources from : pres (read_sources from).
Proof. induction from as [|dep rest IH]; cbn; pres_tac. Qed.
#[local] Hint Resolve pres_read_sources : pres.

Lemma pres_derive from compute : pres (derive JSON_parse rec from compute).
Proof. unfold derive. pres_tac. Qed.
#[local] Hint Resolve pres_derive : pres.

Lemma jsset_delete_In e x s :
  In x (jsset_elements (jsset_delete e s)) -> In x (jsset_elements s).
Proof.
  induction s as [|[y|] s IH]; cbn; auto.
  destruct (Nat.eqb e y); cbn; intuition.
Qed.

Lemma sigs_extend_unsubscribe e (from : list SigId) sigs :
  sigs_extend sigs
    (fold_left (fun sigs dep =>
                  alter (fun sg => with_subscribers (jsset_delete e (subscribers sg)) sg)
                        dep sigs) from sigs).
Proof.
  revert sigs. induction from as [|dep rest IH]; intros sigs; cbn.
  - apply sigs_extend_refl.
  - eapply sigs_extend_trans; [|apply IH].
    apply sigs_extend_alter. intros sg Hd. repeat split; auto.
    cbn. intros x. apply jsset_delete_In.
Qed.

Lemma pres_dispose_derived d : pres (dispose_derived rec d).
Proof.
  unfold dispose_derived. pres_tac.
  apply pres_modify. intros w. apply extends_with_signals, sigs_extend_unsubscribe.
Qed.
#[local] Hint Resolve pres_dispose_derived : pres.

Lemma pres_select state path : pres (select JSON_parse rec state path).
Proof. unfold select. cbn. pres_tac. Qed.
#[local] Hint Resolve pres_select : pres.

Lemma pres_run p : pres (run JSON_stringify JSON_parse rec p).
Proof. induction p; cbn [run]; pres_tac. Qed.

End PresKnot.

(** Every call that comes back leaves a state that extends the one it
    started from. *)
Lemma exec_extends JSON_stringify JSON_parse fuel c :
  pres (exec JSON_stringify JSON_parse fuel c).
Proof.
  revert c. induction fuel as [|n IH]; intros c; [intros w; exact I|].
  destruct c; cbn [exec].
  - apply pres_run. exact IH.
  - apply pres_bind; [apply pres_forEach_from; exact IH | intros; apply pres_ret].
  - apply pres_bind; [apply pres_emitEvent; exact IH | intros; apply pres_ret].
Qed.

(** ** Tame callbacks *)

Lemma same_frame_refl w : same_frame w w.
Proof. repeat split; auto. intros s sg H. exists sg. auto. Qed.

Lemma same_frame_trans a b c : same_frame a b -> same_frame b c -> same_frame a c.
Proof.
  intros (A3 & A4 & A5 & A6 & A7) (B3 & B4 & B5 & B6 & B7).
  repeat split; try congruence.
  intros s sg H. destruct (A7 s sg H) as (sg1 & H1 & D1 & S1 & E1 & O1).
  destruct (B7 s sg1 H1) as (sg2 & H2 & D2 & S2 & E2 & O2).
  exists sg2. repeat split; congruence.
Qed.

Lemma same_frame_alive w w' s : same_frame w w' -> alive w s = true -> alive w' s = true.
Proof.
  intros (_ & _ & _ & _ & F) H. unfold alive in *.
  destruct (signals w !! s) as [sg|] eqn:E; [|discriminate].
  destruct (F s sg E) as (sg' & -> & D & _). congruence.
Qed.

Lemma same_frame_tame w w' p : same_frame w w' -> tame w p -> tame w' p.
Proof.
  intros F H. induction H; constructor; eauto using same_frame_alive.
Qed.

Lemma same_frame_assign s v w : same_frame w (assign s v w).
Proof.
  repeat split; cbn; auto.
  - apply length_alter.
  - intros s' sg H. destruct (decide (s = s')) as [->|Hne].
    + exists (with_value v sg). rewrite list_lookup_alter_eq, H. auto.
    + exists sg. rewrite list_lookup_alter_ne; auto.
Qed.

Lemma same_frame_with_pendingEffects q w : same_frame w (with_pendingEffects q w).
Proof. repeat split; cbn; auto. intros s sg H. exists sg. auto. Qed.

Lemma same_frame_with_localStorage ls w : same_frame w (with_localStorage ls w).
Proof. repeat split; cbn; auto. intros s sg H. exists sg. auto. Qed.

Lemma same_frame_with_trace t w : same_frame w (with_trace t w).
Proof. repeat split; cbn; auto. intros s sg H. exists sg. auto. Qed.

Lemma same_frame_effects_tame w w' entries :
  same_frame w w' -> effects_tame w entries -> effects_tame w' entries.
Proof.
  intros F H e He. destruct (H e He) as (body & Hb & Ht).
  exists body. split; [|eauto using same_frame_tame].
  destruct F as (-> & _). exact Hb.
Qed.

Lemma same_frame_back w w' s sg' :
  same_frame w w' -> signals w' !! s = Some sg' ->
  exists sg, signals w !! s = Some sg /\
    disposed sg' = disposed sg /\ subscribers sg' = subscribers sg /\
    eventHandlers sg' = eventHandlers sg /\ options sg' = options sg.
Proof.
  intros (_ & _ & _ & L & F) H.
  destruct (signals w !! s) as [sg|] eqn:E.
  - destruct (F s sg E) as (sg1 & H1 & R). exists sg.
    assert (sg1 = sg') by congruence. subst. auto.
  - apply lookup_ge_None in E. apply lookup_lt_Some in H. lia.
Qed.

Lemma same_frame_handlers_tame w w' s ev :
  same_frame w w' -> handlers_tame w s ev -> handlers_tame w' s ev.
Proof.
  intros F H sg' id h Hs Ha Hin.
  destruct (same_frame_back w w' s sg' F Hs) as (sg & Hsg & _ & _ & He & _).
  pose proof F as (_ & Hh & Hhs & _).
  destruct (H sg id h Hsg) as (f & Hf & Ht).
  - rewrite <- He. exact Ha.
  - unfold read_set in *. rewrite <- Hhs. exact Hin.
  - exists f. split; [congruence | eauto using same_frame_tame].
Qed.

(** A tame callback returns a value and appends its output to the log; both
    depend only on the instances. *)
Lemma run_tame w p :
  tame w p -> effectStack w = [] ->
  exists v out,
    Forall (fun o => is_log o = true) out /\
    (forall JS JP rec t,
       run JS JP rec p (with_trace t w) = Ok v (with_trace (t ++ out) w)) /\
    (forall JS JP rec t f,
       run JS JP rec (bind_prog p f) (with_trace t w)
         = run JS JP rec (f v) (with_trace (t ++ out) w)).
Proof.
  intros H Hstack. induction H as [v|v k H IH|s k Hs Hk IH].
  - exists v, []. split; [constructor|]. split; intros; rewrite app_nil_r; reflexivity.
  - destruct IH as (r & out & Hout & Hrun & Hbind).
    exists r, (ObsLog v :: out). split; [constructor; auto|]. split.
    + intros JS JP rec t. cbn [run]. unfold bindM, observe, modify. cbn.
      change (run JS JP rec k (with_trace (t ++ [ObsLog v]) w) =
              Ok r (with_trace (t ++ ObsLog v :: out) w)).
      rewrite Hrun, <- app_assoc. reflexivity.
    + intros JS JP rec t f. cbn [bind_prog run]. unfold bindM, observe, modify. cbn.
      change (run JS JP rec (bind_prog k f) (with_trace (t ++ [ObsLog v]) w) =
              run JS JP rec (f r) (with_trace (t ++ ObsLog v :: out) w)).
      rewrite Hbind, <- app_assoc. reflexivity.
  - unfold alive in Hs. destruct (signals w !! s) as [sg|] eqn:E; [|discriminate].
    destruct (IH (value sg)) as (r & out & Hout & Hrun & Hbind).
    exists r, out. split; [exact Hout|]. split.
    + intros JS JP rec t. cbn [run]. unfold bindM, get_value, bindM, get_signal. cbn.
      rewrite E. destruct (disposed sg); [discriminate|].
      unfold gets. cbn. rewrite Hstack. cbn. apply Hrun.
    + intros JS JP rec t f. cbn [bind_prog run].
      unfold bindM, get_value, bindM, get_signal. cbn.
      rewrite E. destruct (disposed sg); [discriminate|].
      unfold gets. cbn. rewrite Hstack. cbn. apply Hbind.
Qed.

Lemma read_set_with_trace r t w : read_set r (with_trace t w) = read_set r w.
Proof. destruct r; reflexivity. Qed.

Lemma jsset_elements_app a b :
  jsset_elements (a ++ b) = jsset_elements a ++ jsset_elements b.
Proof.
  induction a as [|[x|] a IH]; cbn; [reflexivity | rewrite IH; reflexivity | exact IH].
Qed.

(** [forEach] over callbacks that are quiet: every entry from [i] on is
    visited once, in order. *)
Lemma each_quiet JS JP (Q : nat -> list obs -> Prop) r cb w :
  forall fuel i,
    (length (read_set r w) - i < fuel)%nat ->
    (forall x, In x (jsset_elements (drop i (read_set r w))) ->
       forall n, quiet (apply_callback (exec JS JP (S n)) cb x) w (Q x)) ->
    forall t, exists outs,
      exec JS JP fuel (Each r i cb) (with_trace t w)
        = Ok VUndefined (with_trace (t ++ concat outs) w) /\
      Forall2 Q (jsset_elements (drop i (read_set r w))) outs.
Proof.
  induction fuel as [|f IH]; intros i Hfuel Hcb t; [lia|].
  cbn [exec]. unfold bindM at 1, forEach_from, bindM at 1, gets at 1.
  rewrite read_set_with_trace.
  destruct (read_set r w !! i) as [o|] eqn:E.
  - pose proof (lookup_lt_Some _ _ _ E) as Hlt.
    rewrite (drop_S _ _ _ E) in *.
    assert (Hf : (length (read_set r w) - S i < f)%nat) by lia.
    destruct o as [x|].
    + destruct f as [|n]; [lia|].
      destruct (Hcb x (or_introl eq_refl) n t) as (out & Hrun & Hq).
      unfold bindM at 1. rewrite Hrun.
      destruct (IH (S i) Hf) with (t := t ++ out) as (outs & Hrest & Hqs).
      { intros y Hy. apply Hcb. right. exact Hy. }
      exists (out :: outs). split; [|constructor; auto].
      unfold bindM at 1. rewrite Hrest. cbn. rewrite app_assoc. reflexivity.
    + destruct (IH (S i) Hf) with (t := t) as (outs & Hrest & Hqs).
      { intros y Hy. apply Hcb. exact Hy. }
      exists outs. split; [|exact Hqs].
      unfold bindM at 1. rewrite Hrest. reflexivity.
  - apply lookup_ge_None in E. rewrite drop_ge by lia.
    exists []. cbn. rewrite app_nil_r. split; [reflexivity | constructor].
Qed.

Lemma callEffect_tame JS JP n w e body :
  effects w !! e = Some body -> tame w body -> effectStack w = [] ->
  quiet (callEffect (exec JS JP (S n)) e) w (effect_out e).
Proof.
  intros He Ht Hstack t.
  destruct (run_tame w body Ht Hstack) as (v & out & Hout & Hrun & _).
  specialize (Hrun JS JP (exec JS JP n) (t ++ [ObsRun e])).
  exists (ObsRun e :: out). split; [|exists out; auto].
  unfold callEffect, bindM at 1, gets at 1. cbn [effects with_trace]. rewrite He.
  unfold bindM at 1, observe, modify. cbn [trace with_trace].
  change (with_trace (t ++ [ObsRun e]) (with_trace t w))
    with (with_trace (t ++ [ObsRun e]) w).
  unfold bindM at 1. cbn [exec]. rewrite Hrun, <- app_assoc. reflexivity.
Qed.

Lemma guarded_handler_tame JS JP n w s ev h f :
  handlers w !! h = Some f -> tame w (f ev) -> effectStack w = [] ->
  quiet (guarded_handler (exec JS JP (S n)) s ev h) w (handler_out ev h).
Proof.
  intros Hh Ht Hstack t.
  destruct (run_tame w (f ev) Ht Hstack) as (v & out & Hout & Hrun & _).
  specialize (Hrun JS JP (exec JS JP n) (t ++ [ObsHandle h ev])).
  exists (ObsHandle h ev :: out). split; [|exists out; auto].
  unfold guarded_handler, try_catch, callHandler, bindM at 1, gets at 1.
  cbn [handlers with_trace]. rewrite Hh.
  unfold bindM at 1, observe, modify. cbn [trace with_trace].
  change (with_trace (t ++ [ObsHandle h ev]) (with_trace t w))
    with (with_trace (t ++ [ObsHandle h ev]) w).
  unfold bindM at 1. cbn [exec]. rewrite Hrun, <- app_assoc. reflexivity.
Qed.

Lemma Forall_concat {A} (P : A -> Prop) (ls : list (list A)) :
  Forall (Forall P) ls -> Forall P (concat ls).
Proof.
  induction 1; cbn; [constructor | apply Forall_app; auto].
Qed.

Lemma handler_out_obs ev xs outs :
  Forall2 (handler_out ev) xs outs ->
  Forall (fun o => handler_obs o = true) (concat outs).
Proof.
  intros H. apply Forall_concat. induction H as [|x out xs outs Hx _ IH]; constructor; auto.
  destruct Hx as (logs & -> & Hl). constructor; [reflexivity|].
  eapply Forall_impl; [exact Hl|]. intros [] Ho; try discriminate; reflexivity.
Qed.

(** How many entries the handler set of [s] for [ty] has *)
Lemma emitEvent_tame JS JP w s sg ev :
  signals w !! s = Some sg -> handlers_tame w s ev -> effectStack w = [] ->
  exists N, forall fuel, (N <= fuel)%nat ->
  forall t, exists out,
    emitEvent (exec JS JP fuel) s ev (with_trace t w)
      = Ok tt (with_trace (t ++ ObsEmit s ev :: out) w) /\
    Forall (fun o => handler_obs o = true) out.
Proof.
  intros Hs Hh Hstack.
  destruct (assoc EventType_eqb (event_type ev) (eventHandlers sg)) as [id|] eqn:Ha.
  - exists (S (length (read_set (Handlers id) w))). intros fuel Hfuel t.
    destruct (each_quiet JS JP (handler_out ev) (Handlers id) (HandleEvent s ev) w
                fuel 0%nat) with (t := t ++ [ObsEmit s ev]) as (outs & Hrun & Hq).
    { lia. }
    { intros h Hin n. rewrite drop_0 in Hin.
      destruct (Hh sg id h Hs Ha Hin) as (f & Hf & Ht).
      cbn [apply_callback]. eapply guarded_handler_tame; eauto. }
    exists (concat outs). split; [|rewrite drop_0 in Hq; eapply handler_out_obs; eauto].
    unfold emitEvent, bindM at 1, observe, modify. cbn [trace with_trace].
    change (with_trace (t ++ [ObsEmit s ev]) (with_trace t w))
      with (with_trace (t ++ [ObsEmit s ev]) w).
    unfold bindM at 1, get_signal. cbn [signals with_trace]. rewrite Hs, Ha.
    unfold forEach, bindM at 1. rewrite Hrun, <- app_assoc. reflexivity.
  - exists 0%nat. intros fuel _ t. exists []. split; [|constructor].
    unfold emitEvent, bindM at 1, observe, modify. cbn [trace with_trace].
    unfold bindM at 1, get_signal. cbn [signals with_trace]. rewrite Hs, Ha.
    reflexivity.
Qed.

Lemma with_trace_id w : with_trace (trace w) w = w.
Proof. destruct w; reflexivity. Qed.

Lemma emits_of_handler_obs s ty out :
  Forall (fun o => handler_obs o = true) out -> emits_of s ty out = 0%nat.
Proof.
  unfold emits_of. induction 1 as [|o out Ho _ IH]; [reflexivity|].
  destruct o; try discriminate; cbn; exact IH.
Qed.

Lemma runs_of_handler_obs e out :
  Forall (fun o => handler_obs o = true) out -> runs_of e out = 0%nat.
Proof.
  unfold runs_of. induction 1 as [|o out Ho _ IH]; [reflexivity|].
  destruct o; try discriminate; cbn; exact IH.
Qed.

(** ** What tame callbacks write to the log *)

Lemma count_app f a b : count f (a ++ b) = (count f a + count f b)%nat.
Proof.
  induction a as [|o a IH]; [reflexivity|].
  cbn. destruct (f o); rewrite IH; reflexivity.
Qed.

Lemma count_none f l : Forall (fun o => f o = false) l -> count f l = 0%nat.
Proof.
  induction 1 as [|o l Ho _ IH]; [reflexivity|]. cbn. rewrite Ho. exact IH.
Qed.

Lemma registered_same_frame w w' s ty :
  same_frame w w' -> is_Some (signals w !! s) -> registered w' s ty = registered w s ty.
Proof.
  intros F [sg Hs]. unfold registered, read_set. rewrite Hs.
  destruct F as (_ & _ & Hhs & _ & F). destruct (F s sg Hs) as (sg' & -> & _ & _ & -> & _).
  rewrite Hhs. reflexivity.
Qed.

Lemma output_logs h sigs p : Forall (fun o => is_log o = true) (output h sigs p).
Proof.
  induction p; cbn [output]; try constructor; auto.
  destruct (sigs !! s); [auto | constructor].
Qed.

Lemma run_tame_output w p :
  tame w p -> effectStack w = [] ->
  forall JS JP rec t,
    run JS JP rec p (with_trace t w)
      = Ok (returns (heap w) (signals w) p)
           (with_trace (t ++ output (heap w) (signals w) p) w).
Proof.
  intros H Hstack. induction H as [v|v k H IH|s k Hs Hk IH]; intros JS JP rec t.
  - cbn. rewrite app_nil_r. reflexivity.
  - cbn [run output returns]. unfold bindM, observe, modify. cbn [trace with_trace].
    change (with_trace (t ++ [ObsLog v]) (with_trace t w))
      with (with_trace (t ++ [ObsLog v]) w).
    rewrite IH, <- app_assoc. reflexivity.
  - unfold alive in Hs. destruct (signals w !! s) as [sg|] eqn:E; [|discriminate].
    destruct (disposed sg) eqn:Hd; [discriminate|].
    cbn [run output returns]. rewrite E.
    unfold bindM at 1, get_value, bindM at 1, get_signal. cbn [signals with_trace].
    rewrite E, Hd. unfold bindM at 1, gets at 1. cbn [effectStack with_trace].
    rewrite Hstack. cbn [last]. unfold ret at 1. apply IH.
Qed.

Lemma callEffect_traced JS JP n w e body :
  effects w !! e = Some body -> tame w body -> effectStack w = [] ->
  quiet (callEffect (exec JS JP (S n)) e) w (fun out => out = effect_trace w e).
Proof.
  intros He Ht Hstack t.
  exists (effect_trace w e). split; [|reflexivity].
  unfold effect_trace. rewrite He.
  unfold callEffect, bindM at 1, gets at 1. cbn [effects with_trace]. rewrite He.
  unfold bindM at 1, observe, modify. cbn [trace with_trace].
  change (with_trace (t ++ [ObsRun e]) (with_trace t w))
    with (with_trace (t ++ [ObsRun e]) w).
  unfold bindM at 1. cbn [exec].
  rewrite (run_tame_output w body Ht Hstack), <- app_assoc. reflexivity.
Qed.

Lemma guarded_handler_traced JS JP n w s ev h f :
  handlers w !! h = Some f -> tame w (f ev) -> effectStack w = [] ->
  quiet (guarded_handler (exec JS JP (S n)) s ev h) w (fun out => out = handler_trace w ev h).
Proof.
  intros Hh Ht Hstack t.
  exists (handler_trace w ev h). split; [|reflexivity].
  unfold handler_trace. rewrite Hh.
  unfold guarded_handler, try_catch, callHandler, bindM at 1, gets at 1.
  cbn [handlers with_trace]. rewrite Hh.
  unfold bindM at 1, observe, modify. cbn [trace with_trace].
  change (with_trace (t ++ [ObsHandle h ev]) (with_trace t w))
    with (with_trace (t ++ [ObsHandle h ev]) w).
  unfold bindM at 1. cbn [exec].
  rewrite (run_tame_output w (f ev) Ht Hstack), <- app_assoc. reflexivity.
Qed.

Lemma concat_traces {A} (F : A -> list obs) xs outs :
  Forall2 (fun x out => out = F x) xs outs -> concat outs = flat_map F xs.
Proof. induction 1; cbn; [reflexivity | congruence]. Qed.

(** [forEach] over tame effects: each entry is called once, in order. *)
Lemma each_effect_traced JS JP r w :
  effectStack w = [] -> effects_tame w (read_set r w) ->
  forall fuel, (length (read_set r w) < fuel)%nat ->
  forall t,
    exec JS JP fuel (Each r 0 RunEffect) (with_trace t w)
      = Ok VUndefined
          (with_trace (t ++ flat_map (effect_trace w) (jsset_elements (read_set r w))) w).
Proof.
  intros Hstack Ht fuel Hfuel t.
  destruct (each_quiet JS JP (fun e out => out = effect_trace w e) r RunEffect w fuel 0%nat)
    with (t := t) as (outs & Hrun & Hq).
  { lia. }
  { intros e Hin n. rewrite drop_0 in Hin.
    destruct (Ht e Hin) as (body & Hb & Hbt).
    cbn [apply_callback]. eapply callEffect_traced; eauto. }
  rewrite drop_0 in Hq. rewrite Hrun, (concat_traces _ _ _ Hq). reflexivity.
Qed.

(** [emitEvent] with tame handlers: the emission, then each registered
    handler once, in registration order, the state unchanged. *)
Lemma emitEvent_traced JS JP w s sg ev :
  signals w !! s = Some sg -> handlers_tame w s ev -> effectStack w = [] ->
  exists N, forall fuel, (N <= fuel)%nat ->
  forall t,
    emitEvent (exec JS JP fuel) s ev (with_trace t w)
      = Ok tt (with_trace
                 (t ++ ObsEmit s ev ::
                    flat_map (handler_trace w ev) (registered w s (event_type ev))) w).
Proof.
  intros Hs Hh Hstack. unfold registered. rewrite Hs.
  destruct (assoc EventType_eqb (event_type ev) (eventHandlers sg)) as [id|] eqn:Ha.
  - exists (S (length (read_set (Handlers id) w))). intros fuel Hfuel t.
    destruct (each_quiet JS JP (fun h out => out = handler_trace w ev h)
                (Handlers id) (HandleEvent s ev) w fuel 0%nat)
      with (t := t ++ [ObsEmit s ev]) as (outs & Hrun & Hq).
    { lia. }
    { intros h Hin n. rewrite drop_0 in Hin.
      destruct (Hh sg id h Hs Ha Hin) as (f & Hf & Ht).
      cbn [apply_callback]. eapply guarded_handler_traced; eauto. }
    rewrite drop_0 in Hq.
    unfold emitEvent, bindM at 1, observe, modify. cbn [trace with_trace].
    change (with_trace (t ++ [ObsEmit s ev]) (with_trace t w))
      with (with_trace (t ++ [ObsEmit s ev]) w).
    unfold bindM at 1, get_signal. cbn [signals with_trace]. rewrite Hs, Ha.
    unfold forEach, bindM at 1. rewrite Hrun, (concat_traces _ _ _ Hq), <- app_assoc.
    reflexivity.
  - exists 0%nat. intros fuel _ t.
    unfold emitEvent, bindM at 1, observe, modify. cbn [trace with_trace].
    unfold bindM at 1, get_signal. cbn [signals with_trace]. rewrite Hs, Ha.
    reflexivity.
Qed.

Lemma count_flat_map {A} f (F : A -> list obs) xs :
  (forall x, In x xs -> count f (F x) = 0%nat) -> count f (flat_map F xs) = 0%nat.
Proof.
  induction xs as [|x xs IH]; intros H; cbn [flat_map]; [reflexivity|].
  rewrite count_app, H, IH; auto using in_eq, in_cons.
Qed.

Lemma count_output f h sigs p :
  (forall v, f (ObsLog v) = false) -> count f (output h sigs p) = 0%nat.
Proof.
  intros Hf. pose proof (output_logs h sigs p) as H.
  induction H as [|o l Ho _ IH]; [reflexivity|].
  destruct o; try discriminate. cbn [count]. rewrite Hf. exact IH.
Qed.

Lemma handler_trace_no_run w ev h e : count (is_run e) (handler_trace w ev h) = 0%nat.
Proof.
  unfold handler_trace. destruct (handlers w !! h); [|reflexivity].
  cbn [count is_run]. apply count_output. reflexivity.
Qed.

Lemma handler_trace_no_emit w ev h s ty : count (is_emit s ty) (handler_trace w ev h) = 0%nat.
Proof.
  unfold handler_trace. destruct (handlers w !! h); [|reflexivity].
  cbn [count is_emit]. apply count_output. reflexivity.
Qed.

Lemma effect_trace_no_emit w e s ty : count (is_emit s ty) (effect_trace w e) = 0%nat.
Proof.
  unfold effect_trace. destruct (effects w !! e); [|reflexivity].
  cbn [count is_emit]. apply count_output. reflexivity.
Qed.

Lemma effect_trace_runs w e e' :
  is_Some (effects w !! e') ->
  count (is_run e) (effect_trace w e') = (if Nat.eqb e e' then 1 else 0)%nat.
Proof.
  intros [body Hb]. unfold effect_trace. rewrite Hb. cbn [count is_run].
  rewrite (count_output (is_run e)) by reflexivity.
  destruct (e =? e')%nat; reflexivity.
Qed.

(** ** Handlers and disposal *)

(** No disposed check in [on]: on a disposed instance it still returns
    normally. *)
Lemma on_is_not_guarded s ty h w :
  is_Some (signals w !! s) -> exists w', on s ty h w = Ok tt w'.
Proof.
  intros [sg Hs]. unfold on, bindM at 1, get_signal. rewrite Hs.
  destruct (assoc EventType_eqb ty (eventHandlers sg)); cbn; eauto.
Qed.

(** ** Validation *)



(** ** Writes that pass *)

Lemma persistValue_ok JS w s sg :
  signals w !! s = Some sg ->
  exists ls, forall t,
    persistValue JS s (with_trace t w) = Ok tt (with_trace t (with_localStorage ls w)).
Proof.
  intros Hs. unfold persistValue, bindM, get_signal. cbn [signals with_trace].
  rewrite Hs. destruct (options sg ≫= persist) as [p|].
  - unfold gets. cbn [heap with_trace].
    destruct (match serialize p with
              | Some f => f (value sg)
              | None => JS (heap w) (value sg)
              end) as [x|str].
    + exists (localStorage w). intros t. destruct w; reflexivity.
    + exists (setItem (key p) str (localStorage w)). intros t. reflexivity.
  - exists (localStorage w). intros t. destruct w; reflexivity.
Qed.

Lemma assign_lookup s v w sg :
  signals w !! s = Some sg -> signals (assign s v w) !! s = Some (with_value v sg).
Proof. intros H. cbn. rewrite list_lookup_alter_eq, H. reflexivity. Qed.

(** A passing write while a batch is open: the value is stored, the
    subscribers are queued and none is called, the [change] event is
    emitted at once. *)
Lemma write_in_batch JS JP w s sg v old r :
  signals w !! s = Some sg ->
  disposed sg = false ->
  strict_eq (value sg) v = false ->
  transformValue (options sg) v = inr old ->
  validateValue (options sg) v = inr r -> valid r = true ->
  0 < batchDepth w ->
  effectStack w = [] ->
  handlers_tame w s (EvChange v old) ->
  exists N ls, forall fuel, (N <= fuel)%nat ->
  forall t, exists hout,
    set_value JS (exec JS JP fuel) s v (with_trace t w)
      = Ok tt (with_trace (t ++ ObsEmit s (EvChange v old) :: hout)
                 (with_localStorage ls
                    (with_pendingEffects (queued sg (pendingEffects w)) (assign s v w)))) /\
    Forall (fun o => handler_obs o = true) hout.
Proof.
  intros Hs Hd Hne Ht Hv Hr Hdepth Hstack Hh.
  set (w2 := with_pendingEffects (queued sg (pendingEffects w)) (assign s v w)).
  assert (F : same_frame w w2).
  { eapply same_frame_trans; [apply same_frame_assign | apply same_frame_with_pendingEffects]. }
  assert (Hs2 : signals w2 !! s = Some (with_value v sg)) by (apply assign_lookup; exact Hs).
  destruct (emitEvent_tame JS JP w2 s (with_value v sg) (EvChange v old)) as (N & HN); auto.
  { eapply same_frame_handlers_tame; eauto. }
  destruct (persistValue_ok JS w2 s (with_value v sg) Hs2) as (ls & Hp).
  exists N, ls. intros fuel Hfuel t.
  destruct (HN fuel Hfuel t) as (hout & Hrun & Hobs).
  exists hout. split; [|exact Hobs].
  unfold set_value, set_value_try, set_value_catch, bindM at 1, get_signal. cbn [signals with_trace]. rewrite Hs, Hd.
  unfold try_catch. rewrite Hne, Ht, Hv. unfold bindM at 1. cbn [lift ret].
  unfold bindM at 1. cbn [lift ret]. rewrite Hr. cbn [negb].
  unfold bindM at 1, modify_signal, modify. cbn [signals with_trace].
  unfold notify, bindM at 1, get_signal. cbn [signals with_signals].
  rewrite list_lookup_alter_eq, Hs. cbn [fmap option_fmap option_map disposed with_value].
  rewrite Hd. unfold bindM at 1, gets. cbn [batchDepth with_signals with_trace].
  destruct (Z.ltb_spec 0 (batchDepth w)) as [_|]; [|lia].
  unfold bindM at 1, queue_subscribers, modify.
  cbn [pendingEffects with_signals with_trace subscribers with_value].
  unfold bindM at 1, get_signal. cbn [signals with_signals with_pendingEffects].
  rewrite list_lookup_alter_eq, Hs. cbn [fmap option_fmap option_map value with_value].
  unfold bindM at 1.
  change (with_pendingEffects _ (with_signals _ (with_trace t w))) with (with_trace t w2).
  rewrite Hrun. rewrite Hp. reflexivity.
Qed.

(** A passing write outside any batch: the value is stored, every
    subscriber is called once, then the [change] event is emitted. *)
Lemma write_outside_batch JS JP w s sg v old r :
  signals w !! s = Some sg ->
  disposed sg = false ->
  strict_eq (value sg) v = false ->
  transformValue (options sg) v = inr old ->
  validateValue (options sg) v = inr r -> valid r = true ->
  batchDepth w <= 0 ->
  effectStack w = [] ->
  effects_tame w (subscribers sg) ->
  handlers_tame w s (EvChange v old) ->
  exists N ls, forall fuel, (N <= fuel)%nat ->
  forall t, exists sout hout,
    set_value JS (exec JS JP fuel) s v (with_trace t w)
      = Ok tt (with_trace (t ++ sout ++ ObsEmit s (EvChange v old) :: hout)
                 (with_localStorage ls (assign s v w))) /\
    effects_out (jsset_elements (subscribers sg)) sout /\
    Forall (fun o => handler_obs o = true) hout.
Proof.
  intros Hs Hd Hne Ht Hv Hr Hdepth Hstack He Hh.
  set (w1 := assign s v w).
  assert (F : same_frame w w1) by apply same_frame_assign.
  assert (Hs1 : signals w1 !! s = Some (with_value v sg)) by (apply assign_lookup; exact Hs).
  assert (Hset : read_set (Subscribers s) w1 = subscribers sg).
  { unfold read_set. rewrite Hs1. reflexivity. }
  assert (Hstack1 : effectStack w1 = []) by exact Hstack.
  destruct (emitEvent_tame JS JP w1 s (with_value v sg) (EvChange v old)) as (N & HN); auto.
  { eapply same_frame_handlers_tame; eauto. }
  destruct (persistValue_ok JS w1 s (with_value v sg) Hs1) as (ls & Hp).
  exists (N + S (length (subscribers sg)))%nat, ls. intros fuel Hfuel t.
  destruct (each_quiet JS JP effect_out (Subscribers s) RunEffect w1 fuel 0%nat)
    with (t := t) as (outs & Hsubs & Hq).
  { rewrite Hset. lia. }
  { intros e Hin n. rewrite drop_0, Hset in Hin.
    destruct (same_frame_effects_tame w w1 _ F He e Hin) as (body & Hb & Hbt).
    cbn [apply_callback]. eapply callEffect_tame; eauto. }
  rewrite drop_0, Hset in Hq.
  destruct (HN fuel ltac:(lia) (t ++ concat outs)) as (hout & Hrun & Hobs).
  exists (concat outs), hout. split; [|split; [exists outs; auto | exact Hobs]].
  unfold set_value, set_value_try, set_value_catch, bindM at 1, get_signal. cbn [signals with_trace]. rewrite Hs, Hd.
  unfold try_catch. rewrite Hne, Ht, Hv. unfold bindM at 1. cbn [lift ret].
  unfold bindM at 1. cbn [lift ret]. rewrite Hr. cbn [negb].
  unfold bindM at 1, modify_signal, modify. cbn [signals with_trace].
  unfold notify, bindM at 1, get_signal. cbn [signals with_signals].
  rewrite list_lookup_alter_eq, Hs. cbn [fmap option_fmap option_map disposed with_value].
  rewrite Hd. unfold bindM at 1, gets. cbn [batchDepth with_signals with_trace].
  destruct (Z.ltb_spec 0 (batchDepth w)) as [|_]; [lia|].
  unfold bindM at 1, forEach, bindM at 1.
  change (with_signals _ (with_trace t w)) with (with_trace t w1).
  rewrite Hsubs. unfold ret at 1.
  unfold bindM at 1, get_signal. cbn [signals with_trace]. rewrite Hs1.
  cbn [value with_value]. unfold bindM at 1.
  rewrite Hrun, Hp, <- app_assoc. reflexivity.
Qed.

Lemma effects_out_no_emit s ty es out :
  effects_out es out -> emits_of s ty out = 0%nat.
Proof.
  intros (outs & -> & H). unfold emits_of. apply count_none, Forall_concat.
  induction H as [|e o es outs He _ IH]; constructor; auto.
  destruct He as (logs & -> & Hl). constructor; [reflexivity|].
  eapply Forall_impl; [exact Hl|]. intros [] Ho; try discriminate; reflexivity.
Qed.

Lemma jsset_has_In x s : jsset_has x s = true <-> In x (jsset_elements s).
Proof.
  unfold jsset_has. induction s as [|[y|] s IH]; cbn.
  - split; [discriminate | tauto].
  - rewrite orb_true_iff, IH, Nat.eqb_eq. split; intros [H|H]; auto.
  - exact IH.
Qed.

Lemma jsset_add_elements x s :
  jsset_elements (jsset_add x s) =
    if jsset_has x s then jsset_elements s else jsset_elements s ++ [x].
Proof.
  unfold jsset_add. destruct (jsset_has x s); [reflexivity|].
  rewrite jsset_elements_app. reflexivity.
Qed.

Lemma jsset_add_In x y s :
  In y (jsset_elements (jsset_add x s)) <-> y = x \/ In y (jsset_elements s).
Proof.
  rewrite jsset_add_elements. destruct (jsset_has x s) eqn:E.
  - apply jsset_has_In in E. split; [auto | intros [->|H]; auto].
  - rewrite in_app_iff. cbn. split; intros H; intuition.
Qed.

Lemma fold_add_In (es : list nat) y p :
  In y (jsset_elements (fold_left (fun p e => jsset_add e p) es p)) <->
  In y es \/ In y (jsset_elements p).
Proof.
  revert p. induction es as [|e es IH]; intros p; cbn.
  - tauto.
  - rewrite IH, jsset_add_In. intuition.
Qed.

Lemma queued_In sg p y :
  In y (jsset_elements (queued sg p)) <->
  In y (jsset_elements (subscribers sg)) \/ In y (jsset_elements p).
Proof. apply fold_add_In. Qed.

(** ** The transform pipeline *)

(** [reduce] over functions that do not throw is the left-to-right fold. *)
Lemma reduce_pure (fs : list (jsval -> jsval)) (v : jsval) :
  reduce (map (fun f x => inr (f x)) fs) v = inr (fold_left (fun acc f => f acc) fs v).
Proof.
  unfold reduce. revert v. induction fs as [|f fs IH]; intros v; [reflexivity|].
  cbn. apply IH.
Qed.


(** ** Batching defers effects, not events *)

(** With a batch open, a passing write goes straight from storing the value
    and queueing the subscribers to [emitEvent]. *)
Lemma write_in_batch_reaches_emit JS rec w s sg v old r :
  signals w !! s = Some sg ->
  disposed sg = false ->
  strict_eq (value sg) v = false ->
  transformValue (options sg) v = inr old ->
  validateValue (options sg) v = inr r -> valid r = true ->
  0 < batchDepth w ->
  set_value JS rec s v w =
    try_catch
      (emitEvent rec s (EvChange v old) ;; persistValue JS s)
      (set_value_catch rec s sg)
      (with_pendingEffects (queued sg (pendingEffects w)) (assign s v w)).
Proof.
  intros Hs Hd Hne Ht Hv Hr Hdepth.
  unfold set_value, set_value_try, set_value_catch, bindM at 1, get_signal. rewrite Hs, Hd.
  unfold try_catch. rewrite Hne, Ht, Hv. unfold bindM at 1. cbn [lift ret].
  unfold bindM at 1. cbn [lift ret]. rewrite Hr. cbn [negb].
  unfold bindM at 1, modify_signal, modify.
  unfold notify, bindM at 1, get_signal. cbn [signals with_signals].
  rewrite list_lookup_alter_eq, Hs. cbn [fmap option_fmap option_map disposed with_value].
  rewrite Hd. unfold bindM at 1, gets. cbn [batchDepth with_signals].
  destruct (Z.ltb_spec 0 (batchDepth w)) as [_|]; [|lia].
  unfold bindM at 1, queue_subscribers, modify.
  cbn [pendingEffects with_signals subscribers with_value].
  unfold bindM at 1, get_signal. cbn [signals with_signals with_pendingEffects].
  rewrite list_lookup_alter_eq, Hs. cbn [fmap option_fmap option_map value with_value].
  reflexivity.
Qed.

(** A passing write while a batch is open, with tame [change] handlers: the
    whole of what it does *)
Lemma write_in_batch_traced JS JP w s sg v old r :
  signals w !! s = Some sg ->
  disposed sg = false ->
  strict_eq (value sg) v = false ->
  transformValue (options sg) v = inr old ->
  validateValue (options sg) v = inr r -> valid r = true ->
  0 < batchDepth w ->
  effectStack w = [] ->
  handlers_tame w s (EvChange v old) ->
  exists N ls, forall fuel, (N <= fuel)%nat ->
  forall t,
    set_value JS (exec JS JP fuel) s v (with_trace t w)
      = Ok tt (with_trace
                 (t ++ ObsEmit s (EvChange v old) ::
                    flat_map (handler_trace (assign s v w) (EvChange v old))
                      (registered w s EChange))
                 (with_localStorage ls
                    (with_pendingEffects (queued sg (pendingEffects w)) (assign s v w)))).
Proof.
  intros Hs Hd Hne Ht Hv Hr Hdepth Hstack Hh.
  set (w2 := with_pendingEffects (queued sg (pendingEffects w)) (assign s v w)).
  assert (F : same_frame w w2).
  { eapply same_frame_trans; [apply same_frame_assign | apply same_frame_with_pendingEffects]. }
  assert (Hs2 : signals w2 !! s = Some (with_value v sg)) by (apply assign_lookup; exact Hs).
  destruct (emitEvent_traced JS JP w2 s (with_value v sg) (EvChange v old)) as (N & HN); auto.
  { eapply same_frame_handlers_tame; eauto. }
  destruct (persistValue_ok JS w2 s (with_value v sg) Hs2) as (ls & Hp).
  exists N, ls. intros fuel Hfuel t.
  specialize (HN fuel Hfuel t). cbn [event_type] in HN.
  rewrite (registered_same_frame w w2 s EChange F) in HN by eauto.
  rewrite (write_in_batch_reaches_emit JS _ (with_trace t w) s sg v old r) by assumption.
  unfold try_catch, bindM at 1.
  change (with_pendingEffects _ (assign s v (with_trace t w))) with (with_trace t w2).
  rewrite HN, Hp. reflexivity.
Qed.


Lemma same_frame_with_batchDepth d w : same_frame w (with_batchDepth d w).
Proof. repeat split; cbn; auto. intros s sg H. exists sg. auto. Qed.

(** ** Batches *)


Lemma jsset_add_NoDup x s :
  NoDup (jsset_elements s) -> NoDup (jsset_elements (jsset_add x s)).
Proof.
  intros H. rewrite jsset_add_elements. destruct (jsset_has x s) eqn:E; [exact H|].
  apply NoDup_app. split; [exact H|]. split; [|apply NoDup_singleton].
  intros y Hy Hx. apply list_elem_of_singleton in Hx. subst y.
  apply list_elem_of_In, jsset_has_In in Hy. congruence.
Qed.

Lemma queued_NoDup sg p :
  NoDup (jsset_elements p) -> NoDup (jsset_elements (queued sg p)).
Proof.
  unfold queued. generalize (jsset_elements (subscribers sg)) as es.
  intros es. revert p. induction es as [|e es IH]; intros p H; cbn; [exact H|].
  apply IH, jsset_add_NoDup, H.
Qed.

(** Tame effects called one after the other: [e] is called as often as it
    occurs in the list. *)
Lemma effects_out_runs e es outs :
  Forall2 effect_out es outs ->
  runs_of e (concat outs) = length (filter (fun x => x = e) es).
Proof.
  unfold runs_of. induction 1 as [|x out es outs Hx _ IH]; [reflexivity|].
  cbn [concat]. rewrite count_app, IH. destruct Hx as (logs & -> & Hl).
  rewrite filter_cons. cbn [count is_run].
  assert (Hlogs : count (is_run e) logs = 0%nat).
  { apply count_none. eapply Forall_impl; [exact Hl|].
    intros [] Ho; try discriminate; reflexivity. }
  rewrite Hlogs. destruct (decide (x = e)) as [->|Hne].
  - rewrite Nat.eqb_refl. reflexivity.
  - destruct (Nat.eqb_spec e x); [congruence | reflexivity].
Qed.

Lemma filter_absent (e : nat) es :
  e ∉ es -> length (filter (fun x => x = e) es) = 0%nat.
Proof.
  induction es as [|x es IH]; intros H; [reflexivity|].
  apply not_elem_of_cons in H as [Hne Hes].
  rewrite filter_cons. destruct (decide (x = e)); [congruence | auto].
Qed.

Lemma NoDup_filter_one (e : nat) es :
  NoDup es -> In e es -> length (filter (fun x => x = e) es) = 1%nat.
Proof.
  induction 1 as [|x es Hx Hnd IH]; intros Hin; [destruct Hin|].
  rewrite filter_cons. destruct (decide (x = e)) as [->|Hne].
  - cbn. f_equal. apply filter_absent, Hx.
  - destruct Hin as [->|Hin]; [congruence | auto].
Qed.

Lemma count_runs_flat_map w e l :
  (forall x, In x l -> is_Some (effects w !! x)) ->
  count (is_run e) (flat_map (effect_trace w) l) = length (filter (fun x => x = e) l).
Proof.
  induction l as [|a l IH]; intros H; [reflexivity|].
  cbn [flat_map]. rewrite count_app, IH by (intros x Hx; apply H; right; exact Hx).
  rewrite effect_trace_runs by (apply H; left; reflexivity).
  rewrite filter_cons.
  destruct (decide (a = e)) as [->|Hne].
  - rewrite Nat.eqb_refl. reflexivity.
  - destruct (Nat.eqb_spec e a); [congruence | reflexivity].
Qed.

Lemma passes_inv w s v :
  passes w s v = true ->
  exists sg r,
    signals w !! s = Some sg /\ disposed sg = false /\
    strict_eq (value sg) v = false /\
    transformValue (options sg) v = inr (reported w s v) /\
    validateValue (options sg) v = inr r /\ valid r = true.
Proof.
  unfold passes, reported. destruct (signals w !! s) as [sg|]; [|discriminate].
  intros H. apply andb_true_iff in H as [H Hr]. apply andb_true_iff in H as [Hd Hne].
  destruct (transformValue (options sg) v) as [|t] eqn:Et; [discriminate|].
  destruct (validateValue (options sg) v) as [|r] eqn:Ev; [discriminate|].
  exists sg, r. split; [reflexivity|].
  split; [destruct (disposed sg); [discriminate | reflexivity]|].
  split; [destruct (strict_eq (value sg) v); [discriminate | reflexivity]|].
  split; [exact Et|]. split; [exact Ev | exact Hr].
Qed.

Lemma same_frame_batched_write s v w : same_frame w (batched_write s v w).
Proof.
  unfold batched_write.
  eapply same_frame_trans; [apply same_frame_assign | apply same_frame_with_pendingEffects].
Qed.

Lemma same_frame_batched_writes ws : forall w, same_frame w (batched_writes ws w).
Proof.
  induction ws as [|[s v] ws IH]; intros w; [apply same_frame_refl|].
  cbn [batched_writes]. eapply same_frame_trans; [apply same_frame_batched_write | apply IH].
Qed.

Lemma reported_same_frame w w' s v : same_frame w w' -> reported w' s v = reported w s v.
Proof.
  intros F. unfold reported. destruct (signals w' !! s) as [sg'|] eqn:E'.
  - destruct (same_frame_back w w' s sg' F E') as (sg & -> & _ & _ & _ & ->). reflexivity.
  - destruct (signals w !! s) as [sg|] eqn:E; [|reflexivity].
    destruct F as (_ & _ & _ & _ & F). destruct (F s sg E) as (sg' & H & _). congruence.
Qed.

Lemma batched_writes_stack ws : forall w, effectStack (batched_writes ws w) = effectStack w.
Proof. induction ws as [|[s v] ws IH]; intros w; [reflexivity|]. cbn [batched_writes]. rewrite IH. reflexivity. Qed.

Lemma batched_writes_depth ws : forall w, batchDepth (batched_writes ws w) = batchDepth w.
Proof. induction ws as [|[s v] ws IH]; intros w; [reflexivity|]. cbn [batched_writes]. rewrite IH. reflexivity. Qed.

(** The batch depth plays no part in these. *)
Lemma batched_writes_with_batchDepth d ws : forall w,
  batched_writes ws (with_batchDepth d w) = with_batchDepth d (batched_writes ws w).
Proof.
  induction ws as [|[s v] ws IH]; intros w; [reflexivity|]. cbn [batched_writes].
  change (batched_write s v (with_batchDepth d w))
    with (with_batchDepth d (batched_write s v w)).
  apply IH.
Qed.

Lemma all_pass_with_batchDepth d ws : forall w,
  all_pass (with_batchDepth d w) ws = all_pass w ws.
Proof.
  induction ws as [|[s v] ws IH]; intros w; [reflexivity|]. cbn [all_pass].
  change (batched_write s v (with_batchDepth d w))
    with (with_batchDepth d (batched_write s v w)).
  rewrite IH. reflexivity.
Qed.

Lemma writes_trace_with_batchDepth d ws : forall w,
  writes_trace (with_batchDepth d w) ws = writes_trace w ws.
Proof.
  induction ws as [|[s v] ws IH]; intros w; [reflexivity|]. cbn [writes_trace].
  change (batched_write s v (with_batchDepth d w))
    with (with_batchDepth d (batched_write s v w)).
  rewrite IH. reflexivity.
Qed.

Lemma writes_trace_no_run e ws : forall w, count (is_run e) (writes_trace w ws) = 0%nat.
Proof.
  induction ws as [|[s v] ws IH]; intros w; [reflexivity|]. cbn [writes_trace].
  rewrite count_app, IH. cbn [count is_run].
  rewrite count_flat_map by (intros h _; apply handler_trace_no_run). reflexivity.
Qed.

(** The pending set after the writes: no entry twice, and its entries are
    those it had and the subscribers of the instances written. *)
Lemma pending_NoDup ws : forall w,
  NoDup (jsset_elements (pendingEffects w)) ->
  NoDup (jsset_elements (pendingEffects (batched_writes ws w))).
Proof.
  induction ws as [|[s v] ws IH]; intros w H; [exact H|]. cbn [batched_writes].
  apply IH. cbn [batched_write pendingEffects with_pendingEffects].
  destruct (signals w !! s); [apply queued_NoDup|]; exact H.
Qed.

Lemma pending_kept e ws : forall w,
  In e (jsset_elements (pendingEffects w)) ->
  In e (jsset_elements (pendingEffects (batched_writes ws w))).
Proof.
  induction ws as [|[s v] ws IH]; intros w H; [exact H|]. cbn [batched_writes].
  apply IH. cbn [batched_write pendingEffects with_pendingEffects].
  destruct (signals w !! s); [apply queued_In; right|]; exact H.
Qed.

Lemma pending_of_written e s v ws : forall w sg,
  In (s, v) ws -> signals w !! s = Some sg ->
  In e (jsset_elements (subscribers sg)) ->
  In e (jsset_elements (pendingEffects (batched_writes ws w))).
Proof.
  induction ws as [|[s0 v0] ws IH]; intros w sg Hin Hs He; [destruct Hin|].
  cbn [batched_writes]. destruct Hin as [E|Hin].
  - inversion E; subst s0 v0. apply pending_kept.
    cbn [batched_write pendingEffects with_pendingEffects]. rewrite Hs.
    apply queued_In. left. exact He.
  - destruct (same_frame_batched_write s0 v0 w) as (_ & _ & _ & _ & F).
    destruct (F s sg Hs) as (sg' & Hs' & _ & Hsub & _).
    apply (IH _ sg' Hin Hs'). rewrite Hsub. exact He.
Qed.

Lemma pending_origin x ws : forall w,
  In x (jsset_elements (pendingEffects (batched_writes ws w))) ->
  In x (jsset_elements (pendingEffects w)) \/
  exists s v sg, In (s, v) ws /\ signals w !! s = Some sg /\
                 In x (jsset_elements (subscribers sg)).
Proof.
  induction ws as [|[s0 v0] ws IH]; intros w H; [left; exact H|].
  cbn [batched_writes] in H. apply IH in H as [H|(s & v & sg' & Hin & Hs' & Hx)].
  - cbn [batched_write pendingEffects with_pendingEffects] in H.
    destruct (signals w !! s0) as [sg0|] eqn:E0; [|left; exact H].
    apply queued_In in H as [H|H]; [|left; exact H].
    right. exists s0, v0, sg0. split; [left; reflexivity | auto].
  - destruct (same_frame_back w _ s sg' (same_frame_batched_write s0 v0 w) Hs')
      as (sg & Hs & _ & Hsub & _).
    right. exists s, v, sg. split; [right; exact Hin|]. split; [exact Hs|].
    rewrite <- Hsub. exact Hx.
Qed.

(** Passing writes made one after the other with a batch open, outside any
    effect, with tame [change] handlers: the whole of what they do *)
Lemma writes_in_batch_traced JS JP ws : forall w l,
  effectStack w = [] -> 0 < batchDepth w ->
  all_pass w ws = true ->
  (forall s v, In (s, v) ws -> handlers_tame w s (EvChange v (reported w s v))) ->
  exists N ls, forall fuel, (N <= fuel)%nat ->
  forall t,
    run JS JP (exec JS JP fuel) (writes ws) (with_trace t (with_localStorage l w))
      = Ok VUndefined
          (with_trace (t ++ writes_trace w ws)
             (with_localStorage ls (batched_writes ws w))).
Proof.
  induction ws as [|[s v] ws IH]; intros w l Hstack Hdepth Hpass Hh.
  - exists 0%nat, l. intros fuel _ t. cbn [writes run writes_trace batched_writes].
    rewrite app_nil_r. reflexivity.
  - cbn [all_pass] in Hpass. apply andb_true_iff in Hpass as [Hp Hrest].
    destruct (passes_inv w s v Hp) as (sg & r & Hs & Hd & Hne & Ht & Hv & Hr).
    set (W := with_localStorage l w).
    destruct (write_in_batch_traced JS JP W s sg v (reported w s v) r)
      as (N1 & ls1 & H1); auto.
    { eapply same_frame_handlers_tame; [apply same_frame_with_localStorage|].
      apply Hh. left. reflexivity. }
    set (w1 := batched_write s v w).
    assert (F : same_frame w w1) by apply same_frame_batched_write.
    destruct (IH w1 ls1) as (N2 & ls & H2); auto.
    { intros s' v' Hin. rewrite (reported_same_frame w w1 s' v' F).
      eapply same_frame_handlers_tame; [exact F|]. apply Hh. right. exact Hin. }
    exists (Nat.max N1 N2), ls. intros fuel Hfuel t.
    cbn [writes run]. unfold bindM at 1.
    rewrite (H1 fuel ltac:(lia) t).
    assert (E : with_localStorage ls1
                  (with_pendingEffects (queued sg (pendingEffects W)) (assign s v W))
                = with_localStorage ls1 w1).
    { subst w1 W. unfold batched_write. rewrite Hs. reflexivity. }
    rewrite E.
    rewrite (H2 fuel ltac:(lia)).
    cbn [writes_trace batched_writes]. fold w1. rewrite <- app_assoc. reflexivity.
Qed.

(** Leaving a batch that was opened inside another one only restores the
    depth: the pending effects are neither called nor dropped. *)
Lemma inner_batch_exit JS JP fuel fn w :
  0 < batchDepth w ->
  batch (exec JS JP fuel) fn w =
    match exec JS JP fuel (Invoke fn) (with_batchDepth (batchDepth w + 1) w) with
    | Ok _ w1 => Ok tt (with_batchDepth (batchDepth w) w1)
    | Thrown x w1 => Thrown x (with_batchDepth (batchDepth w) w1)
    | OutOfFuel => OutOfFuel
    end.
Proof.
  intros Hdepth. unfold batch, bindM at 1, modify at 1, try_finally.
  set (w0 := with_batchDepth (batchDepth w + 1) w).
  pose proof (exec_extends JS JP fuel (Invoke fn) w0) as Hext.
  unfold bindM at 1.
  destruct (exec JS JP fuel (Invoke fn) w0) as [a w1|x w1|]; [| |reflexivity].
  - destruct Hext as [_ Hd _ _]. cbn in Hd.
    unfold ret at 1. unfold bindM at 1, bindM at 1, modify at 1.
    unfold bindM at 1, gets at 1. cbn [batchDepth with_batchDepth].
    replace (batchDepth w1 - 1) with (batchDepth w) by lia.
    destruct (Z.eqb_spec (batchDepth w) 0); [lia | reflexivity].
  - destruct Hext as [_ Hd _ _]. cbn in Hd.
    unfold bindM at 1, bindM at 1, modify at 1.
    unfold bindM at 1, gets at 1. cbn [batchDepth with_batchDepth].
    replace (batchDepth w1 - 1) with (batchDepth w) by lia.
    destruct (Z.eqb_spec (batchDepth w) 0); [lia | reflexivity].
Qed.



Lemma pres_runMicrotask JS JP fuel : pres (runMicrotask (exec JS JP fuel)).
Proof.
  pose proof (exec_extends JS JP fuel) as Hrec.
  unfold runMicrotask. pres_tac.
Qed.

(** ** Disposal *)

(** C6: the claim is what the getter and the setter do, and [on] misses it:
    [on] has no [disposed] check.  On [s.dispose(); s.on('change', h)],
    with [s] the instance of [world_pipeline] and [h] its logging handler:
    [dispose] returns and leaves [s] disposed, without handler; a read and
    a write of [s] then throw to the caller; but [on] returns normally, as
    on a live instance, and has registered [h] for [change] on the
    disposed instance, which stays disposed. *)
Theorem on_registers_after_dispose :
  exists w1 w2,
    dispose (exec no_stringify no_parse 10) 0%nat world_pipeline = Ok tt w1 /\
    disposed <$> signals w1 !! 0%nat = Some true /\
    registered w1 0%nat EChange = [] /\
    get_value 0%nat w1 = Thrown (Error "Attempted to access disposed resin") w1 /\
    (forall rec newValue,
       set_value no_stringify rec 0%nat newValue w1
         = Thrown (Error "Attempted to modify disposed resin") w1) /\
    on 0%nat EChange 0%nat w1 = Ok tt w2 /\
    registered w2 0%nat EChange = [0%nat] /\
    disposed <$> signals w2 !! 0%nat = Some true.
Proof.
  eexists _, _. split; [vm_compute; reflexivity|].
  split; [reflexivity|]. split; [reflexivity|]. split; [reflexivity|].
  split; [intros rec newValue; reflexivity|].
  split; [vm_compute; reflexivity|]. split; reflexivity.
Qed.

(** ** Recomputation *)

Lemma strict_eq_true a b : strict_eq a b = true -> a = b.
Proof.
  destruct a, b; cbn; try discriminate; intros H; try reflexivity; f_equal.
  - apply Bool.eqb_prop; exact H.
  - apply Z.eqb_eq; exact H.
  - apply String.eqb_eq; exact H.
  - apply Nat.eqb_eq; exact H.
Qed.

(** [value === newValue]: the setter returns at once. *)
Lemma write_same JS rec w s sg v :
  signals w !! s = Some sg -> disposed sg = false ->
  strict_eq (value sg) v = true ->
  set_value JS rec s v w = Ok tt w.
Proof.
  intros Hs Hd He. unfold set_value, set_value_try, set_value_catch, bindM, get_signal. rewrite Hs, Hd.
  unfold try_catch. rewrite He. reflexivity.
Qed.

Lemma assign_subscribers c v w s :
  subscribers <$> signals (assign c v w) !! s = subscribers <$> signals w !! s.
Proof.
  cbn. destruct (decide (c = s)) as [->|Hne].
  - rewrite list_lookup_alter_eq. destruct (signals w !! s); reflexivity.
  - rewrite list_lookup_alter_ne by exact Hne. reflexivity.
Qed.

Lemma effects_out_absent e es out :
  effects_out es out -> ~ In e es -> runs_of e out = 0%nat.
Proof.
  intros (outs & -> & H) Hnot. rewrite (effects_out_runs e es outs H).
  apply filter_absent. intros Hin. apply Hnot, list_elem_of_In, Hin.
Qed.

(** [notify] calls the recompute effect of a computed signal without
    pushing it on the effect stack.  Such a re-execution, outside any
    running effect, stores what [fn] now returns but leaves every
    subscriber set as it was, so it subscribes the effect to nothing it
    reads; and a later passing write to a signal whose subscriber set lacks
    the effect does not call it. *)
Lemma recompute_adds_no_subscription JS JP w c sgc fn effect :
  effects w !! effect = Some (computed_effect c fn) ->
  signals w !! c = Some sgc -> disposed sgc = false -> options sgc = None ->
  tame w fn -> effectStack w = [] ->
  effects_tame w (subscribers sgc) ->
  (forall v, handlers_tame w c (EvChange v v)) ->
  (exists v N,
     (forall rec, exists w0, run JS JP rec fn w = Ok v w0) /\
     forall fuel, (N <= fuel)%nat ->
       exists w',
         callEffect (exec JS JP fuel) effect w = Ok tt w' /\
         value <$> signals w' !! c = Some v /\
         (forall s, subscribers <$> signals w' !! s = subscribers <$> signals w !! s)) /\
  (forall w2 b sgb newValue old r,
     signals w2 !! b = Some sgb -> disposed sgb = false ->
     ~ In effect (jsset_elements (subscribers sgb)) ->
     strict_eq (value sgb) newValue = false ->
     transformValue (options sgb) newValue = inr old ->
     validateValue (options sgb) newValue = inr r -> valid r = true ->
     batchDepth w2 <= 0 -> effectStack w2 = [] ->
     effects_tame w2 (subscribers sgb) ->
     handlers_tame w2 b (EvChange newValue old) ->
     exists N, forall fuel, (N <= fuel)%nat ->
       exists w3 out,
         set_value JS (exec JS JP fuel) b newValue w2 = Ok tt w3 /\
         trace w3 = trace w2 ++ out /\
         runs_of effect out = 0%nat).
Proof.
  intros He Hc Hd Ho Hfn Hstack Hsubs Hh. split.
  - destruct (run_tame w fn Hfn Hstack) as (v & out & Hout & Hrun & Hbind).
    exists v.
    assert (Hfnv : forall rec, exists w0, run JS JP rec fn w = Ok v w0).
    { intros rec. specialize (Hrun JS JP rec (trace w)).
      rewrite with_trace_id in Hrun. eauto. }
    assert (Hcall : forall n t,
              callEffect (exec JS JP (S n)) effect (with_trace t w)
              = (set_value JS (exec JS JP n) c v ;; ret tt)
                  (with_trace ((t ++ [ObsRun effect]) ++ out) w)).
    { intros n t. unfold callEffect, bindM at 1, gets at 1.
      cbn [effects with_trace]. rewrite He.
      unfold bindM at 1, observe, modify. cbn [trace with_trace].
      change (with_trace (t ++ [ObsRun effect]) (with_trace t w))
        with (with_trace (t ++ [ObsRun effect]) w).
      unfold bindM at 1.
      change (exec JS JP (S n) (Invoke (computed_effect c fn)))
        with (run JS JP (exec JS JP n) (computed_effect c fn)).
      unfold computed_effect. rewrite Hbind.
      cbn [run]. unfold bindM.
      destruct (set_value JS (exec JS JP n) c v _) as [[] ?| |]; reflexivity. }
    destruct (strict_eq (value sgc) v) eqn:Heq.
    + exists 1%nat. split; [exact Hfnv|]. intros fuel Hfuel.
      destruct fuel as [|n]; try lia.
      eexists. split; [|split].
      * rewrite <- (with_trace_id w) at 1. rewrite Hcall.
        unfold bindM. rewrite (write_same JS _ _ c sgc v); auto.
      * cbn. rewrite Hc. cbn. f_equal. apply strict_eq_true. exact Heq.
      * intros s. reflexivity.
    + destruct (Z.ltb_spec 0 (batchDepth w)) as [Hdepth|Hdepth].
      * destruct (write_in_batch JS JP w c sgc v v {| valid := true; verror := None |})
          as (N & ls & H); auto; try (rewrite Ho; reflexivity).
        exists (S N). split; [exact Hfnv|]. intros fuel Hfuel.
        destruct fuel as [|n]; try lia.
        destruct (H n ltac:(lia) ((trace w ++ [ObsRun effect]) ++ out))
          as (hout & Hw & _).
        eexists. split; [|split].
        -- rewrite <- (with_trace_id w) at 1. rewrite Hcall.
           unfold bindM. rewrite Hw. reflexivity.
        -- cbn. rewrite list_lookup_alter_eq, Hc. reflexivity.
        -- intros s. apply assign_subscribers.
      * destruct (write_outside_batch JS JP w c sgc v v {| valid := true; verror := None |})
          as (N & ls & H); auto; try (rewrite Ho; reflexivity).
        exists (S N). split; [exact Hfnv|]. intros fuel Hfuel.
        destruct fuel as [|n]; try lia.
        destruct (H n ltac:(lia) ((trace w ++ [ObsRun effect]) ++ out))
          as (sout & hout & Hw & _).
        eexists. split; [|split].
        -- rewrite <- (with_trace_id w) at 1. rewrite Hcall.
           unfold bindM. rewrite Hw. reflexivity.
        -- cbn. rewrite list_lookup_alter_eq, Hc. reflexivity.
        -- intros s. apply assign_subscribers.
  - intros w2 b sgb newValue old r Hb Hdb Hnot Hne Ht Hv Hr Hdepth Hstack2 Hsubs2 Hh2.
    destruct (write_outside_batch JS JP w2 b sgb newValue old r) as (N & ls & H); auto.
    exists N. intros fuel Hfuel.
    destruct (H fuel Hfuel (trace w2)) as (sout & hout & Hw & Hsout & Hobs).
    rewrite with_trace_id in Hw.
    eexists _, _. split; [exact Hw|]. split; [reflexivity|].
    unfold runs_of. rewrite count_app. cbn [count is_run].
    pose proof (effects_out_absent effect _ sout Hsout Hnot) as R1.
    pose proof (runs_of_handler_obs effect hout Hobs) as R2.
    unfold runs_of in R1, R2. rewrite R1, R2. reflexivity.
Qed.

(** C1: the claim is what [computed] documents (['Automatically
    updates when dependent Resin instances change']) and what a read under
    [watchEffect] does; the re-executions that [notify] starts miss it.  On
    [c = computed(() => a.value ? b.value : 0)] with [a] false at first:
    after [a.value = true] the recompute effect runs again and reads [b],
    yet [b] has no subscriber, and after [b.value = 2] the computed signal
    still holds 1.  The effect ran twice in all: under [watchEffect] and
    for the write of [a]. *)
Theorem later_dependency_is_not_tracked :
  exists w,
    final (exec no_stringify no_parse 20 (Invoke conditional_dependency) world_ab) = Some w /\
    trace w = [ObsRun 0%nat;
               ObsRun 0%nat; ObsLog (VNum 1);
               ObsEmit 2%nat (EvChange (VNum 1) (VNum 1));
               ObsEmit 0%nat (EvChange (VBool true) (VBool true));
               ObsEmit 1%nat (EvChange (VNum 2) (VNum 2))] /\
    subscribers <$> signals w !! 1%nat = Some [] /\
    value <$> signals w !! 1%nat = Some (VNum 2) /\
    value <$> signals w !! 2%nat = Some (VNum 1).
Proof. eexists. split; [vm_compute; reflexivity|]. repeat split. Qed.

(** ** [derive] *)

(** C2 fails on the code: for [d = derive({from: [a, b], compute: (x, y) => x + y})]
    with [a = 1] and [b = 10], after [a.value = 2] the object [d] still
    reads 11, while the instance inside it, which the effect updates, holds
    12, the sum of the current sources. *)
Theorem derive_returns_a_snapshot :
  exists w,
    final (exec no_stringify no_parse 20 (Invoke derive_then_write) world_sources) = Some w /\
    value <$> signals w !! 0%nat = Some (VNum 2) /\
    value <$> signals w !! 1%nat = Some (VNum 10) /\
    trace w = [ObsRun 0%nat;
               ObsRun 0%nat;
               ObsEmit 2%nat (EvChange (VNum 12) (VNum 12));
               ObsEmit 0%nat (EvChange (VNum 2) (VNum 2));
               ObsLog (VNum 11); ObsLog (VNum 12)].
Proof. eexists. split; [vm_compute; reflexivity|]. repeat split. Qed.

(** ** [select] *)

Lemma resin_fresh JP v w s w' :
  resin JP v None w = Ok s w' ->
  s = length (signals w) /\ is_Some (signals w' !! s).
Proof.
  unfold resin, restore. cbn [mbind option_bind].
  unfold bindM at 1, ret at 1. unfold bindM at 1, gets at 1.
  unfold bindM at 1, modify at 1. unfold bindM at 1, modify at 1.
  unfold bindM at 1, gets at 1.
  set (w1 := with_microtasks _ _).
  assert (H1 : is_Some (signals w1 !! length (signals w))).
  { cbn. rewrite lookup_app_r by lia. rewrite Nat.sub_diag. cbn. eauto. }
  assert (Hread : forall m : M nat,
            m = (target <- get_value (length (signals w)) ;;
                 new_Proxy target ;; ret (length (signals w))) ->
            m w1 = Ok s w' ->
            s = length (signals w) /\ is_Some (signals w' !! s)).
  { intros m -> Hm. unfold bindM in Hm.
    pose proof (pres_get_value (length (signals w)) w1) as P.
    destruct (get_value (length (signals w)) w1) as [a w2|x w2|]; try discriminate.
    destruct a; try discriminate.
    inversion Hm; subst. split; [reflexivity|].
    destruct P as [Hsig _ _ _]. eapply sigs_extend_lookup; eauto. }
  destruct (isArray (heap w1) v); [apply Hread; reflexivity|].
  destruct (isMap (heap w1) v); [apply Hread; reflexivity|].
  intros H. inversion H; subst. auto.
Qed.

Lemma computed_fresh JS JP fuel fn w c w' :
  computed JP (exec JS JP fuel) fn w = Ok c w' ->
  signals w !! c = None /\ is_Some (signals w' !! c).
Proof.
  unfold computed, bindM at 1.
  pose proof (exec_extends JS JP fuel (Invoke fn) w) as P0.
  destruct (exec JS JP fuel (Invoke fn) w) as [v wa|x wa|]; try discriminate.
  unfold bindM at 1.
  destruct (resin JP v None wa) as [s wb|x wb|] eqn:Hr; try discriminate.
  apply resin_fresh in Hr as [-> Hs].
  unfold bindM at 1, new_effect, bindM at 1, gets at 1, bindM at 1, modify at 1.
  unfold ret at 1. unfold bindM at 1.
  set (wc := with_effects _ _).
  pose proof (pres_watchEffect (exec JS JP fuel) (exec_extends JS JP fuel)
                (length (effects wb)) wc) as P1.
  destruct (watchEffect _ _ wc) as [a wd|x wd|]; try discriminate.
  intros H. inversion H; subst. split.
  - apply lookup_ge_None. destruct P0 as [Hsig _ _ _].
    destruct (signals w !! length (signals wa)) as [sg|] eqn:E; [|apply lookup_ge_None in E; lia].
    destruct (Hsig _ sg E) as (sg' & Hs' & _).
    apply lookup_lt_Some in Hs'. lia.
  - destruct P1 as [Hsig _ _ _]. eapply sigs_extend_lookup; eauto.
Qed.

(** C5 fails on the code: [select] builds its cache anew on every call, so
    it never finds an entry; two calls with the same signal and path, with
    whatever the engine did in between, return two different instances. *)
Theorem select_is_not_memoized JS JP fuel1 fuel2 state path w c1 w1 w1' c2 w2 :
  select JP (exec JS JP fuel1) state path w = Ok c1 w1 ->
  extends w1 w1' ->
  select JP (exec JS JP fuel2) state path w1' = Ok c2 w2 ->
  c1 <> c2.
Proof.
  unfold select. cbn [assoc]. rewrite Nat.eqb_refl. cbn [assoc].
  unfold bindM at 1. intros H1 Hext. unfold bindM at 1. intros H2.
  cbn -[computed exec] in H1, H2.
  match type of H1 with
  | context [computed ?a ?b ?p ?x] =>
      destruct (computed a b p x) as [a1 wa|x1 wa|] eqn:E1; try discriminate
  end.
  match type of H2 with
  | context [computed ?a ?b ?p ?x] =>
      destruct (computed a b p x) as [a2 wb|x2 wb|] eqn:E2; try discriminate
  end.
  inversion H1; subst. inversion H2; subst.
  apply computed_fresh in E1 as [_ Hs1]. apply computed_fresh in E2 as [Hn2 _].
  intros ->. destruct Hext as [Hsig _ _ _].
  destruct (sigs_extend_lookup _ _ c2 Hsig Hs1) as [sg Hsg]. congruence.
Qed.

Lemma select_twice_witness :
  returned (select no_parse (exec no_stringify no_parse 10) 0%nat "a.b" world_nested)
    = Some 1%nat /\
  returned (select no_parse (exec no_stringify no_parse 10) 0%nat "a.b" world_selected)
    = Some 2%nat /\
  1%nat <> 2%nat.
Proof.
  split; [vm_compute; reflexivity|]. split; [vm_compute; reflexivity|].
  apply (select_is_not_memoized no_stringify no_parse 10 10 0%nat "a.b"
           world_nested 1%nat world_selected world_selected 2%nat
           (match final (select no_parse (exec no_stringify no_parse 10) 0%nat "a.b"
                           world_selected) with
            | Some w => w
            | None => world_nested
            end)).
  - vm_compute. reflexivity.
  - apply extends_refl.
  - vm_compute. reflexivity.
Defined.

(** ** Enhanced arrays *)

(** The [set] trap does nothing unless the key is ['length']: a key is a
    string or a symbol, never a number. *)
Lemma enhanceArray_set_ignores JS rec baseResin target prop v w :
  prop <> PString "length" ->
  enhanceArray_set JS rec baseResin target prop v w = Ok true w.
Proof.
  intros H. unfold enhanceArray_set.
  destruct prop as [name|n]; cbn.
  - destruct (String.eqb_spec name "length") as [->|_]; [congruence | reflexivity].
  - reflexivity.
Qed.

(** C9 fails on the code for indices: on the proxy of [[1, 2, 3]],
    [proxy[0] = 9] reaches the trap with the key ["0"]; the trap returns
    true and changes nothing, neither the array nor the signal, and emits
    nothing.  [proxy.length = 1] does what the claim says: the array is
    cut, a fresh copy is written to the signal and [change] is emitted. *)
Theorem index_assignment_is_dropped :
  (forall rec,
     enhanceArray_set no_stringify rec 0%nat 0%nat (PString "0") (VNum 9) world_array
       = Ok true world_array) /\
  exists w,
    enhanceArray_set no_stringify (exec no_stringify no_parse 5) 0%nat 0%nat
      (PString "length") (VNum 1) world_array = Ok true w /\
    heap w = [HArray [VNum 1]; HArray [VNum 1]] /\
    value <$> signals w !! 0%nat = Some (VRef 1%nat) /\
    trace w = [ObsEmit 0%nat (EvChange (VRef 1%nat) (VRef 1%nat))].
Proof.
  split; [intros rec; reflexivity|].
  eexists. split; [vm_compute; reflexivity|]. repeat split.
Qed.

(** ** The theorems at concrete states *)

Ltac solve_tame :=
  repeat first
    [ apply tame_Return
    | apply tame_Log
    | apply tame_GetValue; [reflexivity | intros ?; cbn beta]
    | match goal with |- tame _ (if ?b then _ else _) => destruct b end ].

Ltac solve_handlers_tame :=
  match goal with |- handlers_tame _ _ _ => idtac end;
  let sg := fresh "sg" in let id := fresh "id" in let h := fresh "h" in
  let Hs := fresh "Hs" in let Ha := fresh "Ha" in let Hin := fresh "Hin" in
  intros sg id h Hs Ha Hin; cbn in Hs; injection Hs as <-; cbn in Ha;
  first [ discriminate Ha
        | injection Ha as <-; cbn in Hin;
          repeat (destruct Hin as [<-|Hin]; [eexists; split; [reflexivity | solve_tame]|]);
          destruct Hin ].

Ltac solve_effects_tame :=
  match goal with |- effects_tame _ _ => idtac end;
  let e := fresh "e" in let Hin := fresh "Hin" in
  intros e Hin; cbn in Hin;
  repeat (destruct Hin as [<-|Hin]; [eexists; split; [reflexivity | solve_tame]|]);
  destruct Hin.





(** * More of the engine *)

(** ** Event handlers: [on] and the function it returns *)

Lemma jsset_delete_elements x s :
  jsset_elements (jsset_delete x s) = filter (fun y => y <> x) (jsset_elements s).
Proof.
  induction s as [|[y|] s IH]; cbn [jsset_delete map jsset_elements]; auto.
  fold (jsset_delete x s).
  destruct (Nat.eqb_spec x y) as [->|Hne]; cbn [jsset_elements].
  - rewrite filter_cons_False by (intros H; apply H; reflexivity). exact IH.
  - rewrite filter_cons_True by congruence. f_equal. exact IH.
Qed.

Lemma assoc_app_None {A B} (eqb : A -> A -> bool) k (l : list (A * B)) v :
  assoc eqb k l = None -> eqb k k = true -> assoc eqb k (l ++ [(k, v)]) = Some v.
Proof.
  intros H Hk. induction l as [|[k' v'] l IH]; cbn in *.
  - rewrite Hk. reflexivity.
  - destruct (eqb k k'); [discriminate | auto].
Qed.

Lemma EventType_eqb_refl ty : EventType_eqb ty ty = true.
Proof. destruct ty; reflexivity. Qed.

(** X1: [on(ty, h)] registers [h] once: at the end of the handlers of [ty]
    when it is new, not at all when it is there already; calling the
    function that [on] returned removes [h] and leaves every other handler
    of [ty] registered, in the same order. *)
Theorem unsubscribe_undoes_on s ty h w :
  is_Some (signals w !! s) ->
  handler_set_exists w s ty ->
  exists w1 w2,
    on s ty h w = Ok tt w1 /\
    registered w1 s ty =
      (if decide (h ∈ registered w s ty) then registered w s ty
       else registered w s ty ++ [h]) /\
    unsubscribe s ty h w1 = Ok tt w2 /\
    registered w2 s ty = filter (fun x => x <> h) (registered w s ty).
Proof.
  intros [sg Hs] Hwf. unfold registered, on, unsubscribe, bindM at 1, get_signal.
  rewrite Hs.
  destruct (assoc EventType_eqb ty (eventHandlers sg)) as [id|] eqn:Ha.
  - pose proof (Hwf sg id Hs Ha) as Hid.
    destruct (lookup_lt_is_Some_2 _ _ Hid) as [hs Hhs].
    unfold bindM at 1, ret at 1, modify_handlerSet, modify.
    eexists _, _. split; [reflexivity|].
    cbn [signals with_handlerSets read_set handlerSets]. rewrite Hs, Ha.
    rewrite list_lookup_alter_eq, Hhs. cbn [fmap option_fmap option_map].
    split; [|split].
    + rewrite jsset_add_elements.
      destruct (jsset_has h hs) eqn:E.
      * apply jsset_has_In, list_elem_of_In in E.
        destruct (decide (h ∈ jsset_elements hs)); [reflexivity | contradiction].
      * destruct (decide (h ∈ jsset_elements hs)) as [Hin|]; [|reflexivity].
        apply list_elem_of_In, jsset_has_In in Hin. congruence.
    + unfold bindM at 1. cbn [signals with_handlerSets]. rewrite Hs, Ha. reflexivity.
    + cbn [handlerSets with_handlerSets signals].
      rewrite Hs, Ha.
      rewrite list_lookup_alter_eq, list_lookup_alter_eq, Hhs.
      cbn [fmap option_fmap option_map].
      rewrite jsset_delete_elements, jsset_add_elements.
      destruct (jsset_has h hs); [reflexivity|].
      rewrite filter_app, filter_cons_False by (intros H; apply H; reflexivity).
      rewrite filter_nil. apply app_nil_r.
  - unfold bindM at 1, bindM at 1, gets at 1, bindM at 1, modify at 1.
    unfold bindM at 1, modify_signal, modify at 1. unfold ret at 1.
    unfold modify_handlerSet, modify.
    eexists _, _. split; [reflexivity|].
    cbn [signals with_handlerSets with_signals read_set handlerSets].
    rewrite list_lookup_alter_eq, Hs. cbn [fmap option_fmap option_map eventHandlers with_eventHandlers].
    rewrite (assoc_app_None _ _ _ _ Ha (EventType_eqb_refl ty)).
    assert (Hl : (handlerSets w ++ [[]]) !! length (handlerSets w) = Some ([] : jsset)).
    { rewrite lookup_app_r by lia. rewrite Nat.sub_diag. reflexivity. }
    rewrite list_lookup_alter_eq, Hl. cbn [fmap option_fmap option_map].
    split; [|split].
    + destruct (decide (h ∈ [])) as [Hin|]; [inversion Hin | reflexivity].
    + unfold bindM at 1. cbn [signals with_handlerSets with_signals].
      rewrite list_lookup_alter_eq, Hs. cbn [fmap option_fmap option_map eventHandlers with_eventHandlers].
      rewrite (assoc_app_None _ _ _ _ Ha (EventType_eqb_refl ty)). reflexivity.
    + cbn [handlerSets with_handlerSets signals with_signals].
      rewrite list_lookup_alter_eq, Hs. cbn [fmap option_fmap option_map eventHandlers with_eventHandlers].
      rewrite (assoc_app_None _ _ _ _ Ha (EventType_eqb_refl ty)).
      rewrite list_lookup_alter_eq, list_lookup_alter_eq, Hl.
      cbn. destruct (Nat.eqb_spec h h); [reflexivity | congruence].
Qed.

(** ** Disposal, once *)

(** [emitEvent] logs its emission first; what follows extends the state. *)
Lemma emitEvent_first JS JP fuel s ev w :
  match emitEvent (exec JS JP fuel) s ev w with
  | Ok _ w' | Thrown _ w' =>
      extends w w' /\ exists rest, trace w' = trace w ++ ObsEmit s ev :: rest
  | OutOfFuel => True
  end.
Proof.
  pose proof (exec_extends JS JP fuel) as Hrec.
  unfold emitEvent. unfold bindM at 1, observe, modify.
  set (w3 := with_trace (trace w ++ [ObsEmit s ev]) w).
  set (m := (sg <- get_signal s ;; _)).
  assert (Pm : pres m).
  { subst m. pres_tac. }
  specialize (Pm w3).
  assert (P3 : extends w w3) by apply extends_with_trace.
  destruct (m w3) as [a w'|x w'|]; auto;
    (split; [eapply extends_trans; eauto|]);
    destruct Pm as [_ _ _ [l Hl]]; exists l; rewrite Hl; subst w3; cbn;
    rewrite <- app_assoc; reflexivity.
Qed.

(** What [dispose] leaves on an instance that was not disposed *)
Lemma dispose_live JS JP fuel s sg w :
  signals w !! s = Some sg -> disposed sg = false ->
  forall w1, dispose (exec JS JP fuel) s w = Ok tt w1 ->
    exists sg1 rest,
      signals w1 !! s = Some sg1 /\
      disposed sg1 = true /\ value sg1 = value sg /\
      jsset_elements (subscribers sg1) = [] /\ eventHandlers sg1 = [] /\
      trace w1 = trace w ++ ObsEmit s (EvDispose (value sg)) :: rest.
Proof.
  intros Hs Hd.
  set (w0 := with_signals (alter (with_disposed true) s (signals w)) w).
  assert (E : dispose (exec JS JP fuel) s w =
              (emitEvent (exec JS JP fuel) s (EvDispose (value sg)) ;;
               modify_signal s (fun sg => with_subscribers (jsset_clear (subscribers sg)) sg) ;;
               modify_signal s (with_eventHandlers [])) w0).
  { unfold dispose, bindM at 1, get_signal. rewrite Hs, Hd. reflexivity. }
  rewrite E. clear E.
  assert (Hs0 : signals w0 !! s = Some (with_disposed true sg)).
  { cbn. rewrite list_lookup_alter_eq, Hs. reflexivity. }
  pose proof (emitEvent_first JS JP fuel s (EvDispose (value sg)) w0) as Hf.
  unfold bindM, modify_signal, modify.
  destruct (emitEvent (exec JS JP fuel) s (EvDispose (value sg)) w0) as [[] w'|x w'|];
    [|intros ? HH; discriminate HH|intros ? HH; discriminate HH].
  destruct Hf as ([Hsig _ _ _] & rest & Ht).
  destruct (Hsig s _ Hs0) as (sg' & Hs' & Hfr).
  destruct (Hfr eq_refl) as (Hd' & Hv' & _).
  intros w1 H. inversion H; subst w1.
  eexists _, rest. split; [|split; [|split; [|split; [|split]]]].
  - cbn. rewrite list_lookup_alter_eq, list_lookup_alter_eq, Hs'. reflexivity.
  - exact Hd'.
  - exact Hv'.
  - cbn. apply jsset_clear_elements.
  - reflexivity.
  - cbn. exact Ht.
Qed.

Lemma dispose_disposes JS JP fuel s w w1 :
  dispose (exec JS JP fuel) s w = Ok tt w1 ->
  exists sg1, signals w1 !! s = Some sg1 /\ disposed sg1 = true.
Proof.
  intros H. destruct (signals w !! s) as [sg|] eqn:Hs.
  - destruct (disposed sg) eqn:Hd.
    + unfold dispose, bindM at 1, get_signal in H. rewrite Hs, Hd in H.
      inversion H; subst. eauto.
    + destruct (dispose_live JS JP fuel s sg w Hs Hd w1 H)
        as (sg1 & rest & H1 & H2 & _). eauto.
  - unfold dispose, bindM at 1, get_signal in H. rewrite Hs in H. discriminate.
Qed.

(** [dispose] on a live instance whose [dispose] handlers only read and
    log (in the state in which the instance is already disposed): the
    whole of what it does *)
Lemma dispose_traced JS JP w s sg :
  signals w !! s = Some sg -> disposed sg = false -> effectStack w = [] ->
  handlers_tame (disposing s w) s (EvDispose (value sg)) ->
  exists N, forall fuel, (N <= fuel)%nat ->
  forall t,
    dispose (exec JS JP fuel) s (with_trace t w)
      = Ok tt (with_trace
                 (t ++ ObsEmit s (EvDispose (value sg)) ::
                    flat_map (handler_trace (disposing s w) (EvDispose (value sg)))
                      (registered w s EDispose))
                 (with_signals
                    (alter (with_eventHandlers []) s
                       (alter (fun sg => with_subscribers (jsset_clear (subscribers sg)) sg) s
                          (signals (disposing s w))))
                    w)).
Proof.
  intros Hs Hd Hstack Hh.
  set (w0 := disposing s w).
  assert (Hs0 : signals w0 !! s = Some (with_disposed true sg)).
  { cbn. rewrite list_lookup_alter_eq, Hs. reflexivity. }
  assert (Hreg : registered w0 s EDispose = registered w s EDispose).
  { unfold registered. rewrite Hs0, Hs. reflexivity. }
  destruct (emitEvent_traced JS JP w0 s (with_disposed true sg) (EvDispose (value sg)) Hs0 Hh
              Hstack) as (N & HN).
  exists N. intros fuel Hfuel t.
  specialize (HN fuel Hfuel t). cbn [event_type] in HN. rewrite Hreg in HN.
  unfold dispose, bindM at 1, get_signal. cbn [signals with_trace]. rewrite Hs, Hd.
  unfold bindM at 1, modify_signal at 1, modify at 1. cbn [signals with_trace].
  change (with_signals (alter (with_disposed true) s (signals w)) (with_trace t w))
    with (with_trace t w0).
  unfold bindM at 1. rewrite HN.
  unfold bindM at 1, modify_signal, modify. reflexivity.
Qed.

(** X2: [dispose] on a live instance, outside any effect, with [dispose]
    handlers that only read and log (other instances: this one is disposed
    by the time they run).  It returns normally; the instance is disposed,
    keeps its value and has no subscriber and no handler left; the log
    gains the emission of [dispose] with that value, then every [dispose]
    handler's call, in registration order, with what it logs, and nothing
    else.  A second [dispose] then returns at once and changes nothing. *)
Theorem dispose_is_final JS JP s sg w :
  signals w !! s = Some sg -> disposed sg = false -> effectStack w = [] ->
  handlers_tame (disposing s w) s (EvDispose (value sg)) ->
  exists N, forall fuel, (N <= fuel)%nat ->
    exists w1 sg1,
      dispose (exec JS JP fuel) s w = Ok tt w1 /\
      signals w1 !! s = Some sg1 /\
      disposed sg1 = true /\ value sg1 = value sg /\
      jsset_elements (subscribers sg1) = [] /\ eventHandlers sg1 = [] /\
      trace w1 = trace w ++ ObsEmit s (EvDispose (value sg)) ::
                   flat_map (handler_trace (disposing s w) (EvDispose (value sg)))
                     (registered w s EDispose) /\
      forall rec, dispose rec s w1 = Ok tt w1.
Proof.
  intros Hs Hd Hstack Hh.
  destruct (dispose_traced JS JP w s sg Hs Hd Hstack Hh) as (N & H).
  exists N. intros fuel Hfuel.
  specialize (H fuel Hfuel (trace w)). rewrite with_trace_id in H.
  eexists _, _. split; [exact H|].
  assert (Hs1 : alter (with_eventHandlers []) s
                  (alter (fun sg => with_subscribers (jsset_clear (subscribers sg)) sg) s
                     (signals (disposing s w))) !! s
                = Some (with_eventHandlers []
                          (with_subscribers (jsset_clear (subscribers sg))
                             (with_disposed true sg)))).
  { cbn [disposing signals with_signals].
    rewrite !list_lookup_alter_eq, Hs. reflexivity. }
  split; [cbn [signals with_trace with_signals]; exact Hs1|].
  split; [reflexivity|]. split; [reflexivity|].
  split; [cbn; apply jsset_clear_elements|]. split; [reflexivity|].
  split; [reflexivity|].
  intros rec. unfold dispose, bindM at 1, get_signal.
  cbn [signals with_trace with_signals]. rewrite Hs1. reflexivity.
Qed.

(** X28: disposal is final.  On a disposed instance a read and a write
    throw to the caller and change nothing.  And whatever the engine is
    asked to do from then on (any callback body, any pending loop or
    emission, the queued init task), if it comes back, normally or by a
    throw, the instance is still disposed, has the value it had, and has
    gained no subscriber. *)
Theorem disposed_stays_disposed JS JP w s sg :
  signals w !! s = Some sg ->
  disposed sg = true ->
  get_value s w = Thrown (Error "Attempted to access disposed resin") w /\
  (forall rec newValue,
     set_value JS rec s newValue w
       = Thrown (Error "Attempted to modify disposed resin") w) /\
  (forall fuel c,
     match exec JS JP fuel c w with
     | Ok _ w' | Thrown _ w' =>
         exists sg', signals w' !! s = Some sg' /\ frozen sg sg'
     | OutOfFuel => True
     end) /\
  (forall fuel,
     match runMicrotask (exec JS JP fuel) w with
     | Ok _ w' | Thrown _ w' =>
         exists sg', signals w' !! s = Some sg' /\ frozen sg sg'
     | OutOfFuel => True
     end).
Proof.
  intros Hs Hd. split; [|split; [|split]].
  - unfold get_value, bindM, get_signal. rewrite Hs, Hd. reflexivity.
  - intros rec v.
    unfold set_value, set_value_try, set_value_catch, bindM, get_signal.
    rewrite Hs, Hd. reflexivity.
  - intros fuel c. pose proof (exec_extends JS JP fuel c w) as H.
    destruct (exec JS JP fuel c w) as [a w'|x w'|]; auto;
      destruct H as [Hsig _ _ _]; destruct (Hsig s sg Hs) as (sg' & Hs' & F); eauto.
  - intros fuel. pose proof (pres_runMicrotask JS JP fuel w) as H.
    destruct (runMicrotask (exec JS JP fuel) w) as [a w'|x w'|]; auto;
      destruct H as [Hsig _ _ _]; destruct (Hsig s sg Hs) as (sg' & Hs' & F); eauto.
Qed.

(** ** Batch depth *)

(** X3: [batch] gives the batch depth back as it found it, whether [fn]
    returns or throws and whatever it and the flushed effects do in
    between. *)
Theorem batch_restores_depth JS JP fuel fn w :
  match batch (exec JS JP fuel) fn w with
  | Ok _ w' | Thrown _ w' => batchDepth w' = batchDepth w
  | OutOfFuel => True
  end.
Proof.
  pose proof (pres_batch (exec JS JP fuel) (exec_extends JS JP fuel) fn w) as P.
  destruct (batch (exec JS JP fuel) fn w); auto; apply P.
Qed.

(** ** The [dispose] of a derived instance *)

Lemma jsset_delete_absent e s : ~ In e (jsset_elements (jsset_delete e s)).
Proof.
  rewrite jsset_delete_elements. intros H.
  apply list_elem_of_In, list_elem_of_filter in H as [H _]. apply H. reflexivity.
Qed.

Lemma unsubscribe_keeps_absent e (from : list nat) : forall (sigs : list signal) (dep : nat) sg',
  (forall sg, sigs !! dep = Some sg -> ~ In e (jsset_elements (subscribers sg))) ->
  fold_left (fun sigs dep =>
               alter (fun sg => with_subscribers (jsset_delete e (subscribers sg)) sg)
                     dep sigs) from sigs !! dep = Some sg' ->
  ~ In e (jsset_elements (subscribers sg')).
Proof.
  induction from as [|d rest IH]; intros sigs dep sg' Habs H; cbn in H.
  - apply Habs. exact H.
  - eapply IH; [|exact H]. intros sg Hsg.
    destruct (decide (d = dep)) as [->|Hne].
    + rewrite list_lookup_alter_eq in Hsg.
      destruct (sigs !! dep) as [sg0|]; [|discriminate].
      inversion Hsg; subst. cbn. apply jsset_delete_absent.
    + rewrite list_lookup_alter_ne in Hsg by exact Hne. apply Habs. exact Hsg.
Qed.

Lemma unsubscribe_removes e (from : list nat) : forall (sigs : list signal) (dep : nat) sg',
  In dep from ->
  fold_left (fun sigs dep =>
               alter (fun sg => with_subscribers (jsset_delete e (subscribers sg)) sg)
                     dep sigs) from sigs !! dep = Some sg' ->
  ~ In e (jsset_elements (subscribers sg')).
Proof.
  induction from as [|d rest IH]; intros sigs dep sg' Hin H; [destruct Hin|].
  cbn in H. destruct (decide (d = dep)) as [->|Hne].
  - eapply unsubscribe_keeps_absent; [|exact H]. intros sg Hsg.
    rewrite list_lookup_alter_eq in Hsg.
    destruct (sigs !! dep) as [sg0|]; [|discriminate].
    inversion Hsg; subst. cbn. apply jsset_delete_absent.
  - destruct Hin as [->|Hin]; [congruence|]. eapply IH; eauto.
Qed.

(** What the [dispose] of a derived object has done when it returns *)
Lemma dispose_derived_result JS JP fuel d w w' :
  dispose_derived (exec JS JP fuel) d w = Ok tt w' ->
  (exists sg', signals w' !! d_inner d = Some sg' /\ disposed sg' = true) /\
  forall dep sg', In dep (d_from d) -> signals w' !! dep = Some sg' ->
    ~ In (d_effect d) (jsset_elements (subscribers sg')).
Proof.
  unfold dispose_derived, bindM.
  destruct (dispose (exec JS JP fuel) (d_inner d) w) as [[] w1|x w1|] eqn:E;
    try discriminate.
  unfold modify. intros H. inversion H; subst w'. clear H.
  split.
  - apply dispose_disposes in E as (sg1 & H1 & D1).
    destruct (sigs_extend_unsubscribe (d_effect d) (d_from d) (signals w1) _ _ H1)
      as (sg' & Hs' & Hfr).
    exists sg'. split; [exact Hs'|]. apply Hfr. exact D1.
  - intros dep sg' Hin Hl. cbn in Hl. eapply unsubscribe_removes; eauto.
Qed.

(** X4: the [dispose] of the object that [derive] returned, called outside
    any effect when the [dispose] handlers of the inner instance (if it is
    still live) only read and log: it returns normally, the inner instance
    is disposed, and the effect of the derivation is in the subscriber set
    of none of the sources.  What it adds to the log is what the [dispose]
    of the inner instance adds: nothing when that was disposed already,
    else the [dispose] emission and the calls of its handlers. *)
Theorem derived_dispose_unsubscribes JS JP d w sgi :
  signals w !! d_inner d = Some sgi -> effectStack w = [] ->
  (disposed sgi = false ->
   handlers_tame (disposing (d_inner d) w) (d_inner d) (EvDispose (value sgi))) ->
  exists N, forall fuel, (N <= fuel)%nat ->
    exists w',
      dispose_derived (exec JS JP fuel) d w = Ok tt w' /\
      (exists sg', signals w' !! d_inner d = Some sg' /\ disposed sg' = true) /\
      (forall dep sg', In dep (d_from d) -> signals w' !! dep = Some sg' ->
         ~ In (d_effect d) (jsset_elements (subscribers sg'))) /\
      trace w' = trace w ++
                   (if disposed sgi then []
                    else ObsEmit (d_inner d) (EvDispose (value sgi)) ::
                           flat_map (handler_trace (disposing (d_inner d) w)
                                       (EvDispose (value sgi)))
                             (registered w (d_inner d) EDispose)).
Proof.
  intros Hs Hstack Hh.
  assert (Hdisp : exists N, forall fuel, (N <= fuel)%nat ->
            exists w1,
              dispose (exec JS JP fuel) (d_inner d) w = Ok tt w1 /\
              trace w1 = trace w ++
                   (if disposed sgi then []
                    else ObsEmit (d_inner d) (EvDispose (value sgi)) ::
                           flat_map (handler_trace (disposing (d_inner d) w)
                                       (EvDispose (value sgi)))
                             (registered w (d_inner d) EDispose))).
  { destruct (disposed sgi) eqn:Hd.
    - exists 0%nat. intros fuel _. exists w. split; [|rewrite app_nil_r; reflexivity].
      unfold dispose, bindM at 1, get_signal. rewrite Hs, Hd. reflexivity.
    - destruct (dispose_traced JS JP w (d_inner d) sgi Hs Hd Hstack (Hh eq_refl)) as (N & H).
      exists N. intros fuel Hfuel. specialize (H fuel Hfuel (trace w)).
      rewrite with_trace_id in H. eexists. split; [exact H | reflexivity]. }
  destruct Hdisp as (N & Hdisp). exists N. intros fuel Hfuel.
  destruct (Hdisp fuel Hfuel) as (w1 & H1 & Ht1).
  assert (Hrun : exists w', dispose_derived (exec JS JP fuel) d w = Ok tt w' /\
                            trace w' = trace w1).
  { unfold dispose_derived, bindM. rewrite H1. unfold modify. eauto. }
  destruct Hrun as (w' & Hrun & Ht'). exists w'. split; [exact Hrun|].
  destruct (dispose_derived_result JS JP fuel d w w' Hrun) as [A B].
  split; [exact A|]. split; [exact B|]. rewrite Ht'. exact Ht1.
Qed.

(** ** Paths *)

Lemma split_dots_app p : forall cur q,
  split_dots cur (p ++ String "."%char q)%string
    = split_dots cur p ++ split_dots EmptyString q.
Proof.
  induction p as [|c p IH]; intros cur q.
  - reflexivity.
  - change (String c p ++ String "."%char q)%string
      with (String c (p ++ String "."%char q))%string.
    cbn [split_dots]. destruct (Ascii.eqb c "."%char); rewrite IH; reflexivity.
Qed.

Lemma walk_path_undefined h segments : walk_path h VUndefined segments = VUndefined.
Proof. destruct segments; reflexivity. Qed.

Lemma walk_path_app h segments : forall current rest,
  walk_path h current (segments ++ rest)
    = walk_path h (walk_path h current segments) rest.
Proof.
  induction segments as [|key segments IH]; intros current rest; [reflexivity|].
  cbn [app walk_path].
  destruct (if isArray h current && digits_only key
            then array_index h current (parseInt key)
            else member h current key);
    try apply IH; rewrite walk_path_undefined; reflexivity.
Qed.

(** X5: a path is resolved segment by segment.  When a prefix of the path
    leads to nothing, so does the whole path; when it leads to a truthy
    value, the rest of the path is resolved from that value as from a root.
    (A falsy value that is not [null] or [undefined] stops the resolution
    only at the root.) *)
Theorem path_resolution_composes h obj p q :
  (getValueByPath h obj p = VUndefined ->
   getValueByPath h obj (p ++ String "."%char q)%string = VUndefined) /\
  (truthy (getValueByPath h obj p) = true ->
   getValueByPath h obj (p ++ String "."%char q)%string
     = getValueByPath h (getValueByPath h obj p) q).
Proof.
  unfold getValueByPath. rewrite split_dots_app, walk_path_app.
  destruct (truthy obj); cbn [negb].
  - split.
    + intros ->. apply walk_path_undefined.
    + intros ->. reflexivity.
  - split; [reflexivity | discriminate].
Qed.

(** ** Writes that pass, and what they store *)

Lemma same_frame_written s sg v w : same_frame w (written s sg v w).
Proof.
  unfold written. destruct (0 <? batchDepth w).
  - eapply same_frame_trans; [apply same_frame_assign | apply same_frame_with_pendingEffects].
  - apply same_frame_assign.
Qed.

(** [emitEvent] with tame handlers: each registered handler is called once,
    in registration order. *)
Lemma emitEvent_in_order JS JP w s sg ev :
  signals w !! s = Some sg -> handlers_tame w s ev -> effectStack w = [] ->
  exists N, forall fuel, (N <= fuel)%nat ->
  forall t, exists outs,
    emitEvent (exec JS JP fuel) s ev (with_trace t w)
      = Ok tt (with_trace (t ++ ObsEmit s ev :: concat outs) w) /\
    Forall2 (handler_out ev) (registered w s (event_type ev)) outs.
Proof.
  intros Hs Hh Hstack. unfold registered. rewrite Hs.
  destruct (assoc EventType_eqb (event_type ev) (eventHandlers sg)) as [id|] eqn:Ha.
  - exists (S (length (read_set (Handlers id) w))). intros fuel Hfuel t.
    destruct (each_quiet JS JP (handler_out ev) (Handlers id) (HandleEvent s ev) w
                fuel 0%nat) with (t := t ++ [ObsEmit s ev]) as (outs & Hrun & Hq).
    { lia. }
    { intros h Hin n. rewrite drop_0 in Hin.
      destruct (Hh sg id h Hs Ha Hin) as (f & Hf & Ht).
      cbn [apply_callback]. eapply guarded_handler_tame; eauto. }
    exists outs. split; [|rewrite drop_0 in Hq; exact Hq].
    unfold emitEvent, bindM at 1, observe, modify. cbn [trace with_trace].
    change (with_trace (t ++ [ObsEmit s ev]) (with_trace t w))
      with (with_trace (t ++ [ObsEmit s ev]) w).
    unfold bindM at 1, get_signal. cbn [signals with_trace]. rewrite Hs, Ha.
    unfold forEach, bindM at 1. rewrite Hrun, <- app_assoc. reflexivity.
  - exists 0%nat. intros fuel _ t. exists []. split; [|constructor].
    unfold emitEvent, bindM at 1, observe, modify. cbn [trace with_trace].
    unfold bindM at 1, get_signal. cbn [signals with_trace]. rewrite Hs, Ha.
    reflexivity.
Qed.

(** A passing write, batch open or not, up to the tail of [notify]; the
    subscribers are functions that return normally and change nothing but
    the log. *)
Lemma passing_write_calm JS JP w s sg v old r :
  signals w !! s = Some sg ->
  disposed sg = false ->
  strict_eq (value sg) v = false ->
  transformValue (options sg) v = inr old ->
  validateValue (options sg) v = inr r -> valid r = true ->
  effectStack w = [] ->
  (0 < batchDepth w \/
   forall e, In e (jsset_elements (subscribers sg)) ->
     forall n, quiet (callEffect (exec JS JP (S n)) e) (written s sg v w) (effect_out e)) ->
  handlers_tame w s (EvChange v old) ->
  exists N, forall fuel, (N <= fuel)%nat ->
  forall t, exists sout houts,
    set_value JS (exec JS JP fuel) s v (with_trace t w)
      = persistValue JS s
          (with_trace (t ++ sout ++ ObsEmit s (EvChange v old) :: concat houts)
             (written s sg v w)) /\
    effects_out (if 0 <? batchDepth w then [] else jsset_elements (subscribers sg)) sout /\
    Forall2 (handler_out (EvChange v old)) (registered w s EChange) houts.
Proof.
  intros Hs Hd Hne Ht Hv Hr Hstack He Hh.
  set (w1 := written s sg v w).
  assert (F : same_frame w w1) by apply same_frame_written.
  assert (Hs1 : signals w1 !! s = Some (with_value v sg)).
  { subst w1. unfold written. destruct (0 <? batchDepth w); apply assign_lookup; exact Hs. }
  assert (Hstack1 : effectStack w1 = []).
  { subst w1. unfold written. destruct (0 <? batchDepth w); exact Hstack. }
  destruct (emitEvent_in_order JS JP w1 s (with_value v sg) (EvChange v old)) as (N & HN); auto.
  { eapply same_frame_handlers_tame; eauto. }
  destruct (persistValue_ok JS w1 s (with_value v sg) Hs1) as (ls & Hp).
  assert (Htail : forall fuel, (N <= fuel)%nat -> forall t, exists houts,
            try_catch (emitEvent (exec JS JP fuel) s (EvChange v old) ;; persistValue JS s)
              (set_value_catch (exec JS JP fuel) s sg) (with_trace t w1)
            = persistValue JS s
                (with_trace (t ++ ObsEmit s (EvChange v old) :: concat houts) w1) /\
            Forall2 (handler_out (EvChange v old)) (registered w s EChange) houts).
  { intros fuel Hfuel t. destruct (HN fuel Hfuel t) as (houts & Hrun & Hobs).
    exists houts. split.
    - unfold try_catch, bindM. rewrite Hrun, Hp. reflexivity.
    - cbn [event_type] in Hobs.
      rewrite (registered_same_frame w w1 s EChange F) in Hobs by eauto. exact Hobs. }
  destruct (Z.ltb_spec 0 (batchDepth w)) as [Hdepth|Hdepth].
  - exists N. intros fuel Hfuel t.
    destruct (Htail fuel Hfuel t) as (hout & Hrun & Hobs).
    exists [], hout. split; [|split; [exists []; split; [reflexivity | constructor] | exact Hobs]].
    rewrite (write_in_batch_reaches_emit JS _ (with_trace t w) s sg v old r) by assumption.
    subst w1. unfold written in *.
    destruct (Z.ltb_spec 0 (batchDepth w)) as [_|]; [|lia].
    exact Hrun.
  - assert (Hset : read_set (Subscribers s) w1 = subscribers sg).
    { unfold read_set. rewrite Hs1. reflexivity. }
    destruct He as [He|He]; [lia|].
    exists (N + S (length (subscribers sg)))%nat. intros fuel Hfuel t.
    destruct (each_quiet JS JP effect_out (Subscribers s) RunEffect w1 fuel 0%nat)
      with (t := t) as (outs & Hsubs & Hq).
    { rewrite Hset. lia. }
    { intros e Hin n. rewrite drop_0, Hset in Hin.
      cbn [apply_callback]. apply He. exact Hin. }
    rewrite drop_0, Hset in Hq.
    destruct (Htail fuel ltac:(lia) (t ++ concat outs)) as (hout & Hrun & Hobs).
    exists (concat outs), hout. split; [|split; [exists outs; auto | exact Hobs]].
    rewrite <- app_assoc in Hrun. rewrite <- Hrun. clear Hrun.
    assert (Ew : w1 = assign s v w).
    { subst w1. unfold written. destruct (Z.ltb_spec 0 (batchDepth w)); [lia | reflexivity]. }
    unfold set_value, set_value_try, bindM at 1, get_signal. cbn [signals with_trace]. rewrite Hs, Hd.
    unfold try_catch. rewrite Hne, Ht, Hv. unfold bindM at 1. cbn [lift ret].
    unfold bindM at 1. cbn [lift ret]. rewrite Hr. cbn [negb].
    unfold bindM at 1, modify_signal, modify. cbn [signals with_trace].
    unfold notify, bindM at 1, get_signal. cbn [signals with_signals].
    rewrite list_lookup_alter_eq, Hs. cbn [fmap option_fmap option_map disposed with_value].
    rewrite Hd. unfold bindM at 1, gets. cbn [batchDepth with_signals with_trace].
    destruct (Z.ltb_spec 0 (batchDepth w)) as [|_]; [lia|].
    unfold bindM at 1, forEach, bindM at 1.
    change (with_signals _ (with_trace t w)) with (with_trace t (assign s v w)).
    rewrite <- Ew. rewrite Hsubs. unfold ret at 1.
    unfold bindM at 1, get_signal. cbn [signals with_trace]. rewrite Hs1.
    cbn [value with_value]. reflexivity.
Qed.

Lemma passing_write JS JP w s sg v old r :
  signals w !! s = Some sg ->
  disposed sg = false ->
  strict_eq (value sg) v = false ->
  transformValue (options sg) v = inr old ->
  validateValue (options sg) v = inr r -> valid r = true ->
  effectStack w = [] ->
  (0 < batchDepth w \/ effects_tame w (subscribers sg)) ->
  handlers_tame w s (EvChange v old) ->
  exists N, forall fuel, (N <= fuel)%nat ->
  forall t, exists sout houts,
    set_value JS (exec JS JP fuel) s v (with_trace t w)
      = persistValue JS s
          (with_trace (t ++ sout ++ ObsEmit s (EvChange v old) :: concat houts)
             (written s sg v w)) /\
    effects_out (if 0 <? batchDepth w then [] else jsset_elements (subscribers sg)) sout /\
    Forall2 (handler_out (EvChange v old)) (registered w s EChange) houts.
Proof.
  intros Hs Hd Hne Ht Hv Hr Hstack He Hh.
  apply (passing_write_calm JS JP w s sg v old r); auto.
  destruct He as [He|He]; [left; exact He | right].
  intros e Hin n.
  pose proof (same_frame_written s sg v w) as F.
  destruct (same_frame_effects_tame w _ _ F He e Hin) as (body & Hb & Hbt).
  eapply callEffect_tame; eauto.
  unfold written. destruct (0 <? batchDepth w); exact Hstack.
Qed.

(** ** Persistence *)

Lemma assoc_setItem k v l : assoc String.eqb k (setItem k v l) = Some v.
Proof.
  induction l as [|[k' v'] l IH]; cbn.
  - rewrite String.eqb_refl. reflexivity.
  - destruct (String.eqb k k') eqn:E; cbn; [rewrite String.eqb_refl | rewrite E]; auto.
Qed.

Lemma with_heap_id w : with_heap (heap w) w = w.
Proof. destruct w; reflexivity. Qed.

(** The restore of [resin] returns, and touches nothing but the heap of
    [JSON.parse]. *)
Lemma restore_result JP init opts w :
  exists v w0, restore JP init opts w = Ok v w0 /\ w0 = with_heap (heap w0) w.
Proof.
  unfold restore. destruct (opts ≫= persist) as [p|].
  - unfold bindM at 1, gets at 1.
    destruct (assoc String.eqb (key p) (localStorage w)) as [stored|].
    + destruct (String.eqb stored EmptyString).
      * eexists _, _. split; [reflexivity|]. symmetry. apply with_heap_id.
      * destruct (deserialize p) as [f|].
        -- destruct (f stored); eexists _, _; (split; [reflexivity|]);
             symmetry; apply with_heap_id.
        -- unfold bindM at 1, gets at 1.
           destruct (JP stored (heap w)) as [x|[v h']].
           ++ eexists _, _. split; [reflexivity|]. symmetry. apply with_heap_id.
           ++ eexists _, _. split; [reflexivity|]. reflexivity.
    + eexists _, _. split; [reflexivity|]. symmetry. apply with_heap_id.
  - eexists _, _. split; [reflexivity|]. symmetry. apply with_heap_id.
Qed.

Lemma isArray_ref h v : isArray h v = true -> exists l, v = VRef l.
Proof. destruct v; try discriminate. eauto. Qed.

Lemma isMap_ref h v : isMap h v = true -> exists l, v = VRef l.
Proof. destruct v; try discriminate. eauto. Qed.

(** The state in which [resin] ends: a new instance at the end of the
    list, holding what the restore gave, its [init] task queued last.  An
    array or a Map has been read once through the getter, which subscribes
    the effect that is running, if any. *)
Lemma resin_read JP init opts w v w0 :
  restore JP init opts w = Ok v w0 -> w0 = with_heap (heap w0) w ->
  forall k : jsval -> M nat,
    (target <- get_value (length (signals w)) ;; k target)
      (with_microtasks (microtasks w ++ [length (signals w)])
         (with_signals (signals w ++ [plain v [] [] opts]) w0))
    = k v (with_signals
             (signals w ++
                [plain v match last (effectStack w) with
                         | Some e => [Some e]
                         | None => []
                         end [] opts])
             (with_microtasks (microtasks w ++ [length (signals w)]) w0)).
Proof.
  intros Hr Hw0 k.
  assert (Hstack : effectStack w0 = effectStack w) by (rewrite Hw0; reflexivity).
  unfold bindM at 1, get_value, bindM at 1, get_signal.
  cbn [signals with_microtasks with_signals].
  rewrite lookup_app_r by lia. rewrite Nat.sub_diag. cbn [lookup list_lookup].
  cbn [disposed plain]. unfold bindM at 1, gets at 1.
  cbn [effectStack with_microtasks with_signals]. rewrite Hstack.
  destruct (last (effectStack w)) as [e|]; [|reflexivity].
  unfold bindM at 1, modify_signal, modify. cbn [signals with_microtasks with_signals].
  unfold ret. cbn [value plain]. f_equal. unfold with_signals at 1. cbn -[alter].
  f_equal.
  rewrite <- (Nat.add_0_r (length (signals w))), alter_app_r. reflexivity.
Qed.

(** [resin] returns unless it is given an array or a Map and the restore
    gave something that is no object. *)
Lemma resin_result JP init opts w v w0 :
  restore JP init opts w = Ok v w0 -> w0 = with_heap (heap w0) w ->
  (isArray (heap w0) init || isMap (heap w0) init = true -> exists l, v = VRef l) ->
  resin JP init opts w =
    Ok (length (signals w))
       (with_signals
          (signals w ++
             [plain v
                (if isArray (heap w0) init || isMap (heap w0) init
                 then match last (effectStack w) with
                      | Some e => [Some e]
                      | None => []
                      end
                 else [])
                [] opts])
          (with_microtasks (microtasks w ++ [length (signals w)]) w0)).
Proof.
  intros Hr Hw0 Hobj. unfold resin, bindM at 1. rewrite Hr.
  unfold bindM at 1, gets at 1, bindM at 1, modify at 1, bindM at 1, modify at 1.
  unfold bindM at 1, gets at 1.
  cbn [heap microtasks with_microtasks with_signals].
  assert (Hsig : signals w0 = signals w) by (rewrite Hw0; reflexivity).
  assert (Hmt : microtasks w0 = microtasks w) by (rewrite Hw0; reflexivity).
  rewrite Hsig, Hmt.
  assert (Hread : forall m : M nat,
            m = (target <- get_value (length (signals w)) ;;
                 new_Proxy target ;; ret (length (signals w))) ->
            (exists l, v = VRef l) ->
            m (with_microtasks (microtasks w ++ [length (signals w)])
                 (with_signals (signals w ++ [plain v [] [] opts]) w0))
            = Ok (length (signals w))
                (with_signals
                   (signals w ++
                      [plain v match last (effectStack w) with
                               | Some e => [Some e]
                               | None => []
                               end [] opts])
                   (with_microtasks (microtasks w ++ [length (signals w)]) w0))).
  { intros m -> [l ->]. rewrite (resin_read JP init opts w (VRef l) w0 Hr Hw0). reflexivity. }
  destruct (isArray (heap w0) init); [apply Hread; [reflexivity | apply Hobj; reflexivity]|].
  destruct (isMap (heap w0) init); [apply Hread; [reflexivity | apply Hobj; reflexivity]|].
  reflexivity.
Qed.

(** Without a restored value [resin] returns: an array or a Map is an
    object. *)
Lemma resin_keeps JP init opts w :
  restore JP init opts w = Ok init w ->
  resin JP init opts w =
    Ok (length (signals w))
       (with_signals
          (signals w ++
             [plain init
                (if isArray (heap w) init || isMap (heap w) init
                 then match last (effectStack w) with
                      | Some e => [Some e]
                      | None => []
                      end
                 else [])
                [] opts])
          (with_microtasks (microtasks w ++ [length (signals w)]) w)).
Proof.
  intros Hres. apply (resin_result JP init opts w init w Hres).
  - symmetry. apply with_heap_id.
  - intros H. apply orb_true_iff in H as [H|H];
      [eapply isArray_ref | eapply isMap_ref]; eauto.
Qed.

(** Given an array or a Map when the restore gave something that is no
    object, [resin] throws at [new Proxy], after it has made the instance
    and queued its [init] task. *)
Lemma resin_refuses JP init opts w v w0 :
  restore JP init opts w = Ok v w0 -> w0 = with_heap (heap w0) w ->
  isArray (heap w0) init || isMap (heap w0) init = true ->
  (forall l, v <> VRef l) ->
  resin JP init opts w =
    Thrown (TypeError "Cannot create proxy with a non-object as target or handler")
       (with_signals
          (signals w ++
             [plain v match last (effectStack w) with
                      | Some e => [Some e]
                      | None => []
                      end [] opts])
          (with_microtasks (microtasks w ++ [length (signals w)]) w0)).
Proof.
  intros Hr Hw0 Hcoll Hprim. unfold resin, bindM at 1. rewrite Hr.
  unfold bindM at 1, gets at 1, bindM at 1, modify at 1, bindM at 1, modify at 1.
  unfold bindM at 1, gets at 1.
  cbn [heap microtasks with_microtasks with_signals].
  assert (Hsig : signals w0 = signals w) by (rewrite Hw0; reflexivity).
  assert (Hmt : microtasks w0 = microtasks w) by (rewrite Hw0; reflexivity).
  rewrite Hsig, Hmt.
  assert (Hread : forall m : M nat,
            m = (target <- get_value (length (signals w)) ;;
                 new_Proxy target ;; ret (length (signals w))) ->
            m (with_microtasks (microtasks w ++ [length (signals w)])
                 (with_signals (signals w ++ [plain v [] [] opts]) w0))
            = Thrown (TypeError "Cannot create proxy with a non-object as target or handler")
                (with_signals
                   (signals w ++
                      [plain v match last (effectStack w) with
                               | Some e => [Some e]
                               | None => []
                               end [] opts])
                   (with_microtasks (microtasks w ++ [length (signals w)]) w0))).
  { intros m ->. rewrite (resin_read JP init opts w v w0 Hr Hw0).
    destruct v; try reflexivity. exfalso. eapply Hprim. reflexivity. }
  destruct (isArray (heap w0) init); [apply Hread; reflexivity|].
  destruct (isMap (heap w0) init); [apply Hread; reflexivity|].
  discriminate.
Qed.

Lemma persistValue_stores JS w s sg p str :
  signals w !! s = Some sg ->
  options sg ≫= persist = Some p ->
  match serialize p with
  | Some f => f (value sg)
  | None => JS (heap w) (value sg)
  end = inr str ->
  forall t, persistValue JS s (with_trace t w)
            = Ok tt (with_trace t (with_localStorage (setItem (key p) str (localStorage w)) w)).
Proof.
  intros Hs Hp Hser t. unfold persistValue, bindM, get_signal. cbn [signals with_trace].
  rewrite Hs, Hp. unfold gets. cbn [heap with_trace]. rewrite Hser. reflexivity.
Qed.

Lemma persistValue_fails JS w s sg p x :
  signals w !! s = Some sg ->
  options sg ≫= persist = Some p ->
  match serialize p with
  | Some f => f (value sg)
  | None => JS (heap w) (value sg)
  end = inl x ->
  forall t, persistValue JS s (with_trace t w) = Ok tt (with_trace t w).
Proof.
  intros Hs Hp Hser t. unfold persistValue, bindM, get_signal. cbn [signals with_trace].
  rewrite Hs, Hp. unfold gets. cbn [heap with_trace]. rewrite Hser. reflexivity.
Qed.

Lemma written_lookup s sg v w :
  signals w !! s = Some sg -> signals (written s sg v w) !! s = Some (with_value v sg).
Proof.
  intros Hs. unfold written. destruct (0 <? batchDepth w); apply assign_lookup; exact Hs.
Qed.

(** X6: what a passing write persists is what a later [resin] with the same
    [persist] option starts from.  With a serializer that returns a
    non-empty string for the value written, the write stores that string
    under the key.  A [resin(init, options)] made afterwards holds what the
    deserializer makes of it, not [init]: whenever [init] is neither an
    array nor a Map, and for an array or a Map when what is restored is one
    of the two as well.  Given an array or a Map, [resin] throws a
    [TypeError] when what is restored is no object. *)
Theorem persisted_value_is_restored JS JP w s sg opts p ser de v old r str v' :
  signals w !! s = Some sg -> disposed sg = false ->
  options sg = Some opts -> persist opts = Some p ->
  serialize p = Some ser -> deserialize p = Some de ->
  ser v = inr str -> str <> EmptyString -> de str = inr v' ->
  strict_eq (value sg) v = false ->
  transformValue (options sg) v = inr old ->
  validateValue (options sg) v = inr r -> valid r = true ->
  effectStack w = [] ->
  (0 < batchDepth w \/ effects_tame w (subscribers sg)) ->
  handlers_tame w s (EvChange v old) ->
  exists N, forall fuel, (N <= fuel)%nat ->
    exists w1,
      set_value JS (exec JS JP fuel) s v w = Ok tt w1 /\
      value <$> signals w1 !! s = Some v /\
      assoc String.eqb (key p) (localStorage w1) = Some str /\
      forall init,
        (isArray (heap w1) init || isMap (heap w1) init = false \/
         isArray (heap w1) v' || isMap (heap w1) v' = true ->
         exists w2,
           resin JP init (Some opts) w1 = Ok (length (signals w1)) w2 /\
           value <$> signals w2 !! length (signals w1) = Some v') /\
        (isArray (heap w1) init || isMap (heap w1) init = true ->
         (forall l, v' <> VRef l) ->
         exists w2,
           resin JP init (Some opts) w1
             = Thrown (TypeError "Cannot create proxy with a non-object as target or handler")
                 w2).
Proof.
  intros Hs Hd Ho Hp Hser Hde Hstr Hne0 Hv' Hne Ht Hv Hr Hstack He Hh.
  destruct (passing_write JS JP w s sg v old r) as (N & H); auto.
  exists N. intros fuel Hfuel.
  destruct (H fuel Hfuel (trace w)) as (sout & hout & Hrun & _).
  rewrite with_trace_id in Hrun.
  rewrite (persistValue_stores JS (written s sg v w) s (with_value v sg) p str) in Hrun.
  2: { apply written_lookup. exact Hs. }
  2: { cbn [options with_value]. rewrite Ho. exact Hp. }
  2: { rewrite Hser. exact Hstr. }
  eexists. split; [exact Hrun|]. split; [|split].
  - cbn [signals with_trace with_localStorage]. rewrite (written_lookup s sg v w Hs). reflexivity.
  - cbn [localStorage with_trace with_localStorage]. apply assoc_setItem.
  - intros init.
    match goal with |- context [resin JP init (Some opts) ?x] => set (w1 := x) end.
    assert (Hres : restore JP init (Some opts) w1 = Ok v' w1).
    { unfold restore. cbn [mbind option_bind]. rewrite Hp.
      unfold bindM at 1, gets at 1.
      assert (Hl : assoc String.eqb (key p) (localStorage w1) = Some str)
        by (subst w1; cbn [localStorage with_trace with_localStorage]; apply assoc_setItem).
      rewrite Hl.
      destruct (String.eqb_spec str EmptyString) as [|_]; [contradiction|].
      rewrite Hde, Hv'. reflexivity. }
    split.
    + intros Hcase. eexists. split.
      * apply (resin_result JP init (Some opts) w1 v' w1 Hres).
        -- symmetry. apply with_heap_id.
        -- intros Hcoll. destruct Hcase as [Hn|Hobj]; [congruence|].
           apply orb_true_iff in Hobj as [Ha|Hm];
             [eapply isArray_ref | eapply isMap_ref]; eauto.
      * cbn [signals with_signals]. rewrite lookup_app_r by lia.
        rewrite Nat.sub_diag. reflexivity.
    + intros Hcoll Hprim. eexists.
      apply (resin_refuses JP init (Some opts) w1 v' w1 Hres);
        [symmetry; apply with_heap_id | exact Hcoll | exact Hprim].
Qed.

(** X7: a serializer that throws (or a [JSON.stringify] that throws) does
    not disturb the write: the value is stored, [change] is emitted, the
    write returns normally and the store keeps what it had. *)
Theorem persist_failure_is_swallowed JS JP w s sg opts p x v old r :
  signals w !! s = Some sg -> disposed sg = false ->
  options sg = Some opts -> persist opts = Some p ->
  match serialize p with
  | Some f => f v
  | None => JS (heap w) v
  end = inl x ->
  strict_eq (value sg) v = false ->
  transformValue (options sg) v = inr old ->
  validateValue (options sg) v = inr r -> valid r = true ->
  effectStack w = [] ->
  (0 < batchDepth w \/ effects_tame w (subscribers sg)) ->
  handlers_tame w s (EvChange v old) ->
  exists N, forall fuel, (N <= fuel)%nat ->
    exists w1 out,
      set_value JS (exec JS JP fuel) s v w = Ok tt w1 /\
      value <$> signals w1 !! s = Some v /\
      localStorage w1 = localStorage w /\
      trace w1 = trace w ++ out /\
      emits_of s EChange out = 1%nat /\ emits_of s EError out = 0%nat.
Proof.
  intros Hs Hd Ho Hp Hser Hne Ht Hv Hr Hstack He Hh.
  destruct (passing_write JS JP w s sg v old r) as (N & H); auto.
  exists N. intros fuel Hfuel.
  destruct (H fuel Hfuel (trace w)) as (sout & houts & Hrun & Hsout & Hq).
  pose proof (handler_out_obs _ _ _ Hq) as Hobs.
  set (hout := concat houts) in *.
  rewrite with_trace_id in Hrun.
  rewrite (persistValue_fails JS (written s sg v w) s (with_value v sg) p x) in Hrun.
  2: { apply written_lookup. exact Hs. }
  2: { cbn [options with_value]. rewrite Ho. exact Hp. }
  2: { cbn [value with_value].
       replace (heap (written s sg v w)) with (heap w); [exact Hser|].
       unfold written. destruct (0 <? batchDepth w); reflexivity. }
  eexists _, _. split; [exact Hrun|]. split; [|split; [|split; [|split]]].
  - cbn [signals with_trace]. rewrite (written_lookup s sg v w Hs). reflexivity.
  - cbn [localStorage with_trace]. unfold written.
    destruct (0 <? batchDepth w); reflexivity.
  - reflexivity.
  - unfold emits_of. rewrite count_app. cbn [count is_emit event_type EventType_eqb].
    rewrite Nat.eqb_refl. cbn [andb].
    pose proof (effects_out_no_emit s EChange _ sout Hsout) as R1.
    pose proof (emits_of_handler_obs s EChange hout Hobs) as R2.
    unfold emits_of in R1, R2. rewrite R1, R2. reflexivity.
  - unfold emits_of. rewrite count_app. cbn [count is_emit event_type EventType_eqb].
    rewrite andb_false_r.
    pose proof (effects_out_no_emit s EError _ sout Hsout) as R1.
    pose proof (emits_of_handler_obs s EError hout Hobs) as R2.
    unfold emits_of in R1, R2. rewrite R1, R2. reflexivity.
Qed.

(** X8: [resin] with a [persist] option never throws and falls back to the
    initial value when the store has nothing under the key, when it has
    the empty string, and when reading the stored string back fails (the
    deserializer, or [JSON.parse] without one, throws). *)
Theorem restore_falls_back JP init opts p w :
  persist opts = Some p ->
  (assoc String.eqb (key p) (localStorage w) = None \/
   assoc String.eqb (key p) (localStorage w) = Some EmptyString \/
   exists stored x,
     assoc String.eqb (key p) (localStorage w) = Some stored /\
     match deserialize p with
     | Some f => f stored = inl x
     | None => JP stored (heap w) = inl x
     end) ->
  exists w',
    resin JP init (Some opts) w = Ok (length (signals w)) w' /\
    value <$> signals w' !! length (signals w) = Some init /\
    heap w' = heap w.
Proof.
  intros Hp Hcase.
  assert (Hres : restore JP init (Some opts) w = Ok init w).
  { unfold restore. cbn [mbind option_bind]. rewrite Hp.
    unfold bindM at 1, gets at 1.
    destruct Hcase as [->| [->|(stored & x & -> & Hf)]]; [reflexivity | reflexivity |].
    destruct (String.eqb stored EmptyString); [reflexivity|].
    destruct (deserialize p) as [f|].
    - rewrite Hf. reflexivity.
    - unfold bindM at 1, gets at 1. rewrite Hf. reflexivity. }
  eexists. split; [|split].
  - apply (resin_keeps JP init (Some opts) w Hres).
  - cbn [signals with_signals]. rewrite lookup_app_r by lia.
    rewrite Nat.sub_diag. reflexivity.
  - reflexivity.
Qed.

(** ** Writes that are rejected or fail *)

Lemma same_frame_with_error x s w :
  same_frame w (with_signals (alter (with_error x) s (signals w)) w).
Proof.
  repeat split; cbn; auto.
  - apply length_alter.
  - intros s' sg H. destruct (decide (s = s')) as [->|Hne].
    + exists (with_error x sg). rewrite list_lookup_alter_eq, H. auto.
    + exists sg. rewrite list_lookup_alter_ne; auto.
Qed.

(** A write that the validator rejects, whatever the rejection says *)
Lemma rejected_write JS JP w s sg x transformed r :
  signals w !! s = Some sg -> disposed sg = false ->
  strict_eq (value sg) x = false ->
  transformValue (options sg) x = inr transformed ->
  validateValue (options sg) x = inr r -> valid r = false ->
  handlers_tame w s (EvError (Error (validation_message r))) ->
  effectStack w = [] ->
  exists N, forall fuel, (N <= fuel)%nat ->
    exists out,
      set_value JS (exec JS JP fuel) s x w
        = Ok tt (with_trace
                   (trace w ++ ObsEmit s (EvError (Error (validation_message r))) :: out) w) /\
      Forall (fun o => handler_obs o = true) out.
Proof.
  intros Hs Hd Hne Ht Hv Hr Hh Hstack.
  destruct (emitEvent_tame JS JP w s sg (EvError (Error (validation_message r)))
              Hs Hh Hstack) as (N & HN).
  exists N. intros fuel Hfuel.
  destruct (HN fuel Hfuel (trace w)) as (hout & Hrun & Hobs).
  rewrite with_trace_id in Hrun.
  exists hout. split; [|exact Hobs].
  unfold set_value, set_value_try, bindM at 1, get_signal. rewrite Hs, Hd.
  unfold try_catch. rewrite Hne, Ht, Hv. unfold bindM at 1. cbn [lift ret].
  unfold bindM at 1. cbn [lift ret]. rewrite Hr. cbn [negb].
  rewrite Hrun. reflexivity.
Qed.



(** ** Subscribers that throw *)

Lemma raising_signals w w' x p : signals w' = signals w -> raising w x p -> raising w' x p.
Proof.
  intros E H. induction H.
  - constructor.
  - constructor; auto.
  - eapply raising_GetValue; eauto. rewrite E. eauto.
  - eapply raising_read_disposed; eauto. rewrite E. eauto.
  - eapply raising_write_disposed; eauto. rewrite E. eauto.
Qed.

Lemma raising_bind w x p f :
  tame w p -> (forall v, raising w x (f v)) -> raising w x (bind_prog p f).
Proof.
  intros H Hf. induction H as [v|v k H IH|s k Hs Hk IH]; cbn [bind_prog].
  - apply Hf.
  - constructor. exact IH.
  - unfold alive in Hs. destruct (signals w !! s) as [sg|] eqn:E; [|discriminate].
    eapply raising_GetValue; eauto. destruct (disposed sg); auto; discriminate.
Qed.

Lemma run_raising w x p :
  raising w x p -> effectStack w = [] ->
  exists out,
    Forall (fun o => is_log o = true) out /\
    forall JS JP rec t,
      run JS JP rec p (with_trace t w) = Thrown x (with_trace (t ++ out) w).
Proof.
  intros H Hstack.
  induction H as [|v k H IH|s sg k Hs Hd H IH|s sg k Hs Hd ->|s sg v k Hs Hd ->].
  - exists []. split; [constructor|]. intros. rewrite app_nil_r. reflexivity.
  - destruct IH as (out & Hout & Hrun).
    exists (ObsLog v :: out). split; [constructor; auto|].
    intros JS JP rec t. cbn [run]. unfold bindM, observe, modify. cbn.
    change (run JS JP rec k (with_trace (t ++ [ObsLog v]) w) =
            Thrown x (with_trace (t ++ ObsLog v :: out) w)).
    rewrite Hrun, <- app_assoc. reflexivity.
  - destruct IH as (out & Hout & Hrun).
    exists out. split; [exact Hout|].
    intros JS JP rec t. cbn [run]. unfold bindM, get_value, bindM, get_signal. cbn.
    rewrite Hs, Hd. unfold gets. cbn. rewrite Hstack. cbn. apply Hrun.
  - exists []. split; [constructor|]. intros JS JP rec t.
    cbn [run]. unfold bindM, get_value, bindM, get_signal. cbn.
    rewrite Hs, Hd, ?app_nil_r; try reflexivity.
  - exists []. split; [constructor|]. intros JS JP rec t.
    cbn [run]. unfold bindM, set_value, bindM, get_signal. cbn.
    rewrite Hs, Hd, ?app_nil_r; try reflexivity.
Qed.

Lemma callEffect_raising JS JP n w e body x :
  effects w !! e = Some body -> raising w x body -> effectStack w = [] ->
  forall t, exists logs,
    callEffect (exec JS JP (S n)) e (with_trace t w)
      = Thrown x (with_trace (t ++ ObsRun e :: logs) w) /\
    Forall (fun o => is_log o = true) logs.
Proof.
  intros He Hr Hstack t.
  destruct (run_raising w x body Hr Hstack) as (out & Hout & Hrun).
  specialize (Hrun JS JP (exec JS JP n) (t ++ [ObsRun e])).
  exists out. split; [|exact Hout].
  unfold callEffect, bindM at 1, gets at 1. cbn [effects with_trace]. rewrite He.
  unfold bindM at 1, observe, modify. cbn [trace with_trace].
  change (with_trace (t ++ [ObsRun e]) (with_trace t w))
    with (with_trace (t ++ [ObsRun e]) w).
  unfold bindM at 1. cbn [exec]. rewrite Hrun, <- app_assoc. reflexivity.
Qed.

(** [forEach] over effects of which the first that is not tame throws: the
    ones before it are called, the ones after it are not. *)
Lemma each_raise JS JP r w x bad body rest :
  effects w !! bad = Some body -> raising w x body -> effectStack w = [] ->
  forall fuel i pre,
    (length (read_set r w) - i < fuel)%nat ->
    jsset_elements (drop i (read_set r w)) = pre ++ bad :: rest ->
    (forall e, In e pre -> exists b, effects w !! e = Some b /\ tame w b) ->
    forall t, exists outs logs,
      exec JS JP fuel (Each r i RunEffect) (with_trace t w)
        = Thrown x (with_trace (t ++ concat outs ++ ObsRun bad :: logs) w) /\
      Forall2 effect_out pre outs /\
      Forall (fun o => is_log o = true) logs.
Proof.
  intros Hbad Hraise Hstack.
  induction fuel as [|f IH]; intros i pre Hfuel Hel Hpre t; [lia|].
  cbn [exec]. unfold bindM at 1, forEach_from, bindM at 1, gets at 1.
  rewrite read_set_with_trace.
  destruct (read_set r w !! i) as [o|] eqn:E.
  - pose proof (lookup_lt_Some _ _ _ E) as Hlt.
    rewrite (drop_S _ _ _ E) in Hel.
    assert (Hf : (length (read_set r w) - S i < f)%nat) by lia.
    destruct o as [y|]; cbn [jsset_elements] in Hel.
    + destruct f as [|n]; [lia|].
      destruct pre as [|p pre]; cbn [app] in Hel; inversion Hel; subst.
      * destruct (callEffect_raising JS JP n w bad body x Hbad Hraise Hstack t)
          as (logs & Hrun & Hlogs).
        exists [], logs. split; [|split; [constructor | exact Hlogs]].
        cbn [apply_callback]. unfold bindM at 1. rewrite Hrun. reflexivity.
      * destruct (Hpre p (or_introl eq_refl)) as (b & Hb & Hbt).
        destruct (callEffect_tame JS JP n w p b Hb Hbt Hstack t) as (out & Hrun & Hq).
        destruct (IH (S i) pre Hf H1) with (t := t ++ out) as (outs & logs & Hrest & Hqs & Hl).
        { intros e He. apply Hpre. right. exact He. }
        exists (out :: outs), logs. split; [|split; [constructor; auto | exact Hl]].
        cbn [apply_callback]. unfold bindM at 1. rewrite Hrun.
        unfold bindM at 1. rewrite Hrest. cbn [concat].
        rewrite <- !app_assoc. reflexivity.
    + destruct (IH (S i) pre Hf Hel Hpre t) as (outs & logs & Hrest & Hqs & Hl).
      exists outs, logs. split; [|split; auto].
      unfold bindM at 1. rewrite Hrest. reflexivity.
  - apply lookup_ge_None in E. rewrite drop_ge in Hel by lia.
    destruct pre; discriminate.
Qed.

(** A passing write outside any batch whose subscriber [bad] throws [x]:
    the setter catches it. *)
Lemma write_with_throwing_subscriber JS JP w s sg v old r x pre bad body rest :
  signals w !! s = Some sg -> disposed sg = false ->
  strict_eq (value sg) v = false ->
  transformValue (options sg) v = inr old ->
  validateValue (options sg) v = inr r -> valid r = true ->
  batchDepth w <= 0 -> effectStack w = [] ->
  jsset_elements (subscribers sg) = pre ++ bad :: rest ->
  (forall e, In e pre -> exists b, effects w !! e = Some b /\ tame w b) ->
  effects w !! bad = Some body -> raising (assign s v w) x body ->
  handlers_tame w s
    (EvError (ResinError (error_message (options sg)) (options sg ≫= debugName) x)) ->
  exists N, forall fuel, (N <= fuel)%nat ->
    exists sout logs hout,
      set_value JS (exec JS JP fuel) s v w
        = Ok tt
            (with_trace
               (trace w ++ sout ++ ObsRun bad :: logs ++
                  ObsEmit s (EvError (ResinError (error_message (options sg))
                                        (options sg ≫= debugName) x)) :: hout)
               (with_signals
                  (alter (with_error
                            (Some (ResinError (error_message (options sg))
                                     (options sg ≫= debugName) x)))
                         s (signals (assign s v w)))
                  (assign s v w))) /\
      effects_out pre sout /\
      Forall (fun o => is_log o = true) logs /\
      Forall (fun o => handler_obs o = true) hout.
Proof.
  intros Hs Hd Hne Ht Hv Hr Hdepth Hstack Hel Hpre Hbad Hraise Hh.
  set (report := ResinError (error_message (options sg)) (options sg ≫= debugName) x) in *.
  set (w1 := assign s v w).
  assert (F : same_frame w w1) by apply same_frame_assign.
  assert (Hs1 : signals w1 !! s = Some (with_value v sg)) by (apply assign_lookup; exact Hs).
  assert (Hset : read_set (Subscribers s) w1 = subscribers sg).
  { unfold read_set. rewrite Hs1. reflexivity. }
  set (w2 := with_signals (alter (with_error (Some report)) s (signals w1)) w1).
  assert (Hs2 : signals w2 !! s = Some (with_error (Some report) (with_value v sg))).
  { cbn. rewrite list_lookup_alter_eq, list_lookup_alter_eq, Hs. reflexivity. }
  destruct (emitEvent_tame JS JP w2 s _ (EvError report) Hs2) as (N & HN).
  { eapply same_frame_handlers_tame; [|exact Hh].
    eapply same_frame_trans; [exact F | apply same_frame_with_error]. }
  { exact Hstack. }
  exists (N + S (length (subscribers sg)))%nat. intros fuel Hfuel.
  destruct (each_raise JS JP (Subscribers s) w1 x bad body rest) with
    (fuel := fuel) (i := 0%nat) (pre := pre) (t := trace w) as (outs & logs & Hrun & Hq & Hl).
  { destruct F as (-> & _). exact Hbad. }
  { exact Hraise. }
  { exact Hstack. }
  { rewrite Hset. lia. }
  { rewrite drop_0, Hset. exact Hel. }
  { intros e He. destruct (Hpre e He) as (b & Hb & Hbt). exists b. split.
    - destruct F as (-> & _). exact Hb.
    - eapply same_frame_tame; eauto. }
  destruct (HN fuel ltac:(lia) (trace w ++ concat outs ++ ObsRun bad :: logs))
    as (hout & Hemit & Hobs).
  exists (concat outs), logs, hout.
  split; [|split; [exists outs; auto | split; auto]].
  unfold set_value, set_value_try, bindM at 1, get_signal. rewrite Hs, Hd.
  unfold try_catch. rewrite Hne, Ht, Hv. unfold bindM at 1. cbn [lift ret].
  unfold bindM at 1. cbn [lift ret]. rewrite Hr. cbn [negb].
  unfold bindM at 1, modify_signal at 1, modify at 1.
  unfold notify, bindM at 1, get_signal. cbn [signals with_signals].
  rewrite list_lookup_alter_eq, Hs. cbn [fmap option_fmap option_map disposed with_value].
  rewrite Hd. unfold bindM at 1, gets. cbn [batchDepth with_signals].
  destruct (Z.ltb_spec 0 (batchDepth w)) as [|_]; [lia|].
  unfold bindM at 1, forEach, bindM at 1.
  change (with_signals (alter (with_value v) s (signals w)) w) with w1.
  rewrite <- (with_trace_id w1). change (trace w1) with (trace w).
  rewrite Hrun.
  unfold set_value_catch, createResinError. cbv zeta. fold report.
  unfold bindM at 1, modify_signal, modify.
  change (with_signals _ (with_trace ?t w1)) with (with_trace t w2).
  rewrite Hemit. rewrite <- !app_assoc. reflexivity.
Qed.

Lemma count_log_none f logs :
  (forall v, f (ObsLog v) = false) ->
  Forall (fun o => is_log o = true) logs -> count f logs = 0%nat.
Proof.
  intros Hf H. apply count_none. eapply Forall_impl; [exact H|].
  intros [] Ho; try discriminate. apply Hf.
Qed.

(** X11: outside a batch, when a subscriber throws while a passing write
    notifies (it throws when run with the new value stored), the write
    still returns normally and the new value stays stored, but the
    subscribers after the one that threw are not called by this write, no
    [change] event is emitted and nothing is persisted: instead the [error]
    property becomes the [ResinError] wrapping what was thrown and one
    [error] event carries it. *)
Theorem throwing_subscriber_replaces_change JS JP w s sg v old r x pre bad body rest :
  signals w !! s = Some sg -> disposed sg = false ->
  strict_eq (value sg) v = false ->
  transformValue (options sg) v = inr old ->
  validateValue (options sg) v = inr r -> valid r = true ->
  batchDepth w <= 0 -> effectStack w = [] ->
  jsset_elements (subscribers sg) = pre ++ bad :: rest ->
  (forall e, In e pre -> exists b, effects w !! e = Some b /\ tame w b) ->
  effects w !! bad = Some body -> raising (assign s v w) x body ->
  handlers_tame w s
    (EvError (ResinError (error_message (options sg)) (options sg ≫= debugName) x)) ->
  exists N, forall fuel, (N <= fuel)%nat ->
    exists w' out,
      set_value JS (exec JS JP fuel) s v w = Ok tt w' /\
      signals w' !! s =
        Some (with_error
                (Some (ResinError (error_message (options sg)) (options sg ≫= debugName) x))
                (with_value v sg)) /\
      localStorage w' = localStorage w /\
      trace w' = trace w ++ out /\
      emits_of s EChange out = 0%nat /\
      emits_of s EError out = 1%nat /\
      runs_of bad out = S (length (filter (fun e => e = bad) pre)) /\
      (forall e, e <> bad -> ~ In e pre -> runs_of e out = 0%nat).
Proof.
  intros Hs Hd Hne Ht Hv Hr Hdepth Hstack Hel Hpre Hbad Hraise Hh.
  destruct (write_with_throwing_subscriber JS JP w s sg v old r x pre bad body rest)
    as (N & H); auto.
  exists N. intros fuel Hfuel.
  destruct (H fuel Hfuel) as (sout & logs & hout & Hrun & Hsout & Hlogs & Hobs).
  eexists _, _. split; [exact Hrun|].
  split; [|split; [reflexivity | split; [reflexivity|]]].
  { cbn. rewrite list_lookup_alter_eq, list_lookup_alter_eq, Hs. reflexivity. }
  assert (Hcount : forall f,
            count f (sout ++ ObsRun bad :: logs ++
                       ObsEmit s (EvError (ResinError (error_message (options sg))
                                             (options sg ≫= debugName) x)) :: hout)
            = (count f sout + (count f [ObsRun bad] + (count f logs +
                (count f [ObsEmit s (EvError (ResinError (error_message (options sg))
                                                (options sg ≫= debugName) x))]
                 + count f hout))))%nat).
  { intros f. rewrite count_app. change (ObsRun bad :: ?l) with ([ObsRun bad] ++ l).
    rewrite count_app, count_app.
    change (?o :: hout) with ([o] ++ hout). rewrite count_app. reflexivity. }
  split; [|split; [|split]].
  - unfold emits_of. rewrite Hcount.
    pose proof (effects_out_no_emit s EChange _ sout Hsout) as R1.
    pose proof (emits_of_handler_obs s EChange hout Hobs) as R2.
    unfold emits_of in R1, R2. rewrite R1, R2.
    rewrite (count_log_none _ logs) by (auto || reflexivity).
    cbn. rewrite andb_false_r. reflexivity.
  - unfold emits_of. rewrite Hcount.
    pose proof (effects_out_no_emit s EError _ sout Hsout) as R1.
    pose proof (emits_of_handler_obs s EError hout Hobs) as R2.
    unfold emits_of in R1, R2. rewrite R1, R2.
    rewrite (count_log_none _ logs) by (auto || reflexivity).
    cbn. rewrite Nat.eqb_refl. reflexivity.
  - unfold runs_of. rewrite Hcount.
    destruct Hsout as (outs & -> & Hq).
    pose proof (effects_out_runs bad pre outs Hq) as R1.
    pose proof (runs_of_handler_obs bad hout Hobs) as R2.
    unfold runs_of in R1, R2. rewrite R1, R2.
    rewrite (count_log_none _ logs) by (auto || reflexivity).
    cbn. rewrite Nat.eqb_refl. lia.
  - intros e Hne' Hnot. unfold runs_of. rewrite Hcount.
    pose proof (effects_out_absent e pre sout Hsout Hnot) as R1.
    pose proof (runs_of_handler_obs e hout Hobs) as R2.
    unfold runs_of in R1, R2. rewrite R1, R2.
    rewrite (count_log_none _ logs) by (auto || reflexivity).
    cbn. destruct (Nat.eqb_spec e bad); [congruence | reflexivity].
Qed.

(** ** Batches that fail *)

(** X13: [batch] flushes in its [finally] block.  When [fn] throws in an
    outermost batch, the effects queued so far are still called, each once
    and in the order in which they were queued, the pending set is emptied,
    the depth is back at zero, and then what [fn] threw reaches the
    caller. *)
Theorem batch_flushes_when_fn_throws JS JP fuel fn w x w1 :
  batchDepth w = 0 ->
  exec JS JP fuel (Invoke fn) (with_batchDepth (batchDepth w + 1) w) = Thrown x w1 ->
  effectStack w1 = [] ->
  effects_tame w1 (pendingEffects w1) ->
  (length (pendingEffects w1) < fuel)%nat ->
  exists out,
    batch (exec JS JP fuel) fn w
      = Thrown x (with_pendingEffects (jsset_clear (pendingEffects w1))
                    (with_trace (trace w1 ++ out) (with_batchDepth 0 w1))) /\
    effects_out (jsset_elements (pendingEffects w1)) out.
Proof.
  intros Hdepth Hfn Hstack He Hfuel.
  pose proof (exec_extends JS JP fuel (Invoke fn) (with_batchDepth (batchDepth w + 1) w)) as P.
  rewrite Hfn in P. destruct P as [_ Hd _ _]. cbn in Hd.
  set (w3 := with_batchDepth 0 w1).
  destruct (each_quiet JS JP effect_out PendingEffects RunEffect w3 fuel 0%nat)
    with (t := trace w1) as (outs & Hflush & Hq).
  { cbn. lia. }
  { intros e Hin n. rewrite drop_0 in Hin. cbn [read_set w3 pendingEffects with_batchDepth] in Hin.
    destruct (He e Hin) as (body & Hb & Hbt).
    cbn [apply_callback]. eapply callEffect_tame.
    - exact Hb.
    - eapply same_frame_tame; [apply same_frame_with_batchDepth | exact Hbt].
    - exact Hstack. }
  rewrite drop_0 in Hq. exists (concat outs). split; [|exists outs; auto].
  unfold batch, bindM at 1, modify at 1, try_finally. unfold bindM at 1.
  rewrite Hfn. unfold bindM at 1, bindM at 1, modify at 1.
  unfold bindM at 1, gets at 1. cbn [batchDepth with_batchDepth].
  replace (batchDepth w1 - 1) with 0 by lia. cbn [Z.eqb].
  unfold bindM at 1, forEach, bindM at 1.
  fold w3. rewrite <- (with_trace_id w3). change (trace w3) with (trace w1).
  rewrite Hflush. reflexivity.
Qed.

(** X14: the flush of a batch is not guarded.  When [fn] has returned and
    one of the queued effects throws, [batch] throws that to its caller
    with the depth back at zero; the effects queued after it are not
    called, and [pendingEffects.clear()] is skipped, so every queued effect,
    the ones already called too, is still pending for the next outermost
    batch. *)
Theorem failed_flush_keeps_the_queue JS JP fuel fn w v0 w1 x pre bad body rest :
  batchDepth w = 0 ->
  exec JS JP fuel (Invoke fn) (with_batchDepth (batchDepth w + 1) w) = Ok v0 w1 ->
  effectStack w1 = [] ->
  jsset_elements (pendingEffects w1) = pre ++ bad :: rest ->
  (forall e, In e pre -> exists b, effects w1 !! e = Some b /\ tame w1 b) ->
  effects w1 !! bad = Some body -> raising w1 x body ->
  (length (pendingEffects w1) < fuel)%nat ->
  exists w' sout logs,
    batch (exec JS JP fuel) fn w = Thrown x w' /\
    pendingEffects w' = pendingEffects w1 /\
    batchDepth w' = 0 /\
    trace w' = trace w1 ++ sout ++ ObsRun bad :: logs /\
    effects_out pre sout /\
    Forall (fun o => is_log o = true) logs.
Proof.
  intros Hdepth Hfn Hstack Hel Hpre Hbad Hraise Hfuel.
  pose proof (exec_extends JS JP fuel (Invoke fn) (with_batchDepth (batchDepth w + 1) w)) as P.
  rewrite Hfn in P. destruct P as [_ Hd _ _]. cbn in Hd.
  set (w3 := with_batchDepth 0 w1).
  assert (F : same_frame w1 w3) by apply same_frame_with_batchDepth.
  destruct (each_raise JS JP PendingEffects w3 x bad body rest) with
    (fuel := fuel) (i := 0%nat) (pre := pre) (t := trace w1)
    as (outs & logs & Hrun & Hq & Hl).
  { exact Hbad. }
  { eapply raising_signals; [|exact Hraise]. reflexivity. }
  { exact Hstack. }
  { cbn. lia. }
  { rewrite drop_0. exact Hel. }
  { intros e He. destruct (Hpre e He) as (b & Hb & Hbt). exists b. split; [exact Hb|].
    eapply same_frame_tame; eauto. }
  exists (with_trace (trace w1 ++ concat outs ++ ObsRun bad :: logs) w3), (concat outs), logs.
  split; [|split; [reflexivity | split; [reflexivity | split; [reflexivity|]]]].
  - unfold batch, bindM at 1, modify at 1, try_finally. unfold bindM at 1.
    rewrite Hfn. unfold ret at 1. unfold bindM at 1, bindM at 1, modify at 1.
    unfold bindM at 1, gets at 1. cbn [batchDepth with_batchDepth].
    replace (batchDepth w1 - 1) with 0 by lia. cbn [Z.eqb].
    unfold bindM at 1, forEach, bindM at 1.
    fold w3. rewrite <- (with_trace_id w3). change (trace w3) with (trace w1).
    rewrite Hrun. reflexivity.
  - split; [exists outs; auto | exact Hl].
Qed.

(** ** The order of a notification *)

Lemma strict_eq_refl v : strict_eq v v = true.
Proof.
  destruct v; cbn; auto.
  - destruct b; reflexivity.
  - apply Z.eqb_refl.
  - apply String.eqb_refl.
  - apply Nat.eqb_refl.
Qed.

(** A passing write outside any batch and any effect, with tame subscribers
    and [change] handlers: the whole of what it does *)
Lemma write_outside_batch_traced JS JP w s sg v old r :
  signals w !! s = Some sg ->
  disposed sg = false ->
  strict_eq (value sg) v = false ->
  transformValue (options sg) v = inr old ->
  validateValue (options sg) v = inr r -> valid r = true ->
  batchDepth w <= 0 -> effectStack w = [] ->
  effects_tame w (subscribers sg) ->
  handlers_tame w s (EvChange v old) ->
  exists N ls, forall fuel, (N <= fuel)%nat ->
  forall t,
    set_value JS (exec JS JP fuel) s v (with_trace t w)
      = Ok tt (with_trace
                 (t ++ flat_map (effect_trace (assign s v w))
                         (jsset_elements (subscribers sg)) ++
                    ObsEmit s (EvChange v old) ::
                    flat_map (handler_trace (assign s v w) (EvChange v old))
                      (registered w s EChange))
                 (with_localStorage ls (assign s v w))).
Proof.
  intros Hs Hd Hne Ht Hv Hr Hdepth Hstack He Hh.
  set (w1 := assign s v w).
  assert (F : same_frame w w1) by apply same_frame_assign.
  assert (Hs1 : signals w1 !! s = Some (with_value v sg)) by (apply assign_lookup; exact Hs).
  assert (Hset : read_set (Subscribers s) w1 = subscribers sg).
  { unfold read_set. rewrite Hs1. reflexivity. }
  destruct (emitEvent_traced JS JP w1 s (with_value v sg) (EvChange v old)) as (N & HN); auto.
  { eapply same_frame_handlers_tame; eauto. }
  destruct (persistValue_ok JS w1 s (with_value v sg) Hs1) as (ls & Hp).
  exists (N + S (length (subscribers sg)))%nat, ls. intros fuel Hfuel t.
  pose proof (each_effect_traced JS JP (Subscribers s) w1 Hstack) as Hsubs.
  rewrite Hset in Hsubs.
  specialize (Hsubs (same_frame_effects_tame w w1 _ F He) fuel ltac:(lia) t).
  specialize (HN fuel ltac:(lia)). cbn [event_type] in HN.
  rewrite (registered_same_frame w w1 s EChange F) in HN by eauto.
  unfold set_value, set_value_try, bindM at 1, get_signal. cbn [signals with_trace].
  rewrite Hs, Hd.
  unfold try_catch. rewrite Hne, Ht, Hv. unfold bindM at 1. cbn [lift ret].
  unfold bindM at 1. cbn [lift ret]. rewrite Hr. cbn [negb].
  unfold bindM at 1, modify_signal, modify. cbn [signals with_trace].
  unfold notify, bindM at 1, get_signal. cbn [signals with_signals].
  rewrite list_lookup_alter_eq, Hs. cbn [fmap option_fmap option_map disposed with_value].
  rewrite Hd. unfold bindM at 1, gets. cbn [batchDepth with_signals with_trace].
  destruct (Z.ltb_spec 0 (batchDepth w)) as [|_]; [lia|].
  unfold bindM at 1, forEach, bindM at 1.
  change (with_signals _ (with_trace t w)) with (with_trace t w1).
  rewrite Hsubs. unfold ret at 1.
  unfold bindM at 1, get_signal. cbn [signals with_trace]. rewrite Hs1.
  cbn [value with_value]. unfold bindM at 1.
  rewrite HN, Hp, <- app_assoc. reflexivity.
Qed.

(** X15: outside a batch and outside any effect, a passing write to an
    instance whose subscribers and [change] handlers only read and log
    first calls every subscriber, once each and in subscription order, then
    emits [change], then calls every [change] handler, once each and in
    registration order, all of them in the state in which the new value is
    stored: the log of the write is the log of these calls and that
    emission, and nothing else.  Written again, the same value, when it is
    [===] to itself, does nothing: no call, no event. *)
Theorem write_notifies_in_order JS JP w s sg v old r :
  signals w !! s = Some sg -> disposed sg = false ->
  strict_eq (value sg) v = false ->
  transformValue (options sg) v = inr old ->
  validateValue (options sg) v = inr r -> valid r = true ->
  batchDepth w <= 0 -> effectStack w = [] ->
  effects_tame w (subscribers sg) ->
  handlers_tame w s (EvChange v old) ->
  exists N, forall fuel, (N <= fuel)%nat ->
    exists w' out,
      set_value JS (exec JS JP fuel) s v w = Ok tt w' /\
      trace w' = trace w ++ out /\
      out = flat_map (effect_trace (assign s v w)) (jsset_elements (subscribers sg)) ++
            ObsEmit s (EvChange v old) ::
            flat_map (handler_trace (assign s v w) (EvChange v old))
              (registered w s EChange) /\
      value <$> signals w' !! s = Some v /\
      (strict_eq v v = true -> forall rec, set_value JS rec s v w' = Ok tt w').
Proof.
  intros Hs Hd Hne Ht Hv Hr Hdepth Hstack He Hh.
  destruct (write_outside_batch_traced JS JP w s sg v old r) as (N & ls & H); auto.
  exists N. intros fuel Hfuel.
  specialize (H fuel Hfuel (trace w)). rewrite with_trace_id in H.
  assert (Hs' : signals (assign s v w) !! s = Some (with_value v sg))
    by (apply assign_lookup; exact Hs).
  eexists _, _. split; [exact H|]. split; [reflexivity|]. split; [reflexivity|].
  split.
  - cbn [signals with_trace with_localStorage]. rewrite Hs'. reflexivity.
  - intros Hrefl rec. apply (write_same JS rec _ s (with_value v sg)).
    + cbn [signals with_trace with_localStorage]. exact Hs'.
    + exact Hd.
    + exact Hrefl.
Qed.

(** ** The [init] event *)

Lemma tame_alive w w' p :
  (forall s, alive w s = true -> alive w' s = true) -> tame w p -> tame w' p.
Proof. intros F H. induction H; constructor; auto. Qed.

(** X16: [resin] emits nothing itself; it queues the [init] emission as a
    task.  A handler registered for [init] on the new instance before the
    task runs is called by it, once, with the value the instance holds.
    (Stated for options without [persist], or an initial value that is no
    object: given an array or a Map, [resin] wraps what was restored in a
    [Proxy], which can throw.) *)
Theorem init_reaches_late_handler JS JP init opts w h f :
  (opts ≫= persist = None \/ forall l, init <> VRef l) ->
  microtasks w = [] -> effectStack w = [] ->
  handlers w !! h = Some f -> (forall ev, tame w (f ev)) ->
  exists w1 w2 v,
    resin JP init opts w = Ok (length (signals w)) w1 /\
    trace w1 = trace w /\
    value <$> signals w1 !! length (signals w) = Some v /\
    on (length (signals w)) EInit h w1 = Ok tt w2 /\
    exists N, forall fuel, (N <= fuel)%nat ->
      exists w3 logs,
        runMicrotask (exec JS JP fuel) w2 = Ok tt w3 /\
        trace w3 = trace w ++ ObsEmit (length (signals w)) (EvInit v)
                     :: ObsHandle h (EvInit v) :: logs /\
        Forall (fun o => is_log o = true) logs /\
        microtasks w3 = [].
Proof.
  intros Hcase Hmt Hstack Hf Htame.
  destruct (restore_result JP init opts w) as (v & w0 & Hres & Hw0).
  assert (Hobj : isArray (heap w0) init || isMap (heap w0) init = true ->
                 exists l, v = VRef l).
  { intros Hcoll.
    assert (Hinit : exists l, init = VRef l).
    { apply orb_true_iff in Hcoll as [H|H];
        [eapply isArray_ref | eapply isMap_ref]; eauto. }
    destruct Hcase as [Hp|Hprim].
    - unfold restore in Hres. rewrite Hp in Hres. inversion Hres; subst. exact Hinit.
    - destruct Hinit as [l ->]. exfalso. eapply Hprim. reflexivity. }
  pose proof (resin_result JP init opts w v w0 Hres Hw0 Hobj) as Hresin.
  clear Hobj.
  assert (Htr0 : trace w0 = trace w) by (rewrite Hw0; reflexivity).
  assert (Hst0 : effectStack w0 = effectStack w) by (rewrite Hw0; reflexivity).
  assert (Hh0 : handlers w0 = handlers w) by (rewrite Hw0; reflexivity).
  clear Hw0.
  rewrite Hstack in Hresin. cbn [last] in Hresin.
  assert (Hnil : (if isArray (heap w0) init || isMap (heap w0) init
                  then ([] : jsset) else []) = []) by (destruct (_ || _); reflexivity).
  rewrite Hnil in Hresin. clear Hnil.
  set (s := length (signals w)) in *.
  set (w1 := with_signals (signals w ++ [plain v [] [] opts])
               (with_microtasks (microtasks w ++ [s]) w0)) in *.
  assert (Hs1 : signals w1 !! s = Some (plain v [] [] opts)).
  { cbn. rewrite lookup_app_r by (subst s; lia). subst s. rewrite Nat.sub_diag. reflexivity. }
  set (id := length (handlerSets w1)).
  set (w2 := with_handlerSets (alter (jsset_add h) id (handlerSets w1 ++ [[]]))
               (with_signals
                  (alter (fun sg => with_eventHandlers (eventHandlers sg ++ [(EInit, id)]) sg)
                         s (signals w1)) w1)).
  assert (Hon : on s EInit h w1 = Ok tt w2).
  { unfold on, bindM at 1, get_signal. rewrite Hs1. cbn [eventHandlers plain assoc].
    reflexivity. }
  exists w1, w2, v. split; [exact Hresin|]. split; [exact Htr0|].
  split; [rewrite Hs1; reflexivity|]. split; [exact Hon|].
  set (w2' := with_microtasks [] w2).
  assert (Hs2 : signals w2' !! s = Some (with_eventHandlers [(EInit, id)] (plain v [] [] opts))).
  { cbn [signals w2' w2 with_microtasks with_handlerSets with_signals].
    rewrite list_lookup_alter_eq, Hs1. reflexivity. }
  assert (Hset : read_set (Handlers id) w2' = [Some h]).
  { cbn [read_set handlerSets w2' w2 with_microtasks with_handlerSets].
    rewrite list_lookup_alter_eq. subst id.
    rewrite lookup_app_r by lia. rewrite Nat.sub_diag. reflexivity. }
  assert (Hh2 : handlers w2' = handlers w) by exact Hh0.
  assert (Halive : forall x, alive w x = true -> alive w2' x = true).
  { intros x. unfold alive.
    cbn [signals w2' w2 w1 with_microtasks with_handlerSets with_signals].
    destruct (signals w !! x) as [sgx|] eqn:E; [|discriminate].
    pose proof (lookup_lt_Some _ _ _ E) as Hlt.
    rewrite list_lookup_alter_ne by (subst s; lia).
    rewrite lookup_app_l by exact Hlt. rewrite E. auto. }
  destruct (emitEvent_in_order JS JP w2' s _ (EvInit v) Hs2) as (N & HN).
  { intros sg' id' h' Hsg Ha Hin. rewrite Hs2 in Hsg. inversion Hsg; subst sg'.
    assert (Hid : id' = id) by (cbn in Ha; inversion Ha; reflexivity). rewrite Hid in Hin.
    rewrite Hset in Hin.
    destruct Hin as [<-|[]]. exists f. split; [rewrite Hh2; exact Hf|].
    eapply tame_alive; [exact Halive | apply Htame]. }
  { cbn. rewrite Hst0. exact Hstack. }
  exists N. intros fuel Hfuel.
  destruct (HN fuel Hfuel (trace w)) as (outs & Hrun & Hq).
  unfold registered in Hq. rewrite Hs2 in Hq. cbn [eventHandlers with_eventHandlers assoc
    event_type EventType_eqb] in Hq. rewrite Hset in Hq. cbn [jsset_elements] in Hq.
  inversion Hq as [|? out ? outs' Hout Hrest]; subst. inversion Hrest; subst.
  destruct Hout as (logs & -> & Hlogs).
  eexists _, logs. split.
  - unfold runMicrotask, bindM at 1, gets at 1.
    assert (Hq2 : microtasks w2 = [s]) by (cbn; rewrite Hmt; reflexivity).
    rewrite Hq2. unfold bindM at 1, modify at 1. fold w2'.
    unfold bindM at 1, get_signal. rewrite Hs2. cbn [value with_eventHandlers plain].
    assert (Et : with_trace (trace w) w2' = w2').
    { assert (E : trace w = trace w2') by (symmetry; exact Htr0).
      rewrite E. apply with_trace_id. }
    rewrite Et in Hrun. exact Hrun.
  - split; [|split; [exact Hlogs | reflexivity]].
    cbn [trace with_trace concat]. rewrite app_nil_r. reflexivity.
Qed.

(** ** Dependency tracking *)

Lemma same_values_refl sigs : same_values sigs sigs.
Proof. intros s sg H. eauto. Qed.

Lemma same_values_trans a b c : same_values a b -> same_values b c -> same_values a c.
Proof.
  intros Hab Hbc s sg H. destruct (Hab s sg H) as (sg1 & H1 & V1 & D1).
  destruct (Hbc s sg1 H1) as (sg2 & H2 & V2 & D2). exists sg2. repeat split; congruence.
Qed.

Lemma same_values_alter (f : signal -> signal) s sigs :
  (forall sg, value (f sg) = value sg /\ disposed (f sg) = disposed sg) ->
  same_values sigs (alter f s sigs).
Proof.
  intros Hf s' sg H. destruct (decide (s = s')) as [->|Hne].
  - exists (f sg). rewrite list_lookup_alter_eq, H. split; [reflexivity | apply Hf].
  - exists sg. rewrite list_lookup_alter_ne by exact Hne. auto.
Qed.

Lemma same_values_alive w w' s :
  same_values (signals w) (signals w') -> alive w s = true -> alive w' s = true.
Proof.
  intros F. unfold alive. destruct (signals w !! s) as [sg|] eqn:E; [|discriminate].
  destruct (F s sg E) as (sg' & -> & _ & ->). auto.
Qed.

Lemma same_values_tame w w' p :
  same_values (signals w) (signals w') -> tame w p -> tame w' p.
Proof. intros F. apply tame_alive. intros s. apply same_values_alive. exact F. Qed.

Lemma tame_reader w p : tame w p -> reader w p.
Proof. induction 1; constructor; auto. Qed.

Lemma reader_alive w w' p :
  (forall s, alive w s = true -> alive w' s = true) -> reader w p -> reader w' p.
Proof. intros F H. induction H; constructor; auto. Qed.

Lemma same_values_reader w w' p :
  same_values (signals w) (signals w') -> reader w p -> reader w' p.
Proof. intros F. apply reader_alive. intros s. apply same_values_alive. exact F. Qed.

Lemma reads_alive h w p s :
  reader w p -> In s (reads h (signals w) p) -> alive w s = true.
Proof.
  intros H. induction H as [v|v k H IH|x k Hx Hk IH|k Hk IH]; cbn [reads];
    [intros [] | exact IH | | apply IH].
  intros [<-|Hin]; [exact Hx|].
  unfold alive in Hx. destruct (signals w !! x) as [sg|] eqn:E; [|discriminate].
  eapply IH. exact Hin.
Qed.

Lemma with_signals_id w : with_signals (signals w) w = w.
Proof. destruct w; reflexivity. Qed.

(** A reader run with any effect stack: the effect on top, if there is one,
    is subscribed to every instance the callback reads, and nothing else
    changes but the log. *)
Lemma run_tracking w p :
  reader w p ->
  forall w', same_values (signals w) (signals w') ->
  exists out,
    Forall (fun o => is_log o = true) out /\
    (forall JS JP rec t,
       run JS JP rec p (with_trace t w')
         = Ok (returns (heap w') (signals w) p)
              (with_trace (t ++ out)
                 (with_signals
                    (tracked (effectStack w') (reads (heap w') (signals w) p) (signals w')) w'))) /\
    (forall JS JP rec t f,
       run JS JP rec (bind_prog p f) (with_trace t w')
         = run JS JP rec (f (returns (heap w') (signals w) p))
              (with_trace (t ++ out)
                 (with_signals
                    (tracked (effectStack w') (reads (heap w') (signals w) p) (signals w')) w'))).
Proof.
  intros H. induction H as [v|v k H IH|s k Hs Hk IH|k Hk IH]; intros w' F.
  - exists []. split; [constructor|].
    assert (E : with_signals (tracked (effectStack w') [] (signals w')) w' = w').
    { unfold tracked. destruct (last (effectStack w')); apply with_signals_id. }
    cbn [reads returns bind_prog]. rewrite E.
    split; intros; rewrite app_nil_r; reflexivity.
  - destruct (IH w' F) as (out & Hout & Hrun & Hbind).
    exists (ObsLog v :: out). split; [constructor; auto|]. cbn [reads returns]. split.
    + intros JS JP rec t. cbn [run]. unfold bindM, observe, modify. cbn [trace with_trace].
      change (with_trace (t ++ [ObsLog v]) (with_trace t w'))
        with (with_trace (t ++ [ObsLog v]) w').
      rewrite Hrun, <- app_assoc. reflexivity.
    + intros JS JP rec t f. cbn [bind_prog run]. unfold bindM, observe, modify.
      cbn [trace with_trace].
      change (with_trace (t ++ [ObsLog v]) (with_trace t w'))
        with (with_trace (t ++ [ObsLog v]) w').
      rewrite Hbind, <- app_assoc. reflexivity.
  - unfold alive in Hs. destruct (signals w !! s) as [sg|] eqn:E; [|discriminate].
    destruct (F s sg E) as (sg' & Hs' & Hv' & Hd').
    assert (Hlive : disposed sg' = false) by (rewrite Hd'; destruct (disposed sg); auto; discriminate).
    cbn [reads returns]. rewrite E.
    destruct (last (effectStack w')) as [e|] eqn:Hlast.
    + set (w'' := with_signals (alter (add_subscriber e) s (signals w')) w').
      destruct (IH (value sg) w'') as (out & Hout & Hrun & Hbind).
      { eapply same_values_trans; [exact F|]. cbn. apply same_values_alter. auto. }
      assert (Et : with_signals
                     (tracked (effectStack w') (s :: reads (heap w') (signals w) (k (value sg)))
                        (signals w')) w'
                   = with_signals
                       (tracked (effectStack w'') (reads (heap w'') (signals w) (k (value sg)))
                          (signals w'')) w'').
      { unfold tracked. cbn [effectStack w'' with_signals]. rewrite Hlast. reflexivity. }
      rewrite Et. exists out. split; [exact Hout|]. split.
      * intros JS JP rec t. cbn [run]. unfold bindM at 1, get_value, bindM at 1, get_signal.
        cbn [signals with_trace]. rewrite Hs', Hlive.
        unfold bindM at 1, gets at 1. cbn [effectStack with_trace]. rewrite Hlast.
        unfold bindM at 1, modify_signal, modify. cbn [signals with_trace]. unfold ret at 1.
        rewrite Hv'. apply Hrun.
      * intros JS JP rec t f. cbn [bind_prog run].
        unfold bindM at 1, get_value, bindM at 1, get_signal.
        cbn [signals with_trace]. rewrite Hs', Hlive.
        unfold bindM at 1, gets at 1. cbn [effectStack with_trace]. rewrite Hlast.
        unfold bindM at 1, modify_signal, modify. cbn [signals with_trace]. unfold ret at 1.
        rewrite Hv'. apply Hbind.
    + destruct (IH (value sg) w' F) as (out & Hout & Hrun & Hbind).
      assert (Et : forall rs, tracked (effectStack w') rs (signals w') = signals w').
      { intros rs. unfold tracked. rewrite Hlast. reflexivity. }
      rewrite Et in *. exists out. split; [exact Hout|]. split.
      * intros JS JP rec t. cbn [run]. unfold bindM at 1, get_value, bindM at 1, get_signal.
        cbn [signals with_trace]. rewrite Hs', Hlive.
        unfold bindM at 1, gets at 1. cbn [effectStack with_trace]. rewrite Hlast.
        unfold ret at 1. rewrite Hv'. apply Hrun.
      * intros JS JP rec t f. cbn [bind_prog run].
        unfold bindM at 1, get_value, bindM at 1, get_signal.
        cbn [signals with_trace]. rewrite Hs', Hlive.
        unfold bindM at 1, gets at 1. cbn [effectStack with_trace]. rewrite Hlast.
        unfold ret at 1. rewrite Hv'. apply Hbind.
  - destruct (IH (heap w') w' F) as (out & Hout & Hrun & Hbind).
    exists out. split; [exact Hout|]. cbn [reads returns]. split.
    + intros JS JP rec t. cbn [run]. unfold bindM at 1, gets at 1. cbn [heap with_trace].
      apply Hrun.
    + intros JS JP rec t f. cbn [bind_prog run]. unfold bindM at 1, gets at 1.
      cbn [heap with_trace]. apply Hbind.
Qed.

Lemma jsset_add_idem e s : jsset_add e (jsset_add e s) = jsset_add e s.
Proof.
  unfold jsset_add at 1. destruct (jsset_has e (jsset_add e s)) eqn:E; [reflexivity|].
  assert (H : jsset_has e (jsset_add e s) = true).
  { apply jsset_has_In, jsset_add_In. left. reflexivity. }
  congruence.
Qed.

Lemma add_subscriber_idem e sg : add_subscriber e (add_subscriber e sg) = add_subscriber e sg.
Proof. unfold add_subscriber. cbn. rewrite jsset_add_idem. reflexivity. Qed.

Lemma fold_track_lookup e rs : forall (sigs : list signal) (s : nat),
  fold_left (fun sigs s => alter (add_subscriber e) s sigs) rs sigs !! s
  = (if decide (s ∈ rs) then add_subscriber e else id) <$> sigs !! s.
Proof.
  induction rs as [|r rs IH]; intros sigs s; cbn [fold_left].
  - destruct (decide (s ∈ [])) as [H|_]; [inversion H|].
    destruct (sigs !! s); reflexivity.
  - rewrite IH. destruct (decide (r = s)) as [->|Hne].
    + rewrite list_lookup_alter_eq.
      destruct (decide (s ∈ s :: rs)) as [_|H]; [|exfalso; apply H; left].
      destruct (sigs !! s) as [sg|]; [|reflexivity]. cbn.
      destruct (decide (s ∈ rs)); [rewrite add_subscriber_idem|]; reflexivity.
    + rewrite list_lookup_alter_ne by exact Hne.
      destruct (decide (s ∈ rs)) as [Hin|Hnot].
      * destruct (decide (s ∈ r :: rs)) as [_|H]; [reflexivity|].
        exfalso. apply H. right. exact Hin.
      * destruct (decide (s ∈ r :: rs)) as [H|_]; [|reflexivity].
        apply elem_of_cons in H as [->|H]; [congruence | contradiction].
Qed.

Lemma tracked_snoc st e rs sigs :
  tracked (st ++ [e]) rs sigs
  = fold_left (fun sigs s => alter (add_subscriber e) s sigs) rs sigs.
Proof. unfold tracked. rewrite last_snoc. reflexivity. Qed.

(** X17: [watchEffect] on a function that only reads live instances, looks
    into the heap and logs calls it once, returns normally and leaves the
    effect stack as it was; afterwards the function is in the subscriber
    set of every instance it read, and of no instance it was not in
    before.  Values, handlers and every other subscriber stay as they
    were. *)
Theorem watchEffect_subscribes_to_its_reads JS JP n w effect body :
  effects w !! effect = Some body -> reader w body ->
  exists logs w',
    watchEffect (exec JS JP (S n)) effect w = Ok tt w' /\
    trace w' = trace w ++ ObsRun effect :: logs /\
    Forall (fun o => is_log o = true) logs /\
    effectStack w' = effectStack w /\
    forall s,
      signals w' !! s
      = (if decide (s ∈ reads (heap w) (signals w) body) then add_subscriber effect else id)
          <$> signals w !! s.
Proof.
  intros He Ht.
  set (wp := with_effectStack (effectStack w ++ [effect]) w).
  destruct (run_tracking w body Ht wp (same_values_refl _)) as (out & Hout & Hrun & _).
  specialize (Hrun JS JP (exec JS JP n) (trace w ++ [ObsRun effect])).
  exists out. eexists. split; [|split; [|split; [exact Hout | split]]].
  - unfold watchEffect, bindM at 1, modify at 1. fold wp.
    unfold bindM at 1, callEffect, bindM at 1, gets at 1.
    cbn [effects wp with_effectStack]. rewrite He.
    unfold bindM at 1, observe, modify. cbn [trace with_effectStack].
    unfold bindM at 1. cbn [exec].
    change (trace wp) with (trace w).
    rewrite Hrun. unfold ret at 1. cbn [effectStack with_trace with_signals wp with_effectStack].
    rewrite removelast_snoc. reflexivity.
  - cbn [trace with_effectStack with_trace]. rewrite <- app_assoc. reflexivity.
  - reflexivity.
  - intros s. cbn [signals with_effectStack with_trace with_signals wp effectStack].
    rewrite tracked_snoc. apply fold_track_lookup.
Qed.

(** The state [watchEffect] leaves for a reader *)
Lemma tracked_one e rs sigs :
  tracked [e] rs sigs = fold_left (fun sigs s => alter (add_subscriber e) s sigs) rs sigs.
Proof. reflexivity. Qed.

Lemma watchEffect_reader w effect body :
  effects w !! effect = Some body -> reader w body ->
  exists logs,
    Forall (fun o => is_log o = true) logs /\
    forall JS JP n,
      watchEffect (exec JS JP (S n)) effect w
        = Ok tt (with_trace (trace w ++ ObsRun effect :: logs)
                   (with_signals
                      (tracked [effect] (reads (heap w) (signals w) body) (signals w)) w)).
Proof.
  intros He Ht.
  set (wp := with_effectStack (effectStack w ++ [effect]) w).
  destruct (run_tracking w body Ht wp (same_values_refl _)) as (out & Hout & Hrun & _).
  exists out. split; [exact Hout|]. intros JS JP n.
  specialize (Hrun JS JP (exec JS JP n) (trace w ++ [ObsRun effect])).
  unfold watchEffect, bindM at 1, modify at 1. fold wp.
  unfold bindM at 1, callEffect, bindM at 1, gets at 1.
  cbn [effects wp with_effectStack]. rewrite He.
  unfold bindM at 1, observe, modify. cbn [trace with_effectStack].
  unfold bindM at 1. cbn [exec].
  change (trace wp) with (trace w).
  rewrite Hrun. unfold ret at 1. cbn [effectStack with_trace with_signals wp with_effectStack].
  rewrite removelast_snoc, (tracked_snoc (effectStack w)), tracked_one.
  rewrite <- app_assoc. reflexivity.
Qed.

Lemma tracked_lookup e rs (sigs : list signal) (s : nat) :
  tracked [e] rs sigs !! s
  = (if decide (s ∈ rs) then add_subscriber e else id) <$> sigs !! s.
Proof. rewrite tracked_one. apply fold_track_lookup. Qed.

Lemma same_values_tracked st rs sigs : same_values sigs (tracked st rs sigs).
Proof.
  unfold tracked. destruct (last st) as [e|]; [|apply same_values_refl].
  revert sigs. induction rs as [|r rs IH]; intros sigs; cbn [fold_left].
  - apply same_values_refl.
  - eapply same_values_trans; [|apply IH]. apply same_values_alter. auto.
Qed.

(** Handlers stay tame when instances only gain subscribers. *)
Lemma handlers_tame_tracked e rs t w s ev :
  handlers_tame w s ev ->
  handlers_tame (with_trace t (with_signals (tracked [e] rs (signals w)) w)) s ev.
Proof.
  intros H sg' id h Hs Ha Hin.
  cbn [signals with_trace with_signals] in Hs. rewrite tracked_lookup in Hs.
  destruct (signals w !! s) as [sg|] eqn:E; [|discriminate].
  assert (He : eventHandlers sg' = eventHandlers sg).
  { cbn in Hs. inversion Hs. destruct (decide (s ∈ rs)); reflexivity. }
  rewrite He in Ha.
  destruct (H sg id h E Ha Hin) as (f & Hf & Ht).
  exists f. split; [exact Hf|].
  eapply same_values_tame; [|exact Ht].
  cbn [signals with_trace with_signals]. apply same_values_tracked.
Qed.

(** A reader called outside any effect returns normally and changes
    nothing but the log. *)
Lemma callEffect_reader JS JP n w e body :
  effects w !! e = Some body -> reader w body -> effectStack w = [] ->
  quiet (callEffect (exec JS JP (S n)) e) w (effect_out e).
Proof.
  intros He Hr Hstack t.
  destruct (run_tracking w body Hr w (same_values_refl _)) as (out & Hout & Hrun & _).
  specialize (Hrun JS JP (exec JS JP n) (t ++ [ObsRun e])).
  assert (Eu : with_signals
                 (tracked (effectStack w) (reads (heap w) (signals w) body) (signals w)) w = w).
  { unfold tracked. rewrite Hstack. cbn [last]. apply with_signals_id. }
  rewrite Eu in Hrun.
  exists (ObsRun e :: out). split; [|exists out; auto].
  unfold callEffect, bindM at 1, gets at 1. cbn [effects with_trace]. rewrite He.
  unfold bindM at 1, observe, modify. cbn [trace with_trace].
  change (with_trace (t ++ [ObsRun e]) (with_trace t w))
    with (with_trace (t ++ [ObsRun e]) w).
  unfold bindM at 1. cbn [exec]. rewrite Hrun, <- app_assoc. reflexivity.
Qed.

(** X18: an effect subscribed by [watchEffect] is called again by a passing
    write to an instance it read, exactly once, and is not called by a
    passing write to an instance it did not read (outside a batch; the
    effect was not subscribed to that instance before). *)
Theorem watched_effect_reruns JS JP w effect body s sg v old r :
  effects w !! effect = Some body -> reader w body ->
  signals w !! s = Some sg -> disposed sg = false ->
  ~ In effect (jsset_elements (subscribers sg)) ->
  strict_eq (value sg) v = false ->
  transformValue (options sg) v = inr old ->
  validateValue (options sg) v = inr r -> valid r = true ->
  batchDepth w <= 0 -> effectStack w = [] ->
  effects_tame w (subscribers sg) ->
  handlers_tame w s (EvChange v old) ->
  exists N, forall fuel, (N <= fuel)%nat ->
    exists w1 w2 out,
      watchEffect (exec JS JP fuel) effect w = Ok tt w1 /\
      set_value JS (exec JS JP fuel) s v w1 = Ok tt w2 /\
      trace w2 = trace w1 ++ out /\
      runs_of effect out
        = (if decide (s ∈ reads (heap w) (signals w) body) then 1 else 0)%nat.
Proof.
  intros He Ht Hs Hd Hnot Hne Htr Hv Hr Hdepth Hstack Hsubs Hh.
  set (rs := reads (heap w) (signals w) body).
  set (sg1 := if decide (s ∈ rs) then add_subscriber effect sg else sg).
  assert (Hsame : forall t, same_values (signals w)
            (signals (with_trace t (with_signals (tracked [effect] rs (signals w)) w)))).
  { intros t. cbn [signals with_trace with_signals]. apply same_values_tracked. }
  assert (Hel : jsset_elements (subscribers sg1)
                = if decide (s ∈ rs) then jsset_elements (subscribers sg) ++ [effect]
                  else jsset_elements (subscribers sg)).
  { subst sg1. destruct (decide (s ∈ rs)); [|reflexivity].
    cbn. rewrite jsset_add_elements.
    destruct (jsset_has effect (subscribers sg)) eqn:E; [|reflexivity].
    apply jsset_has_In in E. contradiction. }
  assert (Hw1 : forall t, exists N, forall fuel, (N <= fuel)%nat ->
            exists sout houts ls,
              set_value JS (exec JS JP fuel) s v
                (with_trace t (with_signals (tracked [effect] rs (signals w)) w))
              = Ok tt (with_trace (t ++ sout ++ ObsEmit s (EvChange v old) :: concat houts)
                         (with_localStorage ls
                            (assign s v (with_signals (tracked [effect] rs (signals w)) w)))) /\
              effects_out (jsset_elements (subscribers sg1)) sout /\
              Forall (fun o => handler_obs o = true) (concat houts)).
  { intros t.
    set (w1 := with_signals (tracked [effect] rs (signals w)) w).
    assert (Hs1 : signals w1 !! s = Some sg1).
    { cbn [signals w1 with_signals]. rewrite tracked_lookup, Hs. subst sg1.
      cbn [fmap option_fmap option_map]. destruct (decide (s ∈ rs)); reflexivity. }
    assert (Hv1 : value sg1 = value sg /\ disposed sg1 = disposed sg /\ options sg1 = options sg).
    { subst sg1. destruct (decide (s ∈ rs)); auto. }
    destruct Hv1 as (Hval & Hdis & Hopt).
    assert (Ew : written s sg1 v w1 = assign s v w1).
    { unfold written. change (batchDepth w1) with (batchDepth w).
      destruct (Z.ltb_spec 0 (batchDepth w)); [lia | reflexivity]. }
    assert (Hsame2 : same_values (signals w) (signals w1)) by apply (Hsame []).
    destruct (passing_write_calm JS JP w1 s sg1 v old r) as (N & H); auto;
      try (rewrite ?Hval, ?Hdis, ?Hopt; assumption).
    { right. intros e Hin n. rewrite Hel in Hin. rewrite Ew.
      assert (Hcase : In e (jsset_elements (subscribers sg)) \/ e = effect).
      { destruct (decide (s ∈ rs)); [|auto].
        apply in_app_iff in Hin as [Hin|[<-|[]]]; auto. }
      destruct Hcase as [Hin'| ->].
      - destruct (Hsubs e Hin') as (b & Hb & Hbt).
        apply (callEffect_tame JS JP n _ e b); [exact Hb | | exact Hstack].
        eapply same_frame_tame; [apply same_frame_assign|].
        eapply same_values_tame; [exact Hsame2 | exact Hbt].
      - apply (callEffect_reader JS JP n _ effect body); [exact He | | exact Hstack].
        eapply reader_alive; [|exact Ht]. intros y Hy.
        eapply same_frame_alive; [apply same_frame_assign|].
        eapply same_values_alive; [exact Hsame2 | exact Hy]. }
    { pose proof (handlers_tame_tracked effect rs (trace w1) w s _ Hh) as Hh1.
      fold w1 in Hh1. rewrite with_trace_id in Hh1. exact Hh1. }
    exists N. intros fuel Hfuel.
    destruct (H fuel Hfuel t) as (sout & houts & Hrun & Hsout & Hq).
    destruct (persistValue_ok JS (written s sg1 v w1) s (with_value v sg1)
                (written_lookup s sg1 v w1 Hs1)) as (ls & Hp).
    rewrite Hp in Hrun.
    rewrite Ew in Hrun.
    change (batchDepth w1) with (batchDepth w) in Hsout.
    destruct (Z.ltb_spec 0 (batchDepth w)); [lia|].
    exists sout, houts, ls. split; [exact Hrun|]. split; [exact Hsout|].
    eapply handler_out_obs; eauto. }
  destruct (watchEffect_reader w effect body He Ht) as (logs & Hlogs & Hwatch).
  destruct (Hw1 (trace w ++ ObsRun effect :: logs)) as (N & HN).
  exists (S N). intros fuel Hfuel. destruct fuel as [|n]; [lia|].
  destruct (HN (S n) ltac:(lia)) as (sout & houts & ls & Hset & Hsout & Hobs).
  eexists _, _, _. split; [apply Hwatch|]. split; [exact Hset|].
  split; [reflexivity|].
  unfold runs_of. rewrite count_app. cbn [count is_run].
  pose proof (runs_of_handler_obs effect _ Hobs) as R2. unfold runs_of in R2. rewrite R2.
  destruct Hsout as (outs & -> & Hq).
  pose proof (effects_out_runs effect _ outs Hq) as R1. unfold runs_of in R1. rewrite R1.
  rewrite Hel. fold rs.
  assert (Habs : effect ∉ jsset_elements (subscribers sg)).
  { intros Hin. apply Hnot, list_elem_of_In, Hin. }
  destruct (decide (s ∈ rs)).
  - rewrite filter_app, length_app, (filter_absent effect _ Habs).
    rewrite filter_cons_True by reflexivity. reflexivity.
  - rewrite (filter_absent effect _ Habs). reflexivity.
Qed.

(** ** A function that throws under [watchEffect] *)

(** C10 fails on the code when [watchEffect] is called inside another
    effect that catches the throw.  The inner function throws; its
    [watchEffect] does not pop it ([[outer; inner]] is the stack it leaves);
    the outer function returns, and the [pop] of the outer [watchEffect]
    removes the frame of the inner function.  What stays on the stack is
    the outer function, and a read made afterwards subscribes that one,
    not the function that threw. *)
Lemma caught_throw_leaves_the_outer_frame :
  (exists w',
     watchEffect (exec no_stringify no_parse 9) 1%nat (with_effectStack [0%nat] world_caught)
       = Thrown (Error "boom") w' /\
     effectStack w' = [0%nat; 1%nat]) /\
  exists w1 w2,
    watchEffect (exec no_stringify no_parse 10) 0%nat world_caught = Ok tt w1 /\
    trace w1 = [ObsRun 0%nat; ObsRun 1%nat] /\
    effectStack w1 = [0%nat] /\
    get_value 0%nat w1 = Ok (VNum 1) w2 /\
    subscribers <$> signals w2 !! 0%nat = Some [Some 0%nat].
Proof.
  split.
  - eexists. split; [vm_compute; reflexivity | reflexivity].
  - eexists _, _. split; [vm_compute; reflexivity|].
    split; [reflexivity|]. split; [reflexivity|].
    split; [vm_compute; reflexivity | reflexivity].
Qed.

(** [watchEffect] on a function that reads and logs and then throws *)
Lemma watchEffect_raising JS JP n w effect p x :
  effects w !! effect = Some (bind_prog p (fun _ => Throw x)) -> reader w p ->
  exists logs,
    Forall (fun o => is_log o = true) logs /\
    watchEffect (exec JS JP (S n)) effect w
      = Thrown x
          (with_trace (trace w ++ ObsRun effect :: logs)
             (with_signals
                (tracked [effect] (reads (heap w) (signals w) p) (signals w))
                (with_effectStack (effectStack w ++ [effect]) w))).
Proof.
  intros He Ht.
  set (wp := with_effectStack (effectStack w ++ [effect]) w).
  destruct (run_tracking w p Ht wp (same_values_refl _)) as (out & Hout & _ & Hbind).
  exists out. split; [exact Hout|].
  specialize (Hbind JS JP (exec JS JP n) (trace w ++ [ObsRun effect]) (fun _ => Throw x)).
  unfold watchEffect, bindM at 1, modify at 1. fold wp.
  unfold bindM at 1, callEffect, bindM at 1, gets at 1.
  cbn [effects wp with_effectStack]. rewrite He.
  unfold bindM at 1, observe, modify. cbn [trace with_effectStack].
  unfold bindM at 1. cbn [exec].
  change (trace wp) with (trace w).
  change (with_trace (trace w ++ [ObsRun effect]) (with_effectStack (effectStack w ++ [effect]) w))
    with (with_trace (trace w ++ [ObsRun effect]) wp).
  rewrite Hbind. cbn [run]. unfold throw.
  change (effectStack wp) with (effectStack w ++ [effect]).
  rewrite tracked_snoc, <- tracked_one, <- app_assoc. reflexivity.
Qed.

(** C10, as the code has it.  [watchEffect] has no [try/finally]: when the
    function throws, the same value reaches the caller and nothing is
    popped.  For a function that reads, logs and then throws, the state the
    caller gets back has the function as the top frame of the effect stack,
    and a read of a live instance made in that state returns its value,
    puts the function into its subscriber set and leaves the stack as it
    is.  For any function: what it throws reaches the caller of
    [watchEffect] unchanged, with the frame of the function still on the
    stack, below the frames that calls of [watchEffect] made by the
    function have left there in the same way.  And a read of a live
    instance made in any state in which the function is the top frame
    subscribes it. *)
Theorem thrown_effect_stays_on_stack JS JP n w effect p x s sg :
  effects w !! effect = Some (bind_prog p (fun _ => Throw x)) -> reader w p ->
  signals w !! s = Some sg -> disposed sg = false ->
  (exists w1 w2,
     watchEffect (exec JS JP (S n)) effect w = Thrown x w1 /\
     effectStack w1 = effectStack w ++ [effect] /\
     get_value s w1 = Ok (value sg) w2 /\
     In effect (jsset_elements (read_set (Subscribers s) w2)) /\
     effectStack w2 = effectStack w1) /\
  (forall fuel e y w0 w1,
     callEffect (exec JS JP fuel) e (with_effectStack (effectStack w0 ++ [e]) w0)
       = Thrown y w1 ->
     watchEffect (exec JS JP fuel) e w0 = Thrown y w1 /\
     exists rest, effectStack w1 = effectStack w0 ++ e :: rest) /\
  (forall w2 s' sg',
     last (effectStack w2) = Some effect ->
     signals w2 !! s' = Some sg' -> disposed sg' = false ->
     exists w3,
       get_value s' w2 = Ok (value sg') w3 /\
       In effect (jsset_elements (read_set (Subscribers s') w3)) /\
       effectStack w3 = effectStack w2).
Proof.
  intros He Ht Hs Hd.
  assert (Hread : forall w2 s' sg',
            last (effectStack w2) = Some effect ->
            signals w2 !! s' = Some sg' -> disposed sg' = false ->
            exists w3,
              get_value s' w2 = Ok (value sg') w3 /\
              In effect (jsset_elements (read_set (Subscribers s') w3)) /\
              effectStack w3 = effectStack w2).
  { intros w2 s' sg' Htop Hs' Hd'.
    eexists. split; [|split].
    + unfold get_value, bindM at 1, get_signal. rewrite Hs', Hd'.
      unfold bindM at 1, gets. rewrite Htop.
      unfold bindM at 1, modify_signal, modify. reflexivity.
    + cbn. rewrite list_lookup_alter_eq, Hs'. cbn.
      apply jsset_add_In. left. reflexivity.
    + reflexivity. }
  split; [|split; [|exact Hread]].
  - destruct (watchEffect_raising JS JP n w effect p x He Ht) as (logs & _ & Hrun).
    set (w1 := with_trace _ _) in Hrun.
    assert (Hs1 : exists sg1, signals w1 !! s = Some sg1 /\ value sg1 = value sg /\
                              disposed sg1 = false).
    { subst w1. cbn [signals with_trace with_signals]. rewrite tracked_lookup, Hs.
      destruct (decide (s ∈ reads (heap w) (signals w) p)); eexists; split; try reflexivity;
        split; auto. }
    destruct Hs1 as (sg1 & Hs1 & Hv1 & Hd1).
    destruct (Hread w1 s sg1) as (w2 & Hget & Hin & Hst); auto.
    { subst w1. cbn [effectStack with_trace with_signals with_effectStack].
      apply last_snoc. }
    exists w1, w2. split; [exact Hrun|]. split; [reflexivity|].
    rewrite <- Hv1. auto.
  - intros fuel e y w0 w1 H. split.
    + unfold watchEffect, bindM at 1, modify at 1. unfold bindM at 1.
      rewrite H. reflexivity.
    + pose proof (pres_callEffect (exec JS JP fuel) (exec_extends JS JP fuel) e
                    (with_effectStack (effectStack w0 ++ [e]) w0)) as P.
      rewrite H in P. destruct P as [_ _ [rest Hrest] _]. cbn in Hrest.
      exists rest. rewrite Hrest, <- app_assoc. reflexivity.
Qed.

(** ** Computed signals *)

Lemma reads_valid h w p s :
  reader w p -> In s (reads h (signals w) p) -> (s < length (signals w))%nat.
Proof.
  intros H Hin. pose proof (reads_alive h w p s H Hin) as Ha. unfold alive in Ha.
  destruct (signals w !! s) as [sg|] eqn:E; [|discriminate].
  eapply lookup_lt_Some; eauto.
Qed.

Lemma same_values_app sigs more : same_values sigs (sigs ++ more).
Proof. intros s sg H. exists sg. rewrite lookup_app_l_Some with (x := sg); auto. Qed.

Lemma world_ext a b :
  effectStack a = effectStack b -> batchDepth a = batchDepth b ->
  pendingEffects a = pendingEffects b -> signals a = signals b ->
  handlerSets a = handlerSets b -> effects a = effects b ->
  handlers a = handlers b -> heap a = heap b ->
  localStorage a = localStorage b -> microtasks a = microtasks b ->
  trace a = trace b -> a = b.
Proof. destruct a, b; cbn; intros; subst; reflexivity. Qed.

(** The state [computed] leaves for a reader, called outside any effect: a
    new instance holding what the function returned, a new effect that
    recomputes it, subscribed to what the function read. *)
Lemma computed_reader JP w fn :
  reader w fn -> effectStack w = [] ->
  exists out1 out2,
    Forall (fun o => is_log o = true) out1 /\
    Forall (fun o => is_log o = true) out2 /\
    forall JS n,
      computed JP (exec JS JP (S n)) fn w
        = Ok (length (signals w))
            (with_trace (trace w ++ out1 ++ ObsRun (length (effects w)) :: out2)
               (with_effects
                  (effects w ++ [computed_effect (length (signals w)) fn])
                  (with_microtasks (microtasks w ++ [length (signals w)])
                     (with_signals
                        (tracked [length (effects w)] (reads (heap w) (signals w) fn)
                           (signals w ++ [plain (returns (heap w) (signals w) fn) [] [] None]))
                        w)))).
Proof.
  intros Ht Hstack.
  set (c := length (signals w)). set (e := length (effects w)).
  set (v := returns (heap w) (signals w) fn). set (rs := reads (heap w) (signals w) fn).
  destruct (run_tracking w fn Ht w (same_values_refl _)) as (out1 & Hout1 & Hrun1 & _).
  set (wb := fun t => with_effects (effects w ++ [computed_effect c fn])
                 (with_microtasks (microtasks w ++ [c])
                    (with_signals (signals w ++ [plain v [] [] None]) (with_trace t w)))).
  set (wp := with_effectStack [e] (wb (trace w ++ out1))).
  destruct (run_tracking w fn Ht wp) as (out2 & Hout2 & _ & Hbind2).
  { cbn [signals wp wb with_effectStack with_effects with_microtasks with_signals with_trace].
    apply same_values_app. }
  change (heap wp) with (heap w) in Hbind2.
  exists out1, out2. split; [exact Hout1|]. split; [exact Hout2|]. intros JS n.
  unfold computed, bindM at 1. cbn [exec].
  specialize (Hrun1 JS JP (exec JS JP n) (trace w)). rewrite with_trace_id in Hrun1.
  rewrite Hrun1. fold v.
  assert (E1 : with_trace (trace w ++ out1)
                 (with_signals (tracked (effectStack w) (reads (heap w) (signals w) fn) (signals w)) w)
               = with_trace (trace w ++ out1) w).
  { unfold tracked. rewrite Hstack. cbn [last]. rewrite with_signals_id. reflexivity. }
  rewrite E1. clear E1.
  unfold bindM at 1.
  rewrite (resin_keeps JP v None (with_trace (trace w ++ out1) w)) by reflexivity.
  cbn [effectStack with_trace]. rewrite Hstack. cbn [last].
  assert (Hnil : forall b : bool, (if b then ([] : jsset) else []) = [])
    by (intros []; reflexivity).
  rewrite Hnil.
  cbn [signals microtasks with_trace].
  unfold bindM at 1, new_effect, bindM at 1, gets at 1, bindM at 1, modify at 1.
  unfold ret at 1. cbn [effects with_signals with_microtasks with_trace].
  fold c e.
  unfold bindM at 1, watchEffect, bindM at 1, modify at 1.
  cbn [effectStack with_effects with_signals with_microtasks with_trace].
  rewrite Hstack. cbn [app].
  unfold bindM at 1, callEffect, bindM at 1, gets at 1.
  cbn [effects with_effectStack with_effects].
  assert (He : (effects w ++ [computed_effect c fn]) !! e = Some (computed_effect c fn)).
  { subst e. rewrite lookup_app_r by lia. rewrite Nat.sub_diag. reflexivity. }
  rewrite He.
  unfold bindM at 1, observe, modify.
  cbn [trace with_effectStack with_effects with_signals with_microtasks with_trace].
  unfold bindM at 1. cbn [exec].
  match goal with |- context [run JS JP (exec JS JP n) (computed_effect c fn) ?x] =>
    change (run JS JP (exec JS JP n) (computed_effect c fn) x)
      with (run JS JP (exec JS JP n)
              (bind_prog fn (fun v0 => SetValue c v0 (Return VUndefined)))
              (with_trace ((trace w ++ out1) ++ [ObsRun e]) wp))
  end.
  rewrite Hbind2. fold v rs.
  cbn [run]. unfold bindM at 1.
  set (wt := with_trace _ (with_signals _ wp)).
  assert (Hc : signals wt !! c = Some (plain v [] [] None)).
  { subst wt.
    cbn [signals effectStack wp wb with_effectStack with_effects with_microtasks
           with_signals with_trace].
    rewrite tracked_lookup.
    destruct (decide (c ∈ rs)) as [Hin|_].
    - apply list_elem_of_In, (reads_valid _ w fn c Ht) in Hin. subst c. lia.
    - rewrite lookup_app_r by (subst c; lia). subst c. rewrite Nat.sub_diag. reflexivity. }
  rewrite (write_same JS _ wt c (plain v [] [] None) v Hc eq_refl (strict_eq_refl v)).
  unfold ret. cbv beta iota.
  subst wt wp wb.
  cbn [effectStack with_effectStack with_effects with_microtasks with_signals with_trace
         removelast].
  f_equal.
  apply world_ext;
    cbn [effectStack batchDepth pendingEffects signals handlerSets effects handlers heap
           localStorage microtasks trace
           with_effectStack with_effects with_microtasks with_signals with_trace];
    try reflexivity.
  - symmetry. exact Hstack.
  - rewrite <- !app_assoc. reflexivity.
Qed.

(** X19: [computed(fn)], called outside any effect with a function that only
    reads live instances, looks into the heap and logs, returns a new
    instance holding what [fn] returns, with no subscriber, no handler and
    no options, and leaves a new effect,
    [() => { computedResin.value = fn() }], in the subscriber set of
    exactly the instances [fn] read.  That effect was called once; nothing
    was emitted and no other instance changed. *)
Theorem computed_holds_and_subscribes JP w fn :
  reader w fn -> effectStack w = [] ->
  exists v,
    (forall JS rec, exists w0, run JS JP rec fn w = Ok v w0) /\
    forall JS n, exists w' out,
      computed JP (exec JS JP (S n)) fn w = Ok (length (signals w)) w' /\
      signals w' !! length (signals w) = Some (plain v [] [] None) /\
      effects w' !! length (effects w)
        = Some (computed_effect (length (signals w)) fn) /\
      (forall s, (s < length (signals w))%nat ->
         signals w' !! s
         = (if decide (s ∈ reads (heap w) (signals w) fn)
            then add_subscriber (length (effects w)) else id) <$> signals w !! s) /\
      effectStack w' = [] /\
      trace w' = trace w ++ out /\
      runs_of (length (effects w)) out = 1%nat /\
      forall s ty, emits_of s ty out = 0%nat.
Proof.
  intros Ht Hstack. exists (returns (heap w) (signals w) fn). split.
  - intros JS rec.
    destruct (run_tracking w fn Ht w (same_values_refl _)) as (out & _ & Hrun & _).
    specialize (Hrun JS JP rec (trace w)). rewrite with_trace_id in Hrun. eauto.
  - destruct (computed_reader JP w fn Ht Hstack) as (out1 & out2 & Hout1 & Hout2 & Hrun).
    intros JS n. eexists _, _. split; [apply Hrun|].
    cbn [signals effects effectStack trace with_trace with_effects with_microtasks with_signals].
    split; [|split; [|split; [|split; [exact Hstack | split; [reflexivity | split]]]]].
    + rewrite tracked_lookup.
      destruct (decide (length (signals w) ∈ reads (heap w) (signals w) fn)) as [Hin|_].
      * apply list_elem_of_In, (reads_valid _ w fn _ Ht) in Hin. lia.
      * rewrite lookup_app_r by lia. rewrite Nat.sub_diag. reflexivity.
    + rewrite lookup_app_r by lia. rewrite Nat.sub_diag. reflexivity.
    + intros s Hlt. rewrite tracked_lookup, lookup_app_l by exact Hlt. reflexivity.
    + unfold runs_of. rewrite count_app. cbn [count is_run]. rewrite Nat.eqb_refl.
      rewrite (count_log_none _ out1), (count_log_none _ out2) by (auto || reflexivity).
      reflexivity.
    + intros s ty. unfold emits_of. rewrite count_app. cbn [count is_emit].
      rewrite (count_log_none _ out1), (count_log_none _ out2) by (auto || reflexivity).
      reflexivity.
Qed.

(** [forEach] from an index after which the set has no entry left *)
Lemma each_skip JS JP r cb w :
  forall fuel i,
    jsset_elements (drop i (read_set r w)) = [] ->
    (length (read_set r w) - i < fuel)%nat ->
    exec JS JP fuel (Each r i cb) w = Ok VUndefined w.
Proof.
  induction fuel as [|f IH]; intros i Hel Hfuel; [lia|].
  cbn [exec]. unfold bindM at 1, forEach_from, bindM at 1, gets at 1.
  destruct (read_set r w !! i) as [o|] eqn:E; [|reflexivity].
  pose proof (lookup_lt_Some _ _ _ E) as Hlt.
  rewrite (drop_S _ _ _ E) in Hel. destruct o as [y|]; [discriminate|].
  cbn [jsset_elements] in Hel. unfold bindM at 1.
  rewrite (IH (S i) Hel) by lia. reflexivity.
Qed.

(** [forEach] over a set with one entry, whose callback may change the
    state but not the set *)
Lemma each_single JS JP r cb x w w' N0 :
  (forall n, (N0 <= n)%nat -> apply_callback (exec JS JP n) cb x w = Ok tt w') ->
  read_set r w' = read_set r w ->
  forall fuel i,
    jsset_elements (drop i (read_set r w)) = [x] ->
    (N0 + S (length (read_set r w) - i) < fuel)%nat ->
    exec JS JP fuel (Each r i cb) w = Ok VUndefined w'.
Proof.
  intros Hcb Hset. induction fuel as [|f IH]; intros i Hel Hfuel; [lia|].
  cbn [exec]. unfold bindM at 1, forEach_from, bindM at 1, gets at 1.
  destruct (read_set r w !! i) as [o|] eqn:E.
  - pose proof (lookup_lt_Some _ _ _ E) as Hlt.
    rewrite (drop_S _ _ _ E) in Hel. destruct o as [y|]; cbn [jsset_elements] in Hel.
    + inversion Hel as [[Hy Hrest]]. subst y.
      unfold bindM at 1. rewrite (Hcb f) by lia.
      unfold bindM at 1. rewrite (each_skip JS JP r cb w' f (S i)).
      * reflexivity.
      * rewrite Hset. exact Hrest.
      * rewrite Hset. lia.
    + unfold bindM at 1. rewrite (IH (S i) Hel) by lia. reflexivity.
  - apply lookup_ge_None in E. rewrite drop_ge in Hel by lia. discriminate.
Qed.

(** Storing a recomputed value in an instance that has neither subscriber
    nor handler nor options, outside any effect and any batch *)
Lemma store_recomputed JS JP u c vc v2 :
  effectStack u = [] -> batchDepth u <= 0 ->
  signals u !! c = Some (plain vc [] [] None) ->
  exists N, forall n, (N <= n)%nat -> forall t,
    set_value JS (exec JS JP n) c v2 (with_trace t u)
      = Ok tt (if strict_eq vc v2 then with_trace t u
               else with_trace (t ++ [ObsEmit c (EvChange v2 v2)]) (assign c v2 u)).
Proof.
  intros Hstack Hdepth Hc.
  destruct (strict_eq vc v2) eqn:Heq.
  - exists 0%nat. intros n _ t.
    rewrite (write_same JS _ _ c (plain vc [] [] None) v2); auto.
  - destruct (passing_write JS JP u c (plain vc [] [] None) v2 v2
                {| valid := true; verror := None |}) as (N & H); auto.
    { right. intros x []. }
    { intros sg id h Hs Ha. rewrite Hc in Hs. inversion Hs; subst sg. discriminate Ha. }
    exists N. intros n Hn t.
    destruct (H n Hn t) as (sout & houts & Hrun & Hsout & Hq).
    rewrite Hrun.
    destruct (Z.ltb_spec 0 (batchDepth u)) as [|_]; [lia|].
    destruct Hsout as (outs & -> & Hqs). inversion Hqs; subst outs.
    unfold registered in Hq. rewrite Hc in Hq. cbn in Hq. inversion Hq; subst houts.
    cbn [concat app].
    assert (Ew : written c (plain vc [] [] None) v2 u = assign c v2 u).
    { unfold written. destruct (Z.ltb_spec 0 (batchDepth u)); [lia | reflexivity]. }
    rewrite Ew.
    unfold persistValue, bindM at 1, get_signal. cbn [signals with_trace assign with_signals].
    rewrite list_lookup_alter_eq, Hc. cbn [fmap option_fmap option_map options with_value plain
      mbind option_bind].
    unfold ret. reflexivity.
Qed.

(** The recompute effect of a computed signal that has neither subscriber
    nor handler, called outside any effect and any batch: it stores what
    [fn] now returns and, if that differs, emits [change]. *)
Lemma callEffect_computed JS JP u e c fn vc :
  effects u !! e = Some (computed_effect c fn) -> reader u fn ->
  effectStack u = [] -> batchDepth u <= 0 ->
  signals u !! c = Some (plain vc [] [] None) ->
  exists N out,
    Forall (fun o => is_log o = true) out /\
    forall n, (N <= n)%nat -> forall t,
      callEffect (exec JS JP (S n)) e (with_trace t u)
        = Ok tt (if strict_eq vc (returns (heap u) (signals u) fn)
                 then with_trace (t ++ ObsRun e :: out) u
                 else with_trace
                        (t ++ ObsRun e :: out ++
                           [ObsEmit c (EvChange (returns (heap u) (signals u) fn)
                                         (returns (heap u) (signals u) fn))])
                        (assign c (returns (heap u) (signals u) fn) u)).
Proof.
  intros He Ht Hstack Hdepth Hc.
  set (v2 := returns (heap u) (signals u) fn).
  destruct (run_tracking u fn Ht u (same_values_refl _)) as (out & Hout & _ & Hbind).
  assert (Eu : with_signals (tracked (effectStack u) (reads (heap u) (signals u) fn) (signals u)) u = u).
  { unfold tracked. rewrite Hstack. cbn [last]. apply with_signals_id. }
  rewrite Eu in Hbind. fold v2 in Hbind.
  destruct (store_recomputed JS JP u c vc v2 Hstack Hdepth Hc) as (N & Hset).
  exists N, out. split; [exact Hout|]. intros n Hn t.
  unfold callEffect, bindM at 1, gets at 1.
  cbn [effects with_trace]. rewrite He.
  unfold bindM at 1, observe, modify. cbn [trace with_trace].
  change (with_trace (t ++ [ObsRun e]) (with_trace t u))
    with (with_trace (t ++ [ObsRun e]) u).
  unfold bindM at 1. cbn [exec]. unfold computed_effect. rewrite Hbind.
  cbn [run]. unfold bindM at 1. rewrite (Hset n Hn).
  unfold ret. cbv beta iota.
  destruct (strict_eq vc v2); rewrite <- !app_assoc; reflexivity.
Qed.

Lemma returns_agree h w p (A B : list signal) :
  reader w p ->
  (forall s, alive w s = true -> value <$> A !! s = value <$> B !! s) ->
  returns h A p = returns h B p.
Proof.
  intros H F. induction H as [v|v k H IH|s k Hs Hk IH|k Hk IH]; cbn [returns]; auto.
  specialize (F s Hs).
  destruct (A !! s) as [sa|], (B !! s) as [sb|]; cbn in F; try discriminate; auto.
  inversion F as [E]. rewrite E. apply IH.
Qed.

Lemma handlers_tame_mono w w' s ev :
  handlers w' = handlers w -> handlerSets w' = handlerSets w ->
  (forall sg', signals w' !! s = Some sg' ->
     exists sg, signals w !! s = Some sg /\ eventHandlers sg' = eventHandlers sg) ->
  (forall x, alive w x = true -> alive w' x = true) ->
  handlers_tame w s ev -> handlers_tame w' s ev.
Proof.
  intros Hh Hhs Hsig Halive H sg' id h Hs Ha Hin.
  destruct (Hsig sg' Hs) as (sg & Hsg & He). rewrite He in Ha.
  unfold read_set in Hin. rewrite Hhs in Hin.
  destruct (H sg id h Hsg Ha Hin) as (f & Hf & Ht).
  exists f. split; [rewrite Hh; exact Hf|]. eapply tame_alive; eauto.
Qed.

(** What a call of an effect that stores [v2] in [c] leaves, whichever way
    the comparison with the value held goes *)
Lemma setter_call_outcome JS JP u1 e c vc v2 :
  signals u1 !! c = Some (plain vc [] [] None) ->
  (exists Nc out,
     Forall (fun o => is_log o = true) out /\
     forall n, (Nc <= n)%nat -> forall t,
       callEffect (exec JS JP (S n)) e (with_trace t u1)
         = Ok tt (if strict_eq vc v2
                  then with_trace (t ++ ObsRun e :: out) u1
                  else with_trace (t ++ ObsRun e :: out ++ [ObsEmit c (EvChange v2 v2)])
                         (assign c v2 u1))) ->
  exists Nc u3 mid,
    (forall n, (Nc <= n)%nat -> forall t,
       callEffect (exec JS JP (S n)) e (with_trace t u1)
         = Ok tt (with_trace (t ++ ObsRun e :: mid) u3)) /\
    same_frame u1 u3 /\ effectStack u3 = effectStack u1 /\
    batchDepth u3 = batchDepth u1 /\ pendingEffects u3 = pendingEffects u1 /\
    heap u3 = heap u1 /\
    value <$> signals u3 !! c = Some v2 /\
    (forall s, s <> c -> signals u3 !! s = signals u1 !! s) /\
    count (is_run e) mid = 0%nat /\
    (forall a, a <> c -> count (is_emit a EChange) mid = 0%nat) /\
    count (is_emit c EChange) mid = (if strict_eq vc v2 then 0 else 1)%nat.
Proof.
  intros Hc (Nc & out & Hout & Hcall).
  destruct (strict_eq vc v2) eqn:Heq.
  - exists Nc, u1, out. split; [exact Hcall|]. split; [apply same_frame_refl|].
    repeat (split; [reflexivity|]).
    split; [|split; [reflexivity|split; [|split]]].
    + rewrite Hc. cbn. f_equal. apply strict_eq_true. exact Heq.
    + apply count_log_none; auto.
    + intros a _. apply count_log_none; auto.
    + apply count_log_none; auto.
  - exists Nc, (assign c v2 u1), (out ++ [ObsEmit c (EvChange v2 v2)]).
    split; [exact Hcall|]. split; [apply same_frame_assign|].
    repeat (split; [reflexivity|]).
    split; [|split; [|split; [|split]]].
    + cbn. rewrite list_lookup_alter_eq, Hc. reflexivity.
    + intros s Hs. cbn. rewrite list_lookup_alter_ne by congruence. reflexivity.
    + rewrite count_app, (count_log_none _ out) by auto. reflexivity.
    + intros a Ha. rewrite count_app, (count_log_none _ out) by auto. cbn.
      destruct (Nat.eqb_spec a c); [congruence | reflexivity].
    + rewrite count_app, (count_log_none _ out) by auto. cbn.
      rewrite Nat.eqb_refl. reflexivity.
Qed.

(** A passing write, outside any batch, to an instance whose one subscriber
    is an effect that stores [v2] in an instance [c] that has neither
    subscriber nor handler *)
Lemma write_reruns_setter JS JP u a sga x old r e c vc v2 :
  signals u !! a = Some sga -> disposed sga = false ->
  strict_eq (value sga) x = false ->
  transformValue (options sga) x = inr old ->
  validateValue (options sga) x = inr r -> valid r = true ->
  batchDepth u <= 0 -> effectStack u = [] ->
  jsset_elements (subscribers sga) = [e] ->
  a <> c -> signals u !! c = Some (plain vc [] [] None) ->
  handlers_tame u a (EvChange x old) ->
  (exists Nc out,
     Forall (fun o => is_log o = true) out /\
     forall n, (Nc <= n)%nat -> forall t,
       callEffect (exec JS JP (S n)) e (with_trace t (assign a x u))
         = Ok tt (if strict_eq vc v2
                  then with_trace (t ++ ObsRun e :: out) (assign a x u)
                  else with_trace (t ++ ObsRun e :: out ++ [ObsEmit c (EvChange v2 v2)])
                         (assign c v2 (assign a x u)))) ->
  exists N, forall fuel, (N <= fuel)%nat ->
    exists w' out,
      set_value JS (exec JS JP fuel) a x u = Ok tt w' /\
      same_frame u w' /\ heap w' = heap u /\
      value <$> signals w' !! a = Some x /\
      value <$> signals w' !! c = Some v2 /\
      (forall s, s <> a -> s <> c -> signals w' !! s = signals u !! s) /\
      trace w' = trace u ++ out /\
      runs_of e out = 1%nat /\ emits_of a EChange out = 1%nat /\
      emits_of c EChange out = (if strict_eq vc v2 then 0 else 1)%nat.
Proof.
  intros Ha Hd Hne Ht Hv Hr Hdepth Hstack Hel Hac Hc Hh Hcall.
  set (u1 := assign a x u) in *.
  assert (F1 : same_frame u u1) by apply same_frame_assign.
  assert (Ha1 : signals u1 !! a = Some (with_value x sga)) by (apply assign_lookup; exact Ha).
  assert (Hc1 : signals u1 !! c = Some (plain vc [] [] None)).
  { cbn. rewrite list_lookup_alter_ne by exact Hac. exact Hc. }
  destruct (setter_call_outcome JS JP u1 e c vc v2 Hc1)
    as (Nc & u3 & mid & Hcall3 & F3 & Hstack3' & _ & _ & Hheap3 & Hc3 & Hsame3 & Hruns
        & Hemits3 & Hemitc); [exact Hcall|].
  assert (Hstack3 : effectStack u3 = []) by (rewrite Hstack3'; exact Hstack).
  change (heap u1) with (heap u) in Hheap3.
  assert (Ha3 : signals u3 !! a = Some (with_value x sga)).
  { rewrite Hsame3 by exact Hac. exact Ha1. }
  assert (Hrest3 : forall s, s <> a -> s <> c -> signals u3 !! s = signals u !! s).
  { intros s Hsa Hsc. rewrite Hsame3 by exact Hsc. cbn.
    rewrite list_lookup_alter_ne by congruence. reflexivity. }
  assert (Hemits : count (is_emit a EChange) mid = 0%nat) by (apply Hemits3; exact Hac).
  destruct (emitEvent_tame JS JP u3 a (with_value x sga) (EvChange x old) Ha3) as (N & HN).
  { eapply same_frame_handlers_tame; [|exact Hh]. eapply same_frame_trans; eauto. }
  { exact Hstack3. }
  destruct (persistValue_ok JS u3 a (with_value x sga) Ha3) as (ls & Hp).
  exists (N + S Nc + S (S (S (length (subscribers sga)))))%nat. intros fuel Hfuel.
  destruct (HN fuel ltac:(lia) (trace u ++ ObsRun e :: mid)) as (hout & Hemit & Hobs).
  exists (with_trace ((trace u ++ ObsRun e :: mid) ++ ObsEmit a (EvChange x old) :: hout)
            (with_localStorage ls u3)),
         ((ObsRun e :: mid) ++ ObsEmit a (EvChange x old) :: hout).
  split; [|split; [|split; [|split; [|split; [|split; [|split; [|split; [|split]]]]]]]].
  - assert (Heach : exec JS JP fuel (Each (Subscribers a) 0 RunEffect) (with_trace (trace u) u1)
                    = Ok VUndefined (with_trace (trace u ++ ObsRun e :: mid) u3)).
    { apply (each_single JS JP (Subscribers a) RunEffect e _ _ (S Nc)).
      - intros n Hn. destruct n as [|n]; [lia|]. cbn [apply_callback].
        apply Hcall3. lia.
      - unfold read_set. cbn [signals with_trace]. rewrite Ha1, Ha3. reflexivity.
      - rewrite drop_0. unfold read_set. cbn [signals with_trace]. rewrite Ha1. exact Hel.
      - unfold read_set. cbn [signals with_trace]. rewrite Ha1.
        cbn [subscribers with_value]. lia. }
    unfold set_value, set_value_try, bindM at 1, get_signal. rewrite Ha, Hd.
    unfold try_catch. rewrite Hne, Ht, Hv. unfold bindM at 1. cbn [lift ret].
    unfold bindM at 1. cbn [lift ret]. rewrite Hr. cbn [negb].
    unfold bindM at 1, modify_signal, modify.
    unfold notify, bindM at 1, get_signal. cbn [signals with_signals].
    rewrite list_lookup_alter_eq, Ha. cbn [fmap option_fmap option_map disposed with_value].
    rewrite Hd. unfold bindM at 1, gets. cbn [batchDepth with_signals].
    destruct (Z.ltb_spec 0 (batchDepth u)) as [|_]; [lia|].
    unfold bindM at 1, forEach, bindM at 1.
    change (with_signals (alter (with_value x) a (signals u)) u) with u1.
    rewrite <- (with_trace_id u1). change (trace u1) with (trace u).
    rewrite Heach. unfold ret at 1.
    unfold bindM at 1, get_signal. cbn [signals with_trace]. rewrite Ha3.
    cbn [value with_value]. unfold bindM at 1.
    rewrite Hemit, Hp. reflexivity.
  - eapply same_frame_trans; [exact F1|]. eapply same_frame_trans; [exact F3|].
    eapply same_frame_trans; [apply same_frame_with_localStorage | apply same_frame_with_trace].
  - cbn [heap with_trace with_localStorage]. exact Hheap3.
  - cbn [signals with_trace with_localStorage]. rewrite Ha3. reflexivity.
  - cbn [signals with_trace with_localStorage]. exact Hc3.
  - intros s Hsa Hsc. cbn [signals with_trace with_localStorage]. apply Hrest3; auto.
  - cbn [trace with_trace]. rewrite <- app_assoc. reflexivity.
  - unfold runs_of. rewrite count_app. cbn [count is_run]. rewrite Nat.eqb_refl, Hruns.
    pose proof (runs_of_handler_obs e hout Hobs) as R. unfold runs_of in R. rewrite R.
    reflexivity.
  - unfold emits_of. rewrite count_app. cbn [count is_run is_emit event_type EventType_eqb].
    rewrite Nat.eqb_refl, Hemits. cbn [andb].
    pose proof (emits_of_handler_obs a EChange hout Hobs) as R. unfold emits_of in R.
    rewrite R. reflexivity.
  - unfold emits_of. rewrite count_app. cbn [count is_run is_emit event_type EventType_eqb].
    rewrite Hemitc.
    destruct (Nat.eqb_spec c a) as [E|_]; [congruence|]. cbn [andb].
    pose proof (emits_of_handler_obs c EChange hout Hobs) as R. unfold emits_of in R.
    rewrite R. lia.
Qed.

(** A passing write, outside any batch, to an instance whose one subscriber
    is the recompute effect of a computed signal *)
Lemma write_recomputes JS JP u a sga x old r e c fn vc :
  signals u !! a = Some sga -> disposed sga = false ->
  strict_eq (value sga) x = false ->
  transformValue (options sga) x = inr old ->
  validateValue (options sga) x = inr r -> valid r = true ->
  batchDepth u <= 0 -> effectStack u = [] ->
  jsset_elements (subscribers sga) = [e] ->
  effects u !! e = Some (computed_effect c fn) -> reader u fn ->
  a <> c -> signals u !! c = Some (plain vc [] [] None) ->
  handlers_tame u a (EvChange x old) ->
  exists N, forall fuel, (N <= fuel)%nat ->
    exists w' out,
      set_value JS (exec JS JP fuel) a x u = Ok tt w' /\
      same_frame u w' /\ heap w' = heap u /\
      value <$> signals w' !! a = Some x /\
      value <$> signals w' !! c = Some (returns (heap u) (signals (assign a x u)) fn) /\
      (forall s, s <> a -> s <> c -> signals w' !! s = signals u !! s) /\
      trace w' = trace u ++ out /\
      runs_of e out = 1%nat /\ emits_of a EChange out = 1%nat.
Proof.
  intros Ha Hd Hne Ht Hv Hr Hdepth Hstack Hel He Hfn Hac Hc Hh.
  destruct (write_reruns_setter JS JP u a sga x old r e c vc
              (returns (heap u) (signals (assign a x u)) fn)) as (N & H); auto.
  { apply (callEffect_computed JS JP (assign a x u) e c fn vc); auto.
    - eapply reader_alive; [|exact Hfn]. intros y. apply same_frame_alive, same_frame_assign.
    - cbn. rewrite list_lookup_alter_ne by exact Hac. exact Hc. }
  exists N. intros fuel Hfuel.
  destruct (H fuel Hfuel) as (w' & out & H1 & H2 & H3 & H4 & H5 & H6 & H7 & H8 & H9 & _).
  exists w', out. auto 10.
Qed.

(** [c = computed(fn)] followed by a passing write to an instance that [fn]
    read *)
Lemma computed_then_write JS JP w fn a sga x old r :
  reader w fn -> effectStack w = [] -> batchDepth w <= 0 ->
  In a (reads (heap w) (signals w) fn) ->
  signals w !! a = Some sga ->
  jsset_elements (subscribers sga) = [] ->
  strict_eq (value sga) x = false ->
  transformValue (options sga) x = inr old ->
  validateValue (options sga) x = inr r -> valid r = true ->
  handlers_tame w a (EvChange x old) ->
  exists N, forall fuel, (N <= fuel)%nat ->
    exists w1 w2 out,
      computed JP (exec JS JP fuel) fn w = Ok (length (signals w)) w1 /\
      value <$> signals w1 !! length (signals w)
        = Some (returns (heap w) (signals w) fn) /\
      set_value JS (exec JS JP fuel) a x w1 = Ok tt w2 /\
      heap w2 = heap w /\
      value <$> signals w2 !! a = Some x /\
      value <$> signals w2 !! length (signals w)
        = Some (returns (heap w) (signals (assign a x w)) fn) /\
      (forall JS' JP' rec, exists w0,
         run JS' JP' rec fn w2 = Ok (returns (heap w) (signals (assign a x w)) fn) w0) /\
      trace w2 = trace w1 ++ out /\
      runs_of (length (effects w)) out = 1%nat.
Proof.
  intros Ht Hstack Hdepth Hin Ha Hel Hne Htr Hv Hr Hh.
  set (c := length (signals w)). set (e := length (effects w)).
  set (v := returns (heap w) (signals w) fn). set (rs := reads (heap w) (signals w) fn).
  destruct (computed_reader JP w fn Ht Hstack) as (out1 & out2 & _ & _ & Hcomp).
  fold c e v rs in Hcomp.
  set (w1 := with_trace (trace w ++ out1 ++ ObsRun e :: out2)
               (with_effects (effects w ++ [computed_effect c fn])
                  (with_microtasks (microtasks w ++ [c])
                     (with_signals (tracked [e] rs (signals w ++ [plain v [] [] None])) w))))
    in *.
  assert (Hlt : (a < c)%nat) by (apply (reads_valid _ w fn a Ht Hin)).
  assert (Halive : alive w a = true) by (apply (reads_alive _ w fn a Ht Hin)).
  assert (Hd : disposed sga = false).
  { unfold alive in Halive. rewrite Ha in Halive. destruct (disposed sga); auto; discriminate. }
  assert (Hsig1 : forall s, signals w1 !!  s
            = (if decide (s ∈ rs) then add_subscriber e else id)
                <$> (signals w ++ [plain v [] [] None]) !! s).
  { intros s. cbn [signals w1 with_trace with_effects with_microtasks with_signals].
    apply tracked_lookup. }
  assert (Ha1 : signals w1 !! a = Some (add_subscriber e sga)).
  { rewrite Hsig1, lookup_app_l, Ha by exact Hlt.
    destruct (decide (a ∈ rs)) as [_|Hn]; [reflexivity|].
    exfalso. apply Hn, list_elem_of_In, Hin. }
  assert (Hc1 : signals w1 !! c = Some (plain v [] [] None)).
  { rewrite Hsig1. destruct (decide (c ∈ rs)) as [Hcin|_].
    - apply list_elem_of_In, (reads_valid _ w fn c Ht) in Hcin. subst c. lia.
    - rewrite lookup_app_r by (subst c; lia). subst c. rewrite Nat.sub_diag. reflexivity. }
  assert (Hsame1 : same_values (signals w) (signals w1)).
  { cbn [signals w1 with_trace with_effects with_microtasks with_signals].
    eapply same_values_trans; [apply same_values_app | apply same_values_tracked]. }
  assert (Hal1 : forall s, alive w s = true -> alive w1 s = true).
  { intros s. apply same_values_alive. exact Hsame1. }
  destruct (write_recomputes JS JP w1 a (add_subscriber e sga) x old r e c fn v)
    as (N & H); auto.
  { cbn [subscribers add_subscriber with_subscribers]. rewrite jsset_add_elements.
    destruct (jsset_has e (subscribers sga)) eqn:E.
    - apply jsset_has_In in E. rewrite Hel in E. destruct E.
    - rewrite Hel. reflexivity. }
  { cbn [effects w1 with_trace with_effects]. subst e.
    rewrite lookup_app_r by lia. rewrite Nat.sub_diag. reflexivity. }
  { eapply reader_alive; eauto. }
  { lia. }
  { apply (handlers_tame_mono w w1); auto.
    intros sg' Hs'. rewrite Ha1 in Hs'. inversion Hs'; subst sg'.
    exists sga. split; [exact Ha | reflexivity]. }
  exists (S N). intros fuel Hfuel. destruct fuel as [|n]; [lia|].
  destruct (H (S n) ltac:(lia))
    as (w2 & out & Hset & F2 & Hheap & Hva & Hvc & Hrest & Htrace & Hruns & _).
  assert (Hagree : forall s, alive w s = true ->
            value <$> signals (assign a x w1) !! s = value <$> signals (assign a x w) !! s).
  { intros s Hs. cbn [signals assign with_signals].
    assert (Hslt : (s < c)%nat).
    { unfold alive in Hs. destruct (signals w !! s) eqn:E; [|discriminate].
      apply lookup_lt_Some in E. exact E. }
    destruct (decide (a = s)) as [->|Hsa].
    - rewrite !list_lookup_alter_eq, Ha1, Ha. reflexivity.
    - rewrite !list_lookup_alter_ne by exact Hsa.
      rewrite Hsig1, lookup_app_l by exact Hslt.
      destruct (signals w !! s); [|reflexivity].
      destruct (decide (s ∈ rs)); reflexivity. }
  assert (Evc : returns (heap w1) (signals (assign a x w1)) fn
                = returns (heap w) (signals (assign a x w)) fn).
  { change (heap w1) with (heap w). apply (returns_agree _ w fn _ _ Ht Hagree). }
  rewrite Evc in Hvc.
  exists w1, w2, out.
  split; [apply Hcomp|]. split; [rewrite Hc1; reflexivity|].
  split; [exact Hset|]. split; [rewrite Hheap; reflexivity|].
  split; [exact Hva|]. split; [exact Hvc|].
  split; [|split; [exact Htrace | exact Hruns]].
  rewrite <- Evc.
  intros JS' JP' rec.
  assert (Ht2 : reader w2 fn).
  { eapply reader_alive; [|exact Ht]. intros s Hs.
    eapply same_frame_alive; [exact F2|]. apply Hal1. exact Hs. }
  destruct (run_tracking w2 fn Ht2 w2 (same_values_refl _)) as (o & _ & Hrun & _).
  specialize (Hrun JS' JP' rec (trace w2)). rewrite with_trace_id in Hrun.
  eexists. rewrite Hrun. f_equal. rewrite Hheap.
  apply (returns_agree _ w fn); [exact Ht|].
  intros s Hs.
  assert (Hsc : s <> c).
  { unfold alive in Hs. destruct (signals w !! s) eqn:E; [|discriminate].
    apply lookup_lt_Some in E. subst c. lia. }
  destruct (decide (s = a)) as [->|Hsa].
  - rewrite Hva. cbn [signals assign with_signals].
    rewrite list_lookup_alter_eq, Ha1. reflexivity.
  - rewrite (Hrest s Hsa Hsc). cbn [signals assign with_signals].
    rewrite list_lookup_alter_ne by congruence. reflexivity.
Qed.

(** X20: a computed signal follows what it read.  After [c = computed(fn)]
    for a reader [fn], made outside any effect and any batch, a passing
    write to an instance that [fn] read (and that had no subscriber
    before) calls the recompute effect once, and when the write returns
    [c] holds what [fn] returns in the state the write left. *)
Theorem computed_follows_its_source JS JP w fn a sga x old r :
  reader w fn -> effectStack w = [] -> batchDepth w <= 0 ->
  In a (reads (heap w) (signals w) fn) ->
  signals w !! a = Some sga ->
  jsset_elements (subscribers sga) = [] ->
  strict_eq (value sga) x = false ->
  transformValue (options sga) x = inr old ->
  validateValue (options sga) x = inr r -> valid r = true ->
  handlers_tame w a (EvChange x old) ->
  exists N, forall fuel, (N <= fuel)%nat ->
    exists w1 w2 vc out,
      computed JP (exec JS JP fuel) fn w = Ok (length (signals w)) w1 /\
      set_value JS (exec JS JP fuel) a x w1 = Ok tt w2 /\
      value <$> signals w2 !! a = Some x /\
      value <$> signals w2 !! length (signals w) = Some vc /\
      (forall JS' JP' rec, exists w0, run JS' JP' rec fn w2 = Ok vc w0) /\
      trace w2 = trace w1 ++ out /\
      runs_of (length (effects w)) out = 1%nat.
Proof.
  intros Ht Hstack Hdepth Hin Ha Hel Hne Htr Hv Hr Hh.
  destruct (computed_then_write JS JP w fn a sga x old r) as (N & H); auto.
  exists N. intros fuel Hfuel.
  destruct (H fuel Hfuel) as (w1 & w2 & out & H1 & _ & H2 & _ & H3 & H4 & H5 & H6 & H7).
  exists w1, w2, (returns (heap w) (signals (assign a x w)) fn), out. auto 10.
Qed.

(** ** A computed signal that is disposed *)

Lemma run_tame_bind w p :
  tame w p -> effectStack w = [] ->
  forall JS JP rec t f,
    run JS JP rec (bind_prog p f) (with_trace t w)
      = run JS JP rec (f (returns (heap w) (signals w) p))
          (with_trace (t ++ output (heap w) (signals w) p) w).
Proof.
  intros H Hstack. induction H as [v|v k H IH|s k Hs Hk IH]; intros JS JP rec t f.
  - cbn. rewrite app_nil_r. reflexivity.
  - cbn [bind_prog run output returns]. unfold bindM, observe, modify. cbn [trace with_trace].
    change (with_trace (t ++ [ObsLog v]) (with_trace t w))
      with (with_trace (t ++ [ObsLog v]) w).
    rewrite IH, <- app_assoc. reflexivity.
  - unfold alive in Hs. destruct (signals w !! s) as [sg|] eqn:E; [|discriminate].
    destruct (disposed sg) eqn:Hd; [discriminate|].
    cbn [bind_prog run output returns]. rewrite E.
    unfold bindM at 1, get_value, bindM at 1, get_signal. cbn [signals with_trace].
    rewrite E, Hd. unfold bindM at 1, gets at 1. cbn [effectStack with_trace].
    rewrite Hstack. cbn [last]. unfold ret at 1. apply IH.
Qed.

(** The recompute effect of a disposed computed signal, called outside any
    effect: it evaluates [fn] and throws at the setter. *)
Lemma callEffect_disposed_computed JS JP n w e c sgc fn :
  effects w !! e = Some (computed_effect c fn) -> tame w fn -> effectStack w = [] ->
  signals w !! c = Some sgc -> disposed sgc = true ->
  forall t,
    callEffect (exec JS JP (S n)) e (with_trace t w)
      = Thrown (Error "Attempted to modify disposed resin")
          (with_trace (t ++ ObsRun e :: output (heap w) (signals w) fn) w).
Proof.
  intros He Hfn Hstack Hc Hd t.
  unfold callEffect, bindM at 1, gets at 1. cbn [effects with_trace]. rewrite He.
  unfold bindM at 1, observe, modify. cbn [trace with_trace].
  change (with_trace (t ++ [ObsRun e]) (with_trace t w))
    with (with_trace (t ++ [ObsRun e]) w).
  unfold bindM at 1. cbn [exec]. unfold computed_effect.
  rewrite (run_tame_bind w fn Hfn Hstack). cbn [run].
  unfold bindM at 1, set_value, bindM at 1, get_signal. cbn [signals with_trace].
  rewrite Hc, Hd. unfold throw. rewrite <- app_assoc. reflexivity.
Qed.

(** [forEach] over effects of which the first that is not tame throws, with
    the log of each call *)
Lemma each_raise_traced JS JP r w x bad badlog rest :
  (forall n t,
     callEffect (exec JS JP (S n)) bad (with_trace t w)
       = Thrown x (with_trace (t ++ ObsRun bad :: badlog) w)) ->
  effectStack w = [] ->
  forall fuel i pre,
    (length (read_set r w) - i < fuel)%nat ->
    jsset_elements (drop i (read_set r w)) = pre ++ bad :: rest ->
    (forall e, In e pre -> exists b, effects w !! e = Some b /\ tame w b) ->
    forall t,
      exec JS JP fuel (Each r i RunEffect) (with_trace t w)
        = Thrown x (with_trace (t ++ flat_map (effect_trace w) pre ++ ObsRun bad :: badlog) w).
Proof.
  intros Hbad Hstack.
  induction fuel as [|f IH]; intros i pre Hfuel Hel Hpre t; [lia|].
  cbn [exec]. unfold bindM at 1, forEach_from, bindM at 1, gets at 1.
  rewrite read_set_with_trace.
  destruct (read_set r w !! i) as [o|] eqn:E.
  - pose proof (lookup_lt_Some _ _ _ E) as Hlt.
    rewrite (drop_S _ _ _ E) in Hel.
    assert (Hf : (length (read_set r w) - S i < f)%nat) by lia.
    destruct o as [y|]; cbn [jsset_elements] in Hel.
    + destruct f as [|n]; [lia|].
      destruct pre as [|p pre]; cbn [app] in Hel; inversion Hel; subst.
      * cbn [apply_callback]. unfold bindM at 1. rewrite Hbad. reflexivity.
      * destruct (Hpre p (or_introl eq_refl)) as (b & Hb & Hbt).
        destruct (callEffect_traced JS JP n w p b Hb Hbt Hstack t) as (out & Hrun & ->).
        cbn [apply_callback]. unfold bindM at 1. rewrite Hrun.
        unfold bindM at 1.
        rewrite (IH (S i) pre Hf H1) by (intros e He; apply Hpre; right; exact He).
        cbn [flat_map]. rewrite <- !app_assoc. reflexivity.
    + unfold bindM at 1. rewrite (IH (S i) pre Hf Hel Hpre t). reflexivity.
  - apply lookup_ge_None in E. rewrite drop_ge in Hel by lia.
    destruct pre; discriminate.
Qed.

(** A passing write outside a batch to a source of a computed signal that
    has been disposed: the subscribers before the recompute effect are
    called, the recompute effect throws at the setter of the disposed
    instance, and the source reports that to its [error] handlers. *)
Lemma write_into_disposed_computed
  JS JP w a sga v old r c sgc fn pre effect rest :
  signals w !! a = Some sga -> disposed sga = false ->
  strict_eq (value sga) v = false ->
  transformValue (options sga) v = inr old ->
  validateValue (options sga) v = inr r -> valid r = true ->
  batchDepth w <= 0 -> effectStack w = [] ->
  jsset_elements (subscribers sga) = pre ++ effect :: rest ->
  (forall e, In e pre -> exists b, effects w !! e = Some b /\ tame w b) ->
  effects w !! effect = Some (computed_effect c fn) -> tame w fn ->
  signals w !! c = Some sgc -> disposed sgc = true ->
  handlers_tame w a
    (EvError (ResinError (error_message (options sga)) (options sga ≫= debugName)
                (Error "Attempted to modify disposed resin"))) ->
  exists N, forall fuel, (N <= fuel)%nat ->
    set_value JS (exec JS JP fuel) a v w
      = Ok tt
          (with_trace
             (trace w ++ flat_map (effect_trace (assign a v w)) pre ++
                ObsRun effect :: output (heap w) (signals (assign a v w)) fn ++
                ObsEmit a (EvError (ResinError (error_message (options sga))
                                      (options sga ≫= debugName)
                                      (Error "Attempted to modify disposed resin"))) ::
                flat_map
                  (handler_trace
                     (blamed a (ResinError (error_message (options sga))
                                  (options sga ≫= debugName)
                                  (Error "Attempted to modify disposed resin"))
                        (assign a v w))
                     (EvError (ResinError (error_message (options sga))
                                 (options sga ≫= debugName)
                                 (Error "Attempted to modify disposed resin"))))
                  (registered w a EError))
             (blamed a (ResinError (error_message (options sga))
                          (options sga ≫= debugName)
                          (Error "Attempted to modify disposed resin"))
                (assign a v w))).
Proof.
  intros Hs Hd Hne Ht Hv Hr Hdepth Hstack Hel Hpre He Hfn Hc Hdc Hh.
  set (x := Error "Attempted to modify disposed resin").
  set (report := ResinError (error_message (options sga)) (options sga ≫= debugName) x) in *.
  set (w1 := assign a v w).
  assert (F : same_frame w w1) by apply same_frame_assign.
  assert (Hs1 : signals w1 !! a = Some (with_value v sga)) by (apply assign_lookup; exact Hs).
  assert (Hset : read_set (Subscribers a) w1 = subscribers sga).
  { unfold read_set. rewrite Hs1. reflexivity. }
  set (w2 := blamed a report w1).
  assert (F2 : same_frame w w2).
  { eapply same_frame_trans; [exact F | apply same_frame_with_error]. }
  assert (Hs2 : signals w2 !! a = Some (with_error (Some report) (with_value v sga))).
  { cbn. rewrite list_lookup_alter_eq, list_lookup_alter_eq, Hs. reflexivity. }
  destruct (emitEvent_traced JS JP w2 a _ (EvError report) Hs2) as (N & HN).
  { eapply same_frame_handlers_tame; [exact F2 | exact Hh]. }
  { exact Hstack. }
  assert (Hcall : forall n t,
            callEffect (exec JS JP (S n)) effect (with_trace t w1)
              = Thrown x (with_trace (t ++ ObsRun effect :: output (heap w1) (signals w1) fn) w1)).
  { intros n t.
    destruct F as (Fe & _ & _ & _ & Fs).
    destruct (Fs c sgc Hc) as (sgc' & Hc' & Hdc' & _).
    apply (callEffect_disposed_computed JS JP n w1 effect c sgc' fn).
    - rewrite Fe. exact He.
    - eapply same_frame_tame; [apply same_frame_assign | exact Hfn].
    - exact Hstack.
    - exact Hc'.
    - congruence. }
  exists (N + S (length (subscribers sga)))%nat. intros fuel Hfuel.
  pose proof (each_raise_traced JS JP (Subscribers a) w1 x effect _ rest Hcall Hstack
                fuel 0%nat pre) as Hrun.
  rewrite drop_0, Hset in Hrun.
  specialize (Hrun ltac:(lia) Hel).
  specialize (Hrun (fun e He' =>
    match Hpre e He' with
    | ex_intro _ b (conj Hb Hbt) =>
        ex_intro _ b (conj (eq_trans (f_equal (fun l => l !! e) (proj1 F)) Hb)
                           (same_frame_tame w w1 b F Hbt))
    end) (trace w)).
  specialize (HN fuel ltac:(lia)). cbn [event_type] in HN.
  rewrite (registered_same_frame w w2 a EError F2) in HN by eauto.
  unfold set_value, set_value_try, bindM at 1, get_signal. rewrite Hs, Hd.
  unfold try_catch. rewrite Hne, Ht, Hv. unfold bindM at 1. cbn [lift ret].
  unfold bindM at 1. cbn [lift ret]. rewrite Hr. cbn [negb].
  unfold bindM at 1, modify_signal at 1, modify at 1.
  unfold notify, bindM at 1, get_signal. cbn [signals with_signals].
  rewrite list_lookup_alter_eq, Hs. cbn [fmap option_fmap option_map disposed with_value].
  rewrite Hd. unfold bindM at 1, gets. cbn [batchDepth with_signals].
  destruct (Z.ltb_spec 0 (batchDepth w)) as [|_]; [lia|].
  unfold bindM at 1, forEach, bindM at 1.
  change (with_signals (alter (with_value v) a (signals w)) w) with w1.
  rewrite <- (with_trace_id w1). change (trace w1) with (trace w).
  rewrite Hrun.
  unfold set_value_catch, createResinError. cbv zeta. fold x. fold report.
  unfold bindM at 1, modify_signal, modify.
  change (with_signals _ (with_trace ?t w1)) with (with_trace t w2).
  rewrite HN. rewrite <- !app_assoc. reflexivity.
Qed.

(** X12: disposing a computed signal does not unsubscribe its recompute
    effect.  [c = computed(fn); c.dispose(); a.value = v], run outside any
    effect and any batch, with [fn] a function that only reads live
    instances and logs and that reads [a], the other subscribers of [a] and
    its [error] handlers being of that kind too, and [v] a value that passes
    the checks of [a]: [computed] and [dispose] return normally, and after
    [dispose] the instance [c] is disposed while the recompute effect is
    still the last subscriber of [a].  The write to [a] then returns
    normally and stores [v]; it calls the other subscribers, then the
    recompute effect, which evaluates [fn] and throws
    ['Attempted to modify disposed resin']; so [a] gets that, wrapped, as
    its [error] property and emits it as an [error] event to its [error]
    handlers, in place of the [change] event.  The log of the write is
    just that. *)
Theorem disposed_computed_breaks_its_sources JS JP w fn a sga v old r :
  tame w fn -> effectStack w = [] -> batchDepth w <= 0 ->
  In a (reads (heap w) (signals w) fn) ->
  signals w !! a = Some sga ->
  strict_eq (value sga) v = false ->
  transformValue (options sga) v = inr old ->
  validateValue (options sga) v = inr r -> valid r = true ->
  effects_tame w (subscribers sga) ->
  handlers_tame w a
    (EvError (ResinError (error_message (options sga)) (options sga ≫= debugName)
                (Error "Attempted to modify disposed resin"))) ->
  exists N, forall fuel, (N <= fuel)%nat ->
    exists w1 w2 out,
      computed JP (exec JS JP fuel) fn w = Ok (length (signals w)) w1 /\
      dispose (exec JS JP fuel) (length (signals w)) w1 = Ok tt w2 /\
      disposed <$> signals w2 !! length (signals w) = Some true /\
      effects w2 !! length (effects w)
        = Some (computed_effect (length (signals w)) fn) /\
      jsset_elements <$> (subscribers <$> signals w2 !! a)
        = Some (jsset_elements (subscribers sga) ++ [length (effects w)]) /\
      set_value JS (exec JS JP fuel) a v w2
        = Ok tt
            (with_trace (trace w2 ++ out)
               (blamed a (ResinError (error_message (options sga))
                            (options sga ≫= debugName)
                            (Error "Attempted to modify disposed resin"))
                  (assign a v w2))) /\
      out = flat_map (effect_trace (assign a v w2)) (jsset_elements (subscribers sga)) ++
            ObsRun (length (effects w)) ::
            output (heap w2) (signals (assign a v w2)) fn ++
            ObsEmit a (EvError (ResinError (error_message (options sga))
                                  (options sga ≫= debugName)
                                  (Error "Attempted to modify disposed resin"))) ::
            flat_map
              (handler_trace
                 (blamed a (ResinError (error_message (options sga))
                              (options sga ≫= debugName)
                              (Error "Attempted to modify disposed resin"))
                    (assign a v w2))
                 (EvError (ResinError (error_message (options sga))
                             (options sga ≫= debugName)
                             (Error "Attempted to modify disposed resin"))))
              (registered w a EError) /\
      emits_of a EChange out = 0%nat.
Proof.
  intros Hfn Hstack Hdepth Hin Ha Hne Ht Hv Hr Hsubs Hh.
  pose proof (tame_reader w fn Hfn) as Hrd.
  set (c := length (signals w)). set (e := length (effects w)).
  set (v0 := returns (heap w) (signals w) fn).
  set (rs := reads (heap w) (signals w) fn).
  assert (Hda : disposed sga = false).
  { pose proof (reads_alive (heap w) w fn a Hrd Hin) as Hal. unfold alive in Hal.
    rewrite Ha in Hal. destruct (disposed sga); [discriminate | reflexivity]. }
  assert (Hlt : (a < c)%nat) by (eapply lookup_lt_Some; eauto).
  destruct (computed_reader JP w fn Hrd Hstack) as (out1 & out2 & _ & _ & Hcomp).
  fold c e v0 rs in Hcomp.
  set (w1 := with_trace (trace w ++ out1 ++ ObsRun e :: out2)
               (with_effects (effects w ++ [computed_effect c fn])
                  (with_microtasks (microtasks w ++ [c])
                     (with_signals (tracked [e] rs (signals w ++ [plain v0 [] [] None])) w))))
    in Hcomp.
  assert (Hc1 : signals w1 !! c = Some (plain v0 [] [] None)).
  { cbn [w1 signals with_trace with_effects with_microtasks with_signals].
    rewrite tracked_lookup.
    destruct (decide (c ∈ rs)) as [Hcin|_].
    - apply list_elem_of_In, (reads_valid (heap w) w fn c Hrd) in Hcin. subst c. lia.
    - rewrite lookup_app_r by (subst c; lia). subst c. rewrite Nat.sub_diag. reflexivity. }
  assert (Hlook1 : forall s, (s < c)%nat ->
            signals w1 !! s
            = (if decide (s ∈ rs) then add_subscriber e else id) <$> signals w !! s).
  { intros s Hs. cbn [w1 signals with_trace with_effects with_microtasks with_signals].
    rewrite tracked_lookup, lookup_app_l by exact Hs. reflexivity. }
  destruct (dispose_traced JS JP w1 c (plain v0 [] [] None) Hc1 eq_refl Hstack)
    as (Nd & Hdisp).
  { intros sg id h Hs Hassoc _. cbn [disposing signals with_signals] in Hs.
    rewrite list_lookup_alter_eq, Hc1 in Hs. inversion Hs; subst sg. discriminate Hassoc. }
  set (w2 := with_trace
               (trace w1 ++ ObsEmit c (EvDispose (value (plain v0 [] [] None))) ::
                  flat_map (handler_trace (disposing c w1)
                              (EvDispose (value (plain v0 [] [] None))))
                    (registered w1 c EDispose))
               (with_signals
                  (alter (with_eventHandlers []) c
                     (alter (fun sg => with_subscribers (jsset_clear (subscribers sg)) sg) c
                        (signals (disposing c w1))))
                  w1)) in Hdisp.
  assert (Hc2 : signals w2 !! c
                = Some (with_eventHandlers []
                          (with_subscribers (jsset_clear [])
                             (with_disposed true (plain v0 [] [] None))))).
  { cbn [w2 signals with_trace with_signals disposing].
    rewrite !list_lookup_alter_eq, Hc1. reflexivity. }
  assert (Hlook2 : forall s, (s < c)%nat ->
            signals w2 !! s
            = (if decide (s ∈ rs) then add_subscriber e else id) <$> signals w !! s).
  { intros s Hs. cbn [w2 signals with_trace with_signals disposing].
    rewrite !list_lookup_alter_ne by lia. apply Hlook1. exact Hs. }
  assert (Ha2 : signals w2 !! a = Some (add_subscriber e sga)).
  { rewrite (Hlook2 a Hlt), Ha. destruct (decide (a ∈ rs)) as [_|Hn]; [reflexivity|].
    exfalso. apply Hn, list_elem_of_In. exact Hin. }
  assert (Halive : forall s, alive w s = true -> alive w2 s = true).
  { intros s. unfold alive. destruct (signals w !! s) as [sg|] eqn:E; [|discriminate].
    rewrite (Hlook2 s) by (eapply lookup_lt_Some; eauto). rewrite E.
    destruct (decide (s ∈ rs)); cbn; auto. }
  assert (Hfresh : jsset_has e (subscribers sga) = false).
  { destruct (jsset_has e (subscribers sga)) eqn:E; [|reflexivity].
    apply jsset_has_In in E. destruct (Hsubs e E) as (body & Hb & _).
    apply lookup_lt_Some in Hb. subst e. lia. }
  assert (Hel : jsset_elements (subscribers (add_subscriber e sga))
                = jsset_elements (subscribers sga) ++ [e]).
  { cbn [add_subscriber subscribers with_subscribers].
    rewrite jsset_add_elements, Hfresh. reflexivity. }
  assert (He2 : effects w2 !! e = Some (computed_effect c fn)).
  { cbn [w2 w1 effects with_trace with_signals with_effects with_microtasks].
    rewrite lookup_app_r by (subst e; lia). subst e. rewrite Nat.sub_diag. reflexivity. }
  assert (Hreg : registered w2 a EError = registered w a EError).
  { unfold registered. rewrite Ha2, Ha. reflexivity. }
  destruct (write_into_disposed_computed JS JP w2 a (add_subscriber e sga) v old r c
              (with_eventHandlers []
                 (with_subscribers (jsset_clear [])
                    (with_disposed true (plain v0 [] [] None)))) fn
              (jsset_elements (subscribers sga)) e [] Ha2 Hda Hne Ht Hv Hr)
    as (Nw & Hwrite); auto.
  { intros e' He'. destruct (Hsubs e' He') as (body & Hb & Hbt).
    exists body. split.
    - cbn [w2 w1 effects with_trace with_signals with_effects with_microtasks].
      rewrite lookup_app_l by (eapply lookup_lt_Some; eauto). exact Hb.
    - eapply tame_alive; eauto. }
  { eapply tame_alive; eauto. }
  { eapply (handlers_tame_mono w w2); eauto.
    intros sg' Hs'. rewrite Ha2 in Hs'. inversion Hs'; subst sg'.
    exists sga. split; [exact Ha | reflexivity]. }
  exists (S (Nd + Nw)). intros fuel Hfuel.
  destruct fuel as [|n]; [lia|].
  specialize (Hdisp (S n) ltac:(lia) (trace w1)). rewrite with_trace_id in Hdisp.
  specialize (Hwrite (S n) ltac:(lia)).
  cbn [options add_subscriber with_subscribers] in Hwrite. rewrite Hreg in Hwrite.
  eexists w1, w2, _.
  split; [apply Hcomp|]. split; [exact Hdisp|].
  split; [rewrite Hc2; reflexivity|]. split; [exact He2|].
  split; [rewrite Ha2; cbn [fmap option_fmap option_map]; rewrite Hel; reflexivity|].
  split; [exact Hwrite|]. split; [reflexivity|].
  unfold emits_of. rewrite count_app. cbn [count is_emit].
  rewrite count_app. cbn [count is_emit event_type EventType_eqb].
  rewrite andb_false_r.
  rewrite !count_flat_map, count_output;
    solve [reflexivity | intros; apply effect_trace_no_emit
           | intros; apply handler_trace_no_emit].
Qed.

(** ** [select] *)

(** X21: [select(state, path)], called outside any effect and any batch on
    a live instance, returns a new instance that holds the value at [path]
    in what [state] holds; a passing write to [state] (which had no
    subscriber before) then leaves in it the value at [path] in what was
    written. *)
Theorem select_follows_its_state JS JP w state sg path x old r :
  signals w !! state = Some sg -> disposed sg = false ->
  jsset_elements (subscribers sg) = [] ->
  effectStack w = [] -> batchDepth w <= 0 ->
  strict_eq (value sg) x = false ->
  transformValue (options sg) x = inr old ->
  validateValue (options sg) x = inr r -> valid r = true ->
  handlers_tame w state (EvChange x old) ->
  exists N, forall fuel, (N <= fuel)%nat ->
    exists w1 w2,
      select JP (exec JS JP fuel) state path w = Ok (length (signals w)) w1 /\
      value <$> signals w1 !! length (signals w)
        = Some (getValueByPath (heap w) (value sg) path) /\
      set_value JS (exec JS JP fuel) state x w1 = Ok tt w2 /\
      value <$> signals w2 !! state = Some x /\
      value <$> signals w2 !! length (signals w)
        = Some (getValueByPath (heap w) x path).
Proof.
  intros Hs Hd Hel Hstack Hdepth Hne Htr Hv Hr Hh.
  set (fn := GetValue state (fun v => ReadHeap (fun h => Return (getValueByPath h v path)))).
  assert (Hfn : reader w fn).
  { subst fn. constructor.
    - unfold alive. rewrite Hs, Hd. reflexivity.
    - intros v. constructor. intros h. constructor. }
  destruct (computed_then_write JS JP w fn state sg x old r) as (N & H); auto.
  { subst fn. cbn [reads]. left. reflexivity. }
  exists N. intros fuel Hfuel.
  destruct (H fuel Hfuel) as (w1 & w2 & out & H1 & H2 & H3 & _ & H4 & H5 & _).
  exists w1, w2. split; [|split; [|split; [exact H3 | split; [exact H4|]]]].
  - unfold select. cbn [assoc]. rewrite Nat.eqb_refl. cbn [assoc default].
    unfold id. cbn [assoc]. unfold bindM. subst fn. rewrite H1. reflexivity.
  - rewrite H2. subst fn. cbn [returns]. rewrite Hs. reflexivity.
  - rewrite H5. subst fn. cbn [returns signals assign with_signals].
    rewrite list_lookup_alter_eq, Hs. reflexivity.
Qed.

(** ** A derivation whose [compute] throws *)

Lemma read_all_run JS JP rec w from :
  Forall (fun dep => alive w dep = true) from -> effectStack w = [] ->
  forall k t,
    run JS JP rec (read_all from k) (with_trace t w)
      = run JS JP rec (k (values_of (signals w) from)) (with_trace t w).
Proof.
  intros H Hstack. induction H as [|dep rest Hd _ IH]; intros k t;
    cbn [read_all values_of map]; [reflexivity|].
  cbn [run]. unfold bindM at 1, get_value, bindM at 1, get_signal.
  cbn [signals with_trace]. unfold alive in Hd.
  destruct (signals w !! dep) as [sg|] eqn:E; [|discriminate].
  destruct (disposed sg); [discriminate|].
  unfold bindM at 1, gets at 1. cbn [effectStack with_trace]. rewrite Hstack.
  cbn [last]. unfold ret at 1. rewrite IH. reflexivity.
Qed.

Lemma raising_bind_l w x p f : raising w x p -> raising w x (bind_prog p f).
Proof.
  intros H. induction H; cbn [bind_prog].
  - constructor.
  - constructor. auto.
  - eapply raising_GetValue; eauto.
  - eapply raising_read_disposed; eauto.
  - eapply raising_write_disposed; eauto.
Qed.

(** The effect of a derivation whose [compute] throws on what the sources
    hold: the [catch] keeps the failure inside. *)
Lemma callEffect_derive_failing JS JP n w e d from compute x :
  effects w !! e = Some (derive_effect d from compute) ->
  Forall (fun dep => alive w dep = true) from -> effectStack w = [] ->
  raising w x (compute (values_of (signals w) from)) ->
  quiet (callEffect (exec JS JP (S n)) e) w (effect_out e).
Proof.
  intros He Hfrom Hstack Hraise t.
  destruct (run_raising w x
              (bind_prog (compute (values_of (signals w) from))
                 (fun v => SetValue d v (Return VUndefined))))
    as (out & Hout & Hrun); [apply raising_bind_l; exact Hraise | exact Hstack |].
  exists (ObsRun e :: out). split; [|exists out; auto].
  unfold callEffect, bindM at 1, gets at 1. cbn [effects with_trace]. rewrite He.
  unfold bindM at 1, observe, modify. cbn [trace with_trace].
  change (with_trace (t ++ [ObsRun e]) (with_trace t w))
    with (with_trace (t ++ [ObsRun e]) w).
  unfold bindM at 1. cbn [exec]. unfold derive_effect. cbn [run].
  unfold bindM at 1, try_catch.
  rewrite (read_all_run JS JP (exec JS JP n) w from Hfrom Hstack).
  rewrite Hrun. cbn [run]. unfold ret. rewrite <- app_assoc. reflexivity.
Qed.

(** X22: the effect of a derived instance wraps [compute] in [try/catch].
    When a passing write to a source, outside a batch, makes [compute]
    throw, the write is not disturbed: every subscriber is called, [change]
    is emitted once and no [error] event at all, and no instance but the
    source changes, so the derived instance keeps the value it had. *)
Theorem derive_swallows_compute_failure JS JP w a sga v old r :
  signals w !! a = Some sga -> disposed sga = false ->
  strict_eq (value sga) v = false ->
  transformValue (options sga) v = inr old ->
  validateValue (options sga) v = inr r -> valid r = true ->
  batchDepth w <= 0 -> effectStack w = [] ->
  (forall e, In e (jsset_elements (subscribers sga)) ->
     (exists body, effects w !! e = Some body /\ tame w body) \/
     (exists d from compute x,
        effects w !! e = Some (derive_effect d from compute) /\
        Forall (fun dep => alive w dep = true) from /\
        raising (assign a v w) x (compute (values_of (signals (assign a v w)) from)))) ->
  handlers_tame w a (EvChange v old) ->
  exists N, forall fuel, (N <= fuel)%nat ->
    exists w' out,
      set_value JS (exec JS JP fuel) a v w = Ok tt w' /\
      signals w' = signals (assign a v w) /\
      trace w' = trace w ++ out /\
      emits_of a EChange out = 1%nat /\
      (forall s, emits_of s EError out = 0%nat) /\
      (forall e, runs_of e out
                 = length (filter (fun y => y = e) (jsset_elements (subscribers sga)))).
Proof.
  intros Hs Hd Hne Ht Hv Hr Hdepth Hstack Hsubs Hh.
  assert (Ew : written a sga v w = assign a v w).
  { unfold written. destruct (Z.ltb_spec 0 (batchDepth w)); [lia | reflexivity]. }
  destruct (passing_write_calm JS JP w a sga v old r) as (N & H); auto.
  { right. intros e Hin n. rewrite Ew.
    destruct (Hsubs e Hin) as [(body & Hb & Hbt)|(d & from & compute & x & Hb & Hfrom & Hx)].
    - apply (callEffect_tame JS JP n _ e body); [exact Hb | | exact Hstack].
      eapply same_frame_tame; [apply same_frame_assign | exact Hbt].
    - apply (callEffect_derive_failing JS JP n _ e d from compute x);
        [exact Hb | | exact Hstack | exact Hx].
      eapply Forall_impl; [exact Hfrom|]. intros dep.
      apply same_frame_alive, same_frame_assign. }
  exists N. intros fuel Hfuel.
  destruct (H fuel Hfuel (trace w)) as (sout & houts & Hrun & Hsout & Hq).
  rewrite with_trace_id in Hrun.
  pose proof (handler_out_obs _ _ _ Hq) as Hobs.
  destruct (Z.ltb_spec 0 (batchDepth w)) as [|_]; [lia|].
  destruct (persistValue_ok JS (written a sga v w) a (with_value v sga)
              (written_lookup a sga v w Hs)) as (ls & Hp).
  rewrite Hp in Hrun. rewrite Ew in Hrun.
  eexists _, _. split; [exact Hrun|]. split; [reflexivity|]. split; [reflexivity|].
  split; [|split].
  - unfold emits_of. rewrite count_app. cbn [count is_emit event_type EventType_eqb].
    rewrite Nat.eqb_refl. cbn [andb].
    pose proof (effects_out_no_emit a EChange _ sout Hsout) as R1.
    pose proof (emits_of_handler_obs a EChange _ Hobs) as R2.
    unfold emits_of in R1, R2. rewrite R1, R2. reflexivity.
  - intros s. unfold emits_of. rewrite count_app. cbn [count is_emit event_type EventType_eqb].
    rewrite andb_false_r.
    pose proof (effects_out_no_emit s EError _ sout Hsout) as R1.
    pose proof (emits_of_handler_obs s EError _ Hobs) as R2.
    unfold emits_of in R1, R2. rewrite R1, R2. reflexivity.
  - intros e. unfold runs_of. rewrite count_app. cbn [count is_run].
    pose proof (runs_of_handler_obs e _ Hobs) as R2. unfold runs_of in R2. rewrite R2.
    destruct Hsout as (outs & -> & Hqs).
    pose proof (effects_out_runs e _ outs Hqs) as R1. unfold runs_of in R1. rewrite R1.
    lia.
Qed.

(** ** A derivation follows its sources *)

Lemma run_read_all_bind JS JP rec from : forall (k : list jsval -> prog) f w,
  run JS JP rec (read_all from (fun vs => bind_prog (k vs) f)) w
    = run JS JP rec (bind_prog (read_all from k) f) w.
Proof.
  induction from as [|dep rest IH]; intros k f w; cbn [read_all bind_prog]; [reflexivity|].
  cbn [run]. unfold bindM. destruct (get_value dep w) as [v w'| |]; try reflexivity.
  apply (IH (fun vs => k (v :: vs))).
Qed.

Lemma reader_read_all w from : forall k,
  Forall (fun dep => alive w dep = true) from ->
  (forall vs, reader w (k vs)) ->
  reader w (read_all from k).
Proof.
  induction from as [|dep rest IH]; intros k Hfrom Hk; cbn [read_all]; [apply Hk|].
  inversion Hfrom as [|? ? Hd Hrest]; subst.
  constructor; [exact Hd|]. intros v. apply IH; auto.
Qed.

Lemma reads_read_all h w from : forall k,
  Forall (fun dep => alive w dep = true) from ->
  reads h (signals w) (read_all from k)
    = from ++ reads h (signals w) (k (values_of (signals w) from)).
Proof.
  induction from as [|dep rest IH]; intros k Hfrom; cbn [read_all values_of map app];
    [reflexivity|].
  inversion Hfrom as [|? ? Hd Hrest]; subst. cbn [reads]. unfold alive in Hd.
  destruct (signals w !! dep) as [sg|]; [|discriminate].
  rewrite (IH (fun vs => k (value sg :: vs)) Hrest). reflexivity.
Qed.

Lemma returns_read_all h w from : forall k,
  Forall (fun dep => alive w dep = true) from ->
  returns h (signals w) (read_all from k)
    = returns h (signals w) (k (values_of (signals w) from)).
Proof.
  induction from as [|dep rest IH]; intros k Hfrom; cbn [read_all values_of map];
    [reflexivity|].
  inversion Hfrom as [|? ? Hd Hrest]; subst. cbn [returns]. unfold alive in Hd.
  destruct (signals w !! dep) as [sg|]; [|discriminate].
  rewrite (IH (fun vs => k (value sg :: vs)) Hrest). reflexivity.
Qed.

Lemma read_sources_run w from :
  Forall (fun dep => alive w dep = true) from -> effectStack w = [] ->
  read_sources from w = Ok (values_of (signals w) from) w.
Proof.
  intros H Hstack. induction H as [|dep rest Hd _ IH]; cbn [read_sources values_of map];
    [reflexivity|].
  unfold bindM at 1, get_value, bindM at 1, get_signal. unfold alive in Hd.
  destruct (signals w !! dep) as [sg|] eqn:E; [|discriminate].
  destruct (disposed sg); [discriminate|].
  unfold bindM at 1, gets at 1. rewrite Hstack. cbn [last]. unfold ret at 1.
  unfold bindM at 1. rewrite IH. reflexivity.
Qed.

(** The effect of a derivation whose instance has neither subscriber nor
    handler, called outside any effect and any batch: it stores what
    [compute] returns for the values the sources hold and, if that differs,
    emits [change]. *)
Lemma callEffect_derive JS JP u e c from compute vc :
  effects u !! e = Some (derive_effect c from compute) ->
  Forall (fun dep => alive u dep = true) from ->
  (forall vs, reader u (compute vs)) ->
  effectStack u = [] -> batchDepth u <= 0 ->
  signals u !! c = Some (plain vc [] [] None) ->
  exists N out,
    Forall (fun o => is_log o = true) out /\
    forall n, (N <= n)%nat -> forall t,
      callEffect (exec JS JP (S n)) e (with_trace t u)
        = Ok tt (if strict_eq vc (returns (heap u) (signals u) (read_all from compute))
                 then with_trace (t ++ ObsRun e :: out) u
                 else with_trace
                        (t ++ ObsRun e :: out ++
                           [ObsEmit c (EvChange (returns (heap u) (signals u) (read_all from compute))
                                         (returns (heap u) (signals u) (read_all from compute)))])
                        (assign c (returns (heap u) (signals u) (read_all from compute)) u)).
Proof.
  intros He Hfrom Hk Hstack Hdepth Hc.
  set (fn := read_all from compute).
  assert (Ht : reader u fn) by (apply reader_read_all; auto).
  set (v2 := returns (heap u) (signals u) fn).
  destruct (run_tracking u fn Ht u (same_values_refl _)) as (out & Hout & _ & Hbind).
  assert (Eu : with_signals (tracked (effectStack u) (reads (heap u) (signals u) fn) (signals u)) u = u).
  { unfold tracked. rewrite Hstack. cbn [last]. apply with_signals_id. }
  rewrite Eu in Hbind. fold v2 in Hbind.
  destruct (store_recomputed JS JP u c vc v2 Hstack Hdepth Hc) as (N & Hset).
  exists N, out. split; [exact Hout|]. intros n Hn t.
  unfold callEffect, bindM at 1, gets at 1.
  cbn [effects with_trace]. rewrite He.
  unfold bindM at 1, observe, modify. cbn [trace with_trace].
  change (with_trace (t ++ [ObsRun e]) (with_trace t u))
    with (with_trace (t ++ [ObsRun e]) u).
  unfold bindM at 1. cbn [exec]. unfold derive_effect. cbn [run].
  unfold bindM at 1, try_catch.
  rewrite run_read_all_bind. fold fn. rewrite Hbind.
  cbn [run]. unfold bindM at 1. rewrite (Hset n Hn).
  unfold ret. cbv beta iota.
  destruct (strict_eq vc v2); rewrite <- !app_assoc; reflexivity.
Qed.

(** A passing write, outside any batch, to a source whose one subscriber is
    the effect of a derivation *)
Lemma write_rederives JS JP u a sga x old r e c from compute vc :
  signals u !! a = Some sga -> disposed sga = false ->
  strict_eq (value sga) x = false ->
  transformValue (options sga) x = inr old ->
  validateValue (options sga) x = inr r -> valid r = true ->
  batchDepth u <= 0 -> effectStack u = [] ->
  jsset_elements (subscribers sga) = [e] ->
  effects u !! e = Some (derive_effect c from compute) ->
  Forall (fun dep => alive u dep = true) from ->
  (forall vs, reader u (compute vs)) ->
  a <> c -> signals u !! c = Some (plain vc [] [] None) ->
  handlers_tame u a (EvChange x old) ->
  exists N, forall fuel, (N <= fuel)%nat ->
    exists w' out,
      set_value JS (exec JS JP fuel) a x u = Ok tt w' /\
      same_frame u w' /\ heap w' = heap u /\
      value <$> signals w' !! a = Some x /\
      value <$> signals w' !! c
        = Some (returns (heap u) (signals (assign a x u)) (read_all from compute)) /\
      (forall s, s <> a -> s <> c -> signals w' !! s = signals u !! s) /\
      trace w' = trace u ++ out /\
      runs_of e out = 1%nat /\ emits_of a EChange out = 1%nat /\
      emits_of c EChange out
        = (if strict_eq vc (returns (heap u) (signals (assign a x u)) (read_all from compute))
           then 0 else 1)%nat.
Proof.
  intros Ha Hd Hne Ht Hv Hr Hdepth Hstack Hel He Hfrom Hk Hac Hc Hh.
  apply (write_reruns_setter JS JP u a sga x old r e c vc); auto.
  apply (callEffect_derive JS JP (assign a x u) e c from compute vc); auto.
  - eapply Forall_impl; [exact Hfrom|]. intros dep.
    apply same_frame_alive, same_frame_assign.
  - intros vs. eapply reader_alive; [|apply Hk]. intros y.
    apply same_frame_alive, same_frame_assign.
  - cbn. rewrite list_lookup_alter_ne by exact Hac. exact Hc.
Qed.

(** The state [derive] leaves when the sources are live and [compute] is a
    reader, called outside any effect: a new instance holding what
    [compute] returned, a new effect subscribed to every source (and to
    what [compute] read), and an object holding a copy of the value. *)
Lemma derive_reader JP w from compute :
  Forall (fun dep => alive w dep = true) from ->
  (forall vs, reader w (compute vs)) -> effectStack w = [] ->
  exists out1 out2,
    Forall (fun o => is_log o = true) out1 /\
    Forall (fun o => is_log o = true) out2 /\
    forall JS n,
      derive JP (exec JS JP (S n)) from compute w
        = Ok {| d_value := returns (heap w) (signals w) (read_all from compute);
                d_loading := false; d_error := None;
                d_inner := length (signals w); d_from := from;
                d_effect := length (effects w) |}
            (with_trace (trace w ++ out1 ++ ObsRun (length (effects w)) :: out2)
               (with_effects
                  (effects w ++ [derive_effect (length (signals w)) from compute])
                  (with_microtasks (microtasks w ++ [length (signals w)])
                     (with_signals
                        (tracked [length (effects w)]
                           (reads (heap w) (signals w) (read_all from compute))
                           (signals w ++
                              [plain (returns (heap w) (signals w) (read_all from compute))
                                 [] [] None]))
                        w)))).
Proof.
  intros Hfrom Hk Hstack.
  set (fn := read_all from compute).
  assert (Ht : reader w fn) by (apply reader_read_all; auto).
  set (c := length (signals w)). set (e := length (effects w)).
  set (v := returns (heap w) (signals w) fn). set (rs := reads (heap w) (signals w) fn).
  set (vs := values_of (signals w) from).
  assert (Ev : returns (heap w) (signals w) (compute vs) = v).
  { subst v fn vs. symmetry. apply returns_read_all. exact Hfrom. }
  destruct (run_tracking w (compute vs) (Hk vs) w (same_values_refl _))
    as (out1 & Hout1 & Hrun1 & _).
  rewrite Ev in Hrun1.
  set (wb := fun t => with_effects (effects w ++ [derive_effect c from compute])
                 (with_microtasks (microtasks w ++ [c])
                    (with_signals (signals w ++ [plain v [] [] None]) (with_trace t w)))).
  set (wp := with_effectStack [e] (wb (trace w ++ out1))).
  destruct (run_tracking w fn Ht wp) as (out2 & Hout2 & _ & Hbind2).
  { cbn [signals wp wb with_effectStack with_effects with_microtasks with_signals with_trace].
    apply same_values_app. }
  change (heap wp) with (heap w) in Hbind2.
  exists out1, out2. split; [exact Hout1|]. split; [exact Hout2|]. intros JS n.
  unfold derive, bindM at 1. rewrite (read_sources_run w from Hfrom Hstack). fold vs.
  unfold bindM at 1. cbn [exec].
  specialize (Hrun1 JS JP (exec JS JP n) (trace w)). rewrite with_trace_id in Hrun1.
  rewrite Hrun1.
  assert (E1 : with_trace (trace w ++ out1)
                 (with_signals (tracked (effectStack w) (reads (heap w) (signals w) (compute vs))
                                  (signals w)) w)
               = with_trace (trace w ++ out1) w).
  { unfold tracked. rewrite Hstack. cbn [last]. rewrite with_signals_id. reflexivity. }
  rewrite E1. clear E1.
  unfold bindM at 1.
  rewrite (resin_keeps JP v None (with_trace (trace w ++ out1) w)) by reflexivity.
  cbn [effectStack with_trace]. rewrite Hstack. cbn [last].
  assert (Hnil : forall b : bool, (if b then ([] : jsset) else []) = [])
    by (intros []; reflexivity).
  rewrite Hnil.
  cbn [signals microtasks with_trace].
  unfold bindM at 1, new_effect, bindM at 1, gets at 1, bindM at 1, modify at 1.
  unfold ret at 1. cbn [effects with_signals with_microtasks with_trace].
  fold c e.
  unfold bindM at 1, watchEffect, bindM at 1, modify at 1.
  cbn [effectStack with_effects with_signals with_microtasks with_trace].
  rewrite Hstack. cbn [app].
  unfold bindM at 1, callEffect, bindM at 1, gets at 1.
  cbn [effects with_effectStack with_effects].
  assert (He : (effects w ++ [derive_effect c from compute]) !! e
               = Some (derive_effect c from compute)).
  { subst e. rewrite lookup_app_r by lia. rewrite Nat.sub_diag. reflexivity. }
  rewrite He.
  unfold bindM at 1, observe, modify.
  cbn [trace with_effectStack with_effects with_signals with_microtasks with_trace].
  unfold bindM at 1. cbn [exec].
  match goal with |- context [run JS JP (exec JS JP n) (derive_effect c from compute) ?x] =>
    change (run JS JP (exec JS JP n) (derive_effect c from compute) x)
      with (run JS JP (exec JS JP n) (derive_effect c from compute)
              (with_trace ((trace w ++ out1) ++ [ObsRun e]) wp))
  end.
  unfold derive_effect at 1. cbn [run]. unfold bindM at 1, try_catch.
  rewrite run_read_all_bind. fold fn. rewrite Hbind2. fold v rs.
  cbn [run]. unfold bindM at 1.
  set (wt := with_trace _ (with_signals _ wp)).
  assert (Hc : signals wt !! c = Some (plain v [] [] None)).
  { subst wt.
    cbn [signals effectStack wp wb with_effectStack with_effects with_microtasks
           with_signals with_trace].
    rewrite tracked_lookup.
    destruct (decide (c ∈ rs)) as [Hin|_].
    - apply list_elem_of_In, (reads_valid _ w fn c Ht) in Hin. subst c. lia.
    - rewrite lookup_app_r by (subst c; lia). subst c. rewrite Nat.sub_diag. reflexivity. }
  rewrite (write_same JS _ wt c (plain v [] [] None) v Hc eq_refl (strict_eq_refl v)).
  unfold ret at 1. cbv beta iota. unfold ret at 1. cbv beta iota.
  unfold ret at 1. cbv beta iota.
  unfold bindM at 1, get_value, bindM at 1, get_signal.
  set (wq := with_effectStack _ wt).
  assert (Hq : signals wq !! c = Some (plain v [] [] None)) by exact Hc.
  rewrite Hq. cbn [disposed plain].
  unfold bindM at 1, gets at 1.
  assert (Hsq : effectStack wq = []).
  { subst wq wt wp wb. cbn [effectStack with_effectStack with_trace with_signals removelast].
    reflexivity. }
  rewrite Hsq. cbn [last]. unfold ret at 1. cbn [value plain].
  unfold bindM at 1. rewrite Hq. cbn [disposed loading error plain]. unfold ret.
  f_equal.
  subst wq wt wp wb.
  apply world_ext;
    cbn [effectStack batchDepth pendingEffects signals handlerSets effects handlers heap
           localStorage microtasks trace removelast
           with_effectStack with_effects with_microtasks with_signals with_trace];
    try reflexivity.
  - symmetry. exact Hstack.
  - rewrite <- !app_assoc. reflexivity.
Qed.

(** X25: a derivation follows its sources.  [derive({from, compute})], called
    outside any effect and any batch with live sources and a [compute] that
    only reads, makes a new instance holding what [compute] returns for the
    values of the sources and subscribes one new effect to every source.  A
    passing write to a source (that had no subscriber before) then calls
    that effect once, and when the write returns the instance holds what
    [compute] returns for the values the sources hold now; [change] is
    emitted on it exactly when the two results differ. *)
Theorem derivation_follows_its_sources JS JP w from compute a sga x old r :
  Forall (fun dep => alive w dep = true) from ->
  (forall vs, reader w (compute vs)) ->
  effectStack w = [] -> batchDepth w <= 0 ->
  In a from ->
  signals w !! a = Some sga ->
  jsset_elements (subscribers sga) = [] ->
  strict_eq (value sga) x = false ->
  transformValue (options sga) x = inr old ->
  validateValue (options sga) x = inr r -> valid r = true ->
  handlers_tame w a (EvChange x old) ->
  exists N, forall fuel, (N <= fuel)%nat ->
    exists d w1 w2 v0 v1 out,
      derive JP (exec JS JP fuel) from compute w = Ok d w1 /\
      d_inner d = length (signals w) /\ d_effect d = length (effects w) /\
      (forall JS' JP' rec, exists w0,
         run JS' JP' rec (compute (values_of (signals w) from)) w = Ok v0 w0) /\
      value <$> signals w1 !! d_inner d = Some v0 /\
      (forall dep, In dep from ->
         exists sg1, signals w1 !! dep = Some sg1 /\
                     In (d_effect d) (jsset_elements (subscribers sg1))) /\
      set_value JS (exec JS JP fuel) a x w1 = Ok tt w2 /\
      value <$> signals w2 !! a = Some x /\
      value <$> signals w2 !! d_inner d = Some v1 /\
      (forall JS' JP' rec, exists w0,
         run JS' JP' rec (compute (values_of (signals w2) from)) w2 = Ok v1 w0) /\
      trace w2 = trace w1 ++ out /\
      runs_of (d_effect d) out = 1%nat /\
      emits_of (d_inner d) EChange out = (if strict_eq v0 v1 then 0 else 1)%nat.
Proof.
  intros Hfrom Hk Hstack Hdepth Hin Ha Hel Hne Htr Hv Hr Hh.
  set (fn := read_all from compute).
  assert (Ht : reader w fn) by (apply reader_read_all; auto).
  set (c := length (signals w)). set (e := length (effects w)).
  set (v := returns (heap w) (signals w) fn). set (rs := reads (heap w) (signals w) fn).
  destruct (derive_reader JP w from compute Hfrom Hk Hstack) as (out1 & out2 & _ & _ & Hder).
  fold fn c e v rs in Hder.
  set (w1 := with_trace (trace w ++ out1 ++ ObsRun e :: out2)
               (with_effects (effects w ++ [derive_effect c from compute])
                  (with_microtasks (microtasks w ++ [c])
                     (with_signals (tracked [e] rs (signals w ++ [plain v [] [] None])) w))))
    in *.
  assert (Hrs : forall dep, In dep from -> In dep rs).
  { intros dep Hd. subst rs fn. rewrite reads_read_all by exact Hfrom.
    apply in_or_app. left. exact Hd. }
  assert (Hlt : (a < c)%nat) by (apply (reads_valid (heap w) w fn a Ht), Hrs, Hin).
  assert (Halive : alive w a = true) by (apply (reads_alive (heap w) w fn a Ht), Hrs, Hin).
  assert (Hd : disposed sga = false).
  { unfold alive in Halive. rewrite Ha in Halive. destruct (disposed sga); auto; discriminate. }
  assert (Hsig1 : forall s, signals w1 !! s
            = (if decide (s ∈ rs) then add_subscriber e else id)
                <$> (signals w ++ [plain v [] [] None]) !! s).
  { intros s. cbn [signals w1 with_trace with_effects with_microtasks with_signals].
    apply tracked_lookup. }
  assert (Ha1 : signals w1 !! a = Some (add_subscriber e sga)).
  { rewrite Hsig1, lookup_app_l, Ha by exact Hlt.
    destruct (decide (a ∈ rs)) as [_|Hn]; [reflexivity|].
    exfalso. apply Hn, list_elem_of_In, Hrs, Hin. }
  assert (Hc1 : signals w1 !! c = Some (plain v [] [] None)).
  { rewrite Hsig1. destruct (decide (c ∈ rs)) as [Hcin|_].
    - apply list_elem_of_In, (reads_valid _ w fn c Ht) in Hcin. subst c. lia.
    - rewrite lookup_app_r by (subst c; lia). subst c. rewrite Nat.sub_diag. reflexivity. }
  assert (Hsame1 : same_values (signals w) (signals w1)).
  { cbn [signals w1 with_trace with_effects with_microtasks with_signals].
    eapply same_values_trans; [apply same_values_app | apply same_values_tracked]. }
  assert (Hal1 : forall s, alive w s = true -> alive w1 s = true).
  { intros s. apply same_values_alive. exact Hsame1. }
  destruct (write_rederives JS JP w1 a (add_subscriber e sga) x old r e c from compute v)
    as (N & H); auto.
  { cbn [subscribers add_subscriber with_subscribers]. rewrite jsset_add_elements.
    destruct (jsset_has e (subscribers sga)) eqn:E.
    - apply jsset_has_In in E. rewrite Hel in E. destruct E.
    - rewrite Hel. reflexivity. }
  { cbn [effects w1 with_trace with_effects]. subst e.
    rewrite lookup_app_r by lia. rewrite Nat.sub_diag. reflexivity. }
  { eapply Forall_impl; [exact Hfrom|]. exact Hal1. }
  { intros vs. eapply reader_alive; [exact Hal1 | apply Hk]. }
  { lia. }
  { apply (handlers_tame_mono w w1); auto.
    intros sg' Hs'. rewrite Ha1 in Hs'. inversion Hs'; subst sg'.
    exists sga. split; [exact Ha | reflexivity]. }
  fold fn in H.
  exists (S N). intros fuel Hfuel. destruct fuel as [|n]; [lia|].
  destruct (H (S n) ltac:(lia))
    as (w2 & out & Hset & F2 & Hheap & Hva & Hvc & Hrest & Htrace & Hruns & _ & Hemit).
  set (v1 := returns (heap w1) (signals (assign a x w1)) fn) in *.
  assert (Hal2 : forall s, alive w s = true -> alive w2 s = true).
  { intros s Hs. eapply same_frame_alive; [exact F2|]. apply Hal1. exact Hs. }
  assert (Hfrom2 : Forall (fun dep => alive w2 dep = true) from).
  { eapply Forall_impl; [exact Hfrom|]. exact Hal2. }
  assert (Ev1 : returns (heap w2) (signals w2) (compute (values_of (signals w2) from)) = v1).
  { rewrite <- (returns_read_all (heap w2) w2 from compute Hfrom2). fold fn.
    rewrite Hheap. subst v1. symmetry.
    apply (returns_agree _ w fn); [exact Ht|].
    intros s Hs.
    assert (Hsc : s <> c).
    { unfold alive in Hs. destruct (signals w !! s) eqn:E; [|discriminate].
      apply lookup_lt_Some in E. subst c. lia. }
    destruct (decide (s = a)) as [->|Hsa].
    - rewrite Hva. cbn [signals assign with_signals].
      rewrite list_lookup_alter_eq, Ha1. reflexivity.
    - rewrite (Hrest s Hsa Hsc). cbn [signals assign with_signals].
      rewrite list_lookup_alter_ne by congruence. reflexivity. }
  eexists _, w1, w2, v, v1, out.
  split; [apply Hder|]. cbn [d_inner d_effect].
  split; [reflexivity|]. split; [reflexivity|].
  split; [|split; [rewrite Hc1; reflexivity|split; [|split; [exact Hset|split; [exact Hva|
    split; [exact Hvc|split; [|split; [exact Htrace|split; [exact Hruns|exact Hemit]]]]]]]]].
  - intros JS' JP' rec.
    destruct (run_tracking w _ (Hk (values_of (signals w) from)) w (same_values_refl _))
      as (o & _ & Hrun & _).
    specialize (Hrun JS' JP' rec (trace w)). rewrite with_trace_id in Hrun.
    eexists. rewrite Hrun. f_equal. subst v fn. symmetry. apply returns_read_all. exact Hfrom.
  - intros dep Hdep.
    assert (Hdl : (dep < c)%nat) by (apply (reads_valid (heap w) w fn dep Ht), Hrs, Hdep).
    destruct (lookup_lt_is_Some_2 (signals w) dep Hdl) as (sg & Hsg).
    exists (add_subscriber e sg). split.
    + rewrite Hsig1, lookup_app_l, Hsg by exact Hdl.
      destruct (decide (dep ∈ rs)) as [_|Hn]; [reflexivity|].
      exfalso. apply Hn, list_elem_of_In, Hrs, Hdep.
    + cbn [subscribers add_subscriber with_subscribers]. apply jsset_add_In. left. reflexivity.
  - intros JS' JP' rec.
    assert (Hk2 : reader w2 (compute (values_of (signals w2) from))).
    { eapply reader_alive; [exact Hal2 | apply Hk]. }
    destruct (run_tracking w2 _ Hk2 w2 (same_values_refl _)) as (o & _ & Hrun & _).
    specialize (Hrun JS' JP' rec (trace w2)). rewrite with_trace_id in Hrun.
    eexists. rewrite Hrun. f_equal. exact Ev1.
Qed.

(** ** A batch and a computed signal *)

Lemma queued_single sg p e :
  jsset_elements (subscribers sg) = [e] -> jsset_elements p = [] ->
  jsset_elements (queued sg p) = [e].
Proof.
  intros Hs Hp. unfold queued. rewrite Hs. cbn [fold_left].
  rewrite jsset_add_elements.
  destruct (jsset_has e p) eqn:E.
  - apply jsset_has_In in E. rewrite Hp in E. destruct E.
  - rewrite Hp. reflexivity.
Qed.

(** X26: a write inside a batch defers the recomputation of a computed
    signal to the exit of the batch.  For [batch(() => { a.value = x })],
    outermost and outside any effect, where the write passes and the one
    subscriber of [a] is the recompute effect of the computed signal [c]:
    [change] is emitted on [a] and its handlers run first; the effect is
    called once, after them, when the batch exits, and the batch returns
    with [c] holding what [fn] returns for the new value, the pending set
    empty and the depth back at zero. *)
Theorem batched_write_recomputes_at_exit JS JP u a sga x old r e c fn vc :
  signals u !! a = Some sga -> disposed sga = false ->
  strict_eq (value sga) x = false ->
  transformValue (options sga) x = inr old ->
  validateValue (options sga) x = inr r -> valid r = true ->
  batchDepth u = 0 -> jsset_elements (pendingEffects u) = [] -> effectStack u = [] ->
  jsset_elements (subscribers sga) = [e] ->
  effects u !! e = Some (computed_effect c fn) -> reader u fn ->
  a <> c -> signals u !! c = Some (plain vc [] [] None) ->
  handlers_tame u a (EvChange x old) ->
  exists N, forall fuel, (N <= fuel)%nat ->
    exists w' hout mid,
      batch (exec JS JP fuel) (SetValue a x (Return VUndefined)) u = Ok tt w' /\
      value <$> signals w' !! a = Some x /\
      value <$> signals w' !! c = Some (returns (heap u) (signals (assign a x u)) fn) /\
      batchDepth w' = 0 /\ jsset_elements (pendingEffects w') = [] /\
      trace w' = trace u ++ ObsEmit a (EvChange x old) :: hout ++ ObsRun e :: mid /\
      Forall (fun o => handler_obs o = true) hout /\
      count (is_run e) mid = 0%nat.
Proof.
  intros Ha Hd Hne Ht Hv Hr Hdepth Hpend Hstack Hel He Hfn Hac Hc Hh.
  set (w0 := with_batchDepth (batchDepth u + 1) u).
  assert (F0 : same_frame u w0) by apply same_frame_with_batchDepth.
  destruct (write_in_batch JS JP w0 a sga x old r) as (N1 & ls1 & H1); auto.
  { cbn. lia. }
  { eapply same_frame_handlers_tame; eauto. }
  set (w1 := with_localStorage ls1
               (with_pendingEffects (queued sga (pendingEffects w0)) (assign a x w0))) in *.
  set (w3 := with_batchDepth (batchDepth w1 - 1) w1).
  assert (F3 : same_frame u w3).
  { eapply same_frame_trans; [exact F0|].
    eapply same_frame_trans; [apply same_frame_assign|].
    eapply same_frame_trans; [apply same_frame_with_pendingEffects|].
    eapply same_frame_trans; [apply same_frame_with_localStorage|].
    apply same_frame_with_batchDepth. }
  assert (Hc3 : signals w3 !! c = Some (plain vc [] [] None)).
  { cbn. rewrite list_lookup_alter_ne by exact Hac. exact Hc. }
  assert (Ha3 : signals w3 !! a = Some (with_value x sga)).
  { cbn. rewrite list_lookup_alter_eq, Ha. reflexivity. }
  assert (Hd3 : batchDepth w3 = 0) by (cbn; lia).
  set (v2 := returns (heap u) (signals (assign a x u)) fn).
  destruct (setter_call_outcome JS JP w3 e c vc v2 Hc3)
    as (Nc & u3 & mid & Hcall3 & _ & _ & Hdepth3 & Hpend3 & _ & Hvc3 & Hsame3 & Hruns & _).
  { apply (callEffect_computed JS JP w3 e c fn vc); auto.
    - eapply reader_alive; [|exact Hfn]. intros y. apply same_frame_alive. exact F3.
    - lia. }
  set (pending := queued sga (pendingEffects u)).
  assert (Hp3 : pendingEffects w3 = pending) by reflexivity.
  assert (Hpel : jsset_elements pending = [e]) by (apply queued_single; assumption).
  exists (S (S N1) + S Nc + S (S (length pending)))%nat.
  intros fuel Hfuel. destruct fuel as [|n]; [lia|].
  destruct (H1 n ltac:(lia) (trace u)) as (hout & Hrun1 & Hobs1).
  set (t2 := trace u ++ ObsEmit a (EvChange x old) :: hout) in *.
  assert (Hflush : exec JS JP (S n) (Each PendingEffects 0 RunEffect) (with_trace t2 w3)
                   = Ok VUndefined (with_trace (t2 ++ ObsRun e :: mid) u3)).
  { apply (each_single JS JP PendingEffects RunEffect e _ _ (S Nc)).
    - intros m Hm. destruct m as [|m]; [lia|]. cbn [apply_callback].
      apply Hcall3. lia.
    - cbn [read_set pendingEffects with_trace]. exact Hpend3.
    - rewrite drop_0. cbn [read_set pendingEffects with_trace]. rewrite Hp3. exact Hpel.
    - cbn [read_set pendingEffects with_trace]. rewrite Hp3. lia. }
  exists (with_pendingEffects (jsset_clear (pendingEffects u3))
            (with_trace (t2 ++ ObsRun e :: mid) u3)), hout, mid.
  split; [|split; [|split; [|split; [|split; [|split; [|split]]]]]].
  - unfold batch, bindM at 1, modify at 1. fold w0.
    unfold try_finally. unfold bindM at 1. cbn [exec run].
    unfold bindM at 1.
    rewrite <- (with_trace_id w0). change (trace w0) with (trace u).
    rewrite Hrun1. unfold ret at 1 2.
    unfold bindM at 1. unfold bindM at 1, modify at 1.
    unfold bindM at 1, gets at 1.
    change (batchDepth (with_batchDepth _ _)) with (batchDepth u + 1 - 1).
    replace (batchDepth u + 1 - 1 =? 0) with true by (symmetry; apply Z.eqb_eq; lia).
    unfold bindM at 1, forEach, bindM at 1.
    change (with_batchDepth _ (with_trace _ _)) with (with_trace t2 w3).
    cbn [exec] in Hflush. rewrite Hflush. reflexivity.
  - cbn [signals with_pendingEffects with_trace].
    rewrite Hsame3 by exact Hac. rewrite Ha3. reflexivity.
  - cbn [signals with_pendingEffects with_trace]. exact Hvc3.
  - cbn [batchDepth with_pendingEffects with_trace]. rewrite Hdepth3. exact Hd3.
  - cbn [pendingEffects with_pendingEffects]. apply jsset_clear_elements.
  - cbn [trace with_pendingEffects with_trace]. unfold t2. rewrite <- app_assoc. reflexivity.
  - exact Hobs1.
  - exact Hruns.
Qed.

(** ** Handlers that throw *)

(** A passing write, batch open or not, up to [emitEvent('change', ...)] *)
Lemma passing_write_upto_emit JS JP w s sg v old r :
  signals w !! s = Some sg ->
  disposed sg = false ->
  strict_eq (value sg) v = false ->
  transformValue (options sg) v = inr old ->
  validateValue (options sg) v = inr r -> valid r = true ->
  effectStack w = [] ->
  (0 < batchDepth w \/
   forall e, In e (jsset_elements (subscribers sg)) ->
     forall n, quiet (callEffect (exec JS JP (S n)) e) (written s sg v w) (effect_out e)) ->
  exists N, forall fuel, (N <= fuel)%nat ->
  forall t, exists sout,
    set_value JS (exec JS JP fuel) s v (with_trace t w)
      = try_catch (emitEvent (exec JS JP fuel) s (EvChange v old) ;; persistValue JS s)
          (set_value_catch (exec JS JP fuel) s sg)
          (with_trace (t ++ sout) (written s sg v w)) /\
    effects_out (if 0 <? batchDepth w then [] else jsset_elements (subscribers sg)) sout.
Proof.
  intros Hs Hd Hne Ht Hv Hr Hstack He.
  set (w1 := written s sg v w).
  assert (Hs1 : signals w1 !! s = Some (with_value v sg)).
  { subst w1. unfold written. destruct (0 <? batchDepth w); apply assign_lookup; exact Hs. }
  destruct (Z.ltb_spec 0 (batchDepth w)) as [Hdepth|Hdepth].
  - exists 0%nat. intros fuel _ t.
    exists []. split; [|exists []; split; [reflexivity | constructor]].
    rewrite (write_in_batch_reaches_emit JS _ (with_trace t w) s sg v old r) by assumption.
    rewrite app_nil_r. subst w1. unfold written.
    destruct (Z.ltb_spec 0 (batchDepth w)) as [_|]; [|lia]. reflexivity.
  - assert (Hset : read_set (Subscribers s) w1 = subscribers sg).
    { unfold read_set. rewrite Hs1. reflexivity. }
    destruct He as [He|He]; [lia|].
    exists (S (S (length (subscribers sg)))). intros fuel Hfuel t.
    destruct (each_quiet JS JP effect_out (Subscribers s) RunEffect w1 fuel 0%nat)
      with (t := t) as (outs & Hsubs & Hq).
    { rewrite Hset. lia. }
    { intros e Hin n. rewrite drop_0, Hset in Hin.
      cbn [apply_callback]. apply He. exact Hin. }
    rewrite drop_0, Hset in Hq.
    exists (concat outs). split; [|exists outs; auto].
    assert (Ew : w1 = assign s v w).
    { subst w1. unfold written. destruct (Z.ltb_spec 0 (batchDepth w)); [lia | reflexivity]. }
    unfold set_value, set_value_try, bindM at 1, get_signal. cbn [signals with_trace]. rewrite Hs, Hd.
    unfold try_catch. rewrite Hne, Ht, Hv. unfold bindM at 1. cbn [lift ret].
    unfold bindM at 1. cbn [lift ret]. rewrite Hr. cbn [negb].
    unfold bindM at 1, modify_signal, modify. cbn [signals with_trace].
    unfold notify, bindM at 1, get_signal. cbn [signals with_signals].
    rewrite list_lookup_alter_eq, Hs. cbn [fmap option_fmap option_map disposed with_value].
    rewrite Hd. unfold bindM at 1, gets. cbn [batchDepth with_signals with_trace].
    destruct (Z.ltb_spec 0 (batchDepth w)) as [|_]; [lia|].
    unfold bindM at 1, forEach, bindM at 1.
    change (with_signals _ (with_trace t w)) with (with_trace t (assign s v w)).
    rewrite <- Ew. rewrite Hsubs. unfold ret at 1.
    unfold bindM at 1, get_signal. cbn [signals with_trace]. rewrite Hs1.
    cbn [value with_value]. reflexivity.
Qed.

Lemma callHandler_raising JS JP n w h f ev x :
  handlers w !! h = Some f -> raising w x (f ev) -> effectStack w = [] ->
  forall t, exists logs,
    callHandler (exec JS JP (S n)) h ev (with_trace t w)
      = Thrown x (with_trace (t ++ ObsHandle h ev :: logs) w) /\
    Forall (fun o => is_log o = true) logs.
Proof.
  intros Hh Hr Hstack t.
  destruct (run_raising w x (f ev) Hr Hstack) as (out & Hout & Hrun).
  specialize (Hrun JS JP (exec JS JP n) (t ++ [ObsHandle h ev])).
  exists out. split; [|exact Hout].
  unfold callHandler, bindM at 1, gets at 1. cbn [handlers with_trace]. rewrite Hh.
  unfold bindM at 1, observe, modify. cbn [trace with_trace].
  change (with_trace (t ++ [ObsHandle h ev]) (with_trace t w))
    with (with_trace (t ++ [ObsHandle h ev]) w).
  unfold bindM at 1. cbn [exec]. rewrite Hrun, <- app_assoc. reflexivity.
Qed.

(** The function [emitEvent] gives to [forEach], on a handler that throws
    [x]: the [catch] stores [x] as the error of the instance and emits
    [error], whose handlers are called in order. *)
Lemma guarded_handler_raising JS JP w s sg h f ev x :
  signals w !! s = Some sg ->
  handlers w !! h = Some f -> raising w x (f ev) -> effectStack w = [] ->
  handlers_tame w s (EvError x) ->
  exists N, forall n, (N <= n)%nat -> forall t, exists logs eouts,
    guarded_handler (exec JS JP (S n)) s ev h (with_trace t w)
      = Ok tt (with_trace
                 (t ++ ObsHandle h ev :: logs ++ ObsEmit s (EvError x) :: concat eouts)
                 (with_signals (alter (with_error (Some x)) s (signals w)) w)) /\
    Forall (fun o => is_log o = true) logs /\
    Forall2 (handler_out (EvError x)) (registered w s EError) eouts.
Proof.
  intros Hs Hh Hr Hstack Htame.
  set (w' := with_signals (alter (with_error (Some x)) s (signals w)) w).
  assert (F : same_frame w w') by apply same_frame_with_error.
  assert (Hs' : signals w' !! s = Some (with_error (Some x) sg)).
  { cbn. rewrite list_lookup_alter_eq, Hs. reflexivity. }
  destruct (emitEvent_in_order JS JP w' s (with_error (Some x) sg) (EvError x) Hs')
    as (N & HN).
  { eapply same_frame_handlers_tame; eauto. }
  { exact Hstack. }
  exists N. intros n Hn t.
  destruct (callHandler_raising JS JP n w h f ev x Hh Hr Hstack t) as (logs & Hrun & Hlogs).
  destruct (HN n Hn (t ++ ObsHandle h ev :: logs)) as (eouts & Hemit & Hq).
  exists logs, eouts. split; [|split; [exact Hlogs|]].
  - unfold guarded_handler, try_catch. rewrite Hrun.
    unfold bindM at 1, modify_signal, modify. cbn [signals with_trace].
    change (with_signals (alter (with_error (Some x)) s (signals w))
              (with_trace (t ++ ObsHandle h ev :: logs) w))
      with (with_trace (t ++ ObsHandle h ev :: logs) w').
    unfold bindM at 1. cbn [exec]. unfold bindM at 1. rewrite Hemit.
    unfold ret. rewrite <- app_assoc. reflexivity.
  - cbn [event_type] in Hq.
    rewrite (registered_same_frame w w' s EError F) in Hq by eauto. exact Hq.
Qed.

(** [forEach] over handlers of which one throws: the ones before it and
    the ones after it are all called. *)
Lemma each_handler_raises JS JP w s sg id ev x bad f rest N0 :
  signals w !! s = Some sg ->
  handlers w !! bad = Some f -> effectStack w = [] ->
  (forall n, (N0 <= n)%nat -> forall t, exists logs eouts,
     guarded_handler (exec JS JP (S n)) s ev bad (with_trace t w)
       = Ok tt (with_trace
                  (t ++ ObsHandle bad ev :: logs ++ ObsEmit s (EvError x) :: concat eouts)
                  (with_signals (alter (with_error (Some x)) s (signals w)) w)) /\
     Forall (fun o => is_log o = true) logs /\
     Forall2 (handler_out (EvError x)) (registered w s EError) eouts) ->
  (forall h, In h rest -> exists g, handlers w !! h = Some g /\ tame w (g ev)) ->
  forall fuel i pre,
    (N0 + (length (read_set (Handlers id) w) - i) + 1 < fuel)%nat ->
    jsset_elements (drop i (read_set (Handlers id) w)) = pre ++ bad :: rest ->
    (forall h, In h pre -> exists g, handlers w !! h = Some g /\ tame w (g ev)) ->
    forall t, exists outs1 logs eouts outs2,
      exec JS JP fuel (Each (Handlers id) i (HandleEvent s ev)) (with_trace t w)
        = Ok VUndefined
            (with_trace
               (t ++ concat outs1 ++ ObsHandle bad ev :: logs ++
                  ObsEmit s (EvError x) :: concat eouts ++ concat outs2)
               (with_signals (alter (with_error (Some x)) s (signals w)) w)) /\
      Forall2 (handler_out ev) pre outs1 /\
      Forall (fun o => is_log o = true) logs /\
      Forall2 (handler_out (EvError x)) (registered w s EError) eouts /\
      Forall2 (handler_out ev) rest outs2.
Proof.
  intros Hs Hbad Hstack Hguard Hrest.
  set (w' := with_signals (alter (with_error (Some x)) s (signals w)) w).
  assert (F : same_frame w w') by apply same_frame_with_error.
  assert (Hset : read_set (Handlers id) w' = read_set (Handlers id) w) by reflexivity.
  induction fuel as [|fu IH]; intros i pre Hfuel Hel Hpre t; [lia|].
  cbn [exec]. unfold bindM at 1, forEach_from, bindM at 1, gets at 1.
  rewrite read_set_with_trace.
  destruct (read_set (Handlers id) w !! i) as [o|] eqn:E.
  - pose proof (lookup_lt_Some _ _ _ E) as Hlt.
    rewrite (drop_S _ _ _ E) in Hel.
    destruct o as [y|]; cbn [jsset_elements] in Hel.
    + destruct fu as [|n]; [lia|].
      destruct pre as [|p pre]; cbn [app] in Hel; injection Hel as Hy H1; subst y.
      * destruct (Hguard n ltac:(lia) t) as (logs & eouts & Hrun & Hlogs & Hq).
        destruct (each_quiet JS JP (handler_out ev) (Handlers id) (HandleEvent s ev) w'
                    (S n) (S i))
          with (t := t ++ ObsHandle bad ev :: logs ++ ObsEmit s (EvError x) :: concat eouts)
          as (outs2 & Hrun2 & Hq2).
        { rewrite Hset. lia. }
        { intros h Hin m.
          assert (Hin' : In h rest) by (rewrite <- H1; exact Hin).
          destruct (Hrest h Hin') as (g & Hg & Hgt).
          cbn [apply_callback]. eapply guarded_handler_tame.
          - exact Hg.
          - eapply same_frame_tame; eauto.
          - exact Hstack. }
        assert (Hq2' : Forall2 (handler_out ev) rest outs2) by (rewrite <- H1; exact Hq2).
        exists [], logs, eouts, outs2. split; [|split; [constructor | auto]].
        cbn [apply_callback]. unfold bindM at 1. rewrite Hrun.
        unfold bindM at 1. fold w'. rewrite Hrun2. cbn [concat app].
        unfold ret. rewrite <- !app_assoc. cbn [app]. rewrite <- !app_assoc. reflexivity.
      * destruct (Hpre p (or_introl eq_refl)) as (g & Hg & Hgt).
        destruct (guarded_handler_tame JS JP n w s ev p g Hg Hgt Hstack t) as (out & Hrun & Hq).
        destruct (IH (S i) pre) with (t := t ++ out)
          as (outs1 & logs & eouts & outs2 & Hrun2 & Hq1 & Hl & Hqe & Hq2).
        { lia. }
        { exact H1. }
        { intros h Hh. apply Hpre. right. exact Hh. }
        exists (out :: outs1), logs, eouts, outs2.
        split; [|split; [constructor; auto | auto]].
        cbn [apply_callback]. unfold bindM at 1. rewrite Hrun.
        unfold bindM at 1. rewrite Hrun2. cbn [concat].
        rewrite <- !app_assoc. reflexivity.
    + destruct (IH (S i) pre) with (t := t)
        as (outs1 & logs & eouts & outs2 & Hrun2 & Hq1 & Hl & Hqe & Hq2).
      { lia. }
      { exact Hel. }
      { exact Hpre. }
      exists outs1, logs, eouts, outs2. split; [|auto].
      unfold bindM at 1. rewrite Hrun2. reflexivity.
  - apply lookup_ge_None in E. rewrite drop_ge in Hel by lia.
    destruct pre; discriminate.
Qed.

(** X27: a [change] handler that throws does not stop the dispatch.  On a
    passing write whose [change] handlers are [pre], then [bad], then
    [rest], where [bad] throws [x] and the others (and the [error]
    handlers) only read and log: the write returns normally with the value
    stored and [x] as the error of the instance; the handlers of [pre] are
    called, then [bad], then [error] is emitted with [x] and every [error]
    handler is called, then the handlers of [rest] are called all the
    same. *)
Theorem throwing_handler_is_isolated JS JP w s sg v old r x pre bad f rest :
  signals w !! s = Some sg -> disposed sg = false ->
  strict_eq (value sg) v = false ->
  transformValue (options sg) v = inr old ->
  validateValue (options sg) v = inr r -> valid r = true ->
  effectStack w = [] ->
  (0 < batchDepth w \/ effects_tame w (subscribers sg)) ->
  registered w s EChange = pre ++ bad :: rest ->
  (forall h, In h (pre ++ rest) ->
     exists g, handlers w !! h = Some g /\ tame w (g (EvChange v old))) ->
  handlers w !! bad = Some f -> raising (assign s v w) x (f (EvChange v old)) ->
  handlers_tame w s (EvError x) ->
  exists N, forall fuel, (N <= fuel)%nat ->
    exists w' sout outs1 logs eouts outs2,
      set_value JS (exec JS JP fuel) s v w = Ok tt w' /\
      value <$> signals w' !! s = Some v /\
      error <$> signals w' !! s = Some (Some x) /\
      trace w' = trace w ++ sout ++ ObsEmit s (EvChange v old) :: concat outs1 ++
                   ObsHandle bad (EvChange v old) :: logs ++
                   ObsEmit s (EvError x) :: concat eouts ++ concat outs2 /\
      effects_out (if 0 <? batchDepth w then [] else jsset_elements (subscribers sg)) sout /\
      Forall2 (handler_out (EvChange v old)) pre outs1 /\
      Forall (fun o => is_log o = true) logs /\
      Forall2 (handler_out (EvError x)) (registered w s EError) eouts /\
      Forall2 (handler_out (EvChange v old)) rest outs2.
Proof.
  intros Hs Hd Hne Ht Hv Hr Hstack He Hreg Hothers Hbad Hraise Herr.
  set (ch := EvChange v old).
  set (w1 := written s sg v w).
  assert (F : same_frame w w1) by apply same_frame_written.
  assert (Hs1 : signals w1 !! s = Some (with_value v sg)).
  { subst w1. unfold written. destruct (0 <? batchDepth w); apply assign_lookup; exact Hs. }
  assert (Hstack1 : effectStack w1 = []).
  { subst w1. unfold written. destruct (0 <? batchDepth w); exact Hstack. }
  assert (Hh1 : handlers w1 = handlers w).
  { subst w1. unfold written. destruct (0 <? batchDepth w); reflexivity. }
  assert (Hsets1 : forall id, read_set (Handlers id) w1 = read_set (Handlers id) w).
  { intros id. subst w1. unfold written. destruct (0 <? batchDepth w); reflexivity. }
  assert (Hid : exists id, assoc EventType_eqb EChange (eventHandlers sg) = Some id /\
                           jsset_elements (read_set (Handlers id) w) = pre ++ bad :: rest).
  { unfold registered in Hreg. rewrite Hs in Hreg.
    destruct (assoc EventType_eqb EChange (eventHandlers sg)) as [id|]; [eauto|].
    destruct pre; discriminate. }
  destruct Hid as (id & Hid & Hel).
  assert (Hraise1 : raising w1 x (f ch)).
  { eapply raising_signals; [|exact Hraise].
    subst w1. unfold written. destruct (0 <? batchDepth w); reflexivity. }
  destruct (guarded_handler_raising JS JP w1 s (with_value v sg) bad f ch x) as (N0 & Hguard);
    auto.
  { rewrite Hh1. exact Hbad. }
  { eapply same_frame_handlers_tame; eauto. }
  destruct (passing_write_upto_emit JS JP w s sg v old r) as (N1 & Hwrite); auto.
  { destruct He as [He|He]; [left; exact He | right].
    intros e Hin n.
    destruct (same_frame_effects_tame w _ _ F He e Hin) as (body & Hb & Hbt).
    eapply callEffect_tame; eauto. }
  set (w2 := with_signals (alter (with_error (Some x)) s (signals w1)) w1).
  assert (Hs2 : signals w2 !! s = Some (with_error (Some x) (with_value v sg))).
  { cbn. rewrite list_lookup_alter_eq, Hs1. reflexivity. }
  destruct (persistValue_ok JS w2 s _ Hs2) as (ls & Hp).
  exists (N0 + N1 + length (read_set (Handlers id) w) + 3)%nat. intros fuel Hfuel.
  destruct (Hwrite fuel ltac:(lia) (trace w)) as (sout & Hset & Hsout).
  rewrite with_trace_id in Hset.
  destruct (each_handler_raises JS JP w1 s (with_value v sg) id ch x bad f rest N0)
    with (fuel := fuel) (i := 0%nat) (pre := pre) (t := (trace w ++ sout) ++ [ObsEmit s ch])
    as (outs1 & logs & eouts & outs2 & Heach & Hq1 & Hlogs & Hqe & Hq2); auto.
  { rewrite Hh1. exact Hbad. }
  { intros h Hin. destruct (Hothers h) as (g & Hg & Hgt).
    - apply in_or_app. right. exact Hin.
    - exists g. split; [rewrite Hh1; exact Hg | eapply same_frame_tame; eauto]. }
  { rewrite Hsets1. lia. }
  { rewrite drop_0, Hsets1. exact Hel. }
  { intros h Hin. destruct (Hothers h) as (g & Hg & Hgt).
    - apply in_or_app. left. exact Hin.
    - exists g. split; [rewrite Hh1; exact Hg | eapply same_frame_tame; eauto]. }
  fold w2 in Heach.
  eexists _, sout, outs1, logs, eouts, outs2.
  split; [|split; [|split; [|split; [|split; [exact Hsout | split; [exact Hq1 |
    split; [exact Hlogs | split; [|exact Hq2]]]]]]]].
  - rewrite Hset. fold w1.
    unfold try_catch, bindM at 1, emitEvent, bindM at 1, observe, modify.
    cbn [trace with_trace].
    change (with_trace ((trace w ++ sout) ++ [ObsEmit s (EvChange v old)])
              (with_trace (trace w ++ sout) w1))
      with (with_trace ((trace w ++ sout) ++ [ObsEmit s ch]) w1).
    unfold bindM at 1, get_signal. cbn [signals with_trace]. rewrite Hs1.
    cbn [event_type eventHandlers with_value]. rewrite Hid.
    unfold forEach, bindM at 1. fold ch. rewrite Heach.
    unfold ret at 1. cbv beta iota. rewrite Hp. reflexivity.
  - cbn [signals with_trace with_localStorage]. rewrite Hs2. reflexivity.
  - cbn [signals with_trace with_localStorage]. rewrite Hs2. reflexivity.
  - cbn [trace with_trace]. rewrite <- !app_assoc. reflexivity.
  - rewrite (registered_same_frame w w1 s EError F) in Hqe by eauto. exact Hqe.
Qed.

(** ** Arrays and Maps created inside an effect *)

(** X24: [resin] hands an array or a Map to [enhanceArray] or [enhanceMap],
    which read [baseResin.value] through the getter.  Made while an effect
    is running, such an instance therefore starts with that effect as a
    subscriber; an instance made from any other value starts with none. *)
Theorem collection_subscribes_running_effect JP init opts w effect :
  opts ≫= persist = None ->
  last (effectStack w) = Some effect ->
  exists w',
    resin JP init opts w = Ok (length (signals w)) w' /\
    signals w' !! length (signals w)
      = Some (plain init
                (if isArray (heap w) init || isMap (heap w) init
                 then [Some effect] else [])
                [] opts) /\
    effectStack w' = effectStack w.
Proof.
  intros Hp Htop.
  assert (Hres : restore JP init opts w = Ok init w).
  { unfold restore. rewrite Hp. reflexivity. }
  eexists. split; [|split].
  - apply (resin_keeps JP init opts w Hres).
  - cbn [signals with_signals]. rewrite lookup_app_r by lia.
    rewrite Nat.sub_diag, Htop. reflexivity.
  - reflexivity.
Qed.

(** ** The further theorems at concrete states *)

Ltac solve_reader :=
  repeat first
    [ apply reader_Return
    | apply reader_Log
    | apply reader_GetValue; [reflexivity | intros ?; cbn beta]
    | apply reader_ReadHeap; intros ?; cbn beta
    | match goal with |- reader _ (if ?b then _ else _) => destruct b end ].

Lemma on_then_unsubscribe_witness :
  exists w1 w2,
    on 0%nat EChange 0%nat world_rejecting = Ok tt w1 /\
    registered w1 0%nat EChange =
      (if decide (0%nat ∈ registered world_rejecting 0%nat EChange)
       then registered world_rejecting 0%nat EChange
       else registered world_rejecting 0%nat EChange ++ [0%nat]) /\
    unsubscribe 0%nat EChange 0%nat w1 = Ok tt w2 /\
    registered w2 0%nat EChange
      = filter (fun x => x <> 0%nat) (registered world_rejecting 0%nat EChange).
Proof.
  apply (unsubscribe_undoes_on 0%nat EChange 0%nat world_rejecting).
  - eexists. reflexivity.
  - intros sg id Hs Ha. cbn in Hs. injection Hs as <-. cbn in Ha. injection Ha as <-.
    cbn. lia.
Defined.

Lemma dispose_witness :
  exists N, forall fuel, (N <= fuel)%nat ->
    exists w1 sg1,
      dispose (exec no_stringify no_parse fuel) 0%nat world_leaving = Ok tt w1 /\
      signals w1 !! 0%nat = Some sg1 /\
      disposed sg1 = true /\ value sg1 = VNum 4 /\
      jsset_elements (subscribers sg1) = [] /\ eventHandlers sg1 = [] /\
      trace w1 = [] ++ [ObsEmit 0%nat (EvDispose (VNum 4));
                        ObsHandle 0%nat (EvDispose (VNum 4)); ObsLog (VNum 4)] /\
      forall rec, dispose rec 0%nat w1 = Ok tt w1.
Proof.
  apply (dispose_is_final no_stringify no_parse 0%nat
           (plain (VNum 4) [Some 0%nat] [(EDispose, 0%nat)] None) world_leaving);
    try reflexivity.
  solve_handlers_tame.
Defined.

Lemma disposed_witness :
  get_value 0%nat world_disposed
    = Thrown (Error "Attempted to access disposed resin") world_disposed /\
  set_value no_stringify (exec no_stringify no_parse 5) 0%nat (VNum 8) world_disposed
    = Thrown (Error "Attempted to modify disposed resin") world_disposed /\
  exists w' sg',
    exec no_stringify no_parse 5
      (Invoke (On 0%nat EChange 0%nat (WatchEffect 0%nat (Return VUndefined))))
      world_disposed
      = Thrown (Error "Attempted to access disposed resin") w' /\
    signals w' !! 0%nat = Some sg' /\
    frozen {| value := VNum 7; loading := false; error := None;
              disposed := true; subscribers := []; eventHandlers := [];
              options := None |} sg'.
Proof.
  destruct (disposed_stays_disposed no_stringify no_parse world_disposed 0%nat
              {| value := VNum 7; loading := false; error := None;
                 disposed := true; subscribers := []; eventHandlers := [];
                 options := None |} eq_refl eq_refl) as (R & W & E & _).
  split; [exact R|]. split; [apply W|].
  specialize (E 5%nat (Invoke (On 0%nat EChange 0%nat (WatchEffect 0%nat (Return VUndefined))))).
  destruct (exec no_stringify no_parse 5
              (Invoke (On 0%nat EChange 0%nat (WatchEffect 0%nat (Return VUndefined))))
              world_disposed) as [a w'|x w'|] eqn:Hrun.
  - vm_compute in Hrun. discriminate Hrun.
  - destruct E as (sg' & Hs' & F). exists w', sg'.
    split; [|split; [exact Hs' | exact F]].
    vm_compute in Hrun. inversion Hrun. reflexivity.
  - vm_compute in Hrun. discriminate Hrun.
Defined.

Lemma derived_dispose_witness :
  exists N, forall fuel, (N <= fuel)%nat ->
    exists w',
      dispose_derived (exec no_stringify no_parse fuel) derived_sum world_derived
        = Ok tt w' /\
      (exists sg', signals w' !! 2%nat = Some sg' /\ disposed sg' = true) /\
      (forall dep sg', In dep [0%nat; 1%nat] -> signals w' !! dep = Some sg' ->
         ~ In 0%nat (jsset_elements (subscribers sg'))) /\
      trace w' = trace world_derived ++ [ObsEmit 2%nat (EvDispose (VNum 11))].
Proof.
  apply (derived_dispose_unsubscribes no_stringify no_parse derived_sum world_derived
           (plain (VNum 11) [] [] None)); try reflexivity.
  intros _. solve_handlers_tame.
Defined.

Lemma path_witness :
  getValueByPath (heap world_nested) (VRef 1%nat) ("x" ++ String "."%char "b")%string
    = VUndefined /\
  getValueByPath (heap world_nested) (VRef 1%nat) ("a" ++ String "."%char "b")%string
    = getValueByPath (heap world_nested)
        (getValueByPath (heap world_nested) (VRef 1%nat) "a") "b".
Proof.
  split.
  - apply (proj1 (path_resolution_composes (heap world_nested) (VRef 1%nat) "x" "b")).
    reflexivity.
  - apply (proj2 (path_resolution_composes (heap world_nested) (VRef 1%nat) "a" "b")).
    reflexivity.
Defined.

Lemma persist_witness :
  exists N, forall fuel, (N <= fuel)%nat ->
    exists w1,
      set_value no_stringify (exec no_stringify no_parse fuel) 0%nat (VBool true)
        world_persist_list = Ok tt w1 /\
      value <$> signals w1 !! 0%nat = Some (VBool true) /\
      assoc String.eqb "flag" (localStorage w1) = Some "true" /\
      forall init,
        (isArray (heap w1) init || isMap (heap w1) init = false \/
         isArray (heap w1) (VBool true) || isMap (heap w1) (VBool true) = true ->
         exists w2,
           resin no_parse init (Some persisting) w1 = Ok (length (signals w1)) w2 /\
           value <$> signals w2 !! length (signals w1) = Some (VBool true)) /\
        (isArray (heap w1) init || isMap (heap w1) init = true ->
         (forall l, VBool true <> VRef l) ->
         exists w2,
           resin no_parse init (Some persisting) w1
             = Thrown (TypeError "Cannot create proxy with a non-object as target or handler")
                 w2).
Proof.
  apply (persisted_value_is_restored no_stringify no_parse world_persist_list 0%nat
           (plain (VBool false) [Some 0%nat] [(EChange, 0%nat)] (Some persisting))
           persisting boolean_storage
           (fun v => match v with
                     | VBool true => inr "true"
                     | VBool false => inr "false"
                     | _ => inl (TypeError "not a boolean")
                     end)
           (fun s => if String.eqb s "true" then inr (VBool true)
                     else if String.eqb s "false" then inr (VBool false)
                     else inl (TypeError "not a boolean"))
           (VBool true) (VBool true) {| valid := true; verror := None |} "true" (VBool true));
    try reflexivity.
  - discriminate.
  - right. solve_effects_tame.
  - solve_handlers_tame.
Defined.

Lemma persist_failure_witness :
  exists N, forall fuel, (N <= fuel)%nat ->
    exists w1 out,
      set_value no_stringify (exec no_stringify no_parse fuel) 0%nat (VNum 3) world_persist
        = Ok tt w1 /\
      value <$> signals w1 !! 0%nat = Some (VNum 3) /\
      localStorage w1 = localStorage world_persist /\
      trace w1 = trace world_persist ++ out /\
      emits_of 0%nat EChange out = 1%nat /\ emits_of 0%nat EError out = 0%nat.
Proof.
  apply (persist_failure_is_swallowed no_stringify no_parse world_persist 0%nat
           (plain (VBool false) [Some 0%nat] [(EChange, 0%nat)] (Some persisting))
           persisting boolean_storage (TypeError "not a boolean")
           (VNum 3) (VNum 3) {| valid := true; verror := None |});
    try reflexivity.
  - right. solve_effects_tame.
  - solve_handlers_tame.
Defined.

Lemma restore_witness :
  exists w',
    resin no_parse (VBool false) (Some persisting)
      (with_localStorage [("flag", "maybe")] world_persist) = Ok 1%nat w' /\
    value <$> signals w' !! 1%nat = Some (VBool false) /\
    heap w' = [].
Proof.
  apply (restore_falls_back no_parse (VBool false) persisting boolean_storage
           (with_localStorage [("flag", "maybe")] world_persist) eq_refl).
  right. right. exists "maybe", (TypeError "not a boolean"). split; reflexivity.
Defined.



Lemma throwing_subscriber_witness :
  exists N, forall fuel, (N <= fuel)%nat ->
    exists w' out,
      set_value no_stringify (exec no_stringify no_parse fuel) 0%nat (VNum (-1))
        world_throwing = Ok tt w' /\
      signals w' !! 0%nat =
        Some (with_error
                (Some (ResinError "Error in Resin" None (Error "negative")))
                (with_value (VNum (-1))
                   (plain (VNum 0) [Some 0%nat; Some 1%nat; Some 2%nat]
                      [(EError, 0%nat)] None))) /\
      localStorage w' = localStorage world_throwing /\
      trace w' = trace world_throwing ++ out /\
      emits_of 0%nat EChange out = 0%nat /\
      emits_of 0%nat EError out = 1%nat /\
      runs_of 1%nat out = 1%nat /\
      runs_of 2%nat out = 0%nat.
Proof.
  destruct (throwing_subscriber_replaces_change no_stringify no_parse world_throwing 0%nat
              (plain (VNum 0) [Some 0%nat; Some 1%nat; Some 2%nat] [(EError, 0%nat)] None)
              (VNum (-1)) (VNum (-1)) {| valid := true; verror := None |}
              (Error "negative") [0%nat] 1%nat
              (GetValue 0%nat (fun v => match v with
                                        | VNum (Zneg _) => Throw (Error "negative")
                                        | _ => Return VUndefined
                                        end))
              [2%nat]) as (N & H); try reflexivity.
  - intros e [<-|[]]. eexists. split; [reflexivity | solve_tame].
  - eapply raising_GetValue; [reflexivity | reflexivity |]. cbn. constructor.
  - solve_handlers_tame.
  - exists N. intros fuel Hfuel.
    destruct (H fuel Hfuel) as (w' & out & H1 & H2 & H3 & H4 & H5 & H6 & H7 & H8).
    exists w', out. repeat split; auto.
    apply H8; [discriminate|]. intros [E|[]]. discriminate E.
Defined.

Lemma stale_computed_witness :
  exists N, forall fuel, (N <= fuel)%nat ->
    exists w1 w2 out,
      computed no_parse (exec no_stringify no_parse fuel) (GetValue 0%nat (fun v => Return v))
        world_source = Ok 1%nat w1 /\
      dispose (exec no_stringify no_parse fuel) 1%nat w1 = Ok tt w2 /\
      disposed <$> signals w2 !! 1%nat = Some true /\
      effects w2 !! 1%nat
        = Some (computed_effect 1%nat (GetValue 0%nat (fun v => Return v))) /\
      jsset_elements <$> (subscribers <$> signals w2 !! 0%nat)
        = Some ([0%nat] ++ [1%nat]) /\
      set_value no_stringify (exec no_stringify no_parse fuel) 0%nat (VNum 5) w2
        = Ok tt
            (with_trace (trace w2 ++ out)
               (blamed 0%nat (ResinError "Error in Resin" None
                                (Error "Attempted to modify disposed resin"))
                  (assign 0%nat (VNum 5) w2))) /\
      out = flat_map (effect_trace (assign 0%nat (VNum 5) w2)) [0%nat] ++
            ObsRun 1%nat ::
            output (heap w2) (signals (assign 0%nat (VNum 5) w2))
              (GetValue 0%nat (fun v => Return v)) ++
            ObsEmit 0%nat (EvError (ResinError "Error in Resin" None
                                      (Error "Attempted to modify disposed resin"))) ::
            flat_map
              (handler_trace
                 (blamed 0%nat (ResinError "Error in Resin" None
                                  (Error "Attempted to modify disposed resin"))
                    (assign 0%nat (VNum 5) w2))
                 (EvError (ResinError "Error in Resin" None
                             (Error "Attempted to modify disposed resin"))))
              [0%nat] /\
      emits_of 0%nat EChange out = 0%nat.
Proof.
  apply (disposed_computed_breaks_its_sources no_stringify no_parse world_source
           (GetValue 0%nat (fun v => Return v)) 0%nat
           (plain (VNum 1) [Some 0%nat] [(EError, 0%nat)] None)
           (VNum 5) (VNum 5) {| valid := true; verror := None |}); try reflexivity.
  - solve_tame.
  - left. reflexivity.
  - solve_effects_tame.
  - solve_handlers_tame.
Defined.

Lemma batch_throw_witness :
  exists out,
    batch (exec no_stringify no_parse 10) write_then_throw world_xy
      = Thrown (Error "boom")
          (with_pendingEffects (jsset_clear (pendingEffects world_xy_thrown))
             (with_trace (trace world_xy_thrown ++ out)
                (with_batchDepth 0 world_xy_thrown))) /\
    effects_out [0%nat] out.
Proof.
  apply (batch_flushes_when_fn_throws no_stringify no_parse 10 write_then_throw world_xy
           (Error "boom") world_xy_thrown); try reflexivity.
  - intros e Hin. vm_compute in Hin. destruct Hin as [<-|[]].
    eexists. split; [reflexivity|]. solve_tame.
  - vm_compute. lia.
Defined.

Lemma failed_flush_witness :
  exists w' sout logs,
    batch (exec no_stringify no_parse 10) (SetValue 0%nat (VNum (-1)) (Return VUndefined))
      world_throwing = Thrown (Error "negative") w' /\
    pendingEffects w' = pendingEffects world_throwing_queued /\
    batchDepth w' = 0 /\
    trace w' = trace world_throwing_queued ++ sout ++ ObsRun 1%nat :: logs /\
    effects_out [0%nat] sout /\
    Forall (fun o => is_log o = true) logs.
Proof.
  apply (failed_flush_keeps_the_queue no_stringify no_parse 10
           (SetValue 0%nat (VNum (-1)) (Return VUndefined)) world_throwing
           VUndefined world_throwing_queued (Error "negative") [0%nat] 1%nat
           (GetValue 0%nat (fun v => match v with
                                     | VNum (Zneg _) => Throw (Error "negative")
                                     | _ => Return VUndefined
                                     end))
           [2%nat]); try reflexivity.
  - intros e [<-|[]]. eexists. split; [reflexivity | solve_tame].
  - eapply raising_GetValue; [reflexivity | reflexivity |]. cbn. constructor.
  - vm_compute. lia.
Defined.

Lemma notification_order_witness :
  exists N, forall fuel, (N <= fuel)%nat ->
    exists w' out,
      set_value no_stringify (exec no_stringify no_parse fuel) 0%nat (VNum 5) world_pipeline
        = Ok tt w' /\
      trace w' = [] ++ out /\
      out = [ObsRun 0%nat; ObsLog (VNum 5)] ++
            ObsEmit 0%nat (EvChange (VNum 5) (VNum 12)) ::
            [ObsHandle 0%nat (EvChange (VNum 5) (VNum 12)); ObsLog (VStr "change seen")] /\
      value <$> signals w' !! 0%nat = Some (VNum 5) /\
      forall rec, set_value no_stringify rec 0%nat (VNum 5) w' = Ok tt w'.
Proof.
  destruct (write_notifies_in_order no_stringify no_parse world_pipeline 0%nat
              (plain (VNum 0) [Some 0%nat] [(EChange, 0%nat)] (Some accepting))
              (VNum 5) (VNum 12) {| valid := true; verror := None |}) as (N & H);
    try reflexivity.
  - solve_effects_tame.
  - solve_handlers_tame.
  - exists N. intros fuel Hfuel.
    destruct (H fuel Hfuel) as (w' & out & A & B & C & D & E).
    exists w', out.
    split; [exact A|]. split; [exact B|]. split; [exact C|]. split; [exact D|].
    exact (E eq_refl).
Defined.

Lemma thrown_effect_witness :
  exists w1 w2,
    watchEffect (exec no_stringify no_parse 3) 0%nat world_logs_then_throws
      = Thrown (Error "boom") w1 /\
    effectStack w1 = [] ++ [0%nat] /\
    get_value 1%nat w1 = Ok (VNum 4) w2 /\
    In 0%nat (jsset_elements (read_set (Subscribers 1%nat) w2)) /\
    effectStack w2 = effectStack w1.
Proof.
  apply (proj1 (thrown_effect_stays_on_stack no_stringify no_parse 2
                  world_logs_then_throws 0%nat
                  (GetValue 0%nat (fun v => Log v (Return VUndefined)))
                  (Error "boom") 1%nat (plain (VNum 4) [] [] None)
                  eq_refl
                  (reader_GetValue world_logs_then_throws 0%nat _ eq_refl
                     (fun v => reader_Log _ v _ (reader_Return _ VUndefined)))
                  eq_refl eq_refl)).
Defined.

Lemma init_witness :
  exists w1 w2 v,
    resin no_parse (VNum 3) None world_handler = Ok 0%nat w1 /\
    trace w1 = [] /\
    value <$> signals w1 !! 0%nat = Some v /\
    on 0%nat EInit 0%nat w1 = Ok tt w2 /\
    exists N, forall fuel, (N <= fuel)%nat ->
      exists w3 logs,
        runMicrotask (exec no_stringify no_parse fuel) w2 = Ok tt w3 /\
        trace w3 = [] ++ ObsEmit 0%nat (EvInit v) :: ObsHandle 0%nat (EvInit v) :: logs /\
        Forall (fun o => is_log o = true) logs /\
        microtasks w3 = [].
Proof.
  apply (init_reaches_late_handler no_stringify no_parse (VNum 3) None world_handler 0%nat
           (fun ev => match ev with
                      | EvInit v => Log v (Return VUndefined)
                      | _ => Return VUndefined
                      end)); try reflexivity.
  - left. reflexivity.
  - intros ev. destruct ev; solve_tame.
Defined.

Lemma watchEffect_witness :
  exists logs w',
    watchEffect (exec no_stringify no_parse 3) 0%nat world_watch = Ok tt w' /\
    trace w' = trace world_watch ++ ObsRun 0%nat :: logs /\
    Forall (fun o => is_log o = true) logs /\
    effectStack w' = effectStack world_watch /\
    forall s,
      signals w' !! s
      = (if decide (s ∈ reads (heap world_watch) (signals world_watch)
                          (GetValue 0%nat (fun v => Log v (Return VUndefined))))
         then add_subscriber 0%nat else id) <$> signals world_watch !! s.
Proof.
  apply (watchEffect_subscribes_to_its_reads no_stringify no_parse 2 world_watch 0%nat
           (GetValue 0%nat (fun v => Log v (Return VUndefined)))).
  - reflexivity.
  - solve_reader.
Defined.

Lemma watched_effect_witness :
  (exists N, forall fuel, (N <= fuel)%nat ->
     exists w1 w2 out,
       watchEffect (exec no_stringify no_parse fuel) 0%nat world_watch = Ok tt w1 /\
       set_value no_stringify (exec no_stringify no_parse fuel) 0%nat (VNum 7) w1 = Ok tt w2 /\
       trace w2 = trace w1 ++ out /\
       runs_of 0%nat out = 1%nat) /\
  (exists N, forall fuel, (N <= fuel)%nat ->
     exists w1 w2 out,
       watchEffect (exec no_stringify no_parse fuel) 0%nat world_watch = Ok tt w1 /\
       set_value no_stringify (exec no_stringify no_parse fuel) 1%nat (VNum 7) w1 = Ok tt w2 /\
       trace w2 = trace w1 ++ out /\
       runs_of 0%nat out = 0%nat).
Proof.
  split.
  - apply (watched_effect_reruns no_stringify no_parse world_watch 0%nat
             (GetValue 0%nat (fun v => Log v (Return VUndefined)))
             0%nat (plain (VNum 1) [] [] None) (VNum 7) (VNum 7)
             {| valid := true; verror := None |}); try reflexivity.
    + solve_reader.
    + intros [].
    + solve_effects_tame.
    + solve_handlers_tame.
  - apply (watched_effect_reruns no_stringify no_parse world_watch 0%nat
             (GetValue 0%nat (fun v => Log v (Return VUndefined)))
             1%nat (plain (VNum 2) [] [] None) (VNum 7) (VNum 7)
             {| valid := true; verror := None |}); try reflexivity.
    + solve_reader.
    + intros [].
    + solve_effects_tame.
    + solve_handlers_tame.
Defined.

Lemma computed_witness :
  exists v,
    (forall JS rec, exists w0, run JS no_parse rec a_then_b world_ab = Ok v w0) /\
    forall JS n, exists w' out,
      computed no_parse (exec JS no_parse (S n)) a_then_b world_ab = Ok 2%nat w' /\
      signals w' !! 2%nat = Some (plain v [] [] None) /\
      effects w' !! 0%nat = Some (computed_effect 2%nat a_then_b) /\
      (forall s, (s < 2)%nat ->
         signals w' !! s
         = (if decide (s ∈ reads (heap world_ab) (signals world_ab) a_then_b)
            then add_subscriber 0%nat else id) <$> signals world_ab !! s) /\
      effectStack w' = [] /\
      trace w' = trace world_ab ++ out /\
      runs_of 0%nat out = 1%nat /\
      forall s ty, emits_of s ty out = 0%nat.
Proof.
  apply (computed_holds_and_subscribes no_parse world_ab a_then_b).
  - unfold a_then_b. solve_reader.
  - reflexivity.
Defined.

Lemma computed_follows_witness :
  exists N, forall fuel, (N <= fuel)%nat ->
    exists w1 w2 vc out,
      computed no_parse (exec no_stringify no_parse fuel) a_then_b world_ab = Ok 2%nat w1 /\
      set_value no_stringify (exec no_stringify no_parse fuel) 0%nat (VBool true) w1
        = Ok tt w2 /\
      value <$> signals w2 !! 0%nat = Some (VBool true) /\
      value <$> signals w2 !! 2%nat = Some vc /\
      (forall JS' JP' rec, exists w0, run JS' JP' rec a_then_b w2 = Ok vc w0) /\
      trace w2 = trace w1 ++ out /\
      runs_of 0%nat out = 1%nat.
Proof.
  apply (computed_follows_its_source no_stringify no_parse world_ab a_then_b 0%nat
           (plain (VBool false) [] [] None) (VBool true) (VBool true)
           {| valid := true; verror := None |}); try reflexivity.
  - unfold a_then_b. solve_reader.
  - left. reflexivity.
  - solve_handlers_tame.
Defined.

Lemma select_witness :
  exists N, forall fuel, (N <= fuel)%nat ->
    exists w1 w2,
      select no_parse (exec no_stringify no_parse fuel) 0%nat "a.b" world_nested
        = Ok 1%nat w1 /\
      value <$> signals w1 !! 1%nat
        = Some (getValueByPath (heap world_nested) (VRef 1%nat) "a.b") /\
      set_value no_stringify (exec no_stringify no_parse fuel) 0%nat (VRef 0%nat) w1
        = Ok tt w2 /\
      value <$> signals w2 !! 0%nat = Some (VRef 0%nat) /\
      value <$> signals w2 !! 1%nat
        = Some (getValueByPath (heap world_nested) (VRef 0%nat) "a.b").
Proof.
  apply (select_follows_its_state no_stringify no_parse world_nested 0%nat
           (plain (VRef 1%nat) [] [] None) "a.b" (VRef 0%nat) (VRef 0%nat)
           {| valid := true; verror := None |}); try reflexivity.
  - solve_handlers_tame.
Defined.

Lemma derive_failure_witness :
  exists N, forall fuel, (N <= fuel)%nat ->
    exists w' out,
      set_value no_stringify (exec no_stringify no_parse fuel) 0%nat (VNum 0) world_quotient
        = Ok tt w' /\
      signals w' = signals (assign 0%nat (VNum 0) world_quotient) /\
      trace w' = trace world_quotient ++ out /\
      emits_of 0%nat EChange out = 1%nat /\
      (forall s, emits_of s EError out = 0%nat) /\
      (forall e, runs_of e out = length (filter (fun y => y = e) [0%nat])).
Proof.
  apply (derive_swallows_compute_failure no_stringify no_parse world_quotient 0%nat
           (plain (VNum 5) [Some 0%nat] [] None) (VNum 0) (VNum 0)
           {| valid := true; verror := None |}); try reflexivity.
  - intros e [<-|[]]. right.
    exists 1%nat, [0%nat], quotient, (Error "division by zero").
    split; [reflexivity|]. split; [repeat constructor|]. cbn. constructor.
  - solve_handlers_tame.
Defined.

Lemma collection_witness :
  exists w',
    resin no_parse (VRef 0%nat) None world_array_running = Ok 1%nat w' /\
    signals w' !! 1%nat = Some (plain (VRef 0%nat) [Some 7%nat] [] None) /\
    effectStack w' = [7%nat].
Proof.
  apply (collection_subscribes_running_effect no_parse (VRef 0%nat) None
           world_array_running 7%nat eq_refl eq_refl).
Defined.

Lemma derivation_witness :
  exists N, forall fuel, (N <= fuel)%nat ->
    exists d w1 w2 v0 v1 out,
      derive no_parse (exec no_stringify no_parse fuel) [0%nat; 1%nat] add_sources world_sources
        = Ok d w1 /\
      d_inner d = 2%nat /\ d_effect d = 0%nat /\
      (forall JS' JP' rec, exists w0,
         run JS' JP' rec (add_sources (values_of (signals world_sources) [0%nat; 1%nat]))
           world_sources = Ok v0 w0) /\
      value <$> signals w1 !! d_inner d = Some v0 /\
      (forall dep, In dep [0%nat; 1%nat] ->
         exists sg1, signals w1 !! dep = Some sg1 /\
                     In (d_effect d) (jsset_elements (subscribers sg1))) /\
      set_value no_stringify (exec no_stringify no_parse fuel) 0%nat (VNum 5) w1 = Ok tt w2 /\
      value <$> signals w2 !! 0%nat = Some (VNum 5) /\
      value <$> signals w2 !! d_inner d = Some v1 /\
      (forall JS' JP' rec, exists w0,
         run JS' JP' rec (add_sources (values_of (signals w2) [0%nat; 1%nat])) w2 = Ok v1 w0) /\
      trace w2 = trace w1 ++ out /\
      runs_of (d_effect d) out = 1%nat /\
      emits_of (d_inner d) EChange out = (if strict_eq v0 v1 then 0 else 1)%nat.
Proof.
  apply (derivation_follows_its_sources no_stringify no_parse world_sources [0%nat; 1%nat]
           add_sources 0%nat (plain (VNum 1) [] [] None) (VNum 5) (VNum 5)
           {| valid := true; verror := None |}); try reflexivity.
  - repeat constructor.
  - intros vs. unfold add_sources.
    repeat match goal with
           | |- context [match ?x with _ => _ end] => destruct x
           end; constructor.
  - left. reflexivity.
  - solve_handlers_tame.
Defined.

Lemma batched_recompute_witness :
  exists N, forall fuel, (N <= fuel)%nat ->
    exists w' hout mid,
      batch (exec no_stringify no_parse fuel) (SetValue 0%nat (VBool false) (Return VUndefined))
        world_abc = Ok tt w' /\
      value <$> signals w' !! 0%nat = Some (VBool false) /\
      value <$> signals w' !! 2%nat
        = Some (returns (heap world_abc) (signals (assign 0%nat (VBool false) world_abc))
                  a_then_b) /\
      batchDepth w' = 0 /\ jsset_elements (pendingEffects w') = [] /\
      trace w' = trace world_abc ++
                   ObsEmit 0%nat (EvChange (VBool false) (VBool false)) :: hout ++
                   ObsRun 0%nat :: mid /\
      Forall (fun o => handler_obs o = true) hout /\
      count (is_run 0%nat) mid = 0%nat.
Proof.
  apply (batched_write_recomputes_at_exit no_stringify no_parse world_abc 0%nat
           (plain (VBool true) [Some 0%nat] [] None) (VBool false) (VBool false)
           {| valid := true; verror := None |} 0%nat 2%nat a_then_b (VNum 0));
    try reflexivity.
  - unfold a_then_b. solve_reader.
  - discriminate.
  - solve_handlers_tame.
Defined.

Lemma throwing_handler_witness :
  exists N, forall fuel, (N <= fuel)%nat ->
    exists w' sout outs1 logs eouts outs2,
      set_value no_stringify (exec no_stringify no_parse fuel) 0%nat (VNum 5) world_bad_handler
        = Ok tt w' /\
      value <$> signals w' !! 0%nat = Some (VNum 5) /\
      error <$> signals w' !! 0%nat = Some (Some (Error "handler failed")) /\
      trace w' = trace world_bad_handler ++ sout ++
                   ObsEmit 0%nat (EvChange (VNum 5) (VNum 5)) :: concat outs1 ++
                   ObsHandle 1%nat (EvChange (VNum 5) (VNum 5)) :: logs ++
                   ObsEmit 0%nat (EvError (Error "handler failed")) :: concat eouts ++
                   concat outs2 /\
      effects_out [0%nat] sout /\
      Forall2 (handler_out (EvChange (VNum 5) (VNum 5))) [0%nat] outs1 /\
      Forall (fun o => is_log o = true) logs /\
      Forall2 (handler_out (EvError (Error "handler failed")))
        (registered world_bad_handler 0%nat EError) eouts /\
      Forall2 (handler_out (EvChange (VNum 5) (VNum 5))) [2%nat] outs2.
Proof.
  apply (throwing_handler_is_isolated no_stringify no_parse world_bad_handler 0%nat
           (plain (VNum 0) [Some 0%nat] [(EChange, 0%nat); (EError, 1%nat)] None)
           (VNum 5) (VNum 5) {| valid := true; verror := None |}
           (Error "handler failed") [0%nat] 1%nat
           (fun _ => Throw (Error "handler failed")) [2%nat]); try reflexivity.
  - right. solve_effects_tame.
  - intros h [<-|[<-|[]]]; eexists; (split; [reflexivity | solve_tame]).
  - constructor.
  - solve_handlers_tame.
Defined.
